(** * Misania: the document-ingestion pipeline

    A shallow embedding of the import services of the dashboard
    ([jsonImportValidator.ts], [harvestDataParser.ts],
    [harvestDataImporter.ts], [harvestImportService.ts] and the result
    service they call) together with the properties stated about them.

    JavaScript values are modelled as JSON values, [undefined] being the
    [None] of [option value]; a thrown exception is an outcome of the
    computation; the arrays and sets a function mutates, and the clock it
    reads, are the state of a small state-and-exception monad in which
    the state survives a throw, as the heap does in the source. *)

From stdpp Require Import base gmap strings list pretty.
From Stdlib Require Import Ascii QArith.

Set Warnings "-register-all".
Local Open Scope Z_scope.

(** ** JavaScript values *)

(** A number produced by [JSON.parse] is a finite double or an infinity
    (on overflow); finite doubles are rationals. *)
Inductive number :=
| NFinite (q : Q)
| NInfinity (negative : bool).

Inductive value :=
| VNull
| VBool (b : bool)
| VNum (n : number)
| VStr (s : string)
| VArr (items : list value)
| VObj (props : list (string * value)).

(** [None] is [undefined]. *)
Abbreviation jsval := (option value).
Abbreviation undefined := (@None value).

Definition number_of_Z (z : Z) : number := NFinite (inject_Z z).
Definition VInt (z : Z) : value := VNum (number_of_Z z).

Definition isZero (n : number) : bool :=
  match n with NFinite q => Qeq_bool q 0 | NInfinity _ => false end.

(** ToBoolean. *)
Definition truthy (v : jsval) : bool :=
  match v with
  | None | Some VNull => false
  | Some (VBool b) => b
  | Some (VNum n) => negb (isZero n)
  | Some (VStr s) => negb (String.eqb s EmptyString)
  | Some (VArr _) | Some (VObj _) => true
  end.

Definition typeof (v : jsval) : string :=
  match v with
  | None => "undefined"
  | Some VNull | Some (VArr _) | Some (VObj _) => "object"
  | Some (VBool _) => "boolean"
  | Some (VNum _) => "number"
  | Some (VStr _) => "string"
  end.

Definition isString (v : jsval) : bool := String.eqb (typeof v) "string".
Definition isObject (v : jsval) : bool := String.eqb (typeof v) "object".

(** [a || b] *)
Definition jsor (a : jsval) (b : value) : value :=
  match a with
  | Some v => if truthy a then v else b
  | None => b
  end.

Fixpoint assoc (k : string) (props : list (string * value)) : jsval :=
  match props with
  | [] => None
  | (k', v) :: rest => if String.eqb k k' then Some v else assoc k rest
  end.

(** [o.k] for a non-null [o] and a name [k] that no prototype defines
    (every name the services read is such a name): an own property of an
    object, [undefined] on anything else. *)
Definition get (o : value) (k : string) : jsval :=
  match o with
  | VObj props => assoc k props
  | _ => None
  end.

(** [Array.isArray] *)
Definition asArray (v : jsval) : option (list value) :=
  match v with
  | Some (VArr items) => Some items
  | _ => None
  end.

(** [Number.isInteger], returning the integer. *)
Definition asInteger (v : jsval) : option Z :=
  match v with
  | Some (VNum (NFinite q)) =>
      let z := (Qnum q / Zpos (Qden q))%Z in
      if Qeq_bool q (inject_Z z) then Some z else None
  | _ => None
  end.

(** ** Strings *)

(** A character of a [string] stands for one code unit; in that range
    the white space and line terminators that [trim] removes are the
    code units 9 to 13, 32 and 160. *)
Definition isWhiteSpace (c : ascii) : bool :=
  let n := nat_of_ascii c in
  ((9 <=? n)%nat && (n <=? 13)%nat) || (n =? 32)%nat || (n =? 160)%nat.

Fixpoint trimStart (s : string) : string :=
  match s with
  | EmptyString => EmptyString
  | String c rest => if isWhiteSpace c then trimStart rest else s
  end.

Fixpoint trimEnd (s : string) : string :=
  match s with
  | EmptyString => EmptyString
  | String c rest =>
      match trimEnd rest with
      | EmptyString => if isWhiteSpace c then EmptyString else String c EmptyString
      | r => String c r
      end
  end.

Definition trim (s : string) : string := trimEnd (trimStart s).

Definition isDigit (c : ascii) : bool :=
  let n := nat_of_ascii c in (48 <=? n)%nat && (n <=? 57)%nat.

(** The value of the leading decimal digits, and what follows them. *)
Fixpoint readDigits (s : string) (acc : Z) : Z * string :=
  match s with
  | String c rest =>
      if isDigit c
      then readDigits rest (10 * acc + Z.of_nat (nat_of_ascii c - 48))
      else (acc, s)
  | EmptyString => (acc, s)
  end.

(** [parseInt(s, 10)]; [None] is [NaN]. *)
Definition parseInt10 (s : string) : option Z :=
  let body := trimStart s in
  let '(negative, digits) :=
    match body with
    | String c rest =>
        if Ascii.eqb c "-"%char then (true, rest)
        else if Ascii.eqb c "+"%char then (false, rest)
        else (false, body)
    | EmptyString => (false, body)
    end in
  match digits with
  | String c _ =>
      if isDigit c
      then let z := fst (readDigits digits 0) in
           Some (if negative : bool then - z else z)
      else None
  | EmptyString => None
  end.

(** [s.includes(part)] *)
Fixpoint includes (part s : string) : bool :=
  String.prefix part s
  || match s with
     | String _ rest => includes part rest
     | EmptyString => false
     end.

(** Comparisons of a number with an integer. *)
Definition numberGe (n : number) (z : Z) : bool :=
  match n with
  | NFinite x => Qle_bool (inject_Z z) x
  | NInfinity negative => negb negative
  end.
Definition numberLe (n : number) (z : Z) : bool :=
  match n with
  | NFinite x => Qle_bool x (inject_Z z)
  | NInfinity negative => negative
  end.

(** Decimal rendering of an array index or a count. *)
Definition showNat (n : nat) : string := pretty n.

(** ** Exceptions, the clock and the runtime *)

(** What the services observe of a thrown value: whether it is an
    [Error] (and a [TypeError]) and, if so, its [message]. *)
Inductive errorClass := PlainError | TypeError | SyntaxError.

Inductive thrown :=
| ErrorObject (class : errorClass) (message : string)
| NotAnError.

(** [e instanceof Error ? e.message : fallback] *)
Definition errorMessageOr (e : thrown) (fallback : string) : string :=
  match e with
  | ErrorObject _ m => m
  | NotAnError => fallback
  end.

Inductive outcome (A : Type) :=
| Returned (a : A)
| Thrown (e : thrown).
Arguments Returned {A} a.
Arguments Thrown {A} e.

(** One reading of the clock: [new Date()]. *)
Record Instant := { getFullYear : Z; toISOString : string }.

(** The built-ins of the JavaScript runtime that the services call and
    whose result is decided outside the repository. [clock n] is what
    the [n]-th [new Date()] of a call reads. *)
Class Runtime := {
  JSON_parse : string -> outcome value;
  URL_parses : string -> bool;
  Date_parses : string -> bool;
  Number_toString : number -> string;
  JSON_stringify : value -> string;
  clock : nat -> Instant;
}.

(** The [TypeError]s of the runtime; their wording is the engine's. *)
Definition TypeError_null : thrown :=
  ErrorObject TypeError "Cannot read properties of null".
Definition TypeError_undefined : thrown :=
  ErrorObject TypeError "Cannot read properties of undefined".
Definition TypeError_not_a_function : thrown :=
  ErrorObject TypeError "is not a function".
Definition TypeError_to_primitive : thrown :=
  ErrorObject TypeError "Cannot convert object to primitive value".

(** ** The monad: local heap, clock, exceptions *)

Section Monad.
Context `{RT : Runtime} {L : Type}.

(** [L] is the mutable state local to a call, the [nat] counts the
    clock readings taken so far. *)
Definition M (A : Type) : Type := L * nat -> outcome A * (L * nat).

Definition ret {A} (a : A) : M A := fun s => (Returned a, s).

Definition bind {A B} (m : M A) (k : A -> M B) : M B :=
  fun s =>
    match m s with
    | (Returned a, s') => k a s'
    | (Thrown e, s') => (Thrown e, s')
    end.

Definition throw {A} (e : thrown) : M A := fun s => (Thrown e, s).

(** [try { m } catch (e) { h e }]: the state reached at the throw is
    the state the handler starts from. *)
Definition tryCatch {A} (m : M A) (h : thrown -> M A) : M A :=
  fun s =>
    match m s with
    | (Returned a, s') => (Returned a, s')
    | (Thrown e, s') => h e s'
    end.

Definition getL : M L := fun s => (Returned (fst s), s).
Definition modifyL (f : L -> L) : M unit :=
  fun s => (Returned tt, (f (fst s), snd s)).

(** [new Date()] *)
Definition newDate : M Instant :=
  fun s => (Returned (clock (snd s)), (fst s, S (snd s))).

Definition liftOutcome {A} (o : outcome A) : M A := fun s => (o, s).
End Monad.

Arguments M : clear implicits.

Notation "x <- m ;; k" := (bind m (fun x => k))
  (at level 100, m at next level, right associativity).
Notation "m ;;; k" := (bind m (fun _ => k))
  (at level 100, right associativity).

Section Loops.
Context `{RT : Runtime} {L A : Type}.

(** [xs.forEach((x, index) => f x index)] *)
Fixpoint forEachFrom (f : A -> nat -> M L unit) (i : nat) (xs : list A)
  : M L unit :=
  match xs with
  | [] => ret tt
  | x :: rest => f x i ;;; forEachFrom f (S i) rest
  end.

Definition forEach (f : A -> nat -> M L unit) (xs : list A) : M L unit :=
  forEachFrom f 0%nat xs.

(** [xs.filter(f)] *)
Fixpoint filterM (f : A -> M L bool) (xs : list A) : M L (list A) :=
  match xs with
  | [] => ret []
  | x :: rest =>
      keep <- f x ;;
      kept <- filterM f rest ;;
      ret (if keep : bool then x :: kept else kept)
  end.

(** [xs.map(f)] *)
Fixpoint mapM {B} (f : A -> M L B) (xs : list A) : M L (list B) :=
  match xs with
  | [] => ret []
  | x :: rest =>
      y <- f x ;;
      ys <- mapM f rest ;;
      ret (y :: ys)
  end.
End Loops.

(** [o.k] where [o] may be [null] or [undefined]. *)
Definition getM `{RT : Runtime} {L} (o : jsval) (k : string) : M L jsval :=
  match o with
  | None => throw TypeError_undefined
  | Some VNull => throw TypeError_null
  | Some v => ret (get v k)
  end.

(** [v.trim()]: only a string has the method (a property named [trim]
    of a parsed object is never callable). *)
Definition callTrim `{RT : Runtime} {L} (v : jsval) : M L string :=
  match v with
  | None => throw TypeError_undefined
  | Some VNull => throw TypeError_null
  | Some (VStr s) => ret (trim s)
  | Some _ => throw TypeError_not_a_function
  end.

(** A fresh local heap for the duration of [m]: the locals of a call
    ([const errors = []], [new Set()]) start at [init] and are dropped
    when the call returns or throws; the clock goes on. *)
Definition scope `{RT : Runtime} {L L' A} (init : L') (m : M L' A) : M L A :=
  fun s =>
    match m (init, snd s) with
    | (o, (_, t')) => (o, (fst s, t'))
    end.

(** [a || b] where evaluating [b] has an effect. *)
Definition jsorM `{RT : Runtime} {L} (a : jsval) (b : M L value) : M L value :=
  match a with
  | Some v => if truthy a then ret v else b
  | None => b
  end.

(** The strings among the items of an array:
    [.filter(x => typeof x === 'string')]. *)
Definition stringsOf (items : list value) : list string :=
  flat_map (fun v => match v with VStr s => [s] | _ => [] end) items.

(** ** Template literals *)

(** The double quote, and a text between double quotes. *)
Definition dq : string := String (ascii_of_nat 34) EmptyString.
Definition q (s : string) : string := dq +:+ s +:+ dq.

Section ToString.
Context `{RT : Runtime}.

(** ToString. An array joins its items with commas ([null] items are
    empty); an object answers ["[object Object]"] through the inherited
    [toString], unless it has a property of that name: the property of
    a parsed object is not callable, the inherited [valueOf] returns
    the object itself, and the conversion throws a [TypeError]. *)
Fixpoint toString (v : value) : outcome string :=
  match v with
  | VNull => Returned "null"
  | VBool b => Returned (if b then "true" else "false")
  | VNum n => Returned (Number_toString n)
  | VStr s => Returned s
  | VArr items =>
      (fix join (xs : list value) : outcome string :=
         match xs with
         | [] => Returned EmptyString
         | x :: rest =>
             match (match x with
                    | VNull => Returned EmptyString
                    | _ => toString x
                    end) with
             | Thrown e => Thrown e
             | Returned sx =>
                 match rest with
                 | [] => Returned sx
                 | _ :: _ =>
                     match join rest with
                     | Thrown e => Thrown e
                     | Returned sr => Returned (sx +:+ "," +:+ sr)
                     end
                 end
             end
         end) items
  | VObj props =>
      match assoc "toString" props with
      | Some _ => Thrown TypeError_to_primitive
      | None => Returned "[object Object]"
      end
  end.

(** [${v}] inside a template literal. *)
Definition interpolate {L} (v : jsval) : M L string :=
  match v with
  | None => ret "undefined"
  | Some x => liftOutcome (toString x)
  end.

(** [JSON.stringify(v)] inside a template literal. *)
Definition stringify (v : jsval) : string :=
  match v with
  | None => "undefined"
  | Some x => JSON_stringify x
  end.
End ToString.

(** * jsonImportValidator.ts *)

Module JsonImportValidator.

(** ** [extractValidData] *)

Record CleanDocument := {
  url_doc : jsval;
  document_name : value;
  filename : value;
  date_edition : value;
  auteurs : value;
  langue : value;
  resume : value;
  statut : value;
  issue_number : value;
  annee : value;
  format : value;
  type_document : value;
  content_text : value;
  pdf_pattern_verified : bool;
  notes : value;
  obstacles : value;
}.

Record CleanLog := {
  level : value;
  message : value;
  timestamp : value;
  url : value;
  details : value;
}.

Record ExtractResult := {
  documents : list CleanDocument;
  logs : list CleanLog;
  obstacles_globaux : list string;
  recommandations : option string;
}.

Definition emptyResult : ExtractResult :=
  {| documents := []; logs := []; obstacles_globaux := [];
     recommandations := None |}.

Section Extract.
Context `{RT : Runtime}.

(** [doc => doc && typeof doc === 'object' && doc.url_doc] *)
Definition hasUrlDoc (doc : value) : bool :=
  truthy (Some doc) && isObject (Some doc) && truthy (get doc "url_doc").

(** The de-duplicating filter; the local heap is [seenUrls]. *)
Definition notSeenYet (doc : value) : M (gset string) bool :=
  url <- callTrim (get doc "url_doc") ;;
  seenUrls <- getL ;;
  if bool_decide (url ∈ seenUrls) then ret false
  else modifyL (fun seen => {[ url ]} ∪ seen) ;;; ret true.

Definition cleanDocument {L} (doc : value) : M L CleanDocument :=
  year <- jsorM (get doc "annee")
            (now <- newDate ;; ret (VInt (getFullYear now))) ;;
  ret {| url_doc := get doc "url_doc";
         document_name := jsor (get doc "document_name") (VStr EmptyString);
         filename := jsor (get doc "filename") (VStr EmptyString);
         date_edition := jsor (get doc "date_edition") (VStr EmptyString);
         auteurs := jsor (get doc "auteurs") (VStr EmptyString);
         langue := jsor (get doc "langue") (VStr EmptyString);
         resume := jsor (get doc "resume") (VStr EmptyString);
         statut := jsor (get doc "statut") (VStr EmptyString);
         issue_number := jsor (get doc "issue_number") (VStr EmptyString);
         annee := year;
         format := jsor (get doc "format") (VStr EmptyString);
         type_document := jsor (get doc "type_document") (VStr EmptyString);
         content_text := jsor (get doc "content_text") (VStr EmptyString);
         pdf_pattern_verified := truthy (get doc "pdf_pattern_verified");
         notes := jsor (get doc "notes") (VStr EmptyString);
         obstacles := jsor (get doc "obstacles") (VStr EmptyString) |}.

(** [log => log && typeof log === 'object'] *)
Definition isLogObject (log : value) : bool :=
  truthy (Some log) && isObject (Some log).

Definition cleanLog {L} (log : value) : M L CleanLog :=
  stamp <- jsorM (get log "timestamp")
             (now <- newDate ;; ret (VStr (toISOString now))) ;;
  ret {| level := jsor (get log "level") (VStr "info");
         message := jsor (get log "message")
                      (VStr "Log importé sans message");
         timestamp := stamp;
         url := jsor (get log "url") (VStr EmptyString);
         details := jsor (get log "details") (VObj []) |}.

Definition cleanObstaclesGlobaux (field : jsval) : list string :=
  match asArray field with
  | Some items =>
      List.filter (fun obstacle => negb (String.eqb obstacle EmptyString))
        (map trim (stringsOf items))
  | None => []
  end.

Definition cleanRecommandations (field : jsval) : option string :=
  match field with
  | Some (VStr s) =>
      if negb (String.eqb (trim s) EmptyString) then Some (trim s) else None
  | _ => None
  end.

(** The entries that survive the two filters, in order. *)
Definition keptDocuments (docs : list value) : M (gset string) (list value) :=
  filterM notSeenYet (List.filter hasUrlDoc docs).

(** The body of the [try] block. *)
Definition extractBody (jsonContent : string) : M (gset string) ExtractResult :=
  data <- liftOutcome (JSON_parse jsonContent) ;;
  documentsField <- getM (Some data) "documents" ;;
  cleanDocuments <-
    match asArray documentsField with
    | Some docs => kept <- keptDocuments docs ;; mapM cleanDocument kept
    | None => ret []
    end ;;
  cleanLogs <-
    match asArray (get data "logs") with
    | Some entries => mapM cleanLog (List.filter isLogObject entries)
    | None => ret []
    end ;;
  ret {| documents := cleanDocuments;
         logs := cleanLogs;
         obstacles_globaux :=
           cleanObstaclesGlobaux (get data "obstacles-globaux");
         recommandations :=
           cleanRecommandations (get data "recommandations") |}.

Definition extractValidData {L} (jsonContent : string) : M L ExtractResult :=
  scope (∅ : gset string)
    (tryCatch (extractBody jsonContent) (fun _ => ret emptyResult)).
End Extract.
(** ** [validateImportJson] *)

Inductive Severity := error | warning.

(** [line] is declared by the interface and never set; it is left out. *)
Record ValidationError := {
  field : string;
  vmessage : string;
  recommendation : string;
  documentIndex : option nat;
  logIndex : option nat;
  severity : Severity;
  context : string;
}.

Record Summary := {
  totalDocuments : nat;
  validDocuments : nat;
  totalLogs : nat;
  validLogs : nat;
}.

Record ValidationResult := {
  isValid : bool;
  errors : list ValidationError;
  warnings : list ValidationError;
  summary : Summary;
}.

(** The locals of [validateImportJson]: the two arrays and [summary]. *)
Record Locals := {
  l_errors : list ValidationError;
  l_warnings : list ValidationError;
  l_summary : Summary;
}.

Definition noFindings : Locals :=
  {| l_errors := []; l_warnings := [];
     l_summary := {| totalDocuments := 0; validDocuments := 0;
                     totalLogs := 0; validLogs := 0 |} |}.

Definition finding (sev : Severity) (docIx logIx : option nat)
    (fld msg rec ctx : string) : ValidationError :=
  {| field := fld; vmessage := msg; recommendation := rec;
     documentIndex := docIx; logIndex := logIx; severity := sev;
     context := ctx |}.

Definition setSummary (f : Summary -> Summary) (l : Locals) : Locals :=
  {| l_errors := l_errors l; l_warnings := l_warnings l;
     l_summary := f (l_summary l) |}.

Section Validate.
Context `{RT : Runtime}.

(** [errors.push(e)], [warnings.push(w)] *)
Definition pushError (e : ValidationError) : M Locals unit :=
  modifyL (fun l => {| l_errors := l_errors l ++ [e];
                       l_warnings := l_warnings l;
                       l_summary := l_summary l |}).
Definition pushWarning (w : ValidationError) : M Locals unit :=
  modifyL (fun l => {| l_errors := l_errors l;
                       l_warnings := l_warnings l ++ [w];
                       l_summary := l_summary l |}).

Definition isValidDate (dateString : jsval) : bool :=
  match dateString with
  | Some (VStr s) =>
      negb (String.eqb s EmptyString) && Date_parses s && (8 <=? String.length s)%nat
  | _ => false
  end.

(** [!v || v.trim() === ''] *)
Definition missingOrBlank (v : jsval) : M Locals bool :=
  if negb (truthy v) then ret true
  else s <- callTrim v ;; ret (String.eqb s EmptyString).

(** The mandatory [url_doc]: one error at most, the first check that
    fails. *)
Definition checkUrlDoc (doc : value) (index : nat) (docPrefix : string)
  : M Locals bool :=
  let url_doc := get doc "url_doc" in
  if negb (truthy url_doc) then
    pushError (finding error (Some index) None "url_doc"
      (docPrefix +:+ " : champ " +:+ q "url_doc" +:+ " manquant - ce champ est obligatoire pour le téléchargement")
      ("Ajoutez l'URL de téléchargement : " +:+ q "url_doc" +:+ ": " +:+ q "https://example.com/document.pdf")
      ("Document à l'index " +:+ showNat index)) ;;;
    ret false
  else
    match url_doc with
    | Some (VStr s) =>
        if String.eqb (trim s) EmptyString then
          pushError (finding error (Some index) None "url_doc"
            (docPrefix +:+ " : " +:+ q "url_doc" +:+ " ne peut pas être vide")
            ("Fournissez une URL valide : " +:+ q "url_doc" +:+ ": " +:+ q "https://example.com/document.pdf")
            "Valeur vide détectée") ;;;
          ret false
        else if URL_parses s then ret true
        else
          pushError (finding error (Some index) None "url_doc"
            (docPrefix +:+ " : URL invalide " +:+ q s)
            ("Utilisez une URL complète avec protocole : " +:+ q "https://example.com/file.pdf" +:+ " au lieu de " +:+ q s)
            "Format d'URL incorrect") ;;;
          ret false
    | other =>
        pushError (finding error (Some index) None "url_doc"
          (docPrefix +:+ " : " +:+ q "url_doc" +:+ " doit être une chaîne de caractères, pas " +:+ typeof other)
          ("Changez en chaîne : " +:+ q "url_doc" +:+ ": " +:+ q "https://..." +:+ " au lieu de " +:+ q "url_doc" +:+ ": " +:+ stringify other)
          "Type de données incorrect") ;;;
        ret false
    end.

Definition warnDocumentName (doc : value) (index : nat) (docPrefix : string)
  : M Locals unit :=
  missing <- missingOrBlank (get doc "document_name") ;;
  if missing : bool then
    pushWarning (finding warning (Some index) None "document_name"
      (docPrefix +:+ " : " +:+ q "document_name" +:+ " manquant - le nom sera généré automatiquement")
      ("Ajoutez un nom descriptif : " +:+ q "document_name" +:+ ": " +:+ q "Rapport annuel 2024")
      "Métadonnée optionnelle")
  else ret tt.

Definition warnFilename (doc : value) (index : nat) (docPrefix : string)
  : M Locals unit :=
  missing <- missingOrBlank (get doc "filename") ;;
  if missing : bool then
    pushWarning (finding warning (Some index) None "filename"
      (docPrefix +:+ " : " +:+ q "filename" +:+ " manquant - sera extrait de l'URL")
      ("Spécifiez le nom de fichier : " +:+ q "filename" +:+ ": " +:+ q "rapport_2024.pdf")
      "Nom de fichier automatique")
  else ret tt.

Definition warnDateEdition (doc : value) (index : nat) (docPrefix : string)
  : M Locals unit :=
  let date_edition := get doc "date_edition" in
  if truthy date_edition && negb (isValidDate date_edition) then
    shown <- interpolate date_edition ;;
    pushWarning (finding warning (Some index) None "date_edition"
      (docPrefix +:+ " : format de date invalide " +:+ q shown)
      ("Utilisez le format ISO : " +:+ q "date_edition" +:+ ": " +:+ q "2024-01-15" +:+ " ou " +:+ q "2024-01-15T10:30:00Z")
      "Format de date incorrect")
  else ret tt.

(** [annee && (!Number.isInteger(annee) || annee < 1900
               || annee > new Date().getFullYear() + 1)] *)
Definition implausibleYear (annee : jsval) : M Locals bool :=
  if truthy annee then
    match asInteger annee with
    | None => ret true
    | Some y =>
        if y <? 1900 then ret true
        else now <- newDate ;; ret (getFullYear now + 1 <? y)
    end
  else ret false.

Definition warnAnnee (doc : value) (index : nat) (docPrefix : string)
  : M Locals unit :=
  let annee := get doc "annee" in
  invalid <- implausibleYear annee ;;
  if invalid : bool then
    shown <- interpolate annee ;;
    now <- newDate ;;
    pushWarning (finding warning (Some index) None "annee"
      (docPrefix +:+ " : année invalide " +:+ q shown)
      ("Utilisez une année valide : " +:+ q "annee" +:+ ": " +:+ pretty (getFullYear now))
      "Valeur numérique incorrecte")
  else ret tt.

Definition validateDocument (doc : value) (index : nat) : M Locals bool :=
  let docPrefix := "Document " +:+ showNat (index + 1) in
  if negb (truthy (Some doc)) || negb (isObject (Some doc)) then
    pushError (finding error (Some index) None "document"
      (docPrefix +:+ " : structure invalide - doit être un objet JSON")
      ("Remplacez par un objet : {" +:+ q "url_doc" +:+ ": " +:+ q "https://..." +:+ ", " +:+ q "document_name" +:+ ": " +:+ q "..." +:+ "}")
      ("Position dans le tableau : index " +:+ showNat index)) ;;;
    ret false
  else
    isValid <- checkUrlDoc doc index docPrefix ;;
    warnDocumentName doc index docPrefix ;;;
    warnFilename doc index docPrefix ;;;
    warnDateEdition doc index docPrefix ;;;
    warnAnnee doc index docPrefix ;;;
    ret isValid.

(** [['error', 'warning', 'info'].includes(v)] *)
Definition isKnownLevel (v : jsval) : bool :=
  match v with
  | Some (VStr s) =>
      String.eqb s "error" || String.eqb s "warning" || String.eqb s "info"
  | _ => false
  end.

Definition warnLevel (log : value) (index : nat) (logPrefix : string)
  : M Locals unit :=
  let level := get log "level" in
  if negb (truthy level) then
    pushWarning (finding warning None (Some index) "level"
      (logPrefix +:+ " : " +:+ q "level" +:+ " manquant - sera défini par défaut à " +:+ q "info")
      ("Spécifiez le niveau : " +:+ q "level" +:+ ": " +:+ q "error" +:+ ", " +:+ q "warning" +:+ " ou " +:+ q "info")
      "Niveau de log par défaut")
  else if negb (isKnownLevel level) then
    shown <- interpolate level ;;
    pushWarning (finding warning None (Some index) "level"
      (logPrefix +:+ " : niveau " +:+ q shown +:+ " non reconnu")
      ("Utilisez un niveau valide : " +:+ q "level" +:+ ": " +:+ q "error" +:+ ", " +:+ q "warning" +:+ " ou " +:+ q "info")
      "Niveau de log invalide")
  else ret tt.

Definition warnMessage (log : value) (index : nat) (logPrefix : string)
  : M Locals unit :=
  let message := get log "message" in
  if negb (truthy message) then
    pushWarning (finding warning None (Some index) "message"
      (logPrefix +:+ " : " +:+ q "message" +:+ " manquant - le log sera créé avec un message par défaut")
      ("Ajoutez une description : " +:+ q "message" +:+ ": " +:+ q "Description détaillée de l'incident")
      "Message de log manquant")
  else if negb (isString message) then
    pushWarning (finding warning None (Some index) "message"
      (logPrefix +:+ " : " +:+ q "message" +:+ " doit être une chaîne de caractères")
      ("Changez en chaîne : " +:+ q "message" +:+ ": " +:+ q "Votre message ici")
      "Type de message incorrect")
  else ret tt.

Definition warnTimestamp (log : value) (index : nat) (logPrefix : string)
  : M Locals unit :=
  let timestamp := get log "timestamp" in
  if truthy timestamp && negb (isValidDate timestamp) then
    shown <- interpolate timestamp ;;
    pushWarning (finding warning None (Some index) "timestamp"
      (logPrefix +:+ " : format de timestamp invalide " +:+ q shown)
      ("Utilisez le format ISO : " +:+ q "timestamp" +:+ ": " +:+ q "2024-01-15T10:30:00Z")
      "Format de timestamp incorrect")
  else ret tt.

Definition warnUrl (log : value) (index : nat) (logPrefix : string)
  : M Locals unit :=
  match get log "url" with
  | Some (VStr s) =>
      if negb (String.eqb s EmptyString) && negb (String.eqb (trim s) EmptyString)
         && negb (URL_parses s) then
        pushWarning (finding warning None (Some index) "url"
          (logPrefix +:+ " : URL invalide " +:+ q s)
          ("Utilisez une URL complète : " +:+ q "url" +:+ ": " +:+ q "https://example.com/page")
          "Format d'URL incorrect")
      else ret tt
  | _ => ret tt
  end.

Definition validateLog (log : value) (index : nat) : M Locals bool :=
  let logPrefix := "Log " +:+ showNat (index + 1) in
  if negb (truthy (Some log)) || negb (isObject (Some log)) then
    pushError (finding error None (Some index) "log"
      (logPrefix +:+ " : structure invalide - doit être un objet JSON")
      ("Remplacez par un objet : {" +:+ q "level" +:+ ": " +:+ q "error" +:+ ", " +:+ q "message" +:+ ": " +:+ q "Description de l'erreur" +:+ "}")
      ("Position dans le tableau : index " +:+ showNat index)) ;;;
    ret false
  else
    warnLevel log index logPrefix ;;;
    warnMessage log index logPrefix ;;;
    warnTimestamp log index logPrefix ;;;
    warnUrl log index logPrefix ;;;
    ret true.

(** [urlDocMap]: the trimmed URLs in order of first appearance, each
    with the indices of the entries that carry it. *)
Fixpoint recordUrl (url : string) (index : nat)
    (urlDocMap : list (string * list nat)) : list (string * list nat) :=
  match urlDocMap with
  | [] => [(url, [index])]
  | (u, indices) :: rest =>
      if String.eqb u url then (u, indices ++ [index]) :: rest
      else (u, indices) :: recordUrl url index rest
  end.

Fixpoint collectUrlsFrom (index : nat) (docs : list value)
    (urlDocMap : list (string * list nat)) : list (string * list nat) :=
  match docs with
  | [] => urlDocMap
  | doc :: rest =>
      collectUrlsFrom (S index) rest
        (match get doc "url_doc" with
         | Some (VStr s) =>
             if truthy (Some doc) && negb (String.eqb s EmptyString)
                && negb (String.eqb (trim s) EmptyString)
             then recordUrl (trim s) index urlDocMap
             else urlDocMap
         | _ => urlDocMap
         end)
  end.

(** [xs.join(', ')] over numbers. *)
Fixpoint joinNats (xs : list nat) : string :=
  match xs with
  | [] => EmptyString
  | [x] => showNat x
  | x :: rest => showNat x +:+ ", " +:+ joinNats rest
  end.

Definition reportDuplicate (entry : string * list nat) (_ : nat)
  : M Locals unit :=
  let '(url, indices) := entry in
  if (1 <? length indices)%nat then
    pushError (finding error None None "url_doc"
      ("URL dupliquée " +:+ q url +:+ " trouvée dans les documents " +:+ joinNats (map S indices))
      ("Supprimez les doublons ou modifiez les URL pour qu'elles soient uniques. Gardez seulement le document le plus récent ou le plus complet.")
      ("Documents en doublon : positions " +:+ joinNats indices))
  else ret tt.

Definition countDocument (doc : value) (index : nat) : M Locals unit :=
  isValid <- validateDocument doc index ;;
  if isValid : bool then
    modifyL (setSummary (fun s =>
      {| totalDocuments := totalDocuments s;
         validDocuments := S (validDocuments s);
         totalLogs := totalLogs s; validLogs := validLogs s |}))
  else ret tt.

Definition countLog (log : value) (index : nat) : M Locals unit :=
  isValid <- validateLog log index ;;
  if isValid : bool then
    modifyL (setSummary (fun s =>
      {| totalDocuments := totalDocuments s;
         validDocuments := validDocuments s;
         totalLogs := totalLogs s; validLogs := S (validLogs s) |}))
  else ret tt.

Definition currentResult (valid : option bool) : M Locals ValidationResult :=
  l <- getL ;;
  ret {| isValid := match valid with
                    | Some b => b
                    | None => (length (l_errors l) =? 0)%nat
                    end;
         errors := l_errors l;
         warnings := l_warnings l;
         summary := l_summary l |}.

(** The body of the [try] block; [Some r] is the early [return r]. *)
Definition validateBody (jsonContent : string)
  : M Locals (option ValidationResult) :=
  data <- liftOutcome (JSON_parse jsonContent) ;;
  if negb (truthy (Some data)) || negb (isObject (Some data)) then
    pushError (finding error None None "root"
      ("Structure JSON invalide : le fichier doit contenir un objet principal")
      ("Assurez-vous que le fichier commence par { et se termine par }. Exemple : {" +:+ q "documents" +:+ ": [], " +:+ q "logs" +:+ ": []}")
      "Racine du fichier JSON") ;;;
    r <- currentResult (Some false) ;;
    ret (Some r)
  else
    (let documents := get data "documents" in
     if negb (truthy documents) then
       pushError (finding error None None "documents"
         ("Tableau " +:+ q "documents" +:+ " manquant : ce champ est obligatoire pour l'importation")
         ("Ajoutez le tableau documents : " +:+ q "documents" +:+ ": [{" +:+ q "url_doc" +:+ ": " +:+ q "https://example.com/file.pdf" +:+ ", " +:+ q "document_name" +:+ ": " +:+ q "Mon document" +:+ "}]")
         "Structure principale")
     else
       match asArray documents with
       | None =>
           pushError (finding error None None "documents"
             ("Type incorrect : " +:+ q "documents" +:+ " doit être un tableau, pas un objet ou une chaîne")
             ("Changez en tableau : " +:+ q "documents" +:+ ": [...] au lieu de " +:+ q "documents" +:+ ": " +:+ q "..." +:+ " ou " +:+ q "documents" +:+ ": {...}")
             "Type de données")
       | Some docs =>
           modifyL (setSummary (fun s =>
             {| totalDocuments := length docs;
                validDocuments := validDocuments s;
                totalLogs := totalLogs s; validLogs := validLogs s |})) ;;;
           (if (length docs =? 0)%nat then
              pushWarning (finding warning None None "documents"
                ("Tableau " +:+ q "documents" +:+ " vide : aucun document ne sera importé")
                ("Ajoutez au moins un document avec un champ " +:+ q "url_doc" +:+ " valide")
                "Contenu du tableau")
            else ret tt) ;;;
           forEach reportDuplicate (collectUrlsFrom 0 docs []) ;;;
           forEach countDocument docs
       end) ;;;
    (let logs := get data "logs" in
     if negb (truthy logs) then
       pushWarning (finding warning None None "logs"
         ("Tableau " +:+ q "logs" +:+ " manquant : les logs d'incidents ne seront pas importés")
         ("Ajoutez le tableau logs (optionnel) : " +:+ q "logs" +:+ ": [{" +:+ q "level" +:+ ": " +:+ q "info" +:+ ", " +:+ q "message" +:+ ": " +:+ q "Log message" +:+ "}]")
         "Structure optionnelle")
     else
       match asArray logs with
       | None =>
           pushError (finding error None None "logs"
             ("Type incorrect : " +:+ q "logs" +:+ " doit être un tableau")
             ("Changez en tableau : " +:+ q "logs" +:+ ": [...] au lieu de " +:+ q "logs" +:+ ": " +:+ q "..." +:+ " ou " +:+ q "logs" +:+ ": {...}")
             "Type de données")
       | Some entries =>
           modifyL (setSummary (fun s =>
             {| totalDocuments := totalDocuments s;
                validDocuments := validDocuments s;
                totalLogs := length entries; validLogs := validLogs s |})) ;;;
           forEach countLog entries
       end) ;;;
    l <- getL ;;
    (if (1000 <? totalDocuments (l_summary l))%nat then
       pushWarning (finding warning None None "documents"
         ("Nombre élevé de documents (" +:+ showNat (totalDocuments (l_summary l)) +:+ ") : l'importation peut prendre du temps")
         ("Considérez diviser l'importation en plusieurs fichiers plus petits (max 500 documents par fichier)")
         "Performance")
     else ret tt) ;;;
    ret None.

Definition jsonSyntaxError (parseError : thrown) : ValidationError :=
  let errorMessage := errorMessageOr parseError "Erreur inconnue" in
  finding error None None "json"
    ("Erreur de syntaxe JSON : " +:+ errorMessage)
    ("Vérifiez la syntaxe JSON avec un validateur en ligne. Erreurs courantes : virgules manquantes, guillemets non fermés, accolades déséquilibrées")
    "Parsing JSON".

Definition validateImportJson {L} (jsonContent : string)
  : M L ValidationResult :=
  scope noFindings
    (early <- tryCatch (validateBody jsonContent)
                (fun parseError =>
                   pushError (jsonSyntaxError parseError) ;;; ret None) ;;
     match early with
     | Some r => ret r
     | None => currentResult None
     end).
End Validate.
End JsonImportValidator.

(** * The persistence collaborator

    The hosted database is outside the repository. A service sends it a
    request and awaits the reply: the promise is rejected, or resolves to
    a [{ data, error }] pair. What the database answers may depend on
    everything it was sent before. *)

Inductive request :=
| Select (table : string) (limit : nat)
| Insert (table : string) (row : value)
| Update (table : string) (id : string) (changes : value).

Inductive reply :=
| Rejected (e : thrown)
| Replied (data : jsval) (error : option string).

Class Supabase := { respond : list request -> request -> reply }.

(** What a run leaves outside the call: the requests sent, and the
    snapshots handed to the registered progress callback. *)
Record World (P : Type) := {
  sent : list request;
  progressCallback : bool;
  observed : list P;
}.
Arguments sent {P} w.
Arguments progressCallback {P} w.
Arguments observed {P} w.

(** Locals of a call next to the world. *)
Definition withLocals `{RT : Runtime} {W Loc A} (init : Loc) (m : M (W * Loc) A)
  : M W A :=
  fun s =>
    match m ((fst s, init), snd s) with
    | (o, ((w, _), t)) => (o, (w, t))
    end.

(** A repeated name keeps its place and takes the last value. *)
Fixpoint setProp (k : string) (v : value) (props : list (string * value))
  : list (string * value) :=
  match props with
  | [] => [(k, v)]
  | (k', v') :: rest =>
      if String.eqb k k' then (k', v) :: rest
      else (k', v') :: setProp k v rest
  end.

Fixpoint indexedFrom {A} (i : nat) (f : A -> value) (xs : list A)
  : list (string * value) :=
  match xs with
  | [] => []
  | x :: rest => (showNat i, f x) :: indexedFrom (S i) f rest
  end.

(** The own enumerable properties that [{...v}] copies. *)
Definition spread (v : jsval) : list (string * value) :=
  match v with
  | Some (VObj props) => props
  | Some (VArr items) => indexedFrom 0 (fun x => x) items
  | Some (VStr s) =>
      indexedFrom 0 (fun c => VStr (String c EmptyString)) (String.list_ascii_of_string s)
  | _ => []
  end.

Section Services.
Context `{RT : Runtime} `{DB : Supabase} {P Loc : Type}.

Definition getWorld : M (World P * Loc) (World P) :=
  s <- getL ;; ret (fst s).
Definition getLocals : M (World P * Loc) Loc :=
  s <- getL ;; ret (snd s).
Definition modifyLocals (f : Loc -> Loc) : M (World P * Loc) unit :=
  modifyL (fun s => (fst s, f (snd s))).

(** [await supabase.from(table)...] *)
Definition send (r : request) : M (World P * Loc) reply :=
  w <- getWorld ;;
  modifyL (fun s => ({| sent := sent (fst s) ++ [r];
                        progressCallback := progressCallback (fst s);
                        observed := observed (fst s) |}, snd s)) ;;;
  ret (respond (sent w) r).

Definition setProgressCallback : M (World P * Loc) unit :=
  modifyL (fun s => ({| sent := sent (fst s);
                        progressCallback := true;
                        observed := observed (fst s) |}, snd s)).

(** The callback of the page records the snapshot it is given. *)
Definition notifyProgress (progress : P) : M (World P * Loc) unit :=
  modifyL (fun s =>
    if progressCallback (fst s)
    then ({| sent := sent (fst s);
             progressCallback := true;
             observed := observed (fst s) ++ [progress] |}, snd s)
    else s).

(** [xs.some(f)] *)
Fixpoint someM (f : value -> M (World P * Loc) bool) (xs : list value)
  : M (World P * Loc) bool :=
  match xs with
  | [] => ret false
  | x :: rest => found <- f x ;; if found : bool then ret true else someM f rest
  end.
End Services.

(** * harvestResultService.ts, harvestLogService.ts, dataSourceService.ts *)

Module HarvestResultService.
Section Service.
Context `{RT : Runtime} `{DB : Supabase} {P Loc : Type}.

Definition getAllResults (limit : nat) : M (World P * Loc) value :=
  r <- send (Select "harvest_results" limit) ;;
  match r with
  | Rejected e => throw e
  | Replied _ (Some message) =>
      throw (ErrorObject PlainError
               ("Erreur lors de la récupération des résultats: " +:+ message))
  | Replied data None => ret (jsor data (VArr []))
  end.

Definition createResult (result : value) : M (World P * Loc) jsval :=
  r <- send (Insert "harvest_results" result) ;;
  match r with
  | Rejected e => throw e
  | Replied _ (Some message) =>
      throw (ErrorObject PlainError
               ("Erreur lors de la création du résultat: " +:+ message))
  | Replied data None => _ <- getM data "id" ;; ret data
  end.
End Service.
End HarvestResultService.

Module HarvestLogService.
Section Service.
Context `{RT : Runtime} `{DB : Supabase} {P Loc : Type}.

Definition createLog (log : value) : M (World P * Loc) jsval :=
  r <- send (Insert "harvest_logs" log) ;;
  match r with
  | Rejected e => throw e
  | Replied _ (Some message) =>
      throw (ErrorObject PlainError
               ("Erreur lors de la création du log: " +:+ message))
  | Replied data None => ret data
  end.
End Service.
End HarvestLogService.

Module DataSourceService.
Section Service.
Context `{RT : Runtime} `{DB : Supabase} {P Loc : Type}.

Definition updateDataSource (id : string) (updates : value)
  : M (World P * Loc) jsval :=
  tryCatch
    (r <- send (Update "data_sources" id updates) ;;
     match r with
     | Rejected e => throw e
     | Replied _ (Some message) =>
         throw (ErrorObject PlainError
                  ("Erreur lors de la mise à jour de la source: " +:+ message))
     | Replied data None => _ <- getM data "id" ;; ret data
     end)
    (fun networkError =>
       match networkError with
       | ErrorObject TypeError message =>
           if includes "fetch" message
           then throw (ErrorObject PlainError
                  "Impossible de se connecter à Supabase. Vérifiez votre configuration.")
           else throw networkError
       | _ => throw networkError
       end).
End Service.
End DataSourceService.

(** The rows the importers are given. *)
Record DataSource := { ds_id : string; ds_name : string }.
Record HarvestResult := { hr_id : string; hr_config_id : value; hr_data : value }.

(** * harvestDataParser.ts *)

Module HarvestDataParser.

Record ParsedDocument := {
  url_doc : string;
  document_name : value;
  filename : value;
  date_edition : value;
  auteurs : value;
  langue : value;
  resume : value;
  statut : value;
  issue_number : value;
  annee : value;
  format : value;
  type_document : value;
  contient_texte : value;
  pattern_verified : bool;
  notes : value;
  obstacles : value;
  source_page : value;
}.

Record ParsedLog := { level : value; message : value; details : value }.

Record ParsedHarvestData := {
  documents : list ParsedDocument;
  obstacles_globaux : list string;
  recommandations : option string;
  logs : list ParsedLog;
}.

Record ParseResult := {
  success : bool;
  data : option ParsedHarvestData;
  error : option string;
  warnings : list string;
}.

Record Validation := { isValid : bool; errors : list string }.

(** The locals of [parseStructuredData]. *)
Record Locals := { l_warnings : list string; l_parsedData : ParsedHarvestData }.

Definition emptyData : ParsedHarvestData :=
  {| documents := []; obstacles_globaux := []; recommandations := None;
     logs := [] |}.

Section Parser.
Context `{RT : Runtime}.

(** [y >= 1900 && y <= new Date().getFullYear() + 1] *)
Definition plausibleYear {L} (y : number) : M L bool :=
  if numberGe y 1900
  then now <- newDate ;; ret (numberLe y (getFullYear now + 1))
  else ret false.

Definition parseYear {L} (yearValue : jsval) : M L (option number) :=
  match yearValue with
  | Some (VNum y) =>
      ok <- plausibleYear y ;; ret (if ok : bool then Some y else None)
  | Some (VStr s) =>
      match parseInt10 s with
      | Some z =>
          ok <- plausibleYear (number_of_Z z) ;;
          ret (if ok : bool then Some (number_of_Z z) else None)
      | None => ret None
      end
  | _ => ret None
  end.

Definition parseDocument {L} (doc : value) (index : nat)
  : M L (option ParsedDocument) :=
  if negb (truthy (Some doc)) || negb (isObject (Some doc)) then
    throw (ErrorObject PlainError "Document invalide")
  else
    match get doc "url_doc" with
    | Some (VStr s) =>
        if String.eqb s EmptyString then ret None
        else if String.eqb (trim s) EmptyString then ret None
        else
          year <- parseYear (get doc "annee") ;;
          ret (Some
            {| url_doc := trim s;
               document_name := jsor (get doc "document_name") (VStr EmptyString);
               filename := jsor (get doc "filename") (VStr EmptyString);
               date_edition := jsor (get doc "date_edition") (VStr EmptyString);
               auteurs := jsor (get doc "auteurs") (VStr EmptyString);
               langue := jsor (get doc "langue") (VStr EmptyString);
               resume := jsor (get doc "resume") (VStr EmptyString);
               statut := jsor (get doc "statut") (VStr EmptyString);
               issue_number := jsor (get doc "issue_number") VNull;
               annee := match year with
                        | Some y => if isZero y then VInt 0 else VNum y
                        | None => VInt 0
                        end;
               format := jsor (get doc "format") (VStr EmptyString);
               type_document := jsor (get doc "type_document") (VStr EmptyString);
               contient_texte := jsor (get doc "contient_texte") (VStr EmptyString);
               pattern_verified := truthy (get doc "pattern_verified");
               notes := jsor (get doc "notes") (VStr EmptyString);
               obstacles := jsor (get doc "obstacles") VNull;
               source_page := jsor (get doc "source_page") (VStr EmptyString) |})
    | _ => ret None
    end.

Definition pushWarning (w : string) : M Locals unit :=
  modifyL (fun l => {| l_warnings := l_warnings l ++ [w];
                       l_parsedData := l_parsedData l |}).

Definition setData (f : ParsedHarvestData -> ParsedHarvestData)
  : M Locals unit :=
  modifyL (fun l => {| l_warnings := l_warnings l;
                       l_parsedData := f (l_parsedData l) |}).

Definition keepDocument (doc : value) (index : nat) : M Locals unit :=
  tryCatch
    (parsedDoc <- parseDocument doc index ;;
     match parsedDoc with
     | Some d =>
         setData (fun p => {| documents := documents p ++ [d];
                              obstacles_globaux := obstacles_globaux p;
                              recommandations := recommandations p;
                              logs := logs p |})
     | None => ret tt
     end)
    (fun docError =>
       pushWarning ("Document " +:+ showNat (index + 1) +:+ ": "
                    +:+ errorMessageOr docError "Erreur de parsing")).

Definition keepLog (log : value) (_ : nat) : M Locals unit :=
  message <- getM (Some log) "message" ;;
  if truthy message then
    setData (fun p => {| documents := documents p;
                         obstacles_globaux := obstacles_globaux p;
                         recommandations := recommandations p;
                         logs := logs p ++
                           [{| level := jsor (get log "level") (VStr "info");
                               message := jsor message VNull;
                               details := jsor (get log "details") (VObj []) |}] |})
  else ret tt.

(** The [try] block of [parseStructuredData]. *)
Definition structuredBody (structuredData : jsval) : M Locals ParseResult :=
  documentsField <- getM structuredData "documents" ;;
  match asArray documentsField with
  | Some docs => forEach keepDocument docs
  | None =>
      pushWarning ("Aucun tableau " +:+ q "documents"
                   +:+ " trouvé dans les données")
  end ;;;
  obstaclesField <- getM structuredData "obstacles-globaux" ;;
  match asArray obstaclesField with
  | Some items =>
      setData (fun p =>
        {| documents := documents p;
           obstacles_globaux :=
             List.filter (fun obstacle => negb (String.eqb obstacle EmptyString))
               (map trim (stringsOf items));
           recommandations := recommandations p;
           logs := logs p |})
  | None => ret tt
  end ;;;
  recommandationsField <- getM structuredData "recommandations" ;;
  match recommandationsField with
  | Some (VStr s) =>
      if negb (String.eqb s EmptyString) then
        setData (fun p => {| documents := documents p;
                             obstacles_globaux := obstacles_globaux p;
                             recommandations := Some (trim s);
                             logs := logs p |})
      else ret tt
  | _ => ret tt
  end ;;;
  logsField <- getM structuredData "logs" ;;
  match asArray logsField with
  | Some entries => forEach keepLog entries
  | None => ret tt
  end ;;;
  l <- getL ;;
  ret {| success := true; data := Some (l_parsedData l);
         error := None; warnings := l_warnings l |}.

(** The [catch] block of [parseStructuredData]. *)
Definition structuredFailed (error : thrown) : M Locals ParseResult :=
  l <- getL ;;
  ret {| success := false; data := None;
         error := Some (errorMessageOr error
                    "Erreur de parsing des données structurées");
         warnings := l_warnings l |}.

Definition parseStructuredData {L} (structuredData : jsval) : M L ParseResult :=
  scope {| l_warnings := []; l_parsedData := emptyData |}
    (tryCatch (structuredBody structuredData) structuredFailed).

Definition parseOpenAIResponse {L} (harvestResultData : value) : M L ParseResult :=
  tryCatch
    (if negb (truthy (Some harvestResultData))
        || negb (isObject (Some harvestResultData)) then
       ret {| success := false; data := None;
              error := Some "Données de moissonnage invalides ou manquantes";
              warnings := [] |}
     else
       parsedData <- parseStructuredData (Some harvestResultData) ;;
       if negb (success parsedData) then ret parsedData
       else ret {| success := true; data := data parsedData;
                   error := None; warnings := [] |})
    (fun error =>
       ret {| success := false; data := None;
              error := Some (errorMessageOr error "Erreur de parsing inconnue");
              warnings := [] |}).

Fixpoint invalidUrlsFrom (index : nat) (docs : list ParsedDocument)
  : list string :=
  match docs with
  | [] => []
  | doc :: rest =>
      (if URL_parses (url_doc doc) then []
       else ["Document " +:+ showNat (index + 1) +:+ ": URL invalide ("
             +:+ url_doc doc +:+ ")"])
      ++ invalidUrlsFrom (S index) rest
  end.

Definition validateParsedData (data : ParsedHarvestData) : Validation :=
  let errors :=
    (if (length (documents data) =? 0)%nat
     then ["Aucun document valide trouvé"] else [])
    ++ invalidUrlsFrom 0 (documents data) in
  {| isValid := (length errors =? 0)%nat; errors := errors |}.
End Parser.
End HarvestDataParser.

(** * harvestDataImporter.ts *)

Module HarvestDataImporter.
Import HarvestDataParser.

Inductive Phase := parsing | documents_phase | site_update | logs_phase | completed | error_phase.

(** [progress] is computed in floating point by the source; the model
    keeps the exact quotient. *)
Record ImportProgress := {
  phase : Phase;
  progress_message : string;
  progress : Q;
  documentsProcessed : nat;
  totalDocuments : nat;
  progress_errors : list string;
  progress_warnings : list string;
}.

Record ImportResult := {
  success : bool;
  documentsImported : nat;
  obstaclesUpdated : bool;
  recommandationsUpdated : bool;
  logsImported : nat;
  errors : list string;
  warnings : list string;
}.

(** The locals of [importHarvestData]: [result] and the two counters. *)
Record Locals := {
  result : ImportResult;
  l_documentsImported : nat;
  l_logsImported : nat;
}.

Definition initialLocals : Locals :=
  {| result := {| success := false; documentsImported := 0;
                  obstaclesUpdated := false; recommandationsUpdated := false;
                  logsImported := 0; errors := []; warnings := [] |};
     l_documentsImported := 0;
     l_logsImported := 0 |}.

Definition updResult (f : ImportResult -> ImportResult) (l : Locals) : Locals :=
  {| result := f (result l);
     l_documentsImported := l_documentsImported l;
     l_logsImported := l_logsImported l |}.

Definition withErrors (es : list string) (r : ImportResult) : ImportResult :=
  {| success := success r; documentsImported := documentsImported r;
     obstaclesUpdated := obstaclesUpdated r;
     recommandationsUpdated := recommandationsUpdated r;
     logsImported := logsImported r; errors := es; warnings := warnings r |}.

Definition withWarnings (ws : list string) (r : ImportResult) : ImportResult :=
  {| success := success r; documentsImported := documentsImported r;
     obstaclesUpdated := obstaclesUpdated r;
     recommandationsUpdated := recommandationsUpdated r;
     logsImported := logsImported r; errors := errors r; warnings := ws |}.

Definition withDocumentsImported (n : nat) (r : ImportResult) : ImportResult :=
  {| success := success r; documentsImported := n;
     obstaclesUpdated := obstaclesUpdated r;
     recommandationsUpdated := recommandationsUpdated r;
     logsImported := logsImported r; errors := errors r; warnings := warnings r |}.

Definition withLogsImported (n : nat) (r : ImportResult) : ImportResult :=
  {| success := success r; documentsImported := documentsImported r;
     obstaclesUpdated := obstaclesUpdated r;
     recommandationsUpdated := recommandationsUpdated r;
     logsImported := n; errors := errors r; warnings := warnings r |}.

Definition withObstaclesUpdated (r : ImportResult) : ImportResult :=
  {| success := success r; documentsImported := documentsImported r;
     obstaclesUpdated := true;
     recommandationsUpdated := recommandationsUpdated r;
     logsImported := logsImported r; errors := errors r; warnings := warnings r |}.

Definition withRecommandationsUpdated (r : ImportResult) : ImportResult :=
  {| success := success r; documentsImported := documentsImported r;
     obstaclesUpdated := obstaclesUpdated r;
     recommandationsUpdated := true;
     logsImported := logsImported r; errors := errors r; warnings := warnings r |}.

Definition withSuccess (b : bool) (r : ImportResult) : ImportResult :=
  {| success := b; documentsImported := documentsImported r;
     obstaclesUpdated := obstaclesUpdated r;
     recommandationsUpdated := recommandationsUpdated r;
     logsImported := logsImported r; errors := errors r; warnings := warnings r |}.

(** [document: doc] in the row that is inserted. *)
Definition documentValue (doc : ParsedDocument) : value :=
  VObj [("url_doc", VStr (url_doc doc));
        ("document_name", document_name doc);
        ("filename", filename doc);
        ("date_edition", date_edition doc);
        ("auteurs", auteurs doc);
        ("langue", langue doc);
        ("resume", resume doc);
        ("statut", statut doc);
        ("issue_number", issue_number doc);
        ("annee", annee doc);
        ("format", format doc);
        ("type_document", type_document doc);
        ("contient_texte", contient_texte doc);
        ("pattern_verified", VBool (pattern_verified doc));
        ("notes", notes doc);
        ("obstacles", obstacles doc);
        ("source_page", source_page doc)].

Definition natValue (n : nat) : value := VInt (Z.of_nat n).

Section Importer.
Context `{RT : Runtime} `{DB : Supabase}.

Abbreviation St := (World ImportProgress * Locals)%type.

Definition getResult : M St ImportResult :=
  l <- getLocals ;; ret (result l).

(** [result.errors.push(e)] *)
Definition pushError (e : string) : M St unit :=
  modifyLocals (updResult (fun r => withErrors (errors r ++ [e]) r)).

Definition importDocument (harvestResult : HarvestResult)
    (dataSource : DataSource) (total : nat)
    (doc : ParsedDocument) (i : nat) : M St unit :=
  tryCatch
    (if String.eqb (url_doc doc) EmptyString
        || String.eqb (trim (url_doc doc)) EmptyString then
       ret tt
     else
       now <- newDate ;;
       _ <- HarvestResultService.createResult
              (VObj [("data_source_id", VStr (ds_id dataSource));
                     ("config_id", hr_config_id harvestResult);
                     ("data",
                      VObj [("document", documentValue doc);
                            ("source_harvest_id", VStr (hr_id harvestResult))]);
                     ("metadata",
                      VObj [("import_timestamp", VStr (toISOString now));
                            ("original_harvest_id", VStr (hr_id harvestResult));
                            ("document_index", natValue i);
                            ("import_method", VStr "parsed_from_openai");
                            ("document_url", VStr (url_doc doc));
                            ("document_name",
                             jsor (Some (document_name doc)) (VStr "Sans nom"))]);
                     ("status", VStr "success")]) ;;
       modifyLocals (fun l =>
         {| result := result l;
            l_documentsImported := S (l_documentsImported l);
            l_logsImported := l_logsImported l |}) ;;;
       shown <- interpolate (Some (document_name doc)) ;;
       r <- getResult ;;
       notifyProgress
         {| phase := documents_phase;
            progress_message := "Import document: " +:+ shown;
            progress := (30 + (inject_Z (Z.of_nat (i + 1))
                               / inject_Z (Z.of_nat total)) * 40)%Q;
            documentsProcessed := i + 1;
            totalDocuments := total;
            progress_errors := [];
            progress_warnings := warnings r |})
    (fun docError =>
       let docName :=
         jsor (Some (document_name doc))
           (jsor (Some (filename doc))
              (jsor (Some (VStr (url_doc doc))) (VStr "Document inconnu"))) in
       shown <- interpolate (Some docName) ;;
       pushError ("Document " +:+ showNat (i + 1) +:+ " (" +:+ shown +:+ "): "
                  +:+ errorMessageOr docError "Erreur inconnue")).

Definition updateSite (dataSource : DataSource) (parsedData : ParsedHarvestData)
  : M St unit :=
  tryCatch
    (let updateObstacles := (0 <? length (obstacles_globaux parsedData))%nat in
     let updateRecommandations :=
       match recommandations parsedData with
       | Some r => negb (String.eqb r EmptyString)
       | None => false
       end in
     let updateData :=
       (if updateObstacles
        then [("obstacles_globaux", VArr (map VStr (obstacles_globaux parsedData)))]
        else [])
       ++ match recommandations parsedData with
          | Some r => if updateRecommandations
                      then [("recommandations", VStr r)] else []
          | None => []
          end in
     (if updateObstacles
      then modifyLocals (updResult withObstaclesUpdated) else ret tt) ;;;
     (if updateRecommandations
      then modifyLocals (updResult withRecommandationsUpdated) else ret tt) ;;;
     if (0 <? length updateData)%nat then
       _ <- DataSourceService.updateDataSource (ds_id dataSource) (VObj updateData) ;;
       ret tt
     else ret tt)
    (fun updateError =>
       pushError ("Erreur mise à jour site: "
                  +:+ errorMessageOr updateError "Erreur inconnue")).

Definition importLog (harvestResult : HarvestResult) (dataSource : DataSource)
    (log : ParsedLog) (_ : nat) : M St unit :=
  tryCatch
    (now <- newDate ;;
     _ <- HarvestLogService.createLog
            (VObj [("data_source_id", VStr (ds_id dataSource));
                   ("level", level log);
                   ("message", message log);
                   ("details",
                    VObj (setProp "import_timestamp" (VStr (toISOString now))
                           (setProp "original_harvest_id" (VStr (hr_id harvestResult))
                              (setProp "import_source" (VStr "openai_harvest")
                                 (spread (Some (details log)))))))]) ;;
     modifyLocals (fun l =>
       {| result := result l;
          l_documentsImported := l_documentsImported l;
          l_logsImported := S (l_logsImported l) |}))
    (fun logError => ret tt).

Definition finalLog (harvestResult : HarvestResult) (dataSource : DataSource)
  : M St unit :=
  tryCatch
    (l <- getLocals ;;
     _ <- HarvestLogService.createLog
            (VObj [("data_source_id", VStr (ds_id dataSource));
                   ("level", VStr "info");
                   ("message",
                    VStr ("Import des données de moissonnage terminé: "
                          +:+ showNat (l_documentsImported l)
                          +:+ " documents importés"));
                   ("details",
                    VObj [("original_harvest_id", VStr (hr_id harvestResult));
                          ("documents_imported", natValue (l_documentsImported l));
                          ("obstacles_updated", VBool (obstaclesUpdated (result l)));
                          ("recommandations_updated",
                           VBool (recommandationsUpdated (result l)));
                          ("logs_imported", natValue (l_logsImported l));
                          ("warnings_count", natValue (length (warnings (result l))));
                          ("errors_count", natValue (length (errors (result l))))])]) ;;
     ret tt)
    (fun error => ret tt).

(** The phases that follow a successful parse and validation. *)
Definition importParsedData (harvestResult : HarvestResult)
    (dataSource : DataSource) (parsedData : ParsedHarvestData)
  : M St ImportResult :=
  let total := length (HarvestDataParser.documents parsedData) in
  r0 <- getResult ;;
  notifyProgress
    {| phase := documents_phase; progress_message := "Import des documents...";
       progress := 30; documentsProcessed := 0; totalDocuments := total;
       progress_errors := []; progress_warnings := warnings r0 |} ;;;
  forEach (importDocument harvestResult dataSource total)
    (HarvestDataParser.documents parsedData) ;;;
  modifyLocals (fun l =>
    updResult (withDocumentsImported (l_documentsImported l)) l) ;;;
  r1 <- getResult ;;
  notifyProgress
    {| phase := site_update;
       progress_message := "Mise à jour des informations du site...";
       progress := 75; documentsProcessed := total; totalDocuments := total;
       progress_errors := []; progress_warnings := warnings r1 |} ;;;
  updateSite dataSource parsedData ;;;
  r2 <- getResult ;;
  notifyProgress
    {| phase := logs_phase; progress_message := "Import des logs...";
       progress := 90; documentsProcessed := total; totalDocuments := total;
       progress_errors := []; progress_warnings := warnings r2 |} ;;;
  forEach (importLog harvestResult dataSource) (HarvestDataParser.logs parsedData) ;;;
  modifyLocals (fun l => updResult (withLogsImported (l_logsImported l)) l) ;;;
  finalLog harvestResult dataSource ;;;
  l <- getLocals ;;
  notifyProgress
    {| phase := completed;
       progress_message := "Import terminé: " +:+ showNat (l_documentsImported l)
                           +:+ " documents importés";
       progress := 100; documentsProcessed := total; totalDocuments := total;
       progress_errors := errors (result l);
       progress_warnings := warnings (result l) |} ;;;
  modifyLocals (updResult (fun r =>
    withSuccess ((length (errors r) =? 0)%nat
                 || (0 <? l_documentsImported l)%nat) r)) ;;;
  getResult.

(** What [importHarvestData] does with the outcome of the parsing. *)
Definition afterParsing (harvestResult : HarvestResult)
    (dataSource : DataSource) (parseResult : ParseResult) : M St ImportResult :=
  if negb (HarvestDataParser.success parseResult) then
    pushError (match HarvestDataParser.error parseResult with
               | Some e => if String.eqb e EmptyString
                           then "Erreur de parsing" else e
               | None => "Erreur de parsing"
               end) ;;;
    r <- getResult ;;
    notifyProgress
      {| phase := error_phase;
         progress_message :=
           "Erreur parsing: "
           +:+ match HarvestDataParser.error parseResult with
               | Some e => e
               | None => "undefined"
               end;
         progress := 0; documentsProcessed := 0; totalDocuments := 0;
         progress_errors := errors r;
         progress_warnings := HarvestDataParser.warnings parseResult |} ;;;
    getResult
  else
    modifyLocals (updResult
      (withWarnings (HarvestDataParser.warnings parseResult))) ;;;
    match HarvestDataParser.data parseResult with
    | None => throw TypeError_undefined
    | Some parsedData =>
        let validation := validateParsedData parsedData in
        if negb (isValid validation) then
          modifyLocals (updResult (fun r =>
            withErrors (errors r ++ HarvestDataParser.errors validation) r)) ;;;
          r <- getResult ;;
          notifyProgress
            {| phase := error_phase;
               progress_message :=
                 "Validation échouée: "
                 +:+ match HarvestDataParser.errors validation with
                     | first :: _ => first
                     | [] => "undefined"
                     end;
               progress := 0; documentsProcessed := 0;
               totalDocuments :=
                 length (HarvestDataParser.documents parsedData);
               progress_errors := errors r;
               progress_warnings := warnings r |} ;;;
          getResult
        else importParsedData harvestResult dataSource parsedData
    end.

(** The [try] block of [importHarvestData]. *)
Definition importBody (harvestResult : HarvestResult)
    (dataSource : DataSource) : M St ImportResult :=
  notifyProgress
    {| phase := parsing;
       progress_message := "Analyse des données de moissonnage...";
       progress := 10; documentsProcessed := 0; totalDocuments := 0;
       progress_errors := []; progress_warnings := [] |} ;;;
  parseResult <- parseOpenAIResponse (hr_data harvestResult) ;;
  afterParsing harvestResult dataSource parseResult.

(** The [catch] block of [importHarvestData]. *)
Definition importFailed (error : thrown) : M St ImportResult :=
  let errorMessage := errorMessageOr error "Erreur inconnue" in
  pushError errorMessage ;;;
  r <- getResult ;;
  notifyProgress
    {| phase := error_phase;
       progress_message := "Erreur lors de l'import: " +:+ errorMessage;
       progress := 0; documentsProcessed := 0; totalDocuments := 0;
       progress_errors := errors r;
       progress_warnings := warnings r |} ;;;
  getResult.

Definition importHarvestData (harvestResult : HarvestResult)
    (dataSource : DataSource) : M (World ImportProgress) ImportResult :=
  withLocals initialLocals
    (tryCatch (importBody harvestResult dataSource) importFailed).

(** [metadata?.original_harvest_id === harvestResultId] *)
Definition referencesHarvest (harvestResultId : string) (row : value)
  : M (World ImportProgress * unit) bool :=
  metadata <- getM (Some row) "metadata" ;;
  ret match metadata with
      | None | Some VNull => false
      | Some m =>
          match get m "original_harvest_id" with
          | Some (VStr s) => String.eqb s harvestResultId
          | _ => false
          end
      end.

Definition checkIfAlreadyImported (harvestResultId : string)
  : M (World ImportProgress) bool :=
  withLocals tt
    (tryCatch
       (existingResults <- HarvestResultService.getAllResults 100 ;;
        match existingResults with
        | VArr rows => someM (referencesHarvest harvestResultId) rows
        | _ => throw TypeError_not_a_function
        end)
       (fun error => ret false)).
End Importer.
End HarvestDataImporter.

(** * harvestImportService.ts *)

Module HarvestImportService.
Import JsonImportValidator.

Inductive Phase := validation | directory | downloading | saving | completed | error_phase.

Record ImportProgress := {
  phase : Phase;
  progress_message : string;
  progress : Q;
  documentsProcessed : nat;
  totalDocuments : nat;
  progress_errors : list string;
  progress_warnings : list string;
}.

Record ImportResult := {
  success : bool;
  documentsImported : nat;
  documentsWithErrors : nat;
  logsImported : nat;
  localPath : string;
  errors : list string;
}.

Definition initialResult : ImportResult :=
  {| success := false; documentsImported := 0; documentsWithErrors := 0;
     logsImported := 0; localPath := EmptyString; errors := [] |}.

Definition withErrors (es : list string) (r : ImportResult) : ImportResult :=
  {| success := success r; documentsImported := documentsImported r;
     documentsWithErrors := documentsWithErrors r;
     logsImported := logsImported r; localPath := localPath r; errors := es |}.

Section Service.
Context `{RT : Runtime} `{DB : Supabase}.

Abbreviation St := (World ImportProgress * ImportResult)%type.

(** The phases that follow the two gates of [importHarvestResults]
    (directory, downloading, saving, the logs, the site update and
    completion): they fetch every document over the network and
    write the batch; whatever they do, they start from the extracted
    data, mutate [result], and return it or throw. *)
Context (downloadAndSave :
           DataSource -> jsval -> ExtractResult -> ValidationResult ->
           M St ImportResult).

Definition importHarvestResults (jsonContent : string)
    (dataSource : DataSource) (config : jsval)
  : M (World ImportProgress) ImportResult :=
  withLocals initialResult
    (tryCatch
       (notifyProgress
          {| phase := validation;
             progress_message := "Validation du fichier JSON...";
             progress := 10; documentsProcessed := 0; totalDocuments := 0;
             progress_errors := []; progress_warnings := [] |} ;;;
        validation <- validateImportJson jsonContent ;;
        if negb (isValid validation) then
          modifyLocals
            (withErrors (map vmessage (JsonImportValidator.errors validation))) ;;;
          result <- getLocals ;;
          notifyProgress
            {| phase := error_phase;
               progress_message := "Erreurs de validation détectées";
               progress := 0; documentsProcessed := 0; totalDocuments := 0;
               progress_errors := errors result;
               progress_warnings :=
                 map vmessage (JsonImportValidator.warnings validation) |} ;;;
          getLocals
        else
          extracted <- extractValidData jsonContent ;;
          if (length (documents extracted) =? 0)%nat then
            modifyLocals (fun r =>
              withErrors
                (errors r ++ ["Aucun document valide trouvé dans le fichier JSON"])
                r) ;;;
            getLocals
          else downloadAndSave dataSource config extracted validation)
       (fun error =>
          let errorMessage := errorMessageOr error "Erreur inconnue" in
          modifyLocals (fun r => withErrors (errors r ++ [errorMessage]) r) ;;;
          notifyProgress
            {| phase := error_phase;
               progress_message :=
                 "Erreur lors de l'importation: " +:+ errorMessage;
               progress := 0; documentsProcessed := 0; totalDocuments := 0;
               progress_errors := [errorMessage];
               progress_warnings := [] |} ;;;
          getLocals)).
End Service.
End HarvestImportService.

(** * harvestImportService.ts: the phases after the two gates *)

(** A [Response], as far as the service reads it. *)
Record Response := { ok : bool; status : Z; statusText : string }.

(** What the browser decides during the download phase: the outcome of
    the HEAD request made for the document at index [i] (a call makes at
    most one for each document), the [pathname] and the [hostname] of a
    URL that parses, and the [Date.now()] read while a name is made up
    for the document at index [i]. *)
Class Browser := {
  fetchHead : nat -> string -> outcome Response;
  URL_pathname : string -> string;
  URL_hostname : string -> string;
  Date_now : nat -> Z;
}.

Module HarvestImportPhases.
Import JsonImportValidator HarvestImportService.

(** [replace(/[^a-zA-Z0-9]/g, '_')] *)
Definition isAlphaNumeric (c : ascii) : bool :=
  let n := nat_of_ascii c in
  ((48 <=? n)%nat && (n <=? 57)%nat)
  || ((65 <=? n)%nat && (n <=? 90)%nat)
  || ((97 <=? n)%nat && (n <=? 122)%nat).

Fixpoint replaceNonAlphaNumeric (s : string) : string :=
  match s with
  | EmptyString => EmptyString
  | String c rest =>
      String (if isAlphaNumeric c then c else "_"%char) (replaceNonAlphaNumeric rest)
  end.

(** [s.split('/').pop()], [current] being the segment read so far. *)
Fixpoint lastSegmentFrom (current s : string) : string :=
  match s with
  | EmptyString => current
  | String c rest =>
      if Ascii.eqb c "/"%char then lastSegmentFrom EmptyString rest
      else lastSegmentFrom (current +:+ String c EmptyString) rest
  end.

(** The locals of the download loop. *)
Record Downloads := {
  processedDocuments : list value;
  successCount : nat;
  errorCount : nat;
}.

Record DownloadResult := {
  dl_success : bool;
  dl_filename : value;
  dl_localPath : option string;
  dl_error : string;
}.

Definition withLocalPath (p : string) (r : ImportResult) : ImportResult :=
  {| success := success r; documentsImported := documentsImported r;
     documentsWithErrors := documentsWithErrors r;
     logsImported := logsImported r; localPath := p; errors := errors r |}.

Definition withDownloads (d : Downloads) (r : ImportResult) : ImportResult :=
  {| success := success r; documentsImported := successCount d;
     documentsWithErrors := errorCount d;
     logsImported := logsImported r; localPath := localPath r;
     errors := errors r |}.

Definition withLogsImported (n : nat) (r : ImportResult) : ImportResult :=
  {| success := success r; documentsImported := documentsImported r;
     documentsWithErrors := documentsWithErrors r;
     logsImported := n; localPath := localPath r; errors := errors r |}.

Definition withSuccess (r : ImportResult) : ImportResult :=
  {| success := true; documentsImported := documentsImported r;
     documentsWithErrors := documentsWithErrors r;
     logsImported := logsImported r; localPath := localPath r;
     errors := errors r |}.

(** The properties of a cleaned document, in the order in which
    [extractValidData] writes them. *)
Definition cleanDocumentProps (doc : CleanDocument) : list (string * value) :=
  match url_doc doc with Some u => [("url_doc", u)] | None => [] end
  ++ [("document_name", document_name doc);
      ("filename", filename doc);
      ("date_edition", date_edition doc);
      ("auteurs", auteurs doc);
      ("langue", langue doc);
      ("resume", resume doc);
      ("statut", statut doc);
      ("issue_number", issue_number doc);
      ("annee", annee doc);
      ("format", format doc);
      ("type_document", type_document doc);
      ("content_text", content_text doc);
      ("pdf_pattern_verified", VBool (pdf_pattern_verified doc));
      ("notes", notes doc);
      ("obstacles", obstacles doc)].

Definition cleanLogProps (log : CleanLog) : list (string * value) :=
  [("level", level log); ("message", message log);
   ("timestamp", timestamp log); ("url", url log); ("details", details log)].

(** [{...doc, filename, local_path, download_success, obstacles}] *)
Definition processedDocument (doc : CleanDocument) (name : value)
    (local_path : string) (downloaded : bool) (remarks : value) : value :=
  VObj (setProp "obstacles" remarks
          (setProp "download_success" (VBool downloaded)
             (setProp "local_path" (VStr local_path)
                (setProp "filename" name (cleanDocumentProps doc))))).

Definition natValue (n : nat) : value := VInt (Z.of_nat n).

Section Phases.
Context `{RT : Runtime} `{DB : Supabase} `{BR : Browser}.

Abbreviation St := (World ImportProgress * ImportResult)%type.

Definition extractFilenameFromUrl (i : nat) (url : string) (fallbackName : value)
  : value :=
  if URL_parses url then
    let name := lastSegmentFrom EmptyString (URL_pathname url) in
    if negb (String.eqb name EmptyString) && includes "." name then VStr name
    else if truthy (Some fallbackName) then fallbackName
    else VStr ("document_" +:+ replaceNonAlphaNumeric (URL_hostname url)
               +:+ "_" +:+ pretty (Date_now i) +:+ ".pdf")
  else if truthy (Some fallbackName) then fallbackName
  else VStr ("document_" +:+ pretty (Date_now i) +:+ ".pdf").

(** [doc.filename || `document_${i + 1}.pdf`] *)
Definition defaultFilename (doc : CleanDocument) (i : nat) : value :=
  jsor (Some (filename doc)) (VStr ("document_" +:+ showNat (i + 1) +:+ ".pdf")).

(** An entry that is set aside without a request. *)
Definition setAside (doc : CleanDocument) (i : nat) (remarks : string)
    (acc : Downloads) : Downloads :=
  {| processedDocuments :=
       processedDocuments acc
       ++ [processedDocument doc (defaultFilename doc i) EmptyString false
             (VStr remarks)];
     successCount := successCount acc;
     errorCount := S (errorCount acc) |}.

(** The HEAD request and what is made of its outcome; the second
    component tells which counter moves. *)
Definition testDownload (localPath : string) (name : value) (i : nat)
    (url : string) : M St DownloadResult :=
  tryCatch
    (testResponse <- liftOutcome (fetchHead i url) ;;
     if ok testResponse then
       shown <- interpolate (Some name) ;;
       ret {| dl_success := true; dl_filename := name;
              dl_localPath := Some (localPath +:+ "/" +:+ shown);
              dl_error := EmptyString |}
     else
       ret {| dl_success := false; dl_filename := name;
              dl_localPath := None;
              dl_error := "HTTP " +:+ pretty (status testResponse) +:+ ": "
                          +:+ statusText testResponse |})
    (fun fetchError =>
       ret {| dl_success := false; dl_filename := name;
              dl_localPath := None;
              dl_error := errorMessageOr fetchError "Erreur réseau" |}).

(** The body of the download loop for the document at index [i]. *)
Definition downloadDocument (localPath : string) (total : nat)
    (doc : CleanDocument) (i : nat) (acc : Downloads) : M St Downloads :=
  shown <- interpolate
             (Some (jsor (Some (document_name doc))
                      (jsor (Some (filename doc))
                         (VStr ("Document " +:+ showNat (i + 1)))))) ;;
  notifyProgress
    {| phase := downloading;
       progress_message := "Téléchargement: " +:+ shown;
       progress := (30 + (inject_Z (Z.of_nat i) / inject_Z (Z.of_nat total)) * 50)%Q;
       documentsProcessed := i; totalDocuments := total;
       progress_errors := []; progress_warnings := [] |} ;;;
  match url_doc doc with
  | Some (VStr u) =>
      if String.eqb u EmptyString then
        ret (setAside doc i "URL de téléchargement manquante ou invalide" acc)
      else if negb (URL_parses u) then
        ret (setAside doc i ("URL malformée: " +:+ u) acc)
      else
        let name :=
          jsor (Some (filename doc))
            (jsor (Some (extractFilenameFromUrl i u (document_name doc)))
               (VStr ("document_" +:+ showNat (i + 1) +:+ ".pdf"))) in
        downloadResult <- testDownload localPath name i u ;;
        remarks <-
          (if dl_success downloadResult then
             ret (jsor (Some (obstacles doc)) (VStr EmptyString))
           else
             noted <- interpolate
                        (Some (jsor (Some (obstacles doc)) (VStr EmptyString))) ;;
             ret (VStr (noted
                        +:+ (if truthy (Some (obstacles doc)) then "; "
                             else EmptyString)
                        +:+ "Échec téléchargement: "
                        +:+ dl_error downloadResult))) ;;
        ret {| processedDocuments :=
                 processedDocuments acc
                 ++ [processedDocument doc (dl_filename downloadResult)
                       (match dl_localPath downloadResult with
                        | Some p => p
                        | None => EmptyString
                        end)
                       (dl_success downloadResult) remarks];
               successCount :=
                 if dl_success downloadResult then S (successCount acc)
                 else successCount acc;
               errorCount :=
                 if dl_success downloadResult then errorCount acc
                 else S (errorCount acc) |}
  | _ =>
      ret (setAside doc i "URL de téléchargement manquante ou invalide" acc)
  end.

(** [for (let i = 0; i < documents.length; i++)] *)
Fixpoint downloadDocumentsFrom (localPath : string) (total : nat) (i : nat)
    (docs : list CleanDocument) (acc : Downloads) : M St Downloads :=
  match docs with
  | [] => ret acc
  | doc :: rest =>
      acc' <- downloadDocument localPath total doc i acc ;;
      downloadDocumentsFrom localPath total (S i) rest acc'
  end.

(** The body of [for (const log of logs)]; [n] is [logsImported]. *)
Definition saveLog (dataSource : DataSource) (log : CleanLog) (n : nat)
  : M St nat :=
  tryCatch
    (now <- newDate ;;
     _ <- HarvestLogService.createLog
            (VObj [("data_source_id", VStr (ds_id dataSource));
                   ("level", jsor (Some (level log)) (VStr "info"));
                   ("message", jsor (Some (message log)) (VStr "Log importé"));
                   ("details",
                    VObj (setProp "import_timestamp" (VStr (toISOString now))
                            (setProp "import_source" (VStr "json_upload")
                               (cleanLogProps log))))]) ;;
     ret (S n))
    (fun logError => ret n).

Fixpoint saveLogs (dataSource : DataSource) (logs : list CleanLog) (n : nat)
  : M St nat :=
  match logs with
  | [] => ret n
  | log :: rest => n' <- saveLog dataSource log n ;; saveLogs dataSource rest n'
  end.

(** The update of the source; the module of [DataSourceService] is
    taken to load. *)
Definition updateSite (dataSource : DataSource) (extracted : ExtractResult)
  : M St unit :=
  tryCatch
    (let updateData :=
       (if (0 <? length (obstacles_globaux extracted))%nat
        then [("obstacles_globaux",
               VArr (map VStr (obstacles_globaux extracted)))]
        else [])
       ++ match recommandations extracted with
          | Some r => if negb (String.eqb r EmptyString)
                      then [("recommandations", VStr r)] else []
          | None => []
          end in
     if (0 <? length updateData)%nat then
       _ <- DataSourceService.updateDataSource (ds_id dataSource) (VObj updateData) ;;
       ret tt
     else ret tt)
    (fun updateError => ret tt).

Definition finalLog (dataSource : DataSource) (extracted : ExtractResult)
    (localPath : string) (d : Downloads) : M St unit :=
  tryCatch
    (_ <- HarvestLogService.createLog
            (VObj [("data_source_id", VStr (ds_id dataSource));
                   ("level", VStr "info");
                   ("message",
                    VStr ("Importation JSON réussie: " +:+ showNat (successCount d)
                          +:+ " documents importés, " +:+ showNat (errorCount d)
                          +:+ " échecs"));
                   ("details",
                    VObj [("total_documents",
                           natValue (length (documents extracted)));
                          ("successful_downloads", natValue (successCount d));
                          ("failed_downloads", natValue (errorCount d));
                          ("local_path", VStr localPath);
                          ("obstacles_globaux_count",
                           natValue (length (obstacles_globaux extracted)));
                          ("has_recommandations",
                           VBool match recommandations extracted with
                                 | Some r => negb (String.eqb r EmptyString)
                                 | None => false
                                 end)])]) ;;
     ret tt)
    (fun error => ret tt).

(** [config?.id || null] *)
Definition configId (config : jsval) : value :=
  match config with
  | None | Some VNull => VNull
  | Some c => jsor (get c "id") VNull
  end.

(** Lines 102 to 372 of [importHarvestResults]: what follows the two
    gates inside the [try] block. *)
Definition downloadAndSave (dataSource : DataSource) (config : jsval)
    (extracted : ExtractResult) (validation : ValidationResult)
  : M St ImportResult :=
  let total := length (documents extracted) in
  notifyProgress
    {| phase := directory;
       progress_message := "Création de la structure de répertoires...";
       progress := 20; documentsProcessed := 0; totalDocuments := total;
       progress_errors := [];
       progress_warnings :=
         map vmessage (JsonImportValidator.warnings validation) |} ;;;
  let localPath := "/Rep_misania/" +:+ replaceNonAlphaNumeric (ds_name dataSource) in
  modifyLocals (withLocalPath localPath) ;;;
  notifyProgress
    {| phase := downloading;
       progress_message := "Téléchargement des documents...";
       progress := 30; documentsProcessed := 0; totalDocuments := total;
       progress_errors := []; progress_warnings := [] |} ;;;
  d <- downloadDocumentsFrom localPath total 0 (documents extracted)
         {| processedDocuments := []; successCount := 0; errorCount := 0 |} ;;
  modifyLocals (withDownloads d) ;;;
  notifyProgress
    {| phase := saving;
       progress_message := "Sauvegarde des métadonnées...";
       progress := 85; documentsProcessed := total; totalDocuments := total;
       progress_errors := []; progress_warnings := [] |} ;;;
  now <- newDate ;;
  _ <- HarvestResultService.createResult
         (VObj [("data_source_id", VStr (ds_id dataSource));
                ("config_id", configId config);
                ("data", VObj [("documents", VArr (processedDocuments d))]);
                ("metadata",
                 VObj [("import_timestamp", VStr (toISOString now));
                       ("total_documents", natValue total);
                       ("successful_downloads", natValue (successCount d));
                       ("failed_downloads", natValue (errorCount d));
                       ("local_directory", VStr localPath)]);
                ("status", VStr "success");
                ("local_path", VStr localPath)]) ;;
  logsImported <- saveLogs dataSource (logs extracted) 0 ;;
  modifyLocals (withLogsImported logsImported) ;;;
  updateSite dataSource extracted ;;;
  finalLog dataSource extracted localPath d ;;;
  result <- getLocals ;;
  notifyProgress
    {| phase := completed;
       progress_message :=
         "Importation terminée: " +:+ showNat (documentsImported result)
         +:+ " documents importés";
       progress := 100; documentsProcessed := total; totalDocuments := total;
       progress_errors := []; progress_warnings := [] |} ;;;
  modifyLocals withSuccess ;;;
  getLocals.

(** [importHarvestResults] whole. *)
Definition importHarvestResults (jsonContent : string)
    (dataSource : DataSource) (config : jsval)
  : M (World ImportProgress) ImportResult :=
  HarvestImportService.importHarvestResults downloadAndSave
    jsonContent dataSource config.
End Phases.
End HarvestImportPhases.

(** * A reference runtime

    The services are stated over every [Runtime]. To run them on
    concrete inputs this module supplies one: a reader for the JSON texts
    of the examples (objects, arrays, strings without escapes, integers,
    [true], [false], [null]; anything else is reported as a syntax
    error), a URL check that asks for a scheme followed by something, as
    [new URL] does for an address without a base, and a clock whose
    readings are one millisecond apart. *)

Module Reference.

Definition isJsonSpace (c : ascii) : bool :=
  let n := nat_of_ascii c in
  (n =? 32)%nat || (n =? 9)%nat || (n =? 10)%nat || (n =? 13)%nat.

Fixpoint skipSpace (s : string) : string :=
  match s with
  | String c rest => if isJsonSpace c then skipSpace rest else s
  | EmptyString => EmptyString
  end.

(** The characters up to the closing quote. *)
Fixpoint readString (s : string) : option (string * string) :=
  match s with
  | EmptyString => None
  | String c rest =>
      if (nat_of_ascii c =? 34)%nat then Some (EmptyString, rest)
      else if (nat_of_ascii c =? 92)%nat || (nat_of_ascii c <? 32)%nat then None
      else match readString rest with
           | Some (body, rest') => Some (String c body, rest')
           | None => None
           end
  end.

Fixpoint stripPrefix (p s : string) : option string :=
  match p, s with
  | EmptyString, _ => Some s
  | String a p', String b s' => if Ascii.eqb a b then stripPrefix p' s' else None
  | String _ _, EmptyString => None
  end.

Fixpoint parseValue (fuel : nat) (s : string) : option (value * string) :=
  match fuel with
  | O => None
  | S fuel' =>
      match skipSpace s with
      | EmptyString => None
      | String c rest as s' =>
          if Ascii.eqb c "["%char then
            match skipSpace rest with
            | String c' rest' =>
                if Ascii.eqb c' "]"%char then Some (VArr [], rest')
                else match parseItems fuel' rest with
                     | Some (items, r) => Some (VArr items, r)
                     | None => None
                     end
            | EmptyString => None
            end
          else if Ascii.eqb c "{"%char then
            match skipSpace rest with
            | String c' rest' =>
                if Ascii.eqb c' "}"%char then Some (VObj [], rest')
                else match parseMembers fuel' rest [] with
                     | Some (props, r) => Some (VObj props, r)
                     | None => None
                     end
            | EmptyString => None
            end
          else if (nat_of_ascii c =? 34)%nat then
            match readString rest with
            | Some (body, r) => Some (VStr body, r)
            | None => None
            end
          else if isDigit c then
            let '(z, r) := readDigits s' 0 in Some (VInt z, r)
          else if Ascii.eqb c "-"%char then
            match rest with
            | String d _ =>
                if isDigit d
                then let '(z, r) := readDigits rest 0 in Some (VInt (- z), r)
                else None
            | EmptyString => None
            end
          else
            match stripPrefix "true" s', stripPrefix "false" s',
                  stripPrefix "null" s' with
            | Some r, _, _ => Some (VBool true, r)
            | _, Some r, _ => Some (VBool false, r)
            | _, _, Some r => Some (VNull, r)
            | _, _, _ => None
            end
      end
  end
with parseItems (fuel : nat) (s : string) : option (list value * string) :=
  match fuel with
  | O => None
  | S fuel' =>
      match parseValue fuel' s with
      | Some (v, r) =>
          match skipSpace r with
          | String c r' =>
              if Ascii.eqb c ","%char then
                match parseItems fuel' r' with
                | Some (vs, r'') => Some (v :: vs, r'')
                | None => None
                end
              else if Ascii.eqb c "]"%char then Some ([v], r')
              else None
          | EmptyString => None
          end
      | None => None
      end
  end
with parseMembers (fuel : nat) (s : string) (acc : list (string * value))
  : option (list (string * value) * string) :=
  match fuel with
  | O => None
  | S fuel' =>
      match skipSpace s with
      | String c0 r0 =>
          if (nat_of_ascii c0 =? 34)%nat then
            match readString r0 with
            | Some (k, r1) =>
                match skipSpace r1 with
                | String c1 r2 =>
                    if Ascii.eqb c1 ":"%char then
                      match parseValue fuel' r2 with
                      | Some (v, r3) =>
                          let acc' := setProp k v acc in
                          match skipSpace r3 with
                          | String c3 r4 =>
                              if Ascii.eqb c3 ","%char
                              then parseMembers fuel' r4 acc'
                              else if Ascii.eqb c3 "}"%char
                                   then Some (acc', r4)
                                   else None
                          | EmptyString => None
                          end
                      | None => None
                      end
                    else None
                | EmptyString => None
                end
            | None => None
            end
          else None
      | EmptyString => None
      end
  end.

Definition parse (text : string) : outcome value :=
  match parseValue (2 * String.length text + 2) text with
  | Some (v, rest) =>
      match skipSpace rest with
      | EmptyString => Returned v
      | String _ _ => Thrown (ErrorObject SyntaxError "Unexpected non-whitespace character after JSON")
      end
  | None => Thrown (ErrorObject SyntaxError "Unexpected token in JSON")
  end.

Definition isAlpha (c : ascii) : bool :=
  let n := nat_of_ascii c in
  ((65 <=? n)%nat && (n <=? 90)%nat) || ((97 <=? n)%nat && (n <=? 122)%nat).

Definition isSchemeChar (c : ascii) : bool :=
  isAlpha c || isDigit c || Ascii.eqb c "+"%char || Ascii.eqb c "-"%char
  || Ascii.eqb c "."%char.

Fixpoint afterScheme (s : string) : option string :=
  match s with
  | String c rest =>
      if Ascii.eqb c ":"%char then Some rest
      else if isSchemeChar c then afterScheme rest
      else None
  | EmptyString => None
  end.

Definition urlParses (s : string) : bool :=
  match trim s with
  | String c rest =>
      isAlpha c &&
      match afterScheme rest with
      | Some (String _ _) => true
      | _ => false
      end
  | EmptyString => false
  end.

(** ISO dates [YYYY-MM-DD...]: four digits, a dash, two digits, a dash. *)
Definition dateParses (s : string) : bool :=
  match s with
  | String y1 (String y2 (String y3 (String y4 (String d1
      (String m1 (String m2 (String d2 (String a (String b _))))))))) =>
      isDigit y1 && isDigit y2 && isDigit y3 && isDigit y4
      && Ascii.eqb d1 "-"%char && isDigit m1 && isDigit m2
      && Ascii.eqb d2 "-"%char && isDigit a && isDigit b
  | _ => false
  end.

(** Exact on integers and infinities. *)
Definition numberToString (n : number) : string :=
  match n with
  | NFinite x =>
      match asInteger (Some (VNum n)) with
      | Some z => pretty z
      | None => pretty (Qnum x) +:+ "/" +:+ pretty (Zpos (Qden x))
      end
  | NInfinity negative => if negative then "-Infinity" else "Infinity"
  end.

Fixpoint jsonStringify (v : value) : string :=
  match v with
  | VNull => "null"
  | VBool b => if b then "true" else "false"
  | VNum n => numberToString n
  | VStr s => q s
  | VArr items =>
      "[" +:+
      (fix go (xs : list value) : string :=
         match xs with
         | [] => EmptyString
         | [x] => jsonStringify x
         | x :: rest => jsonStringify x +:+ "," +:+ go rest
         end) items +:+ "]"
  | VObj props =>
      "{" +:+
      (fix go (ps : list (string * value)) : string :=
         match ps with
         | [] => EmptyString
         | [(k, x)] => q k +:+ ":" +:+ jsonStringify x
         | (k, x) :: rest => q k +:+ ":" +:+ jsonStringify x +:+ "," +:+ go rest
         end) props +:+ "}"
  end.

Definition millis (n : nat) : string :=
  match pretty (1000 + n `mod` 1000)%nat with
  | String _ digits => digits
  | EmptyString => EmptyString
  end.

Definition readClock (n : nat) : Instant :=
  {| getFullYear := 2025;
     toISOString := "2025-06-01T12:00:00." +:+ millis n +:+ "Z" |}.

Definition runtime : Runtime :=
  {| JSON_parse := parse;
     URL_parses := urlParses;
     Date_parses := dateParses;
     Number_toString := numberToString;
     JSON_stringify := jsonStringify;
     clock := readClock |}.

(** A JSON text written with apostrophes for its double quotes. *)
Fixpoint json (s : string) : string :=
  match s with
  | EmptyString => EmptyString
  | String c rest =>
      String (if (nat_of_ascii c =? 39)%nat then ascii_of_nat 34 else c)
             (json rest)
  end.
End Reference.

(** ** Telling the requests apart *)

(** [metadata.document_index] of an inserted row. *)
Definition documentIndexOf (row : value) : jsval :=
  match get row "metadata" with
  | Some metadata => get metadata "document_index"
  | None => None
  end.

(** [r] is the insertion of the document at index [i] of the batch. *)
Definition isInsertOfDocument (i : Z) (r : request) : bool :=
  match r with
  | Insert table row =>
      String.eqb table "harvest_results"
      && match asInteger (documentIndexOf row) with
         | Some z => (z =? i)%Z
         | None => false
         end
  | _ => false
  end.

(** The request fails: the promise is rejected or resolves to an error. *)
Definition refuses (answer : reply) : Prop :=
  match answer with
  | Rejected _ | Replied _ (Some _) => True
  | Replied _ None => False
  end.

(** The request succeeds and the database returns the row. *)
Definition accepts (answer : reply) : Prop :=
  match answer with
  | Replied (Some VNull) None | Replied None None => False
  | Replied (Some _) None => True
  | _ => False
  end.

Module ReferenceDatabase.
Definition stored : jsval := Some (VObj [("id", VStr "row")]).

(** A database that accepts every request. *)
Definition accepting : Supabase := {| respond := fun _ _ => Replied stored None |}.

(** A database that refuses the insertion of the second document. *)
Definition refusingSecond : Supabase :=
  {| respond := fun _ r =>
       if isInsertOfDocument 1 r
       then Replied None (Some "duplicate key value")
       else Replied stored None |}.

(** A database that cannot be reached. *)
Definition unreachable : Supabase :=
  {| respond := fun _ _ => Rejected (ErrorObject TypeError "Failed to fetch") |}.
End ReferenceDatabase.

(** A reference browser: addresses are read as [scheme://host/path],
    and it is decided by the index of the document whether it can be
    reached. *)
Module ReferenceBrowser.

(** What follows [://] in an address. *)
Fixpoint afterScheme (s : string) : string :=
  match s with
  | EmptyString => EmptyString
  | String c rest =>
      if String.prefix "://" s then String.substring 3 (String.length s - 3) s
      else afterScheme rest
  end.

Fixpoint upToSlash (s : string) : string :=
  match s with
  | EmptyString => EmptyString
  | String c rest =>
      if Ascii.eqb c "/"%char then EmptyString else String c (upToSlash rest)
  end.

Fixpoint fromSlash (s : string) : string :=
  match s with
  | EmptyString => "/"
  | String c rest => if Ascii.eqb c "/"%char then s else fromSlash rest
  end.

Definition found : Response := {| ok := true; status := 200; statusText := "OK" |}.
Definition notFound : Response :=
  {| ok := false; status := 404; statusText := "Not Found" |}.

(** Every document can be reached. *)
Definition online : Browser :=
  {| fetchHead := fun _ _ => Returned found;
     URL_pathname := fun url => fromSlash (afterScheme url);
     URL_hostname := fun url => upToSlash (afterScheme url);
     Date_now := fun _ => 1700000000000 |}.

(** The first document can be reached, the second is not found, and
    the requests for the others fail. *)
Definition flaky : Browser :=
  {| fetchHead := fun i _ =>
       match i with
       | O => Returned found
       | S O => Returned notFound
       | _ => Thrown (ErrorObject TypeError "Failed to fetch")
       end;
     URL_pathname := fun url => fromSlash (afterScheme url);
     URL_hostname := fun url => upToSlash (afterScheme url);
     Date_now := fun _ => 1700000000000 |}.
End ReferenceBrowser.

(** * Worked inputs *)

Module Examples.
Import JsonImportValidator.

(** The reference runtime with a clock that stands still. *)
Definition frozen : Runtime :=
  {| JSON_parse := Reference.parse;
     URL_parses := Reference.urlParses;
     Date_parses := Reference.dateParses;
     Number_toString := Reference.numberToString;
     JSON_stringify := Reference.jsonStringify;
     clock := fun _ => Reference.readClock 0 |}.

Definition blankUrlText : string :=
  Reference.json "{'documents':[{'url_doc':'   '},{'url_doc':'not-a-url'}]}".

Definition mixedUrlText : string :=
  Reference.json "{'documents':[{'url_doc':'a'},{'url_doc':'a'},{'url_doc':5}]}".

Definition duplicateUrlText : string :=
  Reference.json
    "{'documents':[{'url_doc':'https://ex.com/a.pdf'},{'url_doc':' https://ex.com/a.pdf ','document_name':'dup'},{'url_doc':'https://ex.com/b.pdf'},{'document_name':'no url'}]}".

Definition duplicateUrlDocs : list value :=
  [VObj [("url_doc", VStr "https://ex.com/a.pdf")];
   VObj [("url_doc", VStr " https://ex.com/a.pdf "); ("document_name", VStr "dup")];
   VObj [("url_doc", VStr "https://ex.com/b.pdf")];
   VObj [("document_name", VStr "no url")]].

Definition untimedLogText : string :=
  Reference.json "{'documents':[],'logs':[{}]}".

End Examples.

Module ImportExamples.
(** Three documents with a usable [url_doc] and nothing else. *)
Definition threeDocuments : value :=
  VObj [("documents",
         VArr [VObj [("url_doc", VStr "https://ex.com/a.pdf")];
               VObj [("url_doc", VStr "https://ex.com/b.pdf")];
               VObj [("url_doc", VStr "https://ex.com/c.pdf")]])].

Definition harvest (data : value) : HarvestResult :=
  {| hr_id := "harvest-1"; hr_config_id := VNull; hr_data := data |}.

Definition source : DataSource := {| ds_id := "source-1"; ds_name := "Source" |}.

(** Nothing was sent yet and the page listens to the progress. *)
Definition listening : World HarvestDataImporter.ImportProgress :=
  {| sent := []; progressCallback := true; observed := [] |}.
End ImportExamples.

Module BatchExamples.
Definition emptyBatch : value := VObj [("documents", VArr [])].

Definition emptyBatchText : string := Reference.json "{'documents':[]}".

(** A second entry without [url_doc] between two usable entries. *)
Definition batchWithGap : value :=
  VObj [("documents",
         VArr [VObj [("url_doc", VStr "https://ex.com/a.pdf")];
               VObj [("document_name", VStr "no url")];
               VObj [("url_doc", VStr "https://ex.com/c.pdf")]])].

(** A usable entry and an entry whose [url_doc] is not an address. *)
Definition batchWithUnparseable : value :=
  VObj [("documents",
         VArr [VObj [("url_doc", VStr "https://ex.com/a.pdf")];
               VObj [("url_doc", VStr "not-a-url")]])].

Definition batchWithoutUnparseable : value :=
  VObj [("documents", VArr [VObj [("url_doc", VStr "https://ex.com/a.pdf")]])].

Definition numericNameText : string :=
  Reference.json
    "{'documents':[{'url_doc':'https://ex.com/a.pdf','document_name':5},{'url_doc':'not-a-url'}],'logs':[{'level':'loud'}]}".

(** A number for [date_edition], in an entry that is otherwise complete,
    before another document and a log. *)
Definition numericDateText : string :=
  Reference.json
    "{'documents':[{'url_doc':'https://ex.com/a.pdf','document_name':'A','filename':'a.pdf','date_edition':5},{'url_doc':'https://ex.com/b.pdf'}],'logs':[{'level':'loud'}]}".

(** Later phases that would report a full success. *)
Definition succeeding
  : DataSource -> jsval -> JsonImportValidator.ExtractResult ->
    JsonImportValidator.ValidationResult ->
    M (World HarvestImportService.ImportProgress * HarvestImportService.ImportResult)
      HarvestImportService.ImportResult :=
  fun _ _ extracted _ =>
    ret
      {| HarvestImportService.success := true;
         HarvestImportService.documentsImported :=
           length (JsonImportValidator.documents extracted);
         HarvestImportService.documentsWithErrors := 0;
         HarvestImportService.logsImported := 0;
         HarvestImportService.localPath := "harvest";
         HarvestImportService.errors := [] |}.

Definition watching : World HarvestImportService.ImportProgress :=
  {| sent := []; progressCallback := true; observed := [] |}.
End BatchExamples.

Module ReportExamples.
(** Two documents and a log that the validation accepts. *)
Definition validText : string :=
  Reference.json
    "{'documents':[{'url_doc':'https://ex.com/a.pdf','document_name':'A'},{'url_doc':' https://ex.com/b.pdf'}],'logs':[{'level':'info','message':'ok'}]}".

(** The same URL twice, an entry without [url_doc], and a log that is
    not an object. *)
Definition flawedText : string :=
  Reference.json
    "{'documents':[{'url_doc':'https://ex.com/a.pdf'},{'url_doc':'https://ex.com/a.pdf '},{'document_name':'no url'}],'logs':[5,{}]}".

(** A text that is not JSON, and JSON for an array-free number. *)
Definition truncatedText : string := Reference.json "{'documents':[".
Definition numberText : string := "5".
End ReportExamples.

Module ParserExamples.
(** Five entries of which two are usable, site fields to clean, and a
    log without message. *)
Definition mixedBatch : value :=
  VObj [("documents",
         VArr [VObj [("url_doc", VStr " https://ex.com/a.pdf ");
                     ("annee", VStr "2020")];
               VNull;
               VObj [("url_doc", VStr "   ")];
               VInt 5;
               VObj [("url_doc", VStr "https://ex.com/b.pdf");
                     ("annee", VInt 1492)]]);
        ("obstacles-globaux", VArr [VStr " captcha "; VStr "  "; VInt 3]);
        ("recommandations", VStr " retry later ");
        ("logs", VArr [VObj [("message", VStr "done")]; VObj []])].

(** The same data with a [null] among the logs. *)
Definition batchWithNullLog : value :=
  VObj [("documents", VArr [VObj [("url_doc", VStr "https://ex.com/a.pdf")]]);
        ("logs", VArr [VObj [("message", VStr "done")]; VNull])].
End ParserExamples.

Module DownloadExamples.
(** Three documents, a global obstacle and a log. *)
Definition threeText : string :=
  Reference.json
    "{'documents':[{'url_doc':'https://ex.com/files/a.pdf','document_name':'A'},{'url_doc':'https://ex.com/b','obstacles':'slow'},{'url_doc':'https://ex.com/c.pdf'}],'obstacles-globaux':['captcha'],'logs':[{'message':'m'}]}".

(** A database that stores nothing. *)
Definition refusing : Supabase :=
  {| respond := fun _ _ => Replied None (Some "permission denied") |}.
End DownloadExamples.

Module IdempotencyExamples.
(** A row without metadata, a row of another harvest, and a row of the
    harvest asked about. *)
Definition rows : list value :=
  [VObj [("id", VStr "r1")];
   VObj [("id", VStr "r2");
         ("metadata", VObj [("original_harvest_id", VStr "harvest-0")])];
   VObj [("id", VStr "r3");
         ("metadata", VObj [("original_harvest_id", VStr "harvest-1")])]].

(** A database that holds those rows. *)
Definition holding : Supabase :=
  {| respond := fun _ _ => Replied (Some (VArr rows)) None |}.
End IdempotencyExamples.

(** * Vocabulary of the statements *)

Section Judgements.
Context `{RT : Runtime} {L : Type}.

(** [m], started in [s], returns a value satisfying [Q] or throws a
    value satisfying [E]. *)
Definition triple {A} (m : M L A) (s : L * nat)
    (Q : A -> L * nat -> Prop) (E : thrown -> L * nat -> Prop) : Prop :=
  match m s with
  | (Returned a, s') => Q a s'
  | (Thrown e, s') => E e s'
  end.
End Judgements.

(** A state predicate kept by [m] whether it returns or throws. *)
Definition preserves `{RT : Runtime} {L A} (I : L * nat -> Prop) (m : M L A) : Prop :=
  forall s, I s -> triple m s (fun _ => I) (fun _ => I).

Section ExtractVocabulary.
Import JsonImportValidator.
Context `{RT : Runtime}.

(** The trimmed [url_doc] of an entry, and of a cleaned document. *)
Definition trimmedUrl (field : jsval) : string :=
  match field with
  | Some (VStr s) => trim s
  | _ => EmptyString
  end.
Definition urlKey (doc : value) : string := trimmedUrl (get doc "url_doc").
Definition cleanKey (d : CleanDocument) : string := trimmedUrl (url_doc d).

(** [d] is the cleaned form of the entry [doc]: what the [map] of
    [extractValidData] makes of it at some reading of the clock. *)
Definition cleanedFrom (doc : value) (d : CleanDocument) : Prop :=
  exists t, fst (cleanDocument (L := unit) doc (tt, t)) = Returned d.

(** The entries kept by the de-duplicating filter, as a function of the
    URLs already seen. *)
Fixpoint firstByUrl (seen : gset string) (docs : list value) : list value :=
  match docs with
  | [] => []
  | doc :: rest =>
      if bool_decide (urlKey doc ∈ seen) then firstByUrl seen rest
      else doc :: firstByUrl ({[ urlKey doc ]} ∪ seen) rest
  end.

(** The documents of [JSON.parse(text)], when it has an array of them. *)
Definition documentsOf (text : string) : option (list value) :=
  match JSON_parse text with
  | Returned VNull | Thrown _ => None
  | Returned data => asArray (get data "documents")
  end.

End ExtractVocabulary.

Section ClockVocabulary.
Context `{RT : Runtime}.

(** From [t] and from [t'] on, the clock gives the same readings. *)
Definition sameReadings (t t' : nat) : Prop :=
  forall k, clock (t + k) = clock (t' + k).

(** [m] sees the clock only through the readings it takes: started at
    two points from which the readings agree, it ends alike. *)
Definition steady {L A} (m : M L A) : Prop :=
  forall l t t',
    sameReadings t t' ->
    exists o l' d,
      m (l, t) = (o, (l', t + d)%nat) /\ m (l, t') = (o, (l', t' + d)%nat).

(** [m] run twice in a row. *)
Definition twice {L A} (m : M L A) : M L (A * A) :=
  r1 <- m ;; r2 <- m ;; ret (r1, r2).
End ClockVocabulary.

Section ValidatorVocabulary.
Import JsonImportValidator.

Definition onHeap {L} (I : L -> Prop) : L * nat -> Prop := fun s => I (fst s).

(** A finding that names no log and no document beyond index [n]. *)
Definition aboutDocumentsUpTo (n : nat) (f : ValidationError) : Prop :=
  logIndex f = None /\ forall i, documentIndex f = Some i -> (i <= n)%nat.

(** Nothing in the report comes from a log or from a document beyond
    index [n]. *)
Definition reportsDocumentsUpTo (n : nat) (l : Locals) : Prop :=
  Forall (aboutDocumentsUpTo n) (l_errors l)
  /\ Forall (aboutDocumentsUpTo n) (l_warnings l)
  /\ totalLogs (l_summary l) = 0%nat
  /\ validLogs (l_summary l) = 0%nat.

(** [v] is truthy and not a string. *)
Definition truthyNonString (v : jsval) : bool := truthy v && negb (isString v).
End ValidatorVocabulary.

Section ImporterVocabulary.
Import HarvestDataImporter.

(** A predicate on the locals of a call that runs next to a world. *)
Definition onLocals {P Loc} (I : Loc -> Prop) : (World P * Loc) * nat -> Prop :=
  fun s => I (snd (fst s)).

(** [m] returns, keeping [I]. *)
Definition total `{RT : Runtime} {L A} (I : L * nat -> Prop) (m : M L A) : Prop :=
  forall s, I s -> triple m s (fun _ => I) (fun _ _ => False).

(** Nothing was imported yet, as far as [result] tells. *)
Definition nothingImported (l : Locals) : Prop :=
  success (result l) = false /\ documentsImported (result l) = 0%nat.

(** [result.documentsImported] has been set from the counter. *)
Definition countSettled (l : Locals) : Prop :=
  documentsImported (result l) = l_documentsImported l.

(** [success] is what the last statement of the import makes it. *)
Definition successRule (r : ImportResult) : Prop :=
  success r = ((length (errors r) =? 0)%nat || (0 <? documentsImported r)%nat).
End ImporterVocabulary.

Section ComparisonVocabulary.
Import HarvestDataParser.
Context `{RT : Runtime}.

(** Two states of [parseStructuredData] that differ at most in the
    warnings collected so far. *)
Definition agree (s1 s2 : Locals * nat) : Prop :=
  l_parsedData (fst s1) = l_parsedData (fst s2) /\ snd s1 = snd s2.

(** From states that agree, [m1] and [m2] end alike: both return, with
    values related by [R], or both throw the same value; and the
    states they reach agree. *)
Definition akin {A} (R : A -> A -> Prop) (m1 m2 : M Locals A) : Prop :=
  forall s1 s2,
    agree s1 s2 ->
    match m1 s1, m2 s2 with
    | (Returned a1, s1'), (Returned a2, s2') => R a1 a2 /\ agree s1' s2'
    | (Thrown e1, s1'), (Thrown e2, s2') => e1 = e2 /\ agree s1' s2'
    | _, _ => False
    end.

(** Two parse results that differ at most in their warnings. *)
Definition sameParse (p1 p2 : ParseResult) : Prop :=
  success p1 = success p2 /\ data p1 = data p2 /\ error p1 = error p2.

(** An entry that [parseDocument] does not keep for want of a usable
    [url_doc]: the field is missing, is not a string, or is blank. *)
Definition lacksUrlDoc (doc : value) : Prop :=
  match get doc "url_doc" with
  | Some (VStr s) => trim s = EmptyString
  | _ => True
  end.

(** An entry that [parseDocument] keeps although its [url_doc] is not an
    address: a string that is not blank and that [new URL] refuses once
    trimmed. *)
Definition unparseableUrlDoc (doc : value) : Prop :=
  truthy (Some doc) = true /\ isObject (Some doc) = true
  /\ exists u, get doc "url_doc" = Some (VStr u)
               /\ trim u <> EmptyString /\ URL_parses (trim u) = false.

(** The [url_doc] of a parsed document is not an address. *)
Definition unparseable (d : ParsedDocument) : Prop := URL_parses (url_doc d) = false.

(** Some document parsed so far has a [url_doc] that is not an address. *)
Definition holdsUnparseable (l : Locals) : Prop :=
  Exists unparseable (documents (l_parsedData l)).

(** The parsed documents are [ds]. *)
Definition parsedAre (ds : list ParsedDocument) (l : Locals) : Prop :=
  documents (l_parsedData l) = ds.
End ComparisonVocabulary.

Section BatchVocabulary.
(** [data] with its [documents] replaced by [docs]. *)
Definition replaceDocuments (docs : list value) (data : value) : value :=
  match data with
  | VObj props => VObj (setProp "documents" (VArr docs) props)
  | other => other
  end.

Definition withDocuments (docs : list value) (harvestResult : HarvestResult)
  : HarvestResult :=
  {| hr_id := hr_id harvestResult;
     hr_config_id := hr_config_id harvestResult;
     hr_data := replaceDocuments docs (hr_data harvestResult) |}.
End BatchVocabulary.

Section ScenarioVocabulary.
Import HarvestDataParser HarvestDataImporter.

(** The first snapshot of [importHarvestData]. *)
Definition parsingSnapshot : ImportProgress :=
  {| phase := parsing;
     progress_message := "Analyse des données de moissonnage...";
     progress := 10; documentsProcessed := 0; totalDocuments := 0;
     progress_errors := []; progress_warnings := [] |}.

(** What the scenario follows of a state of [importHarvestData]: the
    phases observed so far, whether a callback is registered,
    [result.errors], the counter of imported documents and
    [result.documentsImported]. *)
Definition view (s : (World ImportProgress * Locals) * nat)
  : list Phase * bool * list string * nat * nat :=
  (map phase (observed (fst (fst s))),
   progressCallback (fst (fst s)),
   errors (result (snd (fst s))),
   l_documentsImported (snd (fst s)),
   documentsImported (result (snd (fst s)))).

(** [v] is missing, falsy, or a string: [v || ''] is a string. *)
Definition stringOrMissing (v : jsval) : bool := negb (truthy v) || isString v.

(** An entry of a valid batch: an object whose [url_doc] is a string
    that is not blank and, once trimmed, parses as a URL; its
    [document_name] and [filename], if any, are strings. *)
Definition validEntry `{RT : Runtime} (doc : value) : Prop :=
  truthy (Some doc) = true
  /\ isObject (Some doc) = true
  /\ (exists u, get doc "url_doc" = Some (VStr u)
                /\ trim u <> EmptyString
                /\ URL_parses (trim u) = true)
  /\ stringOrMissing (get doc "document_name") = true
  /\ stringOrMissing (get doc "filename") = true.

(** The parsed form of such an entry. *)
Definition validDocument `{RT : Runtime} (d : ParsedDocument) : Prop :=
  url_doc d <> EmptyString
  /\ trim (url_doc d) <> EmptyString
  /\ URL_parses (url_doc d) = true
  /\ isString (Some (document_name d)) = true
  /\ isString (Some (filename d)) = true.

(** No entry of [logs], if there is such an array, is [null]. *)
Definition logsWellFormed (props : list (string * value)) : Prop :=
  match asArray (assoc "logs" props) with
  | Some entries => Forall (fun log => log <> VNull) entries
  | None => True
  end.

(** The view of the state is [v]. *)
Definition seen (v : list Phase * bool * list string * nat * nat)
    (s : (World ImportProgress * Locals) * nat) : Prop :=
  view s = v.
End ScenarioVocabulary.


Section ReportVocabulary.
Import JsonImportValidator.
Context `{RT : Runtime}.

(** An entry that [validateDocument] accepts: an object whose [url_doc]
    is a string, not blank, that [new URL] accepts as it is written. *)
Definition acceptedEntry (doc : value) : bool :=
  truthy (Some doc) && isObject (Some doc)
  && match get doc "url_doc" with
     | Some (VStr u) => negb (String.eqb (trim u) EmptyString) && URL_parses u
     | _ => false
     end.

(** A finding of severity [sev] about the document at index [i], and
    one about the log at index [i]. *)
Definition aboutDocument (sev : Severity) (i : nat) (f : ValidationError) : Prop :=
  severity f = sev /\ documentIndex f = Some i /\ logIndex f = None.
Definition aboutLog (sev : Severity) (i : nat) (f : ValidationError) : Prop :=
  severity f = sev /\ documentIndex f = None /\ logIndex f = Some i.

(** Since [l0], the report has grown by [ne] errors, each satisfying
    [Pe], and by warnings satisfying [Pw]; [summary] is as it was. *)
Definition grownL (Pe Pw : ValidationError -> Prop) (l0 : Locals) (ne : nat)
    (l : Locals) : Prop :=
  exists es ws,
    l_errors l = l_errors l0 ++ es
    /\ l_warnings l = l_warnings l0 ++ ws
    /\ l_summary l = l_summary l0
    /\ length es = ne /\ Forall Pe es /\ Forall Pw ws.

(** The [logs] field of a valid file: absent (or falsy), or an array of
    [n] objects. *)
Definition logsAccepted (data : value) (n : nat) : Prop :=
  (truthy (get data "logs") = false /\ n = 0%nat)
  \/ (exists entries,
        asArray (get data "logs") = Some entries
        /\ Forall (fun log => isLogObject log = true) entries
        /\ n = length entries).

(** What a text is when its report is valid. *)
Definition wellFormedBatch (text : string) (docs : list value) (nlogs : nat) : Prop :=
  exists data,
    JSON_parse text = Returned data
    /\ truthy (Some data) = true /\ isObject (Some data) = true
    /\ asArray (get data "documents") = Some docs
    /\ Forall (fun doc => acceptedEntry doc = true) docs
    /\ NoDup (map urlKey docs)
    /\ logsAccepted data nlogs.

(** Since [l0], the report has grown by [ne] errors and by some
    warnings, and [dv] documents and [dl] logs were counted valid; the
    totals of [summary] are as they were. *)
Definition tallied (l0 l : Locals) (ne dv dl : nat) : Prop :=
  exists es ws,
    l_errors l = l_errors l0 ++ es
    /\ l_warnings l = l_warnings l0 ++ ws
    /\ length es = ne
    /\ totalDocuments (l_summary l) = totalDocuments (l_summary l0)
    /\ totalLogs (l_summary l) = totalLogs (l_summary l0)
    /\ validDocuments (l_summary l) = (validDocuments (l_summary l0) + dv)%nat
    /\ validLogs (l_summary l) = (validLogs (l_summary l0) + dl)%nat.

(** How many entries satisfy [p]. *)
Definition countIf {A} (p : A -> bool) (xs : list A) : nat := length (List.filter p xs).

(** The entry of [urlDocMap] is reported as a duplicate. *)
Definition isDuplicate (entry : string * list nat) : bool :=
  (1 <? length (snd entry))%nat.

(** What the report holds of the [documents] of [data] once they have
    been gone through, [eD] being the number of errors they caused: an
    error for a missing array; or else an error for each URL that comes
    more than once and one for each entry that is not accepted. *)
Definition documentsTallied (data : value) (l : Locals) (eD : nat) : Prop :=
  match asArray (get data "documents") with
  | Some docs =>
      eD = (countIf isDuplicate (collectUrlsFrom 0 docs [])
            + countIf (fun d => negb (acceptedEntry d)) docs)%nat
      /\ totalDocuments (l_summary l) = length docs
      /\ validDocuments (l_summary l) = countIf acceptedEntry docs
  | None =>
      eD = 1%nat
      /\ totalDocuments (l_summary l) = 0%nat
      /\ validDocuments (l_summary l) = 0%nat
  end.

(** The same for the [logs]: no error when the field is absent, one when
    it is not an array, or else one for each entry that is not an
    object. *)
Definition logsTallied (data : value) (l : Locals) (eL : nat) : Prop :=
  if truthy (get data "logs") then
    match asArray (get data "logs") with
    | Some entries =>
        eL = countIf (fun e => negb (isLogObject e)) entries
        /\ totalLogs (l_summary l) = length entries
        /\ validLogs (l_summary l) = countIf isLogObject entries
    | None =>
        eL = 1%nat /\ totalLogs (l_summary l) = 0%nat /\ validLogs (l_summary l) = 0%nat
    end
  else eL = 0%nat /\ totalLogs (l_summary l) = 0%nat /\ validLogs (l_summary l) = 0%nat.

(** The report once the body of the [try] block of [validateImportJson]
    has run to its end on the object [data]. *)
Definition bodyDone (data : value) (l : Locals) : Prop :=
  exists eD eL,
    length (l_errors l) = (eD + eL)%nat
    /\ documentsTallied data l eD /\ logsTallied data l eL.

(** The indices recorded for [url] in [urlDocMap]. *)
Definition indicesOf (url : string) (urlDocMap : list (string * list nat)) : list nat :=
  match List.find (fun e => String.eqb (fst e) url) urlDocMap with
  | Some e => snd e
  | None => []
  end.

(** The entry is one that the search for duplicates records. *)
Definition recorded (doc : value) : bool :=
  match get doc "url_doc" with
  | Some (VStr s) =>
      truthy (Some doc) && negb (String.eqb s EmptyString)
      && negb (String.eqb (trim s) EmptyString)
  | _ => false
  end.
End ReportVocabulary.


Section ParserVocabulary.
Import HarvestDataParser.
Context `{RT : Runtime}.

(** An entry of [documents] that [parseDocument] keeps: an object whose
    [url_doc] is a string that is not blank. *)
Definition usableEntry (doc : value) : bool :=
  truthy (Some doc) && isObject (Some doc)
  && match get doc "url_doc" with
     | Some (VStr u) => negb (String.eqb (trim u) EmptyString)
     | _ => false
     end.

(** [annee] as the parser leaves it: 0, or a number from 1900 to the
    year after the one the clock shows at some reading. *)
Definition plausibleAnnee (v : value) : Prop :=
  v = VInt 0
  \/ exists y k, v = VNum y /\ numberGe y 1900 = true
                 /\ numberLe y (getFullYear (clock k) + 1) = true.

(** [d] is what the parser makes of the entry [doc]. *)
Definition parsedFrom (doc : value) (d : ParsedDocument) : Prop :=
  url_doc d = urlKey doc
  /\ url_doc d <> EmptyString
  /\ trim (url_doc d) = url_doc d
  /\ plausibleAnnee (annee d)
  /\ document_name d = jsor (get doc "document_name") (VStr EmptyString)
  /\ filename d = jsor (get doc "filename") (VStr EmptyString).

Definition isNull (v : value) : bool :=
  match v with VNull => true | _ => false end.

Definition hasMessage (log : value) : bool := truthy (get log "message").

(** [p] is what the parser makes of the log entry [log]. *)
Definition parsedLogFrom (log : value) (p : ParsedLog) : Prop :=
  get log "message" = Some (message p)
  /\ truthy (Some (message p)) = true
  /\ level p = jsor (get log "level") (VStr "info")
  /\ truthy (Some (level p)) = true.

(** The entries of the [documents] and [logs] arrays of the data, none
    when the field is not an array. *)
Definition documentEntries (v : value) : list value :=
  match asArray (get v "documents") with Some docs => docs | None => [] end.
Definition logEntries (v : value) : list value :=
  match asArray (get v "logs") with Some entries => entries | None => [] end.

(** The data that come out of a successful parse of [v]. *)
Definition parsedAs (v : value) (pd : ParsedHarvestData) : Prop :=
  Forall2 parsedFrom (List.filter usableEntry (documentEntries v)) (documents pd)
  /\ Forall (fun o => o <> EmptyString /\ trim o = o) (obstacles_globaux pd)
  /\ (forall r, recommandations pd = Some r -> trim r = r)
  /\ Forall2 parsedLogFrom (List.filter hasMessage (logEntries v)) (logs pd).

(** The data are an object (an array included), not [null]. *)
Definition isData (v : value) : bool := truthy (Some v) && isObject (Some v).
End ParserVocabulary.


Section PassingVocabulary.
Context `{RT : Runtime}.

(** The batches that [importHarvestData] goes on to write: the data are
    an object, no log entry is [null], at least one entry of
    [documents] is usable, and the trimmed [url_doc] of every usable
    entry is an address. *)
Definition passes (v : value) : bool :=
  isData v
  && negb (existsb isNull (logEntries v))
  && negb (length (List.filter usableEntry (documentEntries v)) =? 0)%nat
  && forallb (fun doc => URL_parses (urlKey doc))
       (List.filter usableEntry (documentEntries v)).
End PassingVocabulary.


Section TraceVocabulary.
Import HarvestDataParser HarvestDataImporter.
Context `{RT : Runtime} `{DB : Supabase}.

(** The answer on which [createResult] and [updateDataSource] return:
    no error, and the stored row. *)
Definition storesResult (answer : reply) : bool :=
  match answer with
  | Replied (Some d) None => negb (isNull d)
  | _ => false
  end.

(** The answer on which [createLog] returns. *)
Definition storesLog (answer : reply) : bool :=
  match answer with
  | Replied _ None => true
  | _ => false
  end.

(** How many of the requests [reqs], sent one after the other once [h]
    was sent, get an answer that satisfies [ok]. *)
Fixpoint acknowledged (ok : reply -> bool) (h reqs : list request) : nat :=
  match reqs with
  | [] => 0
  | r :: rest =>
      (if ok (respond h r) then 1 else 0) + acknowledged ok (h ++ [r]) rest
  end.

(** [${v}] does not throw. *)
Definition renders (v : value) : bool :=
  match toString v with
  | Returned _ => true
  | Thrown _ => false
  end.

(** The names of an entry can be shown in a message. *)
Definition nameRenders (doc : value) : bool :=
  renders (jsor (get doc "document_name") (VStr EmptyString))
  && renders (jsor (get doc "filename") (VStr EmptyString)).

(** [r] inserts the entry [doc] in [harvest_results] for the source and
    the harvest at hand. *)
Definition insertsDocument (hr : HarvestResult) (ds : DataSource)
    (doc : value) (r : request) : Prop :=
  exists row metadata,
    r = Insert "harvest_results" row
    /\ get row "data_source_id" = Some (VStr (ds_id ds))
    /\ get row "metadata" = Some metadata
    /\ get metadata "document_url" = Some (VStr (urlKey doc))
    /\ get metadata "original_harvest_id" = Some (VStr (hr_id hr)).

(** [r] inserts the log entry [log] in [harvest_logs]. *)
Definition insertsLog (ds : DataSource) (log : value) (r : request) : Prop :=
  exists row,
    r = Insert "harvest_logs" row
    /\ get row "data_source_id" = Some (VStr (ds_id ds))
    /\ get row "message" = get log "message".

(** At most one update, of the source at hand. *)
Definition updatesSite (ds : DataSource) (reqs : list request) : Prop :=
  reqs = [] \/ exists changes, reqs = [Update "data_sources" (ds_id ds) changes].

(** [r] inserts the closing log of an import. *)
Definition insertsFinalLog (ds : DataSource) (r : request) : Prop :=
  exists row,
    r = Insert "harvest_logs" row
    /\ get row "data_source_id" = Some (VStr (ds_id ds))
    /\ get row "level" = Some (VStr "info").

(** The requests sent so far are [snt] and the locals are [l]. *)
Definition reached {P Loc} (snt : list request) (l : Loc)
    (s : (World P * Loc) * nat) : Prop :=
  sent (fst (fst s)) = snt /\ snd (fst s) = l.

(** The locals after [n] more documents were counted and the errors
    [es] recorded. *)
Definition afterDocuments (l : Locals) (n : nat) (es : list string) : Locals :=
  {| result := withErrors (errors (result l) ++ es) (result l);
     l_documentsImported := l_documentsImported l + n;
     l_logsImported := l_logsImported l |}.

(** The locals after [n] more logs were counted. *)
Definition afterLogs (l : Locals) (n : nat) : Locals :=
  {| result := result l;
     l_documentsImported := l_documentsImported l;
     l_logsImported := l_logsImported l + n |}.

(** From [l] to [l'] the errors [es] were recorded and no count moved. *)
Definition afterSite (l l' : Locals) (es : list string) : Prop :=
  errors (result l') = errors (result l) ++ es
  /\ warnings (result l') = warnings (result l)
  /\ documentsImported (result l') = documentsImported (result l)
  /\ logsImported (result l') = logsImported (result l)
  /\ l_documentsImported l' = l_documentsImported l
  /\ l_logsImported l' = l_logsImported l.
End TraceVocabulary.


Section DownloadVocabulary.
Import JsonImportValidator HarvestImportService HarvestImportPhases.
Context `{RT : Runtime} `{DB : Supabase} `{BR : Browser}.

(** The HEAD request for the document at index [i] is answered, and the
    answer is [ok]. *)
Definition answersOk (i : nat) (url : jsval) : bool :=
  match url with
  | Some (VStr u) =>
      match fetchHead i u with
      | Returned answer => ok answer
      | Thrown _ => false
      end
  | _ => false
  end.

(** How many of the documents with the addresses [urls], the first of
    which has index [i], get such an answer. *)
Fixpoint reachableFrom (i : nat) (urls : list jsval) : nat :=
  match urls with
  | [] => 0
  | url :: rest => (if answersOk i url then 1 else 0) + reachableFrom (S i) rest
  end.

(** The names of the entry are strings, if it has any, and its
    [obstacles] can be shown in a message. *)
Definition showable (doc : value) : bool :=
  stringOrMissing (get doc "document_name")
  && stringOrMissing (get doc "filename")
  && renders (jsor (get doc "obstacles") (VStr EmptyString)).

(** A cleaned document that the download loop carries to the HEAD
    request, and whose messages can be written. *)
Definition ready (d : CleanDocument) : Prop :=
  (exists u, url_doc d = Some (VStr u) /\ u <> EmptyString /\ URL_parses u = true)
  /\ isString (Some (document_name d)) = true
  /\ isString (Some (filename d)) = true
  /\ renders (obstacles d) = true.

(** [r] saves, in one row of [harvest_results], a batch of [n] documents
    of which [reached] could be reached. *)
Definition savesBatch (ds : DataSource) (n reached : nat) (r : request) : Prop :=
  exists row data metadata docs,
    r = Insert "harvest_results" row
    /\ get row "data_source_id" = Some (VStr (ds_id ds))
    /\ get row "status" = Some (VStr "success")
    /\ get row "data" = Some data
    /\ get data "documents" = Some (VArr docs)
    /\ length docs = n
    /\ get row "metadata" = Some metadata
    /\ get metadata "total_documents" = Some (HarvestImportPhases.natValue n)
    /\ get metadata "successful_downloads"
       = Some (HarvestImportPhases.natValue reached)
    /\ get metadata "failed_downloads"
       = Some (HarvestImportPhases.natValue (n - reached)).

(** [p] is what the download loop keeps of the document at index [i]
    whose address is [url]: the address, whether it could be reached, a
    file name that is not empty, and a local path, under [localPath],
    only when it could be reached. *)
Definition savedAs (localPath : string) (i : nat) (url : jsval) (p : value)
  : Prop :=
  get p "url_doc" = url
  /\ get p "download_success" = Some (VBool (answersOk i url))
  /\ exists name,
       get p "filename" = Some (VStr name)
       /\ name <> EmptyString
       /\ get p "local_path"
          = Some (VStr (if answersOk i url then localPath +:+ "/" +:+ name
                        else EmptyString)).

Fixpoint savedFrom (localPath : string) (i : nat) (urls : list jsval)
    (ps : list value) : Prop :=
  match urls, ps with
  | [], [] => True
  | url :: urls', p :: ps' =>
      savedAs localPath i url p /\ savedFrom localPath (S i) urls' ps'
  | _, _ => False
  end.

(** [r] saves, in one row, what the loop kept of each document. *)
Definition keepsDocuments (localPath : string) (urls : list jsval)
    (r : request) : Prop :=
  exists row data ps,
    r = Insert "harvest_results" row
    /\ get row "data" = Some data
    /\ get data "documents" = Some (VArr ps)
    /\ savedFrom localPath 0 urls ps.

(** [r] inserts a log for the source at hand. *)
Definition isLogInsert (ds : DataSource) (r : request) : Prop :=
  exists row,
    r = Insert "harvest_logs" row
    /\ get row "data_source_id" = Some (VStr (ds_id ds)).

(** The result with which [importHarvestResults] rejects a file. *)
Definition rejection (messages : list string) : ImportResult :=
  {| success := false; documentsImported := 0; documentsWithErrors := 0;
     logsImported := 0; localPath := EmptyString; errors := messages |}.
End DownloadVocabulary.


Section IdempotencyVocabulary.
(** The row references the harvest [id] as the one it was imported
    from. *)
Definition mentionsHarvest (id : string) (row : value) : bool :=
  match get row "metadata" with
  | Some metadata =>
      match get metadata "original_harvest_id" with
      | Some (VStr s) => String.eqb s id
      | _ => false
      end
  | None => false
  end.
End IdempotencyVocabulary.


Section CleanVocabulary.
Import JsonImportValidator.

(** What every result of [extractValidData] satisfies: each document
    has a [url_doc] that is a string and is not empty; the global
    obstacles are trimmed and none is empty; the recommandations, if
    any, are trimmed and not empty; each log has a level, a message and
    details. *)
Definition cleanResult (r : ExtractResult) : Prop :=
  Forall (fun d => exists u, url_doc d = Some (VStr u) /\ u <> EmptyString)
    (documents r)
  /\ Forall (fun o => o <> EmptyString /\ trim o = o) (obstacles_globaux r)
  /\ (forall rec, recommandations r = Some rec ->
                  rec <> EmptyString /\ trim rec = rec)
  /\ Forall (fun log => truthy (Some (level log)) = true
                        /\ truthy (Some (message log)) = true
                        /\ truthy (Some (details log)) = true)
       (logs r).
End CleanVocabulary.


Section ProgressVocabulary.
Import HarvestImportService.




End ProgressVocabulary.

(** * Reasoning about computations *)

Section Triples.
Context `{RT : Runtime} {L : Type}.

(** In this section the states are those of [L]. *)
Local Abbreviation triple := (triple (L := L)).

Lemma triple_ret {A} (a : A) s Q E : Q a s -> triple (ret a) s Q E.
Proof. exact id. Qed.

Lemma triple_throw {A} e s (Q : A -> _) E : E e s -> triple (throw e) s Q E.
Proof. exact id. Qed.

Lemma triple_bind {A B} (m : M L A) (k : A -> M L B) s Q E :
  triple m s (fun a s' => triple (k a) s' Q E) E -> triple (bind m k) s Q E.
Proof.
  unfold triple, bind. destruct (m s) as [[a|e] s']; exact id.
Qed.

Lemma triple_tryCatch {A} (m : M L A) h s Q E :
  triple m s Q (fun e s' => triple (h e) s' Q E) -> triple (tryCatch m h) s Q E.
Proof.
  unfold triple, tryCatch. destruct (m s) as [[a|e] s']; exact id.
Qed.

Lemma triple_weaken {A} (m : M L A) s (Q Q' : A -> _) (E E' : thrown -> _) :
  triple m s Q E ->
  (forall a s', Q a s' -> Q' a s') ->
  (forall e s', E e s' -> E' e s') ->
  triple m s Q' E'.
Proof.
  unfold triple. destruct (m s) as [[a|e] s']; eauto.
Qed.

Lemma triple_getL s Q E : Q (fst s) s -> triple getL s Q E.
Proof. exact id. Qed.

Lemma triple_modifyL f s Q E : Q tt (f (fst s), snd s) -> triple (modifyL f) s Q E.
Proof. exact id. Qed.

Lemma triple_newDate s Q E :
  Q (clock (snd s)) (fst s, S (snd s)) -> triple newDate s Q E.
Proof. exact id. Qed.

Lemma triple_liftOutcome {A} (o : outcome A) s Q E :
  match o with Returned a => Q a s | Thrown e => E e s end ->
  triple (liftOutcome o) s Q E.
Proof. unfold triple, liftOutcome. destruct o; exact id. Qed.

(** What a computation does is what every triple says of it. *)
Lemma triple_run {A} (m : M L A) s :
  triple m s (fun a s' => m s = (Returned a, s'))
             (fun e s' => m s = (Thrown e, s')).
Proof. unfold triple. destruct (m s) as [[a|e] s']; reflexivity. Qed.

Lemma triple_returned {A} (m : M L A) s a s' (Q : A -> _) E :
  m s = (Returned a, s') -> Q a s' -> triple m s Q E.
Proof. unfold triple. intros ->. exact id. Qed.

Lemma triple_thrown {A} (m : M L A) s e s' (Q : A -> _) E :
  m s = (Thrown e, s') -> E e s' -> triple m s Q E.
Proof. unfold triple. intros ->. exact id. Qed.

Lemma triple_returns {A} (m : M L A) s Q :
  triple m s Q (fun _ _ => False) ->
  exists a s', m s = (Returned a, s') /\ Q a s'.
Proof.
  unfold triple. destruct (m s) as [[a|e] s']; [eauto | tauto].
Qed.
End Triples.

Section Preservation.
Context `{RT : Runtime} {L : Type} (I : L * nat -> Prop).

Lemma preserves_ret {A} (a : A) : preserves I (ret a).
Proof. intros s H. exact H. Qed.

Lemma preserves_throw {A} e : preserves I (throw (A := A) e).
Proof. intros s H. exact H. Qed.

Lemma preserves_bind {A B} (m : M L A) (k : A -> M L B) :
  preserves I m -> (forall a, preserves I (k a)) -> preserves I (bind m k).
Proof.
  intros Hm Hk s H. apply triple_bind.
  eapply triple_weaken; [apply Hm, H | | auto].
  intros a s' H'. apply Hk, H'.
Qed.

Lemma preserves_tryCatch {A} (m : M L A) h :
  preserves I m -> (forall e, preserves I (h e)) -> preserves I (tryCatch m h).
Proof.
  intros Hm Hh s H. apply triple_tryCatch.
  eapply triple_weaken; [apply Hm, H | auto | ].
  intros e s' H'. apply Hh, H'.
Qed.

Lemma preserves_liftOutcome {A} (o : outcome A) : preserves I (liftOutcome o).
Proof. intros s H. apply triple_liftOutcome. destruct o; exact H. Qed.

Lemma preserves_getL : preserves I getL.
Proof. intros s H. exact H. Qed.

Lemma preserves_if {A} (b : bool) (m1 m2 : M L A) :
  preserves I m1 -> preserves I m2 -> preserves I (if b then m1 else m2).
Proof. destruct b; auto. Qed.

Lemma preserves_forEachFrom {A} (f : A -> nat -> M L unit) xs :
  forall i,
    (forall x j, x ∈ xs -> preserves I (f x j)) ->
    preserves I (forEachFrom f i xs).
Proof.
  induction xs as [|x xs IH]; intros i Hf; simpl.
  - apply preserves_ret.
  - apply preserves_bind.
    + apply Hf. left.
    + intros _. apply IH. intros y j Hy. apply Hf. right. exact Hy.
Qed.

Lemma preserves_mapM {A B} (f : A -> M L B) xs :
  (forall x, preserves I (f x)) -> preserves I (mapM f xs).
Proof.
  intros Hf. induction xs as [|x xs IH]; simpl.
  - apply preserves_ret.
  - apply preserves_bind; [apply Hf|]. intros y.
    apply preserves_bind; [apply IH|]. intros ys. apply preserves_ret.
Qed.

Lemma preserves_filterM {A} (f : A -> M L bool) xs :
  (forall x, preserves I (f x)) -> preserves I (filterM f xs).
Proof.
  intros Hf. induction xs as [|x xs IH]; simpl.
  - apply preserves_ret.
  - apply preserves_bind; [apply Hf|]. intros y.
    apply preserves_bind; [apply IH|]. intros ys. apply preserves_ret.
Qed.
End Preservation.

(** * Properties of [extractValidData] *)

Section ExtractLemmas.
Import JsonImportValidator.
Context `{RT : Runtime}.

Lemma cleanDocument_run {L} doc (l : L) t :
  exists d t',
    cleanDocument doc (l, t) = (Returned d, (l, t'))
    /\ url_doc d = get doc "url_doc"
    /\ cleanedFrom doc d.
Proof.
  unfold cleanedFrom, cleanDocument, jsorM.
  destruct (get doc "annee") as [v|] eqn:Hv;
    [destruct (truthy (Some v)) eqn:Ht|];
    cbn; do 2 eexists; (split; [reflexivity|]); (split; [reflexivity|]);
    exists t; rewrite ?Ht; reflexivity.
Qed.

Lemma mapM_cleanDocument_run {L} docs : forall (l : L) t,
  exists ds t',
    mapM cleanDocument docs (l, t) = (Returned ds, (l, t'))
    /\ Forall2 cleanedFrom docs ds
    /\ map url_doc ds = map (fun doc => get doc "url_doc") docs.
Proof.
  induction docs as [|doc docs IH]; intros l t.
  - exists [], t. repeat split; constructor.
  - destruct (cleanDocument_run doc l t) as (d & t1 & Hd & Hu & Hc).
    destruct (IH l t1) as (ds & t2 & Hds & Hall & Hmap).
    exists (d :: ds), t2. cbn. unfold bind at 1. rewrite Hd.
    unfold bind at 1. rewrite Hds. cbn. repeat split.
    + constructor; assumption.
    + rewrite Hu, Hmap. reflexivity.
Qed.

Lemma cleanLog_run {L} log (l : L) t :
  exists d t', cleanLog log (l, t) = (Returned d, (l, t')).
Proof.
  unfold cleanLog, jsorM.
  destruct (get log "timestamp") as [v|]; [destruct (truthy (Some v))|];
    cbn; eauto.
Qed.

Lemma mapM_cleanLog_run {L} entries : forall (l : L) t,
  exists ds t', mapM cleanLog entries (l, t) = (Returned ds, (l, t')).
Proof.
  induction entries as [|log entries IH]; intros l t.
  - exists [], t. reflexivity.
  - destruct (cleanLog_run log l t) as (d & t1 & Hd).
    destruct (IH l t1) as (ds & t2 & Hds).
    exists (d :: ds), t2. cbn. unfold bind at 1. rewrite Hd.
    unfold bind at 1. rewrite Hds. reflexivity.
Qed.

(** The de-duplicating filter returns exactly when every entry it is
    given has a string for [url_doc]; it then keeps the first entry of
    each trimmed URL not seen before, and reads no clock. *)
Lemma notSeenYet_string doc s (seen : gset string) t :
  get doc "url_doc" = Some (VStr s) ->
  notSeenYet doc (seen, t)
  = (Returned (negb (bool_decide (trim s ∈ seen))),
     (if bool_decide (trim s ∈ seen) then seen else {[ trim s ]} ∪ seen, t)).
Proof.
  intros H. unfold notSeenYet. rewrite H. cbn.
  destruct (bool_decide (trim s ∈ seen)); reflexivity.
Qed.

Lemma notSeenYet_not_string doc (seen : gset string) t :
  isString (get doc "url_doc") = false ->
  exists e, notSeenYet doc (seen, t) = (Thrown e, (seen, t)).
Proof.
  intros H. unfold notSeenYet.
  destruct (get doc "url_doc") as [[| | |s| |]|]; try discriminate H;
    cbn; eauto.
Qed.

Lemma filterM_notSeenYet_strings docs : forall (seen : gset string) t,
  Forall (fun doc => isString (get doc "url_doc") = true) docs ->
  exists seen',
    filterM notSeenYet docs (seen, t) = (Returned (firstByUrl seen docs), (seen', t)).
Proof.
  induction docs as [|doc docs IH]; intros seen t Hall.
  - exists seen. reflexivity.
  - inversion Hall as [|? ? Hdoc Hrest]; subst.
    destruct (get doc "url_doc") as [[| | |s| |]|] eqn:Hu; try discriminate Hdoc.
    cbn. unfold bind at 1. rewrite (notSeenYet_string _ s) by exact Hu.
    unfold urlKey, trimmedUrl. rewrite Hu.
    destruct (bool_decide (trim s ∈ seen)) eqn:Hseen; cbn.
    + destruct (IH seen t Hrest) as (seen' & Hk). exists seen'.
      unfold bind. rewrite Hk. reflexivity.
    + destruct (IH ({[ trim s ]} ∪ seen) t Hrest) as (seen' & Hk). exists seen'.
      unfold bind. rewrite Hk. reflexivity.
Qed.

Lemma filterM_notSeenYet_returned docs : forall (seen : gset string) t kept s',
  filterM notSeenYet docs (seen, t) = (Returned kept, s') ->
  Forall (fun doc => isString (get doc "url_doc") = true) docs.
Proof.
  induction docs as [|doc docs IH]; intros seen t kept s' H.
  - constructor.
  - cbn in H. unfold bind at 1 in H.
    destruct (isString (get doc "url_doc")) eqn:Hs.
    + destruct (get doc "url_doc") as [[| | |s| |]|] eqn:Hu; try discriminate Hs.
      rewrite (notSeenYet_string _ s) in H by exact Hu.
      unfold bind at 1 in H.
      destruct (filterM notSeenYet docs _) as [[kept'|e] s''] eqn:Hf;
        [|discriminate H].
      constructor; [rewrite Hu; reflexivity|].
      eapply IH. exact Hf.
    + destruct (notSeenYet_not_string doc seen t Hs) as (e & He).
      rewrite He in H. discriminate H.
Qed.
End ExtractLemmas.

Section FirstByUrl.
Context `{RT : Runtime}.

Lemma firstByUrl_sublist docs : forall seen, firstByUrl seen docs `sublist_of` docs.
Proof.
  induction docs as [|doc docs IH]; intros seen; simpl.
  - constructor.
  - destruct (bool_decide (urlKey doc ∈ seen)).
    + apply sublist_cons, IH.
    + apply sublist_skip, IH.
Qed.

Lemma firstByUrl_fresh docs : forall seen k,
  k ∈ firstByUrl seen docs -> urlKey k ∉ seen.
Proof.
  induction docs as [|doc docs IH]; intros seen k Hk; simpl in Hk.
  - inversion Hk.
  - destruct (bool_decide (urlKey doc ∈ seen)) eqn:Hseen.
    + eapply IH, Hk.
    + apply bool_decide_eq_false in Hseen.
      apply elem_of_cons in Hk as [-> | Hk]; [exact Hseen|].
      apply IH in Hk. set_solver.
Qed.

Lemma firstByUrl_NoDup docs : forall seen, NoDup (map urlKey (firstByUrl seen docs)).
Proof.
  induction docs as [|doc docs IH]; intros seen; simpl.
  - constructor.
  - destruct (bool_decide (urlKey doc ∈ seen)); [apply IH|].
    simpl. constructor; [|apply IH].
    intros Hin. apply list_elem_of_fmap in Hin as (k & Hk & Hin).
    apply firstByUrl_fresh in Hin. set_solver.
Qed.

Lemma firstByUrl_find u docs : forall seen,
  List.find (fun k => String.eqb (urlKey k) u) (firstByUrl seen docs)
  = if bool_decide (u ∈ seen) then None
    else List.find (fun d => String.eqb (urlKey d) u) docs.
Proof.
  induction docs as [|doc docs IH]; intros seen; simpl.
  - destruct (bool_decide (u ∈ seen)); reflexivity.
  - destruct (bool_decide (urlKey doc ∈ seen)) eqn:Hseen.
    + rewrite IH. destruct (bool_decide (u ∈ seen)) eqn:Hu; [reflexivity|].
      destruct (String.eqb (urlKey doc) u) eqn:He; [|reflexivity].
      apply String.eqb_eq in He. subst u. rewrite Hseen in Hu. discriminate Hu.
    + simpl. destruct (String.eqb (urlKey doc) u) eqn:He.
      * apply String.eqb_eq in He. subst u. rewrite Hseen. reflexivity.
      * rewrite IH. apply String.eqb_neq in He.
        apply bool_decide_eq_false in Hseen.
        destruct (bool_decide (u ∈ seen)) eqn:Hu.
        -- apply bool_decide_eq_true in Hu.
           rewrite bool_decide_eq_true_2; [reflexivity | set_solver].
        -- apply bool_decide_eq_false in Hu.
           rewrite bool_decide_eq_false_2; [reflexivity|].
           rewrite elem_of_union, elem_of_singleton. intros [Heq | Hin];
             [apply He; symmetry; exact Heq | exact (Hu Hin)].
Qed.

Lemma firstByUrl_count u docs : forall seen,
  length (List.filter (fun k => String.eqb (urlKey k) u) (firstByUrl seen docs))
  = if bool_decide (u ∈ seen) then 0%nat
    else if existsb (fun d => String.eqb (urlKey d) u) docs then 1%nat else 0%nat.
Proof.
  induction docs as [|doc docs IH]; intros seen; simpl.
  - destruct (bool_decide (u ∈ seen)); reflexivity.
  - destruct (bool_decide (urlKey doc ∈ seen)) eqn:Hseen.
    + rewrite IH. destruct (bool_decide (u ∈ seen)) eqn:Hu; [reflexivity|].
      destruct (String.eqb (urlKey doc) u) eqn:He; [|reflexivity].
      apply String.eqb_eq in He. subst u. rewrite Hseen in Hu. discriminate Hu.
    + simpl. destruct (String.eqb (urlKey doc) u) eqn:He; simpl.
      * apply String.eqb_eq in He. subst u. rewrite Hseen, IH.
        rewrite bool_decide_eq_true_2; [reflexivity | set_solver].
      * rewrite IH. apply String.eqb_neq in He.
        apply bool_decide_eq_false in Hseen.
        destruct (bool_decide (u ∈ seen)) eqn:Hu.
        -- apply bool_decide_eq_true in Hu.
           rewrite bool_decide_eq_true_2; [reflexivity | set_solver].
        -- apply bool_decide_eq_false in Hu.
           rewrite bool_decide_eq_false_2; [reflexivity|].
           rewrite elem_of_union, elem_of_singleton. intros [Heq | Hin];
             [apply He; symmetry; exact Heq | exact (Hu Hin)].
Qed.

Lemma find_filter {A} (p q : A -> bool) xs :
  List.find q (List.filter p xs) = List.find (fun x => p x && q x) xs.
Proof.
  induction xs as [|x xs IH]; simpl; [reflexivity|].
  destruct (p x); simpl; [|exact IH].
  destruct (q x); [reflexivity | exact IH].
Qed.

Lemma existsb_filter_elem {A} (p q : A -> bool) xs x :
  x ∈ xs -> p x = true -> q x = true -> existsb q (List.filter p xs) = true.
Proof.
  intros Hin Hp Hq. apply existsb_exists. exists x. split; [|exact Hq].
  apply filter_In. split; [|exact Hp]. apply list_elem_of_In, Hin.
Qed.

Lemma filter_sublist {A} (p : A -> bool) xs : List.filter p xs `sublist_of` xs.
Proof.
  induction xs as [|x xs IH]; simpl; [constructor|].
  destruct (p x); [apply sublist_skip | apply sublist_cons]; exact IH.
Qed.
End FirstByUrl.

Section ExtractTheorems.
Import JsonImportValidator.
Context `{RT : Runtime}.

Lemma documentsOf_parse text docs :
  documentsOf text = Some docs ->
  exists data,
    JSON_parse text = Returned data
    /\ (forall L (s : L * nat), getM (Some data) "documents" s
                                = (Returned (get data "documents"), s))
    /\ asArray (get data "documents") = Some docs.
Proof.
  unfold documentsOf. intros H.
  destruct (JSON_parse text) as [data|e]; [|discriminate H].
  exists data. destruct data; try discriminate H; auto.
Qed.

(** What the body of the [try] block does once the documents are known
    to pass the de-duplicating filter. *)
Lemma extractBody_run text docs t :
  documentsOf text = Some docs ->
  Forall (fun doc => isString (get doc "url_doc") = true)
         (List.filter hasUrlDoc docs) ->
  triple (extractBody text) (∅, t)
    (fun r _ =>
       Forall2 cleanedFrom (firstByUrl ∅ (List.filter hasUrlDoc docs)) (documents r)
       /\ map url_doc (documents r)
          = map (fun doc => get doc "url_doc")
                (firstByUrl ∅ (List.filter hasUrlDoc docs)))
    (fun _ _ => False).
Proof.
  intros Hdocs Hstr.
  destruct (documentsOf_parse _ _ Hdocs) as (data & Hparse & Hget & Harr).
  destruct (filterM_notSeenYet_strings _ ∅ t Hstr) as (seen & Hkept).
  destruct (mapM_cleanDocument_run
              (firstByUrl ∅ (List.filter hasUrlDoc docs)) seen t)
    as (ds & t1 & Hds & Hall & Hmap).
  unfold extractBody, keptDocuments.
  apply triple_bind, triple_liftOutcome. rewrite Hparse.
  apply triple_bind. eapply triple_returned; [apply Hget|]. rewrite Harr.
  apply triple_bind, triple_bind.
  eapply triple_returned; [apply Hkept|].
  eapply triple_returned; [apply Hds|].
  apply triple_bind.
  destruct (asArray (get data "logs")) as [entries|].
  - destruct (mapM_cleanLog_run (List.filter isLogObject entries) seen t1)
      as (lg & t2 & Hlg).
    eapply triple_returned; [apply Hlg|]. apply triple_ret. auto.
  - apply triple_ret, triple_ret. auto.
Qed.

(** Every document of the body's result comes from an entry whose
    [url_doc] is a non-empty string. *)
Lemma extractBody_documents text s :
  triple (extractBody text) s
    (fun r _ =>
       exists kept,
         Forall2 cleanedFrom kept (documents r)
         /\ map url_doc (documents r) = map (fun doc => get doc "url_doc") kept
         /\ Forall (fun doc => hasUrlDoc doc = true
                               /\ isString (get doc "url_doc") = true) kept)
    (fun _ _ => True).
Proof.
  unfold extractBody, keptDocuments.
  apply triple_bind, triple_liftOutcome.
  destruct (JSON_parse text) as [data|e]; [|exact I].
  apply triple_bind.
  destruct data; try exact I;
    (apply triple_ret;
     match goal with |- context [asArray ?f] => destruct (asArray f) as [docs|] eqn:Harr end;
     [|apply triple_bind, triple_ret, triple_bind;
       eapply triple_weaken;
       [apply triple_run | | intros; exact I];
       intros lg s' _; apply triple_ret; exists []; repeat split; constructor]).
  all: apply triple_bind, triple_bind.
  all: eapply triple_weaken; [apply triple_run | | intros; exact I].
  all: intros kept [seen t] Hkept; cbn beta.
  all: destruct s as [seen0 t0].
  all: pose proof (filterM_notSeenYet_returned _ _ _ _ _ Hkept) as Hstr.
  all: destruct (filterM_notSeenYet_strings _ seen0 t0 Hstr) as (seen' & Hrun).
  all: rewrite Hrun in Hkept; injection Hkept as <- <- <-.
  all: destruct (mapM_cleanDocument_run
                   (firstByUrl seen0 (List.filter hasUrlDoc docs)) seen' t0)
         as (ds & t1 & Hds & Hall & Hmap).
  all: unfold triple at 1; rewrite Hds.
  all: apply triple_bind.
  all: eapply triple_weaken; [apply triple_run | | intros; exact I].
  all: intros lg s' _; apply triple_ret.
  all: exists (firstByUrl seen0 (List.filter hasUrlDoc docs)).
  all: split; [exact Hall|]; split; [exact Hmap|].
  all: apply Forall_forall; intros doc Hin.
  all: assert (Hin' : doc ∈ List.filter hasUrlDoc docs)
         by (eapply elem_of_sublist; [exact Hin | apply firstByUrl_sublist]).
  all: split; [apply list_elem_of_In, filter_In in Hin'; tauto|].
  all: rewrite Forall_forall in Hstr; apply Hstr, Hin'.
Qed.
End ExtractTheorems.

Section ExtractClaims.
Import JsonImportValidator.
Context `{RT : Runtime}.

Lemma cleanedFrom_url_doc doc d : cleanedFrom doc d -> url_doc d = get doc "url_doc".
Proof.
  intros (t & Ht).
  destruct (cleanDocument_run doc tt t) as (d' & t' & Hrun & Hu & _).
  rewrite Hrun in Ht. injection Ht as <-. exact Hu.
Qed.

Lemma extractValidData_run {L} text (s : L * nat) :
  exists r s',
    extractValidData text s = (Returned r, s')
    /\ match extractBody text (∅, snd s) with
       | (Returned r', _) => r = r'
       | (Thrown _, _) => r = emptyResult
       end.
Proof.
  unfold extractValidData, scope, tryCatch.
  destruct (extractBody text (∅, snd s)) as [[r|e] [seen t]]; cbn; eauto.
Qed.

(** C1, amended: no document of the result is the cleaned form of an
    entry whose [url_doc] is missing, falsy ([null], [false], [0], the
    empty string) or not a string; the function always returns. *)
Theorem extractValidData_excludes_entries_without_url_doc {L} text (s : L * nat) :
  exists r s',
    extractValidData text s = (Returned r, s')
    /\ forall doc d,
         d ∈ documents r -> cleanedFrom doc d ->
         truthy (get doc "url_doc") = true
         /\ isString (get doc "url_doc") = true.
Proof.
  destruct (extractValidData_run text s) as (r & s' & Hrun & Hbody).
  exists r, s'. split; [exact Hrun|]. intros doc d Hd Hclean.
  pose proof (extractBody_documents text (∅, snd s)) as Hdocs.
  unfold triple in Hdocs.
  destruct (extractBody text (∅, snd s)) as [[r'|e] s1]; subst r.
  - destruct Hdocs as (kept & _ & Hmap & Hkept).
    apply cleanedFrom_url_doc in Hclean.
    assert (Hin : url_doc d ∈ map url_doc (documents r'))
      by (apply list_elem_of_fmap; eauto).
    rewrite Hmap in Hin. apply list_elem_of_fmap in Hin as (k & Hk & Hin).
    rewrite Forall_forall in Hkept. destruct (Hkept k Hin) as [Hhas Hstr].
    rewrite <- Hclean, Hk. split; [|exact Hstr].
    unfold hasUrlDoc in Hhas. apply andb_true_iff in Hhas. tauto.
  - inversion Hd.
Qed.




(** A truthy [url_doc] that is not a string, in any entry, makes the
    filter of the documents throw: the result is the all-empty one. *)
Lemma extractValidData_non_string_url_doc {L} text docs doc (s : L * nat) :
  documentsOf text = Some docs -> doc ∈ docs -> hasUrlDoc doc = true ->
  isString (get doc "url_doc") = false ->
  exists s', extractValidData text s = (Returned emptyResult, s').
Proof.
  intros Hdocs Hin Hhas Hstr.
  destruct (extractValidData_run text s) as (r & s' & Hrun & Hbody).
  exists s'. rewrite Hrun. f_equal. f_equal.
  pose proof (extractBody_documents text (∅, snd s)) as Hkept.
  unfold triple in Hkept.
  destruct (extractBody text (∅, snd s)) as [[r'|e] s1] eqn:Hb; [|exact Hbody].
  exfalso.
  destruct (documentsOf_parse _ _ Hdocs) as (data & Hparse & Hget & Harr).
  unfold extractBody, keptDocuments in Hb.
  unfold bind at 1 in Hb. unfold liftOutcome in Hb. rewrite Hparse in Hb.
  unfold bind at 1 in Hb. rewrite Hget, Harr in Hb.
  unfold bind at 1 in Hb. unfold bind at 1 in Hb.
  destruct (filterM notSeenYet (List.filter hasUrlDoc docs) (∅, snd s))
    as [[kept|e] s2] eqn:Hf; [|discriminate Hb].
  apply filterM_notSeenYet_returned in Hf. rewrite Forall_forall in Hf.
  rewrite Hf in Hstr; [discriminate Hstr|].
  apply list_elem_of_In, filter_In. split; [apply list_elem_of_In, Hin|exact Hhas].
Qed.


(** X19: when every entry that passes the first filter has a string for
    [url_doc], the documents of the result are the cleaned forms of a
    sub-list [kept] of the entries, in the order of the input; no two
    of them share a trimmed [url_doc]; and for every entry with a
    non-empty [url_doc], exactly one kept entry has its trimmed URL,
    the first such entry of the input. *)
Theorem extractValidData_keeps_first_of_each_url {L} text docs (s : L * nat) :
  documentsOf text = Some docs ->
  Forall (fun doc => hasUrlDoc doc = true -> isString (get doc "url_doc") = true)
         docs ->
  exists kept r s',
    extractValidData text s = (Returned r, s')
    /\ Forall2 cleanedFrom kept (documents r)
    /\ kept `sublist_of` docs
    /\ NoDup (map cleanKey (documents r))
    /\ forall doc,
         doc ∈ docs -> hasUrlDoc doc = true ->
         length (List.filter (fun k => String.eqb (urlKey k) (urlKey doc)) kept)
         = 1%nat
         /\ List.find (fun k => String.eqb (urlKey k) (urlKey doc)) kept
            = List.find (fun d => hasUrlDoc d && String.eqb (urlKey d) (urlKey doc))
                        docs.
Proof.
  intros Hdocs Hall.
  assert (Hstr : Forall (fun doc => isString (get doc "url_doc") = true)
                        (List.filter hasUrlDoc docs)).
  { apply Forall_forall. intros doc Hin.
    apply list_elem_of_In, filter_In in Hin as [Hin Hhas].
    rewrite Forall_forall in Hall. apply Hall; [apply list_elem_of_In, Hin|exact Hhas]. }
  destruct (extractValidData_run text s) as (r & s' & Hrun & Hbody).
  pose proof (extractBody_run text docs (snd s) Hdocs Hstr) as Hb.
  unfold triple in Hb.
  destruct (extractBody text (∅, snd s)) as [[r'|e] s1]; [subst r'|contradiction].
  destruct Hb as [Hclean Hmap].
  exists (firstByUrl ∅ (List.filter hasUrlDoc docs)), r, s'.
  split; [exact Hrun|]. split; [exact Hclean|]. split; [|split].
  - etransitivity; [apply firstByUrl_sublist | apply filter_sublist].
  - replace (map cleanKey (documents r))
      with (map urlKey (firstByUrl ∅ (List.filter hasUrlDoc docs))).
    + apply firstByUrl_NoDup.
    + transitivity (map trimmedUrl (map url_doc (documents r))).
      * rewrite Hmap. symmetry. apply map_map.
      * apply map_map.
  - intros doc Hin Hhas. split.
    + rewrite firstByUrl_count.
      rewrite bool_decide_eq_false_2 by set_solver.
      erewrite existsb_filter_elem; eauto. apply String.eqb_refl.
    + rewrite firstByUrl_find.
      rewrite bool_decide_eq_false_2 by set_solver.
      apply find_filter.
Qed.
End ExtractClaims.

(** * Dependence on the clock *)

Section Steady.
Context `{RT : Runtime}.

Lemma sameReadings_shift t t' d :
  sameReadings t t' -> sameReadings (t + d) (t' + d).
Proof.
  intros H k. rewrite <- !Nat.add_assoc. apply H.
Qed.

Lemma steady_pure {L A} (m : M L A) :
  (forall s, exists o l', m s = (o, (l', snd s))) ->
  (forall l t t', fst (m (l, t)) = fst (m (l, t'))
                  /\ fst (snd (m (l, t))) = fst (snd (m (l, t')))) ->
  steady m.
Proof.
  intros Hsame Hind l t t' _.
  destruct (Hsame (l, t)) as (o & l' & H1), (Hsame (l, t')) as (o' & l'' & H2).
  destruct (Hind l t t') as [Ho Hl]. rewrite H1, H2 in Ho, Hl. cbn in *. subst.
  exists o', l'', 0%nat. rewrite !Nat.add_0_r. auto.
Qed.

Lemma steady_ret {L A} (a : A) : steady (L := L) (ret a).
Proof. intros l t t' _. exists (Returned a), l, 0%nat. rewrite !Nat.add_0_r. auto. Qed.

Lemma steady_throw {L A} e : steady (L := L) (throw (A := A) e).
Proof. intros l t t' _. exists (Thrown e), l, 0%nat. rewrite !Nat.add_0_r. auto. Qed.

Lemma steady_liftOutcome {L A} (o : outcome A) : steady (L := L) (liftOutcome o).
Proof. intros l t t' _. exists o, l, 0%nat. rewrite !Nat.add_0_r. auto. Qed.

Lemma steady_getL {L} : steady (L := L) getL.
Proof. intros l t t' _. exists (Returned l), l, 0%nat. rewrite !Nat.add_0_r. auto. Qed.

Lemma steady_modifyL {L} (f : L -> L) : steady (modifyL f).
Proof.
  intros l t t' _. exists (Returned tt), (f l), 0%nat. rewrite !Nat.add_0_r. auto.
Qed.

Lemma steady_newDate {L} : steady (L := L) newDate.
Proof.
  intros l t t' H. exists (Returned (clock t)), l, 1%nat. unfold newDate. cbn.
  rewrite !Nat.add_1_r. split; [reflexivity|].
  specialize (H 0%nat). rewrite !Nat.add_0_r in H. rewrite H. reflexivity.
Qed.

Lemma steady_bind {L A B} (m : M L A) (k : A -> M L B) :
  steady m -> (forall a, steady (k a)) -> steady (bind m k).
Proof.
  intros Hm Hk l t t' H.
  destruct (Hm l t t' H) as (o & l1 & d & H1 & H2).
  unfold bind. rewrite H1, H2. destruct o as [a|e].
  - destruct (Hk a l1 _ _ (sameReadings_shift _ _ d H)) as (o' & l2 & d' & H3 & H4).
    exists o', l2, (d + d')%nat. rewrite H3, H4, !Nat.add_assoc. auto.
  - exists (Thrown e), l1, d. auto.
Qed.

Lemma steady_tryCatch {L A} (m : M L A) h :
  steady m -> (forall e, steady (h e)) -> steady (tryCatch m h).
Proof.
  intros Hm Hh l t t' H.
  destruct (Hm l t t' H) as (o & l1 & d & H1 & H2).
  unfold tryCatch. rewrite H1, H2. destruct o as [a|e].
  - exists (Returned a), l1, d. auto.
  - destruct (Hh e l1 _ _ (sameReadings_shift _ _ d H)) as (o' & l2 & d' & H3 & H4).
    exists o', l2, (d + d')%nat. rewrite H3, H4, !Nat.add_assoc. auto.
Qed.

Lemma steady_scope {L L' A} (init : L') (m : M L' A) :
  steady m -> steady (L := L) (scope init m).
Proof.
  intros Hm l t t' H.
  destruct (Hm init t t' H) as (o & l1 & d & H1 & H2).
  exists o, l, d. unfold scope. cbn. rewrite H1, H2. auto.
Qed.

Lemma steady_mapM {L A B} (f : A -> M L B) xs :
  (forall x, steady (f x)) -> steady (mapM f xs).
Proof.
  intros Hf. induction xs as [|x xs IH]; simpl.
  - apply steady_ret.
  - apply steady_bind; [apply Hf|]. intros y.
    apply steady_bind; [apply IH|]. intros ys. apply steady_ret.
Qed.

Lemma steady_filterM {L A} (f : A -> M L bool) xs :
  (forall x, steady (f x)) -> steady (filterM f xs).
Proof.
  intros Hf. induction xs as [|x xs IH]; simpl.
  - apply steady_ret.
  - apply steady_bind; [apply Hf|]. intros y.
    apply steady_bind; [apply IH|]. intros ys. apply steady_ret.
Qed.

Lemma steady_if {L A} (b : bool) (m1 m2 : M L A) :
  steady m1 -> steady m2 -> steady (if b then m1 else m2).
Proof. destruct b; auto. Qed.
End Steady.

Ltac steady_step :=
  first
    [ apply steady_ret | apply steady_throw | apply steady_liftOutcome
    | apply steady_getL | apply steady_modifyL | apply steady_newDate
    | apply steady_bind | apply steady_tryCatch | apply steady_scope
    | apply steady_mapM | apply steady_filterM
    | match goal with
      | |- forall _, _ => intro
      | |- steady (if ?b then _ else _) => destruct b
      | |- steady (match ?x with _ => _ end) => destruct x
      end ].

Section ExtractSteady.
Import JsonImportValidator.
Context `{RT : Runtime}.

Lemma extractValidData_steady {L} text : steady (L := L) (extractValidData text).
Proof.
  unfold extractValidData, extractBody, keptDocuments, notSeenYet, cleanDocument,
    cleanLog, jsorM, getM, callTrim.
  repeat steady_step.
Qed.

Lemma extractValidData_keeps_heap {L} text (l : L) t :
  exists o t', extractValidData text (l, t) = (o, (l, t')).
Proof.
  unfold extractValidData, scope. cbn.
  destruct (tryCatch (extractBody text) _ (∅, t)) as [o [seen t']]. eauto.
Qed.

(** C8, amended: two calls in a row on the same text return equal
    results whenever the clock shows the same instant at every reading
    they take; it is from the clock that a document without [annee]
    gets its year and a log without [timestamp] its time. *)
Theorem extractValidData_twice_same_instant {L} text (s : L * nat) :
  (forall k, clock (snd s + k) = clock (snd s)) ->
  exists r s', twice (extractValidData text) s = (Returned (r, r), s').
Proof.
  destruct s as [l t]. cbn. intros Hfrozen.
  destruct (extractValidData_run text (l, t)) as (r & s1 & Hrun & _).
  destruct (extractValidData_keeps_heap text l t) as (o & t1 & Hkeep).
  rewrite Hrun in Hkeep. injection Hkeep as <- ->.
  destruct (extractValidData_steady (L := L) text l t t)
    as (o & l' & d & H1 & _); [intros k; reflexivity|].
  rewrite Hrun in H1. injection H1 as <- <- ->.
  destruct (extractValidData_steady (L := L) text l t (t + d)%nat)
    as (o & l' & d' & H3 & H4).
  { intros k. rewrite <- Nat.add_assoc, !Hfrozen. reflexivity. }
  rewrite Hrun in H3. injection H3 as <- <- _.
  unfold twice, bind. rewrite Hrun, H4. cbn. eauto.
Qed.
End ExtractSteady.

(** * Worked examples *)

Section ExtractExamples.
Import JsonImportValidator Examples.
Local Existing Instance Reference.runtime.

(** C1 as stated fails: an entry whose [url_doc] is empty after [trim]
    and an entry whose [url_doc] is not an address are both in the
    documents of the result. *)
Lemma extractValidData_keeps_blank_and_unparseable_url_doc :
  let blank := VObj [("url_doc", VStr "   ")] in
  let unparseable := VObj [("url_doc", VStr "not-a-url")] in
  trim "   " = EmptyString
  /\ URL_parses "not-a-url" = false
  /\ documentsOf blankUrlText = Some [blank; unparseable]
  /\ exists r s' d1 d2,
       extractValidData blankUrlText (tt, 0%nat) = (Returned r, s')
       /\ documents r = [d1; d2]
       /\ cleanedFrom blank d1
       /\ cleanedFrom unparseable d2.
Proof.
  cbv zeta. split; [reflexivity|]. split; [reflexivity|].
  split; [vm_compute; reflexivity|].
  do 4 eexists. split; [vm_compute; reflexivity|].
  split; [reflexivity|].
  split; exists 0%nat; vm_compute; reflexivity.
Qed.

(** C2: the filter of duplicates calls [trim] on every truthy
    [url_doc] without the test of its type that the validator makes
    first. Two entries share the [url_doc] ["a"] and a third has a
    number for [url_doc]: the call throws at the third, and the result
    is the all-empty one, with neither of the two entries in it, where
    the claim has the first of them kept. *)
Lemma extractValidData_drops_all_on_non_string_url_doc :
  documentsOf mixedUrlText
  = Some [VObj [("url_doc", VStr "a")]; VObj [("url_doc", VStr "a")];
          VObj [("url_doc", VInt 5)]]
  /\ exists s', extractValidData mixedUrlText (tt, 0%nat)
                = (Returned emptyResult, s').
Proof.
  split; [vm_compute; reflexivity|]. eexists. vm_compute. reflexivity.
Qed.

Lemma extractValidData_keeps_first_of_each_url_witness :
  documentsOf duplicateUrlText = Some duplicateUrlDocs
  /\ Forall (fun doc => hasUrlDoc doc = true -> isString (get doc "url_doc") = true)
            duplicateUrlDocs
  /\ exists kept r s',
       extractValidData duplicateUrlText (tt, 0%nat) = (Returned r, s')
       /\ Forall2 cleanedFrom kept (documents r)
       /\ kept `sublist_of` duplicateUrlDocs
       /\ NoDup (map cleanKey (documents r))
       /\ forall doc,
            doc ∈ duplicateUrlDocs -> hasUrlDoc doc = true ->
            length (List.filter (fun k => String.eqb (urlKey k) (urlKey doc)) kept)
            = 1%nat
            /\ List.find (fun k => String.eqb (urlKey k) (urlKey doc)) kept
               = List.find
                   (fun d => hasUrlDoc d && String.eqb (urlKey d) (urlKey doc))
                   duplicateUrlDocs.
Proof.
  assert (H1 : documentsOf duplicateUrlText = Some duplicateUrlDocs)
    by (vm_compute; reflexivity).
  assert (H2 : Forall (fun doc => hasUrlDoc doc = true ->
                                  isString (get doc "url_doc") = true)
                      duplicateUrlDocs)
    by (repeat constructor; vm_compute; congruence).
  split; [exact H1|]. split; [exact H2|].
  exact (extractValidData_keeps_first_of_each_url duplicateUrlText
           duplicateUrlDocs (tt, 0%nat) H1 H2).
Defined.


(** C8 as stated fails: with a clock that advances, two calls in a row
    on a text with a log that has no [timestamp] do not return equal
    results. *)
Lemma extractValidData_twice_differs :
  ~ exists r s',
      twice (extractValidData untimedLogText) (tt, 0%nat) = (Returned (r, r), s').
Proof.
  intros (r & s' & H). vm_compute in H.
  injection H as H1 H2 _. rewrite <- H1 in H2. discriminate H2.
Qed.
End ExtractExamples.

Lemma extractValidData_twice_same_instant_witness :
  (forall k, @clock Examples.frozen (0 + k) = @clock Examples.frozen 0)
  /\ exists r s',
       twice (JsonImportValidator.extractValidData (RT := Examples.frozen)
                Examples.untimedLogText) (tt, 0%nat)
       = (Returned (r, r), s').
Proof.
  split; [intros k; reflexivity|].
  apply (extractValidData_twice_same_instant (RT := Examples.frozen)
           Examples.untimedLogText (tt, 0%nat)).
  intros k. reflexivity.
Defined.

(** * Properties of [validateImportJson] *)

Section HeapPreservation.
Context `{RT : Runtime} {L : Type} (I : L -> Prop).

Lemma preserves_newDate : preserves (onHeap I) newDate.
Proof. intros s H. exact H. Qed.

Lemma preserves_modifyL f :
  (forall l, I l -> I (f l)) -> preserves (onHeap I) (modifyL f).
Proof. intros Hf s H. apply Hf, H. Qed.
End HeapPreservation.

Ltac preserves_step :=
  first
    [ apply preserves_ret | apply preserves_throw | apply preserves_liftOutcome
    | apply preserves_getL | apply preserves_newDate
    | apply preserves_bind | apply preserves_tryCatch
    | progress lazy beta iota zeta
    | match goal with
      | |- forall _, _ => intro
      | |- preserves _ (if ?b then _ else _) => destruct b
      | |- preserves _ (match ?x with _ => _ end) => destruct x
      end ].

Section ValidatorLemmas.
Import JsonImportValidator.
Context `{RT : Runtime}.

Lemma preserves_pushError n e :
  aboutDocumentsUpTo n e ->
  preserves (onHeap (reportsDocumentsUpTo n)) (pushError e).
Proof.
  intros He. apply preserves_modifyL. intros l (H1 & H2 & H3 & H4).
  repeat split; cbn; try assumption.
  apply Forall_app. split; [assumption | repeat constructor; apply He].
Qed.

Lemma preserves_pushWarning n w :
  aboutDocumentsUpTo n w ->
  preserves (onHeap (reportsDocumentsUpTo n)) (pushWarning w).
Proof.
  intros Hw. apply preserves_modifyL. intros l (H1 & H2 & H3 & H4).
  repeat split; cbn; try assumption.
  apply Forall_app. split; [assumption | repeat constructor; apply Hw].
Qed.

Lemma aboutDocumentsUpTo_document n i fld msg rec ctx sev :
  (i <= n)%nat -> aboutDocumentsUpTo n (finding sev (Some i) None fld msg rec ctx).
Proof. intros Hi. split; [reflexivity|]. cbn. intros j [= <-]. exact Hi. Qed.

Lemma aboutDocumentsUpTo_batch n fld msg rec ctx sev :
  aboutDocumentsUpTo n (finding sev None None fld msg rec ctx).
Proof. split; [reflexivity|]. cbn. discriminate. Qed.

Lemma validateDocument_preserves n doc i :
  (i <= n)%nat ->
  preserves (onHeap (reportsDocumentsUpTo n)) (validateDocument doc i).
Proof.
  intros Hi.
  unfold validateDocument, checkUrlDoc, warnDocumentName, warnFilename,
    warnDateEdition, warnAnnee, implausibleYear, missingOrBlank, callTrim,
    interpolate.
  repeat first
    [ apply preserves_pushError, aboutDocumentsUpTo_document, Hi
    | apply preserves_pushWarning, aboutDocumentsUpTo_document, Hi
    | preserves_step ].
Qed.

Lemma countDocument_preserves n doc i :
  (i <= n)%nat ->
  preserves (onHeap (reportsDocumentsUpTo n)) (countDocument doc i).
Proof.
  intros Hi. unfold countDocument.
  apply preserves_bind; [apply validateDocument_preserves, Hi|].
  intros [|]; [|apply preserves_ret].
  apply preserves_modifyL. intros l (H1 & H2 & H3 & H4). repeat split; assumption.
Qed.

Lemma reportDuplicate_preserves n entry i :
  preserves (onHeap (reportsDocumentsUpTo n)) (reportDuplicate entry i).
Proof.
  unfold reportDuplicate. destruct entry as [url indices].
  destruct (1 <? length indices)%nat; [|apply preserves_ret].
  apply preserves_pushError, aboutDocumentsUpTo_batch.
Qed.

(** [trim] called on a truthy value that is not a string. *)
Lemma missingOrBlank_throws v s :
  truthyNonString v = true ->
  exists e, missingOrBlank v s = (Thrown (ErrorObject TypeError e), s).
Proof.
  unfold truthyNonString, missingOrBlank, callTrim. intros H.
  apply andb_true_iff in H as [Ht Hs]. rewrite Ht. cbn.
  destruct v as [[| | |x| |]|]; try discriminate Ht; try discriminate Hs;
    cbn; eauto.
Qed.

Lemma missingOrBlank_outcome v s :
  (exists b, missingOrBlank v s = (Returned b, s))
  \/ (exists e, missingOrBlank v s = (Thrown e, s)).
Proof.
  unfold missingOrBlank, callTrim. destruct (truthy v); cbn; [|eauto].
  destruct v as [[| | |x| |]|]; cbn; eauto.
Qed.

(** The check of [url_doc] returns, whatever the entry. *)
Lemma checkUrlDoc_returns doc i prefix s :
  exists b s', checkUrlDoc doc i prefix s = (Returned b, s').
Proof.
  unfold checkUrlDoc.
  destruct (truthy (get doc "url_doc")); cbn; [|eauto].
  destruct (get doc "url_doc") as [[| | |u| |]|]; cbn; eauto.
  destruct (String.eqb (trim u) EmptyString); cbn; eauto.
  destruct (URL_parses u); cbn; eauto.
Qed.

Lemma warnDocumentName_outcome doc i prefix s :
  (exists s', warnDocumentName doc i prefix s = (Returned tt, s'))
  \/ (exists e s', warnDocumentName doc i prefix s = (Thrown e, s')).
Proof.
  unfold warnDocumentName, bind.
  destruct (missingOrBlank_outcome (get doc "document_name") s)
    as [([|] & ->) | (e & ->)]; cbn; eauto.
Qed.

Lemma warnDocumentName_throws doc i prefix s :
  truthyNonString (get doc "document_name") = true ->
  exists e s', warnDocumentName doc i prefix s = (Thrown e, s').
Proof.
  intros H. unfold warnDocumentName, bind.
  destruct (missingOrBlank_throws _ s H) as (e & ->). eauto.
Qed.

Lemma warnFilename_throws doc i prefix s :
  truthyNonString (get doc "filename") = true ->
  exists e s', warnFilename doc i prefix s = (Thrown e, s').
Proof.
  intros H. unfold warnFilename, bind.
  destruct (missingOrBlank_throws _ s H) as (e & ->). eauto.
Qed.

(** An object entry whose [document_name] or [filename] is truthy and
    not a string makes [validateDocument] throw. *)
Lemma validateDocument_throws doc i s :
  truthy (Some doc) = true -> isObject (Some doc) = true ->
  truthyNonString (get doc "document_name") = true
  \/ truthyNonString (get doc "filename") = true ->
  exists e s', validateDocument doc i s = (Thrown e, s').
Proof.
  intros Ht Ho Hbad. unfold validateDocument. rewrite Ht, Ho. cbn [negb orb].
  destruct (checkUrlDoc_returns doc i ("Document " +:+ showNat (i + 1)) s)
    as (b & s1 & Hurl).
  unfold bind at 1. rewrite Hurl. unfold bind at 1.
  destruct (warnDocumentName_outcome doc i ("Document " +:+ showNat (i + 1)) s1)
    as [(s2 & Hname) | (e & s2 & Hname)]; rewrite Hname; [|eauto].
  destruct Hbad as [Hbad | Hbad].
  - destruct (warnDocumentName_throws doc i ("Document " +:+ showNat (i + 1)) s1 Hbad)
      as (e & s3 & He).
    rewrite He in Hname. discriminate Hname.
  - unfold bind at 1.
    destruct (warnFilename_throws doc i ("Document " +:+ showNat (i + 1)) s2 Hbad)
      as (e & s3 & ->). eauto.
Qed.
End ValidatorLemmas.

Section ValidatorClaims.
Import JsonImportValidator.
Context `{RT : Runtime}.

Lemma forEachFrom_countDocument_throws pre : forall i doc post s n,
  n = (i + length pre)%nat ->
  truthy (Some doc) = true -> isObject (Some doc) = true ->
  truthyNonString (get doc "document_name") = true
  \/ truthyNonString (get doc "filename") = true ->
  onHeap (reportsDocumentsUpTo n) s ->
  triple (forEachFrom countDocument i (pre ++ doc :: post)) s
    (fun _ _ => False) (fun _ => onHeap (reportsDocumentsUpTo n)).
Proof.
  induction pre as [|x pre IH]; intros i doc post s n Hn Ht Ho Hbad HI; simpl.
  - apply triple_bind. unfold countDocument.
    pose proof (validateDocument_preserves n doc i ltac:(lia) s HI) as Hp.
    unfold triple in Hp.
    destruct (validateDocument_throws doc i s Ht Ho Hbad) as (e & s' & Hrun).
    rewrite Hrun in Hp.
    eapply triple_thrown; [unfold bind; rewrite Hrun; reflexivity | exact Hp].
  - apply triple_bind.
    eapply triple_weaken;
      [apply (countDocument_preserves n x i ltac:(simpl in Hn; lia) s HI) | | auto].
    intros a s' HI'. cbn beta.
    apply (IH (S i) doc post s' n); try assumption. simpl in Hn. lia.
Qed.

Lemma validateBody_throws text data pre doc post t :
  JSON_parse text = Returned data ->
  truthy (Some data) = true -> isObject (Some data) = true ->
  asArray (get data "documents") = Some (pre ++ doc :: post) ->
  truthy (Some doc) = true -> isObject (Some doc) = true ->
  truthyNonString (get doc "document_name") = true
  \/ truthyNonString (get doc "filename") = true ->
  triple (validateBody text) (noFindings, t)
    (fun _ _ => False) (fun _ => onHeap (reportsDocumentsUpTo (length pre))).
Proof.
  intros Hparse Hdt Hdo Harr Ht Ho Hbad.
  unfold validateBody.
  apply triple_bind, triple_liftOutcome. rewrite Hparse, Hdt, Hdo. cbn [negb orb].
  apply triple_bind.
  assert (Htruthy : truthy (get data "documents") = true)
    by (destruct (get data "documents") as [[]|]; try discriminate Harr; reflexivity).
  rewrite Htruthy, Harr. cbn [negb].
  apply triple_bind, triple_modifyL.
  apply triple_bind.
  replace (length (pre ++ doc :: post) =? 0)%nat with false
    by (symmetry; apply Nat.eqb_neq; rewrite length_app; simpl; lia).
  apply triple_ret. apply triple_bind.
  eapply triple_weaken;
    [eapply (preserves_forEachFrom (onHeap (reportsDocumentsUpTo (length pre))))
    | | auto].
  - intros x j _. apply reportDuplicate_preserves.
  - repeat split; constructor.
  - intros a s' HI. cbn beta.
    eapply triple_weaken;
      [apply (forEachFrom_countDocument_throws pre 0%nat doc post s' (length pre));
       auto
      | intros ? ? [] | auto].
Qed.

(** C10, amended: when the documents array holds an object entry whose
    [document_name] or [filename] is truthy and not a string (a number,
    say), [validateImportJson] still returns; its report is invalid,
    the last error is the one of the [catch] block, with field
    ["json"]; no finding comes from a later document or from any log,
    and no log is counted. *)
Theorem validateImportJson_reports_type_error_as_json
    {L} text data pre doc post (s : L * nat) :
  JSON_parse text = Returned data ->
  truthy (Some data) = true -> isObject (Some data) = true ->
  asArray (get data "documents") = Some (pre ++ doc :: post) ->
  truthy (Some doc) = true -> isObject (Some doc) = true ->
  truthyNonString (get doc "document_name") = true
  \/ truthyNonString (get doc "filename") = true ->
  exists r s',
    validateImportJson text s = (Returned r, s')
    /\ isValid r = false
    /\ (exists before thrown,
          errors r = before ++ [jsonSyntaxError thrown]
          /\ field (jsonSyntaxError thrown) = "json")
    /\ totalLogs (summary r) = 0%nat
    /\ validLogs (summary r) = 0%nat
    /\ Forall (aboutDocumentsUpTo (length pre)) (errors r ++ warnings r).
Proof.
  intros Hparse Hdt Hdo Harr Ht Ho Hbad.
  pose proof (validateBody_throws text data pre doc post (snd s)
                Hparse Hdt Hdo Harr Ht Ho Hbad) as Hbody.
  unfold triple in Hbody.
  destruct (validateBody text (noFindings, snd s)) as [[a|e] [l t]] eqn:Hrun;
    [contradiction|].
  destruct Hbody as (He & Hw & Htl & Hvl). cbn in He, Hw, Htl, Hvl.
  unfold validateImportJson, scope, bind, tryCatch. rewrite Hrun. cbn.
  do 2 eexists. split; [reflexivity|]. cbn. repeat split.
  - apply Nat.eqb_neq. rewrite length_app. simpl. lia.
  - exists (l_errors l), e. split; reflexivity.
  - exact Htl.
  - exact Hvl.
  - rewrite Forall_app. split; [|exact Hw].
    rewrite Forall_app. split; [exact He|].
    repeat constructor. cbn. discriminate.
Qed.

(** C6: the field validators can throw. [validateDocument] throws a
    [TypeError] on an entry whose [document_name] is a number, and
    [validateLog] on a log whose [level] is an object with a
    [toString] property. *)
Theorem field_validators_throw index (s : Locals * nat) :
  (exists message s',
     validateDocument
       (VObj [("url_doc", VStr "https://ex.com/a.pdf"); ("document_name", VInt 5)])
       index s
     = (Thrown (ErrorObject TypeError message), s'))
  /\ (exists message s',
        validateLog (VObj [("level", VObj [("toString", VInt 1)])]) index s
        = (Thrown (ErrorObject TypeError message), s')).
Proof.
  split.
  - unfold validateDocument, checkUrlDoc, warnDocumentName. cbn.
    destruct (URL_parses "https://ex.com/a.pdf"); cbn; eauto.
  - unfold validateLog, warnLevel. cbn. eauto.
Qed.

(** An empty [documents] array is valid for [validateImportJson], with a
    warning about the empty array (and one about the missing logs). *)
Lemma validateImportJson_empty_documents {L} text (s : L * nat) :
  JSON_parse text = Returned (VObj [("documents", VArr [])]) ->
  exists r,
    validateImportJson text s = (Returned r, s)
    /\ isValid r = true
    /\ errors r = []
    /\ map (fun w => (field w, context w)) (warnings r)
       = [("documents", "Contenu du tableau"); ("logs", "Structure optionnelle")]
    /\ totalDocuments (summary r) = 0%nat.
Proof.
  intros Hparse. destruct s as [l t].
  unfold validateImportJson, scope, bind, tryCatch, validateBody, bind, liftOutcome.
  rewrite Hparse. cbn. eexists. split; [reflexivity|]. cbn. auto.
Qed.
End ValidatorClaims.

(** * Properties of the importers *)

Section WorldPreservation.
Context `{RT : Runtime} `{DB : Supabase} {P Loc : Type} (I : Loc -> Prop).

Lemma preserves_modifyLocals (f : Loc -> Loc) :
  (forall l, I l -> I (f l)) ->
  preserves (onLocals (P := P) I) (modifyLocals f).
Proof. intros Hf s H. apply Hf, H. Qed.

Lemma preserves_getLocals : preserves (onLocals (P := P) I) getLocals.
Proof. intros s H. exact H. Qed.

Lemma preserves_getWorld : preserves (onLocals (P := P) I) getWorld.
Proof. intros s H. exact H. Qed.

Lemma preserves_send r : preserves (onLocals (P := P) I) (send r).
Proof. intros s H. exact H. Qed.

Lemma preserves_notifyProgress (p : P) : preserves (onLocals I) (notifyProgress p).
Proof.
  intros [[w l] t] H. unfold triple, notifyProgress, modifyL. cbn.
  destruct (progressCallback w); exact H.
Qed.

Lemma preserves_newDate_world : preserves (onLocals (P := P) I) newDate.
Proof. intros s H. exact H. Qed.

Lemma preserves_interpolate v : preserves (onLocals (P := P) I) (interpolate v).
Proof.
  unfold interpolate. destruct v; [apply preserves_liftOutcome | apply preserves_ret].
Qed.

Lemma preserves_getM o k : preserves (onLocals (P := P) I) (getM o k).
Proof.
  unfold getM. destruct o as [[]|];
    first [apply preserves_ret | apply preserves_throw].
Qed.

Lemma preserves_createResult row :
  preserves (onLocals (P := P) I) (HarvestResultService.createResult row).
Proof.
  unfold HarvestResultService.createResult.
  apply preserves_bind; [apply preserves_send|].
  intros [e|data [message|]];
    [apply preserves_throw | apply preserves_throw |].
  apply preserves_bind; [apply preserves_getM | intros; apply preserves_ret].
Qed.

Lemma preserves_createLog row :
  preserves (onLocals (P := P) I) (HarvestLogService.createLog row).
Proof.
  unfold HarvestLogService.createLog.
  apply preserves_bind; [apply preserves_send|].
  intros [e|data [message|]];
    first [apply preserves_throw | apply preserves_ret].
Qed.

Lemma preserves_updateDataSource id updates :
  preserves (onLocals (P := P) I) (DataSourceService.updateDataSource id updates).
Proof.
  unfold DataSourceService.updateDataSource.
  apply preserves_tryCatch.
  - apply preserves_bind; [apply preserves_send|].
    intros [e|data [message|]];
      [apply preserves_throw | apply preserves_throw |].
    apply preserves_bind; [apply preserves_getM | intros; apply preserves_ret].
  - intros [[] message|]; try apply preserves_throw.
    destruct (includes "fetch" message); apply preserves_throw.
Qed.
End WorldPreservation.

Section Totality.
Context `{RT : Runtime} {L : Type} (I : L * nat -> Prop).

Lemma total_ret {A} (a : A) : total I (ret a).
Proof. intros s H. exact H. Qed.

Lemma total_bind {A B} (m : M L A) (k : A -> M L B) :
  total I m -> (forall a, total I (k a)) -> total I (bind m k).
Proof.
  intros Hm Hk s H. apply triple_bind.
  eapply triple_weaken; [apply Hm, H | | auto].
  intros a s' H'. apply Hk, H'.
Qed.

(** A [try] whose handler returns cannot throw. *)
Lemma total_tryCatch {A} (m : M L A) h :
  preserves I m -> (forall e, total I (h e)) -> total I (tryCatch m h).
Proof.
  intros Hm Hh s H. apply triple_tryCatch.
  eapply triple_weaken; [apply Hm, H | auto | ].
  intros e s' H'. apply Hh, H'.
Qed.

Lemma total_forEachFrom {A} (f : A -> nat -> M L unit) xs :
  forall i, (forall x j, total I (f x j)) -> total I (forEachFrom f i xs).
Proof.
  induction xs as [|x xs IH]; intros i Hf; simpl.
  - apply total_ret.
  - apply total_bind; [apply Hf | intros _; apply IH, Hf].
Qed.

Lemma total_preserves {A} (m : M L A) : total I m -> preserves I m.
Proof.
  intros Hm s H. eapply triple_weaken; [apply Hm, H | auto | intros ? ? []].
Qed.

Lemma total_if {A} (b : bool) (m1 m2 : M L A) :
  total I m1 -> total I m2 -> total I (if b then m1 else m2).
Proof. destruct b; auto. Qed.
End Totality.

Section WorldTotality.
Context `{RT : Runtime} `{DB : Supabase} {P Loc : Type} (I : Loc -> Prop).

Lemma total_modifyLocals (f : Loc -> Loc) :
  (forall l, I l -> I (f l)) -> total (onLocals (P := P) I) (modifyLocals f).
Proof. intros Hf s H. apply Hf, H. Qed.

Lemma total_getLocals : total (onLocals (P := P) I) getLocals.
Proof. intros s H. exact H. Qed.

Lemma total_notifyProgress (p : P) : total (onLocals I) (notifyProgress p).
Proof.
  intros [[w l] t] H. unfold triple, notifyProgress, modifyL. cbn.
  destruct (progressCallback w); exact H.
Qed.
End WorldTotality.

Section WorldTriples.
Context `{RT : Runtime} `{DB : Supabase} {P Loc : Type}.

Lemma triple_getLocals (s : (World P * Loc) * nat) Q E :
  Q (snd (fst s)) s -> triple getLocals s Q E.
Proof. exact id. Qed.

Lemma triple_modifyLocals (f : Loc -> Loc) (s : (World P * Loc) * nat) Q E :
  Q tt ((fst (fst s), f (snd (fst s))), snd s) -> triple (modifyLocals f) s Q E.
Proof. exact id. Qed.

(** The callback changes nothing but what was observed. *)
Lemma triple_notifyProgress (p : P) (s : (World P * Loc) * nat) Q E :
  (forall obs,
     Q tt (({| sent := sent (fst (fst s));
               progressCallback := progressCallback (fst (fst s));
               observed := obs |}, snd (fst s)), snd s)) ->
  triple (notifyProgress p) s Q E.
Proof.
  intros H. unfold triple, notifyProgress, modifyL. cbn.
  destruct s as [[[snt cb obs] l] t]. cbn in *. destruct cb; apply H.
Qed.

Lemma triple_withLocals {W A} (init : Loc) (m : M (W * Loc) A) (s : W * nat) Q E :
  triple m ((fst s, init), snd s)
    (fun a s' => Q a (fst (fst s'), snd s'))
    (fun e s' => E e (fst (fst s'), snd s')) ->
  triple (withLocals init m) s Q E.
Proof.
  unfold triple, withLocals.
  destruct (m ((fst s, init), snd s)) as [[a|e] [[w l] t]]; exact id.
Qed.
End WorldTriples.

Section ImporterInvariants.
Import HarvestDataParser HarvestDataImporter.
Context `{RT : Runtime} `{DB : Supabase}.

Lemma preserves_getResult (I : Locals -> Prop) : preserves (onLocals I) getResult.
Proof.
  unfold getResult.
  apply preserves_bind; [apply preserves_getLocals | intros; apply preserves_ret].
Qed.

Lemma pushError_nothingImported e :
  preserves (onLocals nothingImported) (pushError e).
Proof. apply preserves_modifyLocals. intros l H. exact H. Qed.

Lemma pushError_countSettled e : total (onLocals countSettled) (pushError e).
Proof. apply total_modifyLocals. intros l H. exact H. Qed.

Lemma importDocument_nothingImported harvestResult dataSource n doc i :
  preserves (onLocals nothingImported)
    (importDocument harvestResult dataSource n doc i).
Proof.
  unfold importDocument. apply preserves_tryCatch.
  - destruct (_ || _); [apply preserves_ret|].
    apply preserves_bind; [apply preserves_newDate_world|]. intros now.
    apply preserves_bind; [apply preserves_createResult|]. intros _.
    apply preserves_bind;
      [apply preserves_modifyLocals; intros l H; exact H|]. intros _.
    apply preserves_bind; [apply preserves_interpolate|]. intros shown.
    apply preserves_bind; [apply preserves_getResult|]. intros r.
    apply preserves_notifyProgress.
  - intros docError.
    apply preserves_bind; [apply preserves_interpolate|]. intros shown.
    apply pushError_nothingImported.
Qed.

Lemma updateSite_total dataSource parsedData :
  total (onLocals countSettled) (updateSite dataSource parsedData).
Proof.
  unfold updateSite. apply total_tryCatch; [|intros e; apply pushError_countSettled].
  cbv zeta.
  apply preserves_bind.
  { apply preserves_if; [|apply preserves_ret].
    apply preserves_modifyLocals. intros l H. exact H. }
  intros _. apply preserves_bind.
  { apply preserves_if; [|apply preserves_ret].
    apply preserves_modifyLocals. intros l H. exact H. }
  intros _. apply preserves_if; [|apply preserves_ret].
  apply preserves_bind; [apply preserves_updateDataSource|].
  intros _. apply preserves_ret.
Qed.

Lemma importLog_total harvestResult dataSource log i :
  total (onLocals countSettled) (importLog harvestResult dataSource log i).
Proof.
  unfold importLog. apply total_tryCatch; [|intros e; apply total_ret].
  apply preserves_bind; [apply preserves_newDate_world|]. intros now.
  apply preserves_bind; [apply preserves_createLog|]. intros _.
  apply preserves_modifyLocals. intros l H. exact H.
Qed.

Lemma finalLog_total harvestResult dataSource :
  total (onLocals countSettled) (finalLog harvestResult dataSource).
Proof.
  unfold finalLog. apply total_tryCatch; [|intros e; apply total_ret].
  apply preserves_bind; [apply preserves_getLocals|]. intros l.
  apply preserves_bind; [apply preserves_createLog|]. intros _.
  apply preserves_ret.
Qed.

(** The phases after parsing and validation: started before anything
    was imported, they return a result that obeys the rule of
    [success], or throw before anything was recorded as imported. *)
Lemma importParsedData_rule harvestResult dataSource parsedData s :
  onLocals nothingImported s ->
  triple (importParsedData harvestResult dataSource parsedData) s
    (fun r _ => successRule r) (fun _ => onLocals nothingImported).
Proof.
  intros HI. unfold importParsedData. cbv zeta.
  apply triple_bind. unfold getResult at 1.
  apply triple_bind, triple_getLocals, triple_ret.
  apply triple_bind, triple_notifyProgress. intros w1.
  apply triple_bind.
  eapply triple_weaken;
    [apply (preserves_forEachFrom (onLocals nothingImported)) | | auto].
  { intros x j _. apply importDocument_nothingImported. }
  { exact HI. }
  intros a1 s1 _. cbn beta.
  apply triple_bind, triple_modifyLocals.
  assert (Hsettled : onLocals countSettled
            (fst (fst s1),
             updResult (withDocumentsImported (l_documentsImported (snd (fst s1))))
               (snd (fst s1)), snd s1)) by reflexivity.
  revert Hsettled. generalize (fst (fst s1),
             updResult (withDocumentsImported (l_documentsImported (snd (fst s1))))
               (snd (fst s1)), snd s1). clear a1 s1 HI s w1.
  intros s HI.
  apply triple_bind. unfold getResult at 1.
  apply triple_bind, triple_getLocals, triple_ret.
  apply triple_bind, triple_notifyProgress. intros w2.
  apply triple_bind.
  eapply triple_weaken; [apply updateSite_total; exact HI | | intros ? ? []].
  intros a2 s2 HI2. cbn beta.
  apply triple_bind. unfold getResult at 1.
  apply triple_bind, triple_getLocals, triple_ret.
  apply triple_bind, triple_notifyProgress. intros w3.
  apply triple_bind.
  eapply triple_weaken;
    [apply (total_forEachFrom (onLocals countSettled)) | | intros ? ? []].
  { intros x j. apply importLog_total. }
  { exact HI2. }
  intros a3 s3 HI3. cbn beta.
  apply triple_bind, triple_modifyLocals.
  apply triple_bind.
  eapply triple_weaken; [apply finalLog_total; exact HI3 | | intros ? ? []].
  intros a4 s4 HI4. cbn beta.
  apply triple_bind, triple_getLocals.
  apply triple_bind, triple_notifyProgress. intros w5.
  apply triple_bind, triple_modifyLocals.
  unfold getResult. apply triple_bind, triple_getLocals, triple_ret.
  unfold successRule. cbn. unfold onLocals, countSettled in HI4. cbn in HI4.
  rewrite HI4. reflexivity.
Qed.
End ImporterInvariants.

Section ImporterClaims.
Import HarvestDataParser HarvestDataImporter.
Context `{RT : Runtime} `{DB : Supabase}.

Lemma parseStructuredData_returns {L} structuredData (l : L) t :
  exists p t', parseStructuredData structuredData (l, t) = (Returned p, (l, t')).
Proof.
  unfold parseStructuredData, scope, tryCatch. cbn [fst snd].
  destruct (structuredBody structuredData _) as [[p|e] [loc t']]; cbn; eauto.
Qed.

Lemma parseOpenAIResponse_returns {L} harvestResultData (l : L) t :
  exists p t',
    parseOpenAIResponse harvestResultData (l, t) = (Returned p, (l, t')).
Proof.
  unfold parseOpenAIResponse, tryCatch.
  destruct (_ || _); cbn; [eauto|].
  unfold bind.
  destruct (parseStructuredData_returns (Some harvestResultData) l t)
    as (p & t' & ->).
  destruct (negb (HarvestDataParser.success p)); cbn; eauto.
Qed.

Lemma successRule_after_error (r : ImportResult) es :
  success r = false -> documentsImported r = 0%nat -> es <> [] ->
  successRule (withErrors (errors r ++ es) r).
Proof.
  intros Hs Hd Hes. unfold successRule. cbn. rewrite Hs, Hd, length_app.
  destruct es; [contradiction|]. simpl.
  rewrite Nat.add_succ_r. reflexivity.
Qed.

Lemma validateParsedData_invalid parsedData :
  HarvestDataParser.isValid (validateParsedData parsedData) = false ->
  HarvestDataParser.errors (validateParsedData parsedData) <> [].
Proof.
  unfold validateParsedData. cbn.
  destruct (_ ++ _); [discriminate | discriminate].
Qed.

(** The [try] block returns a result that obeys the rule of [success],
    or throws before anything was recorded as imported. *)
Lemma importBody_rule harvestResult dataSource w t :
  triple (importBody harvestResult dataSource) ((w, initialLocals), t)
    (fun r _ => successRule r) (fun _ => onLocals nothingImported).
Proof.
  unfold importBody, afterParsing.
  apply triple_bind, triple_notifyProgress. intros obs. cbn [fst snd].
  apply triple_bind.
  match goal with
  | |- triple _ (?l, _) _ _ =>
      destruct (parseOpenAIResponse_returns (hr_data harvestResult) l t)
        as (p & t' & Hp)
  end.
  eapply triple_returned; [exact Hp|].
  destruct (negb (HarvestDataParser.success p)).
  - apply triple_bind, triple_modifyLocals.
    unfold getResult.
    apply triple_bind, triple_bind, triple_getLocals, triple_ret.
    apply triple_bind, triple_notifyProgress. intros w2.
    apply triple_bind, triple_getLocals, triple_ret. cbn.
    apply (successRule_after_error (result initialLocals));
      [reflexivity | reflexivity | discriminate].
  - apply triple_bind, triple_modifyLocals.
    destruct (HarvestDataParser.data p) as [parsedData|];
      [|apply triple_throw; split; reflexivity].
    cbv zeta.
    destruct (negb (HarvestDataParser.isValid (validateParsedData parsedData)))
      eqn:Hvalid.
    + apply negb_true_iff, validateParsedData_invalid in Hvalid.
      apply triple_bind, triple_modifyLocals.
      unfold getResult.
      apply triple_bind, triple_bind, triple_getLocals, triple_ret.
      apply triple_bind, triple_notifyProgress. intros w2.
      apply triple_bind, triple_getLocals, triple_ret. cbn [fst snd].
      apply (successRule_after_error
               (withWarnings (HarvestDataParser.warnings p) (result initialLocals)));
        [reflexivity | reflexivity | exact Hvalid].
    + apply importParsedData_rule. split; reflexivity.
Qed.

(** [importHarvestData] always returns, and the [success] of its result
    is [errors.length === 0 || documentsImported > 0], on the path that
    completes as on the paths that end in the error phase. *)
Lemma importHarvestData_obeys_rule harvestResult dataSource
    (s : World ImportProgress * nat) :
  exists r s',
    importHarvestData harvestResult dataSource s = (Returned r, s')
    /\ successRule r.
Proof.
  destruct s as [w t].
  assert (H : triple (importHarvestData harvestResult dataSource) (w, t)
                (fun r _ => successRule r) (fun _ _ => False)).
  { unfold importHarvestData, withLocals, triple. cbn [fst snd].
    match goal with
    | |- context [tryCatch ?m ?h ?s0] =>
        assert (H0 : triple (tryCatch m h) s0
                       (fun r _ => successRule r) (fun _ _ => False))
    end.
    { apply triple_tryCatch.
      eapply triple_weaken;
        [apply importBody_rule | auto | ].
      intros e [[w' l] t'] [Hs Hd]. cbn in Hs, Hd. unfold importFailed.
      apply triple_bind, triple_modifyLocals.
      unfold getResult.
      apply triple_bind, triple_bind, triple_getLocals, triple_ret.
      apply triple_bind, triple_notifyProgress. intros w2.
      apply triple_bind, triple_getLocals, triple_ret. cbn [fst snd].
      apply (successRule_after_error (result l)); [exact Hs | exact Hd | discriminate]. }
    unfold triple in H0.
    match goal with
    | |- context [tryCatch ?m ?h ?s0] =>
        destruct (tryCatch m h s0) as [[r|e] [[w' l'] t']]
    end; exact H0. }
  apply triple_returns in H. destruct H as (r & s' & Hrun & Hrule). eauto.
Qed.
End ImporterClaims.

Section IdempotencyClaims.
Import HarvestDataImporter.
Context `{RT : Runtime} `{DB : Supabase}.

(** C9: when the query of the stored results throws (the request is
    rejected, or the database answers with an error),
    [checkIfAlreadyImported] returns [false]; it does not throw. *)
Theorem checkIfAlreadyImported_false_when_query_throws
    harvestResultId (s : World ImportProgress * nat) e s1 :
  HarvestResultService.getAllResults (Loc := unit) 100 ((fst s, tt), snd s)
  = (Thrown e, s1) ->
  exists s', checkIfAlreadyImported harvestResultId s = (Returned false, s').
Proof.
  intros H. unfold checkIfAlreadyImported, withLocals, tryCatch, bind.
  rewrite H. destruct s1 as [[w' []] t']. cbn. eauto.
Qed.

(** Whatever the database answers, the check returns. *)
Lemma checkIfAlreadyImported_returns harvestResultId
    (s : World ImportProgress * nat) :
  exists b s', checkIfAlreadyImported harvestResultId s = (Returned b, s').
Proof.
  unfold checkIfAlreadyImported, withLocals, tryCatch.
  match goal with
  | |- context [bind ?m ?k ?s0] => destruct (bind m k s0) as [[b|e] [[w' []] t']]
  end; cbn; eauto.
Qed.
End IdempotencyClaims.

Lemma checkIfAlreadyImported_false_when_query_throws_witness :
  let w : World HarvestDataImporter.ImportProgress :=
    {| sent := []; progressCallback := false; observed := [] |} in
  HarvestResultService.getAllResults
    (DB := ReferenceDatabase.unreachable) (Loc := unit) 100 ((w, tt), 0%nat)
  = (Thrown (ErrorObject TypeError "Failed to fetch"),
     (({| sent := [Select "harvest_results" 100]; progressCallback := false;
          observed := [] |}, tt), 0%nat))
  /\ exists s',
       HarvestDataImporter.checkIfAlreadyImported
         (RT := Reference.runtime) (DB := ReferenceDatabase.unreachable)
         "h1" (w, 0%nat)
       = (Returned false, s').
Proof.
  cbv zeta. split; [reflexivity|].
  eapply (checkIfAlreadyImported_false_when_query_throws
            (RT := Reference.runtime) (DB := ReferenceDatabase.unreachable) "h1"
            ({| sent := []; progressCallback := false; observed := [] |}, 0%nat)).
  reflexivity.
Defined.

Section EmptyBatch.
Import JsonImportValidator.
Context `{RT : Runtime} `{DB : Supabase}.

Lemma extractValidData_empty_documents {L} text (s : L * nat) :
  JSON_parse text = Returned (VObj [("documents", VArr [])]) ->
  extractValidData text s = (Returned emptyResult, s).
Proof.
  intros Hparse. destruct s as [l t].
  unfold extractValidData, scope, tryCatch, extractBody, bind, liftOutcome.
  rewrite Hparse. reflexivity.
Qed.

Lemma parseOpenAIResponse_empty_documents {L} (s : L * nat) :
  HarvestDataParser.parseOpenAIResponse (VObj [("documents", VArr [])]) s
  = (Returned {| HarvestDataParser.success := true;
                 HarvestDataParser.data := Some HarvestDataParser.emptyData;
                 HarvestDataParser.error := None;
                 HarvestDataParser.warnings := [] |}, s).
Proof. destruct s as [l t]. reflexivity. Qed.

(** C4, amended: the text [{"documents":[]}] is valid for
    [validateImportJson], with a warning about the empty array; but no
    import of that batch goes through: [importHarvestResults] stops at
    its gate on the number of documents, and [importHarvestData] at the
    validation of the parsed data; both return [success = false] with
    no document imported, one error, and nothing sent to the
    database. *)
Theorem empty_batch_is_valid_but_not_imported
    downloadAndSave text dataSource config harvestResult
    (s1 : World HarvestImportService.ImportProgress * nat)
    (s2 : World HarvestDataImporter.ImportProgress * nat) :
  JSON_parse text = Returned (VObj [("documents", VArr [])]) ->
  hr_data harvestResult = VObj [("documents", VArr [])] ->
  (exists v,
     validateImportJson text s1 = (Returned v, s1)
     /\ isValid v = true
     /\ map (fun w => (field w, context w)) (warnings v)
        = [("documents", "Contenu du tableau"); ("logs", "Structure optionnelle")])
  /\ (exists r s',
        HarvestImportService.importHarvestResults downloadAndSave
          text dataSource config s1 = (Returned r, s')
        /\ HarvestImportService.success r = false
        /\ HarvestImportService.documentsImported r = 0%nat
        /\ HarvestImportService.errors r
           = ["Aucun document valide trouvé dans le fichier JSON"]
        /\ sent (fst s') = sent (fst s1))
  /\ (exists r s',
        HarvestDataImporter.importHarvestData harvestResult dataSource s2
        = (Returned r, s')
        /\ HarvestDataImporter.success r = false
        /\ HarvestDataImporter.documentsImported r = 0%nat
        /\ HarvestDataImporter.errors r = ["Aucun document valide trouvé"]
        /\ sent (fst s') = sent (fst s2)).
Proof.
  intros Hparse Hdata. split; [|split].
  - destruct (validateImportJson_empty_documents text s1 Hparse)
      as (v & Hv & Hvalid & _ & Hwarn & _). eauto.
  - apply triple_returns.
    unfold HarvestImportService.importHarvestResults.
    apply triple_withLocals, triple_tryCatch.
    apply triple_bind, triple_notifyProgress. intros obs.
    apply triple_bind.
    match goal with |- triple _ ?s0 _ _ =>
      destruct (validateImportJson_empty_documents text s0 Hparse)
        as (v & Hv & Hvalid & _)
    end.
    eapply triple_returned; [exact Hv|]. rewrite Hvalid. cbn [negb].
    apply triple_bind.
    eapply triple_returned; [apply extractValidData_empty_documents, Hparse|].
    cbn [documents emptyResult length Nat.eqb].
    apply triple_bind, triple_modifyLocals, triple_getLocals.
    cbn. auto.
  - apply triple_returns.
    unfold HarvestDataImporter.importHarvestData.
    apply triple_withLocals, triple_tryCatch.
    unfold HarvestDataImporter.importBody, HarvestDataImporter.afterParsing.
    rewrite Hdata.
    apply triple_bind, triple_notifyProgress. intros obs.
    apply triple_bind.
    eapply triple_returned; [apply parseOpenAIResponse_empty_documents|].
    cbn [HarvestDataParser.success negb HarvestDataParser.data
         HarvestDataParser.warnings].
    apply triple_bind, triple_modifyLocals. cbv zeta.
    change (negb (HarvestDataParser.isValid
                    (HarvestDataParser.validateParsedData
                       HarvestDataParser.emptyData))) with true.
    cbv iota.
    apply triple_bind, triple_modifyLocals.
    unfold HarvestDataImporter.getResult.
    apply triple_bind, triple_bind, triple_getLocals, triple_ret.
    apply triple_bind, triple_notifyProgress. intros obs2.
    apply triple_bind, triple_getLocals, triple_ret.
    cbn. auto.
Qed.
End EmptyBatch.

(** * Two runs of the parser side by side *)

Section Akin.
Import HarvestDataParser.
Context `{RT : Runtime}.

Lemma agree_refl s : agree s s.
Proof. split; reflexivity. Qed.

Lemma agree_sym s1 s2 : agree s1 s2 -> agree s2 s1.
Proof. intros [H1 H2]. split; congruence. Qed.

Lemma agree_trans s1 s2 s3 : agree s1 s2 -> agree s2 s3 -> agree s1 s3.
Proof. intros [H1 H2] [H3 H4]. split; congruence. Qed.

Lemma akin_ret {A} (R : A -> A -> Prop) a1 a2 : R a1 a2 -> akin R (ret a1) (ret a2).
Proof. intros HR s1 s2 H. cbn. auto. Qed.

Lemma akin_throw {A} (R : A -> A -> Prop) e : akin R (throw e) (throw e).
Proof. intros s1 s2 H. cbn. auto. Qed.

Lemma akin_bind {A B} (R : A -> A -> Prop) (R' : B -> B -> Prop) m1 m2 k1 k2 :
  akin R m1 m2 ->
  (forall a1 a2, R a1 a2 -> akin R' (k1 a1) (k2 a2)) ->
  akin R' (bind m1 k1) (bind m2 k2).
Proof.
  intros Hm Hk s1 s2 H. specialize (Hm s1 s2 H). unfold bind.
  destruct (m1 s1) as [[a1|e1] s1'], (m2 s2) as [[a2|e2] s2']; try contradiction.
  - destruct Hm as [HR Hs]. apply Hk; assumption.
  - exact Hm.
Qed.

Lemma akin_tryCatch {A} (R : A -> A -> Prop) m1 m2 h1 h2 :
  akin R m1 m2 ->
  (forall e, akin R (h1 e) (h2 e)) ->
  akin R (tryCatch m1 h1) (tryCatch m2 h2).
Proof.
  intros Hm Hh s1 s2 H. specialize (Hm s1 s2 H). unfold tryCatch.
  destruct (m1 s1) as [[a1|e1] s1'], (m2 s2) as [[a2|e2] s2']; try contradiction.
  - exact Hm.
  - destruct Hm as [-> Hs]. apply Hh; assumption.
Qed.

Lemma akin_newDate : akin eq newDate newDate.
Proof.
  intros [l1 t1] [l2 t2] [H1 H2]. cbn in *. subst t2.
  split; [reflexivity|]. split; [exact H1 | reflexivity].
Qed.

Lemma akin_setData f : akin eq (setData f) (setData f).
Proof.
  intros [l1 t1] [l2 t2] [H1 H2]. cbn in *. split; [reflexivity|].
  split; cbn; [rewrite H1; reflexivity | exact H2].
Qed.

Lemma akin_pushWarning w1 w2 : akin eq (pushWarning w1) (pushWarning w2).
Proof.
  intros [l1 t1] [l2 t2] [H1 H2]. cbn in *. split; [reflexivity|].
  split; cbn; assumption.
Qed.

Lemma akin_getL :
  akin (fun l1 l2 => l_parsedData l1 = l_parsedData l2) getL getL.
Proof. intros s1 s2 H. cbn. split; [apply H | exact H]. Qed.

Lemma akin_if {A} (R : A -> A -> Prop) (b : bool) m1 m2 n1 n2 :
  akin R m1 m2 -> akin R n1 n2 ->
  akin R (if b then m1 else n1) (if b then m2 else n2).
Proof. destruct b; auto. Qed.

Lemma akin_forEachFrom {A} (f : A -> nat -> M Locals unit) xs : forall i j,
  (forall x i j, akin eq (f x i) (f x j)) ->
  akin eq (forEachFrom f i xs) (forEachFrom f j xs).
Proof.
  induction xs as [|x xs IH]; intros i j Hf; simpl.
  - apply akin_ret. reflexivity.
  - eapply akin_bind; [apply Hf|]. intros _ _ _. apply IH, Hf.
Qed.
End Akin.

Ltac akin_step :=
  first
    [ apply akin_ret; reflexivity | apply akin_throw | apply akin_newDate
    | apply akin_setData | apply akin_pushWarning
    | apply (akin_bind eq) | apply akin_tryCatch
    | progress lazy beta iota zeta
    | match goal with
      | |- forall _, _ => intro
      | H : ?a = ?b |- akin _ _ _ => subst a || subst b
      | |- akin _ (if ?b then _ else _) (if ?b then _ else _) => destruct b
      | |- akin _ (match ?x with _ => _ end) (match ?x with _ => _ end) => destruct x
      end ].

Section ParserAkin.
Import HarvestDataParser.
Context `{RT : Runtime}.

Lemma parseDocument_akin doc i j :
  akin eq (parseDocument doc i) (parseDocument doc j).
Proof.
  unfold parseDocument, parseYear, plausibleYear. repeat akin_step.
Qed.

Lemma keepDocument_akin doc i j : akin eq (keepDocument doc i) (keepDocument doc j).
Proof.
  unfold keepDocument. apply akin_tryCatch.
  - eapply akin_bind; [apply parseDocument_akin|].
    intros a1 a2 <-. destruct a1; [apply akin_setData | apply akin_ret; reflexivity].
  - intros e. apply akin_pushWarning.
Qed.

Lemma keepLog_akin log i j : akin eq (keepLog log i) (keepLog log j).
Proof.
  unfold keepLog, getM. repeat akin_step.
Qed.

(** An entry without a usable [url_doc] leaves the parsed data and the
    clock as they were. *)
Lemma keepDocument_lacking doc i s :
  lacksUrlDoc doc ->
  exists s', keepDocument doc i s = (Returned tt, s') /\ agree s s'.
Proof.
  unfold lacksUrlDoc, keepDocument, parseDocument, tryCatch, bind. intros H.
  destruct (negb (truthy (Some doc)) || negb (isObject (Some doc))).
  { cbn. eexists. split; [reflexivity|]. split; reflexivity. }
  destruct (get doc "url_doc") as [[| | |u| |]|];
    try (cbn; eexists; split; [reflexivity | apply agree_refl]).
  destruct (String.eqb u EmptyString);
    [cbn; eexists; split; [reflexivity | apply agree_refl]|].
  rewrite H. cbn. eexists; split; [reflexivity | apply agree_refl].
Qed.

Lemma forEachFrom_keepDocument_skip pre : forall i bad post,
  lacksUrlDoc bad ->
  akin eq (forEachFrom keepDocument i (pre ++ bad :: post))
          (forEachFrom keepDocument i (pre ++ post)).
Proof.
  induction pre as [|x pre IH]; intros i bad post Hbad; simpl.
  - intros s1 s2 H. unfold bind.
    destruct (keepDocument_lacking bad i s1 Hbad) as (s1' & -> & H1).
    apply akin_forEachFrom; [apply keepDocument_akin|].
    eapply agree_trans; [apply agree_sym, H1 | exact H].
  - eapply akin_bind; [apply keepDocument_akin|]. intros _ _ _. apply IH, Hbad.
Qed.
End ParserAkin.

Section ParserComparison.
Import HarvestDataParser.
Context `{RT : Runtime}.

Lemma assoc_setProp k k' v props :
  assoc k (setProp k' v props)
  = if String.eqb k k' then Some v else assoc k props.
Proof.
  induction props as [|[k0 v0] props IH]; simpl.
  - reflexivity.
  - destruct (String.eqb k' k0) eqn:Hk0; simpl.
    + apply String.eqb_eq in Hk0. subst k0.
      destruct (String.eqb k k'); reflexivity.
    + rewrite IH. destruct (String.eqb k k0) eqn:Hk; [|reflexivity].
      apply String.eqb_eq in Hk. subst k0.
      rewrite String.eqb_sym, Hk0. reflexivity.
Qed.

(** Dropping an entry without a usable [url_doc] changes what the
    [try] block of [parseStructuredData] does in the warnings only. *)
Lemma structuredBody_skip props pre bad post :
  assoc "documents" props = Some (VArr (pre ++ bad :: post)) ->
  lacksUrlDoc bad ->
  akin sameParse
    (structuredBody (Some (VObj props)))
    (structuredBody (Some (VObj (setProp "documents" (VArr (pre ++ post)) props)))).
Proof.
  intros Hdocs Hbad. unfold structuredBody, getM, get.
  rewrite !assoc_setProp. cbn [String.eqb Ascii.eqb Bool.eqb].
  rewrite Hdocs.
  apply (akin_bind (fun f1 f2 => f1 = Some (VArr (pre ++ bad :: post))
                                 /\ f2 = Some (VArr (pre ++ post))));
    [apply akin_ret; split; reflexivity|].
  intros f1 f2 [-> ->]. cbn [asArray].
  apply (akin_bind eq); [apply forEachFrom_keepDocument_skip, Hbad|].
  intros _ _ _.
  apply (akin_bind eq); [apply akin_ret; reflexivity|]. intros f1 f2 <-.
  apply (akin_bind eq).
  { destruct (asArray f1); [apply akin_setData | apply akin_ret; reflexivity]. }
  intros _ _ _.
  apply (akin_bind eq); [apply akin_ret; reflexivity|]. intros f3 f4 <-.
  apply (akin_bind eq).
  { destruct f3 as [[| | |r| |]|]; try (apply akin_ret; reflexivity).
    destruct (negb (String.eqb r EmptyString));
      [apply akin_setData | apply akin_ret; reflexivity]. }
  intros _ _ _.
  apply (akin_bind eq); [apply akin_ret; reflexivity|]. intros f5 f6 <-.
  apply (akin_bind eq).
  { destruct (asArray f5); [|apply akin_ret; reflexivity].
    apply akin_forEachFrom. intros. apply keepLog_akin. }
  intros _ _ _.
  eapply akin_bind; [apply akin_getL|]. intros l1 l2 Hl. cbn beta in Hl.
  apply akin_ret. repeat split; cbn. rewrite Hl. reflexivity.
Qed.

Lemma structuredFailed_akin e : akin sameParse (structuredFailed e) (structuredFailed e).
Proof.
  unfold structuredFailed. eapply akin_bind; [apply akin_getL|].
  intros l1 l2 Hl. apply akin_ret. repeat split.
Qed.

Lemma parseStructuredData_skip {L} props pre bad post (l : L) t :
  assoc "documents" props = Some (VArr (pre ++ bad :: post)) ->
  lacksUrlDoc bad ->
  exists p1 p2 t',
    parseStructuredData (Some (VObj props)) (l, t) = (Returned p1, (l, t'))
    /\ parseStructuredData
         (Some (VObj (setProp "documents" (VArr (pre ++ post)) props))) (l, t)
       = (Returned p2, (l, t'))
    /\ sameParse p1 p2.
Proof.
  intros Hdocs Hbad.
  pose proof (akin_tryCatch sameParse _ _ _ _
                (structuredBody_skip props pre bad post Hdocs Hbad)
                structuredFailed_akin
                ({| l_warnings := []; l_parsedData := emptyData |}, t)
                ({| l_warnings := []; l_parsedData := emptyData |}, t)
                (agree_refl _)) as H.
  destruct (parseStructuredData_returns (Some (VObj props)) l t)
    as (p1 & t1 & H1).
  destruct (parseStructuredData_returns
              (Some (VObj (setProp "documents" (VArr (pre ++ post)) props))) l t)
    as (p2 & t2 & H2).
  exists p1, p2, t1. rewrite H1, H2.
  unfold parseStructuredData, scope in H1, H2. cbn [fst snd] in H1, H2.
  destruct (tryCatch (structuredBody (Some (VObj props))) structuredFailed _)
    as [[q1|e1] [l1 u1]];
    destruct (tryCatch (structuredBody (Some (VObj (setProp _ _ props))))
                structuredFailed _) as [[q2|e2] [l2 u2]];
    try contradiction; try discriminate H1; try discriminate H2.
  destruct H as [Hsame [_ Ht]]. cbn in Ht.
  injection H1 as <- <-. injection H2 as <- <-. subst u2. auto.
Qed.

Lemma parseOpenAIResponse_skip {L} props pre bad post (l : L) t :
  assoc "documents" props = Some (VArr (pre ++ bad :: post)) ->
  lacksUrlDoc bad ->
  exists p1 p2 t',
    parseOpenAIResponse (VObj props) (l, t) = (Returned p1, (l, t'))
    /\ parseOpenAIResponse
         (VObj (setProp "documents" (VArr (pre ++ post)) props)) (l, t)
       = (Returned p2, (l, t'))
    /\ sameParse p1 p2
    /\ (success p1 = true -> p1 = p2).
Proof.
  intros Hdocs Hbad.
  destruct (parseStructuredData_skip props pre bad post l t Hdocs Hbad)
    as (q1 & q2 & t' & H1 & H2 & Hs & Hd & He).
  unfold parseOpenAIResponse, tryCatch, bind. cbn [truthy isObject typeof negb orb
    String.eqb Ascii.eqb Bool.eqb].
  rewrite H1, H2, <- Hs.
  destruct (success q1) eqn:Hsucc; cbn.
  - do 3 eexists. split; [reflexivity|]. split; [reflexivity|].
    split; [repeat split; cbn; assumption|]. intros _. rewrite Hd. reflexivity.
  - do 3 eexists. split; [reflexivity|]. split; [reflexivity|].
    split; [repeat split; congruence|]. rewrite Hsucc. discriminate.
Qed.
End ParserComparison.

(** * A batch with an entry whose [url_doc] is not an address *)

Section ParserRejection.
Import HarvestDataParser.
Context `{RT : Runtime}.

Lemma parseYear_returns {L} v (l : L) t :
  exists y t', parseYear v (l, t) = (Returned y, (l, t')).
Proof.
  unfold parseYear, plausibleYear, bind, newDate, ret.
  destruct v as [[| |y|s| |]|]; lazy beta iota; eauto.
  - destruct (numberGe _ _); eauto.
  - destruct (parseInt10 s) as [z|]; eauto.
    destruct (numberGe _ _); eauto.
Qed.

(** [parseDocument] leaves the state alone but for the clock. *)
Lemma parseDocument_heap {L} doc i (l : L) t :
  exists o t', parseDocument doc i (l, t) = (o, (l, t')).
Proof.
  unfold parseDocument. destruct (_ || _); [cbn; eauto|].
  destruct (get doc "url_doc") as [[| | |u| |]|]; try (cbn; eauto; fail).
  destruct (String.eqb u EmptyString); [cbn; eauto|].
  destruct (String.eqb (trim u) EmptyString); [cbn; eauto|].
  destruct (parseYear_returns (get doc "annee") l t) as (y & t' & Hy).
  unfold bind. rewrite Hy. cbn. eauto.
Qed.

(** An object entry with a [url_doc] that is not blank is kept, with its
    [url_doc] trimmed. *)
Lemma parseDocument_kept {L} doc i (l : L) t u :
  truthy (Some doc) = true -> isObject (Some doc) = true ->
  get doc "url_doc" = Some (VStr u) -> trim u <> EmptyString ->
  exists d t',
    parseDocument doc i (l, t) = (Returned (Some d), (l, t'))
    /\ url_doc d = trim u.
Proof.
  intros Ht Ho Hu Hblank.
  unfold parseDocument. rewrite Ht, Ho, Hu. cbn [negb orb].
  assert (Hne : String.eqb u EmptyString = false).
  { apply String.eqb_neq. intros ->. apply Hblank. reflexivity. }
  rewrite Hne. apply String.eqb_neq in Hblank. rewrite Hblank.
  destruct (parseYear_returns (get doc "annee") l t) as (y & t' & Hy).
  unfold bind. rewrite Hy. cbn.
  do 2 eexists. split; reflexivity.
Qed.

Lemma keepDocument_run doc i l t :
  exists l' t',
    keepDocument doc i (l, t) = (Returned tt, (l', t'))
    /\ (holdsUnparseable l -> holdsUnparseable l')
    /\ (unparseableUrlDoc doc -> holdsUnparseable l').
Proof.
  unfold keepDocument, tryCatch, bind.
  destruct (parseDocument_heap doc i l t) as (o & t' & Ho). rewrite Ho.
  assert (Hkept : unparseableUrlDoc doc ->
                  exists d, o = Returned (Some d) /\ unparseable d).
  { intros (Ht & Hob & u & Hu & Hb & Hp).
    destruct (parseDocument_kept doc i l t u Ht Hob Hu Hb) as (d & t1 & Hd & Hurl).
    rewrite Ho in Hd. injection Hd as -> _.
    exists d. split; [reflexivity|]. unfold unparseable. rewrite Hurl. exact Hp. }
  destruct o as [[d|]|e]; cbn.
  - do 2 eexists. split; [reflexivity|]. unfold holdsUnparseable. cbn. split.
    + intros H. apply Exists_app. left. exact H.
    + intros Hbad. destruct (Hkept Hbad) as (d' & [= <-] & Hd).
      apply Exists_app. right. constructor. exact Hd.
  - do 2 eexists. split; [reflexivity|]. split; [auto|].
    intros Hbad. destruct (Hkept Hbad) as (d' & Hd & _). discriminate Hd.
  - do 2 eexists. split; [reflexivity|]. split; [auto|].
    intros Hbad. destruct (Hkept Hbad) as (d' & Hd & _). discriminate Hd.
Qed.

Lemma forEachFrom_keepDocument_run docs :
  forall i l t,
    exists l' t',
      forEachFrom keepDocument i docs (l, t) = (Returned tt, (l', t'))
      /\ (holdsUnparseable l -> holdsUnparseable l')
      /\ (Exists unparseableUrlDoc docs -> holdsUnparseable l').
Proof.
  induction docs as [|doc docs IH]; intros i l t; cbn [forEachFrom].
  - exists l, t. split; [reflexivity|]. split; [auto|]. intros H. inversion H.
  - destruct (keepDocument_run doc i l t) as (l1 & t1 & H1 & Hk1 & Hb1).
    destruct (IH (S i) l1 t1) as (l2 & t2 & H2 & Hk2 & Hb2).
    exists l2, t2. split; [unfold bind; rewrite H1; exact H2|].
    split; [auto|]. intros H. inversion H; subst; auto.
Qed.

Lemma keepLog_preserves_unparseable log i :
  preserves (onHeap holdsUnparseable) (keepLog log i).
Proof.
  unfold keepLog. apply preserves_bind.
  - intros s H. destruct log; exact H.
  - intros message. destruct (truthy message); [|apply preserves_ret].
    apply preserves_modifyL. intros l H. exact H.
Qed.

(** When the parse succeeds, the entry is among the parsed documents. *)
Lemma structuredBody_unparseable props docs t :
  assoc "documents" props = Some (VArr docs) ->
  Exists unparseableUrlDoc docs ->
  triple (structuredBody (Some (VObj props)))
    ({| l_warnings := []; l_parsedData := emptyData |}, t)
    (fun p _ =>
       success p = true
       /\ exists pd, data p = Some pd /\ Exists unparseable (documents pd))
    (fun _ _ => True).
Proof.
  intros Hdocs Hbad. unfold structuredBody.
  apply triple_bind. eapply triple_returned; [reflexivity|].
  cbn [get]. rewrite Hdocs. cbn [asArray].
  apply triple_bind. unfold forEach.
  destruct (forEachFrom_keepDocument_run docs 0%nat
              {| l_warnings := []; l_parsedData := emptyData |} t)
    as (l1 & t1 & Hrun & _ & Hb).
  eapply triple_returned; [exact Hrun|]. specialize (Hb Hbad).
  assert (HI : onHeap holdsUnparseable (l1, t1)) by exact Hb.
  clear Hrun Hb. revert HI. generalize (l1, t1). clear l1 t1. intros s HI.
  apply triple_bind. eapply triple_returned; [reflexivity|].
  apply triple_bind.
  eapply triple_weaken with (Q := fun _ => onHeap holdsUnparseable)
                            (E := fun _ _ => True); [| |auto].
  { destruct (asArray _); [apply triple_modifyL | apply triple_ret]; exact HI. }
  clear s HI. intros a s HI. cbn beta.
  apply triple_bind. eapply triple_returned; [reflexivity|].
  apply triple_bind.
  eapply triple_weaken with (Q := fun _ => onHeap holdsUnparseable)
                            (E := fun _ _ => True); [| |auto].
  { destruct (get (VObj props) "recommandations") as [[| | |r| |]|];
      try (apply triple_ret; exact HI).
    destruct (negb (String.eqb r EmptyString));
      [apply triple_modifyL | apply triple_ret]; exact HI. }
  clear a s HI. intros a s HI. cbn beta.
  apply triple_bind. eapply triple_returned; [reflexivity|].
  apply triple_bind.
  eapply triple_weaken with (Q := fun _ => onHeap holdsUnparseable)
                            (E := fun _ _ => True); [| |auto].
  { destruct (asArray _) as [entries|]; [|apply triple_ret; exact HI].
    unfold forEach.
    eapply triple_weaken;
      [apply (preserves_forEachFrom (onHeap holdsUnparseable) keepLog entries 0%nat);
       [|exact HI]
      | auto | auto].
    intros x j _. apply keepLog_preserves_unparseable. }
  clear a s HI. intros a s HI. cbn beta.
  apply triple_bind, triple_getL, triple_ret. cbn.
  split; [reflexivity|]. exists (l_parsedData (fst s)). split; [reflexivity|exact HI].
Qed.

Lemma parseOpenAIResponse_unparseable {L} props docs (l : L) t :
  assoc "documents" props = Some (VArr docs) ->
  Exists unparseableUrlDoc docs ->
  exists p t',
    parseOpenAIResponse (VObj props) (l, t) = (Returned p, (l, t'))
    /\ (success p = false
        \/ (success p = true
            /\ exists pd, data p = Some pd /\ Exists unparseable (documents pd))).
Proof.
  intros Hdocs Hbad.
  pose proof (structuredBody_unparseable props docs t Hdocs Hbad) as Hbody.
  unfold triple in Hbody.
  unfold parseOpenAIResponse, tryCatch, bind, parseStructuredData, scope, tryCatch.
  cbn [truthy isObject typeof negb orb String.eqb Ascii.eqb Bool.eqb fst snd].
  destruct (structuredBody (Some (VObj props)) _) as [[p|e] [l' t']].
  - destruct Hbody as (Hs & pd & Hd & Hex). rewrite Hs. cbn.
    do 2 eexists. split; [reflexivity|]. right. cbn. eauto.
  - cbn. do 2 eexists. split; [reflexivity|]. left. reflexivity.
Qed.

Lemma invalidUrlsFrom_unparseable docs :
  Exists unparseable docs -> forall i, invalidUrlsFrom i docs <> [].
Proof.
  induction 1 as [d docs Hd | d docs _ IH]; intros i; cbn [invalidUrlsFrom].
  - unfold unparseable in Hd. rewrite Hd. discriminate.
  - intros Hnil. apply app_eq_nil in Hnil as [_ Hnil]. exact (IH _ Hnil).
Qed.

Lemma validateParsedData_unparseable pd :
  Exists unparseable (documents pd) -> isValid (validateParsedData pd) = false.
Proof.
  intros Hex. unfold validateParsedData. cbn [isValid].
  apply Nat.eqb_neq. intros Hlen. apply length_zero_iff_nil in Hlen.
  apply app_eq_nil in Hlen as [_ Hnil].
  exact (invalidUrlsFrom_unparseable _ Hex _ Hnil).
Qed.
End ParserRejection.

Section EntryExclusion.
Import HarvestDataParser HarvestDataImporter.
Context `{RT : Runtime} `{DB : Supabase}.

Lemma notifyProgress_run {P Loc} (p : P) (w : World P) (l : Loc) t :
  exists obs,
    notifyProgress p ((w, l), t)
    = (Returned tt, (({| sent := sent w; progressCallback := progressCallback w;
                         observed := obs |}, l), t)).
Proof.
  unfold notifyProgress, modifyL. cbn. destruct w as [snt [|] obs]; cbn; eauto.
Qed.

Lemma afterParsing_withDocuments docs harvestResult dataSource p :
  afterParsing (withDocuments docs harvestResult) dataSource p
  = afterParsing harvestResult dataSource p.
Proof. reflexivity. Qed.

(** What [afterParsing] does with a failed parse. *)
Lemma afterParsing_failed harvestResult dataSource p w t :
  HarvestDataParser.success p = false ->
  exists obs,
    afterParsing harvestResult dataSource p ((w, initialLocals), t)
    = (Returned
         (withErrors [match HarvestDataParser.error p with
                      | Some e => if String.eqb e EmptyString
                                  then "Erreur de parsing" else e
                      | None => "Erreur de parsing"
                      end] (result initialLocals)),
       (({| sent := sent w; progressCallback := progressCallback w;
            observed := obs |},
         updResult (withErrors
                      [match HarvestDataParser.error p with
                       | Some e => if String.eqb e EmptyString
                                   then "Erreur de parsing" else e
                       | None => "Erreur de parsing"
                       end]) initialLocals), t)).
Proof.
  intros Hs. unfold afterParsing. rewrite Hs. cbn [negb].
  unfold bind at 1. unfold pushError at 1. cbn [modifyLocals modifyL fst snd].
  unfold bind at 1. unfold getResult at 1, getLocals, bind at 1. cbn.
  destruct w as [snt [|] obs]; cbn; eauto.
Qed.

(** [importHarvestData], once the first snapshot is out and the data
    parsed. *)
Lemma importHarvestData_after_parsing harvestResult dataSource w t w' p t' :
  notifyProgress parsingSnapshot ((w, initialLocals), t)
  = (Returned tt, ((w', initialLocals), t)) ->
  parseOpenAIResponse (hr_data harvestResult) ((w', initialLocals), t)
  = (Returned p, ((w', initialLocals), t')) ->
  importHarvestData harvestResult dataSource (w, t)
  = match tryCatch (afterParsing harvestResult dataSource p) importFailed
            ((w', initialLocals), t') with
    | (o, ((w2, _), t2)) => (o, (w2, t2))
    end.
Proof.
  intros Hn Hp.
  unfold importHarvestData, withLocals, importBody, tryCatch, bind.
  cbn [fst snd]. fold parsingSnapshot. rewrite Hn, Hp. reflexivity.
Qed.

(** What [afterParsing] does with parsed data that the validation
    refuses. *)
Lemma afterParsing_invalid harvestResult dataSource p pd w t :
  HarvestDataParser.success p = true ->
  HarvestDataParser.data p = Some pd ->
  isValid (validateParsedData pd) = false ->
  exists r obs l,
    afterParsing harvestResult dataSource p ((w, initialLocals), t)
    = (Returned r,
       (({| sent := sent w; progressCallback := progressCallback w;
            observed := obs |}, l), t))
    /\ success r = false
    /\ documentsImported r = 0%nat
    /\ errors r = HarvestDataParser.errors (validateParsedData pd).
Proof.
  intros Hs Hd Hv. unfold afterParsing. rewrite Hs, Hd. cbn [negb]. cbv zeta.
  rewrite Hv. cbn [negb].
  unfold bind, modifyLocals, modifyL, getResult, getLocals, getL, ret,
    notifyProgress.
  cbn [fst snd initialLocals updResult result withWarnings withErrors
       success documentsImported errors app].
  destruct w as [snt [|] obs]; cbn; do 3 eexists; (split; [reflexivity|]); auto.
Qed.

(** A batch with an entry whose [url_doc] is not an address is rejected
    whole: nothing is imported and nothing is sent to the database. *)
Lemma importHarvestData_rejects_unparseable harvestResult dataSource props docs
    (s : World ImportProgress * nat) :
  hr_data harvestResult = VObj props ->
  assoc "documents" props = Some (VArr docs) ->
  Exists unparseableUrlDoc docs ->
  exists r s',
    importHarvestData harvestResult dataSource s = (Returned r, s')
    /\ success r = false
    /\ documentsImported r = 0%nat
    /\ errors r <> []
    /\ sent (fst s') = sent (fst s).
Proof.
  intros Hdata Hdocs Hbad. destruct s as [w t].
  destruct (notifyProgress_run parsingSnapshot w initialLocals t) as (obs & Hn).
  destruct (parseOpenAIResponse_unparseable props docs
              ({| sent := sent w; progressCallback := progressCallback w;
                  observed := obs |}, initialLocals) t Hdocs Hbad)
    as (p & t' & Hp & Hcase).
  rewrite <- Hdata in Hp.
  rewrite (importHarvestData_after_parsing _ dataSource _ _ _ _ _ Hn Hp).
  unfold tryCatch.
  destruct Hcase as [Hfail | (Hs & pd & Hd & Hex)].
  - destruct (afterParsing_failed harvestResult dataSource p
                {| sent := sent w; progressCallback := progressCallback w;
                   observed := obs |} t' Hfail) as (obs1 & ->).
    do 2 eexists. split; [reflexivity|]. cbn. repeat split. discriminate.
  - pose proof (validateParsedData_unparseable pd Hex) as Hv.
    destruct (afterParsing_invalid harvestResult dataSource p pd
                {| sent := sent w; progressCallback := progressCallback w;
                   observed := obs |} t' Hs Hd Hv)
      as (r & obs1 & l & -> & Hsr & Hdr & Her).
    do 2 eexists. split; [reflexivity|]. cbn.
    split; [exact Hsr|]. split; [exact Hdr|]. split; [|reflexivity].
    rewrite Her. apply validateParsedData_invalid, Hv.
Qed.

(** An entry whose [url_doc] is missing, is not a string or is blank is
    left out by the parser, and the import runs as it does on the batch
    without that entry: same result, same requests to the database, same
    readings of the clock. *)
Lemma importHarvestData_skips_lacking
    harvestResult dataSource props pre bad post
    (s : World ImportProgress * nat) :
  hr_data harvestResult = VObj props ->
  assoc "documents" props = Some (VArr (pre ++ bad :: post)) ->
  lacksUrlDoc bad ->
  exists r s1 s2,
    importHarvestData harvestResult dataSource s = (Returned r, s1)
    /\ importHarvestData (withDocuments (pre ++ post) harvestResult) dataSource s
       = (Returned r, s2)
    /\ sent (fst s1) = sent (fst s2)
    /\ snd s1 = snd s2.
Proof.
  intros Hdata Hdocs Hbad. destruct s as [w t].
  destruct (importHarvestData_obeys_rule harvestResult dataSource (w, t))
    as (r & s1 & Hrun & _).
  exists r, s1.
  destruct (notifyProgress_run parsingSnapshot w initialLocals t) as (obs & Hn).
  destruct (parseOpenAIResponse_skip props pre bad post
              ({| sent := sent w; progressCallback := progressCallback w;
                  observed := obs |}, initialLocals) t Hdocs Hbad)
    as (p1 & p2 & t' & Hp1 & Hp2 & (Hs & Hd & He) & Heq).
  rewrite <- Hdata in Hp1.
  assert (Hp2' : parseOpenAIResponse
                   (hr_data (withDocuments (pre ++ post) harvestResult))
                   ({| sent := sent w; progressCallback := progressCallback w;
                       observed := obs |}, initialLocals, t)
                 = (Returned p2,
                    ({| sent := sent w; progressCallback := progressCallback w;
                        observed := obs |}, initialLocals, t')))
    by (cbn [withDocuments hr_data]; rewrite Hdata; exact Hp2).
  pose proof Hrun as Hrun0.
  rewrite (importHarvestData_after_parsing _ dataSource _ _ _ _ _ Hn Hp1) in Hrun.
  rewrite (importHarvestData_after_parsing _ dataSource _ _ _ _ _ Hn Hp2').
  rewrite afterParsing_withDocuments.
  destruct (HarvestDataParser.success p1) eqn:Hsucc.
  - rewrite <- (Heq eq_refl), Hrun. eauto.
  - symmetry in Hs. revert Hrun. unfold tryCatch.
    destruct (afterParsing_failed harvestResult dataSource p1
                {| sent := sent w; progressCallback := progressCallback w;
                   observed := obs |} t' Hsucc) as (obs1 & ->).
    destruct (afterParsing_failed harvestResult dataSource p2
                {| sent := sent w; progressCallback := progressCallback w;
                   observed := obs |} t' Hs) as (obs2 & ->).
    rewrite <- He. intros [= <- <-].
    eexists. split; [exact Hrun0|]. split; [reflexivity|]. split; reflexivity.
Qed.

(** C5, amended: an entry whose [url_doc] is missing, is not a string or
    is blank is fatal to that entry only: the parser leaves it out and
    the import runs as it does on the batch without that entry (same
    result, same requests to the database, same readings of the clock).
    An entry whose [url_doc] is a string that is not blank and is not an
    address is kept by the parser; the validation of the parsed data
    then rejects the whole batch: [success] is false, no document is
    imported, an error is recorded and nothing is sent to the
    database. *)
Theorem importHarvestData_entry_without_usable_url_doc
    harvestResult dataSource props pre bad post
    (s : World ImportProgress * nat) :
  hr_data harvestResult = VObj props ->
  assoc "documents" props = Some (VArr (pre ++ bad :: post)) ->
  (lacksUrlDoc bad ->
   exists r s1 s2,
     importHarvestData harvestResult dataSource s = (Returned r, s1)
     /\ importHarvestData (withDocuments (pre ++ post) harvestResult) dataSource s
        = (Returned r, s2)
     /\ sent (fst s1) = sent (fst s2)
     /\ snd s1 = snd s2)
  /\ (unparseableUrlDoc bad ->
      exists r s',
        importHarvestData harvestResult dataSource s = (Returned r, s')
        /\ success r = false
        /\ documentsImported r = 0%nat
        /\ errors r <> []
        /\ sent (fst s') = sent (fst s)).
Proof.
  intros Hdata Hdocs. split.
  - intros Hbad.
    exact (importHarvestData_skips_lacking harvestResult dataSource props
             pre bad post s Hdata Hdocs Hbad).
  - intros Hbad.
    apply (importHarvestData_rejects_unparseable harvestResult dataSource props
             (pre ++ bad :: post) s Hdata Hdocs).
    apply Exists_app. right. left. exact Hbad.
Qed.
End EntryExclusion.

(** * The partial-success scenario *)

Section TrimLemmas.
Lemma trimStart_head s :
  trimStart s = EmptyString
  \/ exists c rest, trimStart s = String c rest /\ isWhiteSpace c = false.
Proof.
  induction s as [|c s IH]; simpl; [auto|].
  destruct (isWhiteSpace c) eqn:Hc; [exact IH|]. right. eauto.
Qed.

Lemma trimEnd_idempotent s : trimEnd (trimEnd s) = trimEnd s.
Proof.
  induction s as [|c s IH]; simpl; [reflexivity|].
  destruct (trimEnd s) as [|c' r] eqn:Hs.
  - destruct (isWhiteSpace c) eqn:Hc; simpl; [reflexivity|]. rewrite Hc. reflexivity.
  - simpl. simpl in IH. rewrite IH. reflexivity.
Qed.

Lemma trimEnd_head c rest :
  isWhiteSpace c = false ->
  exists r, trimEnd (String c rest) = String c r.
Proof.
  intros Hc. simpl. destruct (trimEnd rest); [rewrite Hc|]; eauto.
Qed.

Lemma trim_idempotent s : trim (trim s) = trim s.
Proof.
  unfold trim.
  destruct (trimStart_head s) as [-> | (c & rest & -> & Hc)]; [reflexivity|].
  destruct (trimEnd_head c rest Hc) as (r & Hr).
  rewrite Hr. simpl trimStart. rewrite Hc, <- Hr. apply trimEnd_idempotent.
Qed.
End TrimLemmas.

Section ParserForward.
Import HarvestDataParser.
Context `{RT : Runtime}.

Lemma jsor_string v :
  stringOrMissing v = true -> isString (Some (jsor v (VStr EmptyString))) = true.
Proof.
  unfold stringOrMissing, jsor. intros H.
  destruct v as [x|]; [|reflexivity].
  destruct (truthy (Some x)) eqn:Ht; [|reflexivity].
  cbn in H. destruct x; try discriminate H; reflexivity.
Qed.

Lemma parseDocument_valid {L} doc i (l : L) t :
  validEntry doc ->
  exists d t',
    parseDocument doc i (l, t) = (Returned (Some d), (l, t'))
    /\ validDocument d.
Proof.
  intros (Ht & Ho & (u & Hu & Hblank & Hurl) & Hname & Hfile).
  unfold parseDocument. rewrite Ht, Ho, Hu. cbn [negb orb].
  assert (Hne : String.eqb u EmptyString = false).
  { apply String.eqb_neq. intros ->. apply Hblank. reflexivity. }
  rewrite Hne. apply String.eqb_neq in Hblank as Hb. rewrite Hb.
  destruct (parseYear_returns (get doc "annee") l t) as (y & t' & Hy).
  unfold bind. rewrite Hy. cbn.
  do 2 eexists. split; [reflexivity|].
  unfold validDocument.
  cbn [HarvestDataParser.url_doc HarvestDataParser.document_name
       HarvestDataParser.filename].
  split; [|split; [|split; [|split]]].
  - exact Hblank.
  - rewrite trim_idempotent. exact Hblank.
  - exact Hurl.
  - apply jsor_string, Hname.
  - apply jsor_string, Hfile.
Qed.

Lemma keepDocument_valid doc i (l : Locals) t :
  validEntry doc ->
  exists d t',
    keepDocument doc i (l, t)
    = (Returned tt,
       ({| l_warnings := l_warnings l;
           l_parsedData :=
             {| documents := documents (l_parsedData l) ++ [d];
                obstacles_globaux := obstacles_globaux (l_parsedData l);
                recommandations := recommandations (l_parsedData l);
                logs := logs (l_parsedData l) |} |}, t'))
    /\ validDocument d.
Proof.
  intros Hvalid.
  destruct (parseDocument_valid doc i l t Hvalid) as (d & t' & Hd & Hv).
  exists d, t'. split; [|exact Hv].
  unfold keepDocument, tryCatch, bind. rewrite Hd. reflexivity.
Qed.

Lemma keepLog_total ds log i :
  log <> VNull -> total (onHeap (parsedAre ds)) (keepLog log i).
Proof.
  intros Hlog s HI. unfold keepLog.
  apply triple_bind.
  assert (Hget : getM (Some log) "message" s = (Returned (get log "message"), s))
    by (destruct log; try reflexivity; contradiction).
  eapply triple_returned; [exact Hget|].
  destruct (truthy (get log "message")); [|exact HI].
  apply triple_modifyL. exact HI.
Qed.

Lemma structuredBody_valid_batch props e1 e2 e3 t :
  assoc "documents" props = Some (VArr [e1; e2; e3]) ->
  validEntry e1 -> validEntry e2 -> validEntry e3 ->
  logsWellFormed props ->
  triple (structuredBody (Some (VObj props)))
    ({| l_warnings := []; l_parsedData := emptyData |}, t)
    (fun p _ =>
       success p = true
       /\ exists pd d1 d2 d3,
            data p = Some pd /\ documents pd = [d1; d2; d3]
            /\ validDocument d1 /\ validDocument d2 /\ validDocument d3)
    (fun _ _ => False).
Proof.
  intros Hdocs H1 H2 H3 Hlogs. unfold structuredBody.
  apply triple_bind. eapply triple_returned; [reflexivity|].
  cbn [get]. rewrite Hdocs. cbn [asArray].
  apply triple_bind. unfold forEach. cbn [forEachFrom].
  apply triple_bind.
  destruct (keepDocument_valid e1 0%nat
              {| l_warnings := []; l_parsedData := emptyData |} t H1)
    as (d1 & t1 & Hk1 & Hd1).
  eapply triple_returned; [exact Hk1|].
  apply triple_bind.
  match goal with |- triple _ (?l, _) _ _ =>
    destruct (keepDocument_valid e2 1%nat l t1 H2) as (d2 & t2 & Hk2 & Hd2)
  end.
  eapply triple_returned; [exact Hk2|].
  apply triple_bind.
  match goal with |- triple _ (?l, _) _ _ =>
    destruct (keepDocument_valid e3 2%nat l t2 H3) as (d3 & t3 & Hk3 & Hd3)
  end.
  eapply triple_returned; [exact Hk3|].
  apply triple_ret.
  cbn [l_warnings l_parsedData documents obstacles_globaux recommandations logs
       emptyData app].
  match goal with |- triple _ ?s _ _ =>
    assert (HI : onHeap (parsedAre [d1; d2; d3]) s) by reflexivity;
    generalize dependent s
  end.
  intros s HI.
  apply triple_bind, triple_ret.
  apply triple_bind.
  eapply triple_weaken with (Q := fun _ => onHeap (parsedAre [d1; d2; d3]))
                            (E := fun _ _ => False); [| |intros ? ? []].
  { destruct (asArray _); [apply triple_modifyL | apply triple_ret]; exact HI. }
  clear s HI. intros a s HI. cbn beta.
  apply triple_bind, triple_ret.
  apply triple_bind.
  eapply triple_weaken with (Q := fun _ => onHeap (parsedAre [d1; d2; d3]))
                            (E := fun _ _ => False); [| |intros ? ? []].
  { destruct (get (VObj props) "recommandations") as [[| | |r| |]|];
      try (apply triple_ret; exact HI).
    destruct (negb (String.eqb r EmptyString));
      [apply triple_modifyL | apply triple_ret]; exact HI. }
  clear a s HI. intros a s HI. cbn beta.
  apply triple_bind, triple_ret.
  apply triple_bind.
  eapply triple_weaken with (Q := fun _ => onHeap (parsedAre [d1; d2; d3]))
                            (E := fun _ _ => False); [| |intros ? ? []].
  { unfold logsWellFormed in Hlogs. cbn [get].
    destruct (asArray (assoc "logs" props)) as [entries|];
      [|apply triple_ret; exact HI].
    unfold forEach. revert s HI. generalize 0%nat.
    induction entries as [|log entries IH]; intros i s HI; cbn [forEachFrom].
    - exact HI.
    - inversion Hlogs as [|? ? Hlog Hrest]; subst.
      apply triple_bind.
      eapply triple_weaken; [apply (keepLog_total _ log i Hlog s HI) | | auto].
      intros b s' HI'. apply IH; assumption. }
  clear a s HI. intros a s HI. cbn beta.
  apply triple_bind, triple_getL, triple_ret. cbn.
  split; [reflexivity|].
  exists (l_parsedData (fst s)), d1, d2, d3.
  split; [reflexivity|]. split; [exact HI|]. auto.
Qed.

Lemma parseOpenAIResponse_valid_batch {L} props e1 e2 e3 (l : L) t :
  assoc "documents" props = Some (VArr [e1; e2; e3]) ->
  validEntry e1 -> validEntry e2 -> validEntry e3 ->
  logsWellFormed props ->
  exists pd d1 d2 d3 t',
    parseOpenAIResponse (VObj props) (l, t)
    = (Returned {| success := true; data := Some pd; error := None;
                   warnings := [] |}, (l, t'))
    /\ documents pd = [d1; d2; d3]
    /\ validDocument d1 /\ validDocument d2 /\ validDocument d3.
Proof.
  intros Hdocs H1 H2 H3 Hlogs.
  pose proof (structuredBody_valid_batch props e1 e2 e3 t Hdocs H1 H2 H3 Hlogs)
    as Hbody.
  unfold triple in Hbody.
  unfold parseOpenAIResponse, tryCatch, bind, parseStructuredData, scope, tryCatch.
  cbn [truthy isObject typeof negb orb String.eqb Ascii.eqb Bool.eqb fst snd].
  destruct (structuredBody (Some (VObj props)) _) as [[p|e] [l' t']];
    [|contradiction].
  destruct Hbody as (Hs & pd & d1 & d2 & d3 & Hd & Hdocs' & Hv1 & Hv2 & Hv3).
  rewrite Hs. cbn. rewrite Hd. exists pd, d1, d2, d3, t'. auto.
Qed.
End ParserForward.

Section PartialSuccess.
Import HarvestDataParser HarvestDataImporter.
Context `{RT : Runtime} `{DB : Supabase}.

(** The database refuses the insertion of the second document of a
    batch and accepts every other request. *)
Hypothesis refusesSecond :
  forall h r, isInsertOfDocument 1 r = true -> refuses (respond h r).
Hypothesis acceptsOthers :
  forall h r, isInsertOfDocument 1 r = false -> accepts (respond h r).

Lemma total_try {L A} (I : L * nat -> Prop) (m : M L A) h :
  total I m -> total I (tryCatch m h).
Proof.
  intros Hm s H. apply triple_tryCatch.
  eapply triple_weaken; [apply Hm, H | auto | intros ? ? []].
Qed.

Lemma getM_returns {L} d k (s : L * nat) :
  d <> VNull -> getM (Some d) k s = (Returned (get d k), s).
Proof. destruct d; try reflexivity. contradiction. Qed.

Lemma seen_send v r : preserves (seen v) (send r).
Proof. intros s H. exact H. Qed.

Lemma seen_newDate v : preserves (seen v) newDate.
Proof. intros s H. exact H. Qed.

Lemma seen_getLocals v : total (seen v) getLocals.
Proof. intros s H. exact H. Qed.

Lemma seen_getResult v : total (seen v) getResult.
Proof. intros s H. exact H. Qed.

Lemma seen_modifyLocals v f :
  (forall l, errors (result (f l)) = errors (result l)
             /\ l_documentsImported (f l) = l_documentsImported l
             /\ documentsImported (result (f l)) = documentsImported (result l)) ->
  total (seen v) (modifyLocals f).
Proof.
  intros Hf [[w l] t] H.
  unfold triple, modifyLocals, modifyL, seen, view in *. cbn in *.
  destruct (Hf l) as (-> & -> & ->). exact H.
Qed.

Lemma seen_createLog v row : preserves (seen v) (HarvestLogService.createLog row).
Proof.
  unfold HarvestLogService.createLog.
  apply preserves_bind; [apply seen_send|].
  intros [e|data [m|]];
    [apply preserves_throw | apply preserves_throw | apply preserves_ret].
Qed.

Lemma seen_importLog v hr ds log i : total (seen v) (importLog hr ds log i).
Proof.
  unfold importLog. apply total_tryCatch; [|intros e; apply total_ret].
  apply preserves_bind; [apply seen_newDate|]. intros now.
  apply preserves_bind; [apply seen_createLog|]. intros _.
  apply total_preserves, seen_modifyLocals. intros l. auto.
Qed.

Lemma seen_finalLog v hr ds : total (seen v) (finalLog hr ds).
Proof.
  unfold finalLog. apply total_tryCatch; [|intros e; apply total_ret].
  apply preserves_bind; [apply total_preserves, seen_getLocals|]. intros l.
  apply preserves_bind; [apply seen_createLog|]. intros _. apply preserves_ret.
Qed.

Lemma accepted_data h r :
  isInsertOfDocument 1 r = false ->
  exists d, respond h r = Replied (Some d) None /\ d <> VNull.
Proof.
  intros Hr. pose proof (acceptsOthers h r Hr) as Ha. unfold accepts in Ha.
  destruct (respond h r) as [e|[[]|] [m|]]; try contradiction;
    eexists; (split; [reflexivity | discriminate]).
Qed.

Lemma refused_data h r :
  isInsertOfDocument 1 r = true ->
  (exists e, respond h r = Rejected e)
  \/ (exists d m, respond h r = Replied d (Some m)).
Proof.
  intros Hr. pose proof (refusesSecond h r Hr) as Ha. unfold refuses in Ha.
  destruct (respond h r) as [e|d [m|]]; [eauto | eauto | contradiction].
Qed.

Lemma seen_updateDataSource v id updates :
  total (seen v) (DataSourceService.updateDataSource id updates).
Proof.
  intros s H. unfold DataSourceService.updateDataSource.
  apply triple_tryCatch, triple_bind.
  destruct (accepted_data (sent (fst (fst s))) (Update "data_sources" id updates)
              eq_refl) as (d & Hd & Hnull).
  eapply triple_returned; [reflexivity|].
  rewrite Hd. apply triple_bind.
  eapply triple_returned; [apply getM_returns, Hnull|].
  apply triple_ret. exact H.
Qed.

Lemma seen_updateSite v ds pd : total (seen v) (updateSite ds pd).
Proof.
  unfold updateSite. apply total_try. cbv zeta.
  apply total_bind.
  { apply total_if; [|apply total_ret].
    apply seen_modifyLocals. intros l. auto. }
  intros _. apply total_bind.
  { apply total_if; [|apply total_ret].
    apply seen_modifyLocals. intros l. auto. }
  intros _. apply total_if; [|apply total_ret].
  apply total_bind; [apply seen_updateDataSource | intros; apply total_ret].
Qed.

Lemma notifyProgress_seen p phs errs n k s :
  seen (phs, true, errs, n, k) s ->
  triple (notifyProgress p) s
    (fun _ => seen (phs ++ [phase p], true, errs, n, k)) (fun _ _ => False).
Proof.
  destruct s as [[[snt cb obs] l] t].
  unfold seen, view, triple, notifyProgress, modifyL. cbn.
  intros H. inversion H; subst. cbn. rewrite map_app. reflexivity.
Qed.

Lemma interpolate_string {L} v (s : L * nat) :
  isString (Some v) = true -> exists x, interpolate (Some v) s = (Returned x, s).
Proof.
  destruct v; cbn; try discriminate. intros _. eexists. reflexivity.
Qed.

Lemma jsor_isString a b :
  isString (Some a) = true -> isString (Some b) = true ->
  isString (Some (jsor (Some a) b)) = true.
Proof. intros Ha Hb. unfold jsor. destruct (truthy (Some a)); assumption. Qed.

Lemma asInteger_natValue i : asInteger (Some (natValue i)) = Some (Z.of_nat i).
Proof.
  unfold asInteger, natValue, VInt, number_of_Z. cbn [inject_Z Qnum Qden].
  rewrite Z.div_1_r.
  change (Z.of_nat i # 1) with (inject_Z (Z.of_nat i)).
  rewrite Qeq_bool_refl. reflexivity.
Qed.

Lemma createResult_accepted v row s :
  isInsertOfDocument 1 (Insert "harvest_results" row) = false ->
  seen v s ->
  triple (HarvestResultService.createResult row) s
    (fun _ => seen v) (fun _ _ => False).
Proof.
  intros Hr H. unfold HarvestResultService.createResult.
  apply triple_bind.
  destruct (accepted_data (sent (fst (fst s))) _ Hr) as (d & Hd & Hnull).
  eapply triple_returned; [reflexivity|].
  rewrite Hd. apply triple_bind.
  eapply triple_returned; [apply getM_returns, Hnull|].
  apply triple_ret. exact H.
Qed.

Lemma createResult_refused v row s :
  isInsertOfDocument 1 (Insert "harvest_results" row) = true ->
  seen v s ->
  triple (HarvestResultService.createResult row) s
    (fun _ _ => False) (fun _ => seen v).
Proof.
  intros Hr H. unfold HarvestResultService.createResult.
  apply triple_bind.
  eapply triple_returned; [reflexivity|].
  destruct (refused_data (sent (fst (fst s))) _ Hr)
    as [(e & ->) | (d & m & ->)]; apply triple_throw; exact H.
Qed.

Lemma seen_counted phs cb errs n k s :
  seen (phs, cb, errs, n, k) s ->
  seen (phs, cb, errs, S n, k)
    ((fst (fst s),
      {| result := result (snd (fst s));
         l_documentsImported := S (l_documentsImported (snd (fst s)));
         l_logsImported := l_logsImported (snd (fst s)) |}), snd s).
Proof.
  destruct s as [[w l] t]. unfold seen, view. cbn.
  intros H. inversion H; subst. reflexivity.
Qed.

Lemma seen_pushError phs cb errs n k e s :
  seen (phs, cb, errs, n, k) s ->
  triple (pushError e) s
    (fun _ => seen (phs, cb, errs ++ [e], n, k)) (fun _ _ => False).
Proof.
  destruct s as [[w l] t]. unfold seen, view, triple, pushError. cbn.
  intros H. inversion H; subst. reflexivity.
Qed.

(** The document is inserted, counted, and a snapshot is emitted. *)
Lemma importDocument_imported hr ds tot d i phs errs n k s :
  validDocument d -> (Z.of_nat i =? 1) = false ->
  seen (phs, true, errs, n, k) s ->
  triple (importDocument hr ds tot d i) s
    (fun _ => seen (phs ++ [documents_phase], true, errs, S n, k))
    (fun _ _ => False).
Proof.
  intros (Hu & Ht & _ & Hname & _) Hi H. unfold importDocument.
  apply String.eqb_neq in Hu, Ht. rewrite Hu, Ht. cbn [orb].
  apply triple_tryCatch.
  eapply triple_weaken with (E := fun _ _ => False);
    [ | intros ? ? Hs; exact Hs | intros ? ? [] ].
  apply triple_bind, triple_newDate.
  apply triple_bind.
  eapply triple_weaken;
    [apply (createResult_accepted (phs, true, errs, n, k)); [|exact H]
    | | intros ? ? []].
  { unfold isInsertOfDocument, documentIndexOf.
    cbn -[asInteger natValue Z.eqb]. rewrite asInteger_natValue. exact Hi. }
  intros _a s1 H1. cbn beta.
  apply triple_bind, triple_modifyLocals.
  apply seen_counted in H1.
  apply triple_bind.
  match goal with |- triple _ ?s2 _ _ =>
    destruct (interpolate_string (document_name d) s2 Hname) as (x & Hx)
  end.
  eapply triple_returned; [exact Hx|].
  apply triple_bind.
  eapply triple_weaken; [apply (seen_getResult _ _ H1) | | intros ? ? []].
  intros r s3 H3. cbn beta in *.
  match goal with |- triple (notifyProgress ?p) _ _ _ =>
    apply (notifyProgress_seen p _ _ _ _ _ H3)
  end.
Qed.

(** The insertion fails and the failure is recorded. *)
Lemma importDocument_refused hr ds tot d i phs errs n k s :
  validDocument d -> (Z.of_nat i =? 1) = true ->
  seen (phs, true, errs, n, k) s ->
  triple (importDocument hr ds tot d i) s
    (fun _ s' => exists e, seen (phs, true, errs ++ [e], n, k) s')
    (fun _ _ => False).
Proof.
  intros (Hu & Ht & _ & Hname & Hfile) Hi H. unfold importDocument.
  apply String.eqb_neq in Hu, Ht. rewrite Hu, Ht. cbn [orb].
  apply triple_tryCatch.
  apply triple_bind, triple_newDate.
  apply triple_bind.
  eapply triple_weaken;
    [apply (createResult_refused (phs, true, errs, n, k)); [|exact H]
    | intros ? ? [] | ].
  { unfold isInsertOfDocument, documentIndexOf.
    cbn -[asInteger natValue Z.eqb]. rewrite asInteger_natValue. exact Hi. }
  intros e s1 H1. cbn beta zeta.
  apply triple_bind.
  match goal with |- triple (interpolate (Some ?v)) ?s2 _ _ =>
    assert (Hv : isString (Some v) = true)
      by (repeat apply jsor_isString; auto);
    destruct (interpolate_string v s2 Hv) as (x & Hx)
  end.
  eapply triple_returned; [exact Hx|].
  eapply triple_weaken; [apply (seen_pushError _ _ _ _ _ _ _ H1) | | auto].
  intros _a s2 H2. eexists. exact H2.
Qed.

Lemma seen_locals phs cb errs n k s :
  seen (phs, cb, errs, n, k) s ->
  map phase (observed (fst (fst s))) = phs
  /\ progressCallback (fst (fst s)) = cb
  /\ errors (result (snd (fst s))) = errs
  /\ l_documentsImported (snd (fst s)) = n
  /\ documentsImported (result (snd (fst s))) = k.
Proof. unfold seen, view. intros H. inversion H. auto. Qed.

Lemma validateParsedData_valid pd d1 d2 d3 :
  documents pd = [d1; d2; d3] ->
  validDocument d1 -> validDocument d2 -> validDocument d3 ->
  isValid (validateParsedData pd) = true.
Proof.
  intros Hd (_ & _ & H1 & _) (_ & _ & H2 & _) (_ & _ & H3 & _).
  unfold validateParsedData. rewrite Hd.
  cbn [length Nat.eqb invalidUrlsFrom]. rewrite H1, H2, H3. reflexivity.
Qed.

Ltac seen_step lemma :=
  apply triple_bind;
  eapply triple_weaken with (E := fun _ _ => False);
  [lemma | cbn beta | intros ? ? []].

(** The phases after a successful parse and validation of three valid
    documents. *)
Lemma importParsedData_partial hr ds pd d1 d2 d3 phs s :
  documents pd = [d1; d2; d3] ->
  validDocument d1 -> validDocument d2 -> validDocument d3 ->
  seen (phs, true, [], 0, 0)%nat s ->
  triple (importParsedData hr ds pd) s
    (fun r s' =>
       documentsImported r = 2%nat /\ length (errors r) = 1%nat
       /\ success r = true
       /\ map phase (observed (fst (fst s')))
          = phs ++ [documents_phase; documents_phase; documents_phase;
                    site_update; logs_phase; completed])
    (fun _ _ => False).
Proof.
  intros Hd V1 V2 V3 H. unfold importParsedData. rewrite Hd. cbv zeta.
  seen_step ltac:(apply (seen_getResult _ _ H)). clear s H. intros r0 s H.
  match goal with |- triple (bind (notifyProgress ?p) _) _ _ _ =>
    seen_step ltac:(apply (notifyProgress_seen p _ _ _ _ _ H))
  end.
  clear s H. intros _a s H. cbn [phase] in H.
  unfold forEach. cbn [forEachFrom].
  apply triple_bind.
  seen_step ltac:(apply (importDocument_imported hr ds _ d1 0 _ _ _ _ _
                           V1 eq_refl H)).
  clear s H. intros _b s H.
  seen_step ltac:(apply (importDocument_refused hr ds _ d2 1 _ _ _ _ _
                           V2 eq_refl H)).
  clear s H. intros _c s (e & H). cbn [app] in H.
  seen_step ltac:(apply (importDocument_imported hr ds _ d3 2 _ _ _ _ _
                           V3 eq_refl H)).
  clear s H. intros _d s H.
  apply triple_ret.
  apply triple_bind, triple_modifyLocals.
  match goal with |- triple _ ?s2 _ _ =>
    assert (H2 : seen (((phs ++ [documents_phase]) ++ [documents_phase])
                         ++ [documents_phase], true, [e], 2, 2)%nat s2)
  end.
  { destruct s as [[w l] t]. unfold seen, view in *. cbn in *.
    inversion H; subst. reflexivity. }
  match goal with |- triple _ ?s2 _ _ => generalize dependent s2 end.
  clear s H. intros s H.
  seen_step ltac:(apply (seen_getResult _ _ H)). clear s H. intros r1 s H.
  match goal with |- triple (bind (notifyProgress ?p) _) _ _ _ =>
    seen_step ltac:(apply (notifyProgress_seen p _ _ _ _ _ H))
  end.
  clear s H. intros _e s H. cbn [phase] in H.
  seen_step ltac:(apply (seen_updateSite _ ds pd _ H)). clear s H. intros _f s H.
  seen_step ltac:(apply (seen_getResult _ _ H)). clear s H. intros r2 s H.
  match goal with |- triple (bind (notifyProgress ?p) _) _ _ _ =>
    seen_step ltac:(apply (notifyProgress_seen p _ _ _ _ _ H))
  end.
  clear s H. intros _g s H. cbn [phase] in H.
  seen_step ltac:(apply (total_forEachFrom _ _ (logs pd) 0%nat
                           (fun x j => seen_importLog _ hr ds x j) _ H)).
  clear s H. intros _h s H.
  match goal with |- triple (bind (modifyLocals ?f) _) _ _ _ =>
    seen_step ltac:(apply (seen_modifyLocals _ f
                             (fun l => conj eq_refl (conj eq_refl eq_refl)) _ H))
  end.
  clear s H. intros _i s H.
  seen_step ltac:(apply (seen_finalLog _ hr ds _ H)). clear s H. intros _j s H.
  apply triple_bind, triple_getLocals.
  destruct (seen_locals _ _ _ _ _ _ H) as (_ & _ & He & Hn & Hk).
  match goal with |- triple (bind (notifyProgress ?p) _) _ _ _ =>
    seen_step ltac:(apply (notifyProgress_seen p _ _ _ _ _ H))
  end.
  intros _k s' H'. cbn [phase] in H'.
  apply triple_bind, triple_modifyLocals.
  unfold getResult. apply triple_bind, triple_getLocals, triple_ret.
  destruct (seen_locals _ _ _ _ _ _ H') as (Hp' & _ & He' & _ & Hk').
  cbn [fst snd updResult result withSuccess documentsImported errors success].
  rewrite Hk', He', Hn, Hp'. cbn [length Nat.eqb Nat.ltb Nat.leb orb].
  rewrite <- !app_assoc. cbn [app]. auto.
Qed.

(** A batch of three valid documents of which the database refuses the
    second: two documents are imported, one error is recorded, the
    import succeeds, and the callback is given one snapshot for the
    parsing, one as the documents phase opens and one for each document
    that was inserted, then one for each later phase. *)
Lemma importHarvestData_partial hr ds props e1 e2 e3 w t :
  hr_data hr = VObj props ->
  assoc "documents" props = Some (VArr [e1; e2; e3]) ->
  validEntry e1 -> validEntry e2 -> validEntry e3 ->
  logsWellFormed props ->
  progressCallback w = true ->
  exists r w' t',
    importHarvestData hr ds (w, t) = (Returned r, (w', t'))
    /\ documentsImported r = 2%nat
    /\ length (errors r) = 1%nat
    /\ success r = true
    /\ map phase (observed w')
       = map phase (observed w)
         ++ [parsing; documents_phase; documents_phase; documents_phase;
             site_update; logs_phase; completed].
Proof.
  intros Hdata Hdocs V1 V2 V3 Hlogs Hcb.
  assert (T : triple (importHarvestData hr ds) (w, t)
                (fun r s' =>
                   documentsImported r = 2%nat /\ length (errors r) = 1%nat
                   /\ success r = true
                   /\ map phase (observed (fst s'))
                      = map phase (observed w)
                        ++ [parsing; documents_phase; documents_phase;
                            documents_phase; site_update; logs_phase; completed])
                (fun _ _ => False)).
  { unfold importHarvestData. apply triple_withLocals, triple_tryCatch.
    eapply triple_weaken with (E := fun _ _ => False);
      [ | intros ? ? Hs; exact Hs | intros ? ? [] ].
    cbn [fst snd].
    assert (H : seen (map phase (observed w), true, [], 0, 0)%nat
                  ((w, initialLocals), t)).
    { unfold seen, view. cbn. rewrite Hcb. reflexivity. }
    unfold importBody.
    match goal with |- triple (bind (notifyProgress ?p) _) _ _ _ =>
      seen_step ltac:(apply (notifyProgress_seen p _ _ _ _ _ H))
    end.
    clear H. intros _a [l t0] H. cbn [phase] in H.
    apply triple_bind. rewrite Hdata.
    destruct (parseOpenAIResponse_valid_batch props e1 e2 e3 l t0
                Hdocs V1 V2 V3 Hlogs)
      as (pd & d1 & d2 & d3 & t1 & Hrun & Hpd & D1 & D2 & D3).
    eapply triple_returned; [exact Hrun|].
    unfold afterParsing.
    cbn [HarvestDataParser.success HarvestDataParser.data
         HarvestDataParser.warnings negb].
    match goal with |- triple (bind (modifyLocals ?f) _) _ _ _ =>
      seen_step ltac:(apply (seen_modifyLocals _ f
                               (fun l => conj eq_refl (conj eq_refl eq_refl))
                               (l, t1) H))
    end.
    intros _b s H1. cbv zeta.
    rewrite (validateParsedData_valid pd d1 d2 d3 Hpd D1 D2 D3). cbn [negb].
    eapply triple_weaken;
      [apply (importParsedData_partial hr ds pd d1 d2 d3 _ s Hpd D1 D2 D3 H1)
      | | auto].
    intros r s' (Hn & He & Hs & Hp). rewrite <- app_assoc in Hp. auto. }
  apply triple_returns in T.
  destruct T as (r & [w' t'] & Hrun & HQ). exists r, w', t'. auto.
Qed.
End PartialSuccess.

Section OrchestratorClaims.
Import HarvestDataParser HarvestDataImporter.

(** C3: every run of [importHarvestData] returns a result whose
    [success] is [errors.length === 0 || documentsImported > 0]. In
    particular, on a batch of three valid documents, with a database
    that refuses the insertion of the second document and accepts every
    other request, and with a progress callback registered, the result
    has [documentsImported = 2], one error and [success = true], and the
    callback is given snapshots of the phases parsing, documents,
    documents, documents, site_update, logs, completed, in that order.
    The three snapshots of the documents phase are the one that opens
    the phase and one for each of the two documents that were inserted. *)
Theorem importHarvestData_success_rule_and_partial_success
    `{RT : Runtime} `{DB : Supabase} :
  (forall harvestResult dataSource (s : World ImportProgress * nat),
     exists r s',
       importHarvestData harvestResult dataSource s = (Returned r, s')
       /\ success r = ((length (errors r) =? 0)%nat
                       || (0 <? documentsImported r)%nat))
  /\ ((forall h r, isInsertOfDocument 1 r = true -> refuses (respond h r)) ->
      (forall h r, isInsertOfDocument 1 r = false -> accepts (respond h r)) ->
      forall harvestResult dataSource props e1 e2 e3 w t,
        hr_data harvestResult = VObj props ->
        assoc "documents" props = Some (VArr [e1; e2; e3]) ->
        validEntry e1 -> validEntry e2 -> validEntry e3 ->
        logsWellFormed props ->
        progressCallback w = true ->
        exists r w' t',
          importHarvestData harvestResult dataSource (w, t)
          = (Returned r, (w', t'))
          /\ documentsImported r = 2%nat
          /\ length (errors r) = 1%nat
          /\ success r = true
          /\ map phase (observed w')
             = map phase (observed w)
               ++ [parsing; documents_phase; documents_phase; documents_phase;
                   site_update; logs_phase; completed]).
Proof.
  split.
  - intros harvestResult dataSource s.
    exact (importHarvestData_obeys_rule harvestResult dataSource s).
  - intros Hrefuses Haccepts harvestResult dataSource props e1 e2 e3 w t.
    exact (importHarvestData_partial Hrefuses Haccepts harvestResult dataSource
             props e1 e2 e3 w t).
Qed.
End OrchestratorClaims.

Lemma importHarvestData_success_rule_and_partial_success_witness :
  exists r w' t',
    HarvestDataImporter.importHarvestData
      (RT := Reference.runtime) (DB := ReferenceDatabase.refusingSecond)
      (ImportExamples.harvest ImportExamples.threeDocuments)
      ImportExamples.source (ImportExamples.listening, 0%nat)
    = (Returned r, (w', t'))
    /\ HarvestDataImporter.documentsImported r = 2%nat
    /\ length (HarvestDataImporter.errors r) = 1%nat
    /\ HarvestDataImporter.success r = true
    /\ map HarvestDataImporter.phase (observed w')
       = map HarvestDataImporter.phase (observed ImportExamples.listening)
         ++ [HarvestDataImporter.parsing; HarvestDataImporter.documents_phase;
             HarvestDataImporter.documents_phase;
             HarvestDataImporter.documents_phase;
             HarvestDataImporter.site_update; HarvestDataImporter.logs_phase;
             HarvestDataImporter.completed].
Proof.
  eapply (proj2 (@importHarvestData_success_rule_and_partial_success
                   Reference.runtime ReferenceDatabase.refusingSecond)).
  - intros h r Hr. cbn. rewrite Hr. exact I.
  - intros h r Hr. cbn. rewrite Hr. exact I.
  - reflexivity.
  - reflexivity.
  - repeat split; try reflexivity.
    exists "https://ex.com/a.pdf".
    split; [reflexivity | split; [vm_compute; discriminate | reflexivity]].
  - repeat split; try reflexivity.
    exists "https://ex.com/b.pdf".
    split; [reflexivity | split; [vm_compute; discriminate | reflexivity]].
  - repeat split; try reflexivity.
    exists "https://ex.com/c.pdf".
    split; [reflexivity | split; [vm_compute; discriminate | reflexivity]].
  - vm_compute. exact I.
  - reflexivity.
Defined.

Lemma empty_batch_is_valid_but_not_imported_witness :
  JSON_parse (Runtime := Reference.runtime) BatchExamples.emptyBatchText
  = Returned BatchExamples.emptyBatch
  /\ (exists r s',
        HarvestDataImporter.importHarvestData
          (RT := Reference.runtime) (DB := ReferenceDatabase.accepting)
          (ImportExamples.harvest BatchExamples.emptyBatch) ImportExamples.source
          (ImportExamples.listening, 0%nat)
        = (Returned r, s')
        /\ HarvestDataImporter.success r = false
        /\ HarvestDataImporter.documentsImported r = 0%nat
        /\ HarvestDataImporter.errors r = ["Aucun document valide trouvé"]
        /\ sent (fst s') = sent (fst (ImportExamples.listening, 0%nat))).
Proof.
  split; [vm_compute; reflexivity|].
  apply (empty_batch_is_valid_but_not_imported
           (RT := Reference.runtime) (DB := ReferenceDatabase.accepting)
           BatchExamples.succeeding BatchExamples.emptyBatchText
           ImportExamples.source None
           (ImportExamples.harvest BatchExamples.emptyBatch)
           (BatchExamples.watching, 0%nat) (ImportExamples.listening, 0%nat)).
  - vm_compute. reflexivity.
  - reflexivity.
Defined.

(** C4 as stated fails: the text is valid, with its warning, but neither
    import of the empty batch succeeds; each returns [success = false]
    with one error, the first without calling the phases that follow its
    gate, the second ending in the error phase. *)
Lemma empty_batch_import_does_not_succeed :
  (exists v s',
     JsonImportValidator.validateImportJson (RT := Reference.runtime)
       BatchExamples.emptyBatchText (BatchExamples.watching, 0%nat)
     = (Returned v, s')
     /\ JsonImportValidator.isValid v = true)
  /\ (exists r s',
        HarvestImportService.importHarvestResults
          (RT := Reference.runtime) BatchExamples.succeeding
          BatchExamples.emptyBatchText ImportExamples.source None
          (BatchExamples.watching, 0%nat)
        = (Returned r, s')
        /\ HarvestImportService.success r = false
        /\ HarvestImportService.documentsImported r = 0%nat)
  /\ (exists r s',
        HarvestDataImporter.importHarvestData
          (RT := Reference.runtime) (DB := ReferenceDatabase.accepting)
          (ImportExamples.harvest BatchExamples.emptyBatch) ImportExamples.source
          (ImportExamples.listening, 0%nat)
        = (Returned r, s')
        /\ HarvestDataImporter.success r = false
        /\ HarvestDataImporter.documentsImported r = 0%nat
        /\ map HarvestDataImporter.phase (observed (fst s'))
           = [HarvestDataImporter.parsing; HarvestDataImporter.error_phase]).
Proof.
  split; [|split]; do 2 eexists; (split; [vm_compute; reflexivity|]);
    repeat split.
Qed.

Lemma importHarvestData_entry_without_usable_url_doc_witness :
  let s : World HarvestDataImporter.ImportProgress * nat :=
    (ImportExamples.listening, 0%nat) in
  (exists r s1 s2,
     HarvestDataImporter.importHarvestData
       (RT := Reference.runtime) (DB := ReferenceDatabase.accepting)
       (ImportExamples.harvest BatchExamples.batchWithGap) ImportExamples.source s
     = (Returned r, s1)
     /\ HarvestDataImporter.importHarvestData
          (RT := Reference.runtime) (DB := ReferenceDatabase.accepting)
          (withDocuments
             [VObj [("url_doc", VStr "https://ex.com/a.pdf")];
              VObj [("url_doc", VStr "https://ex.com/c.pdf")]]
             (ImportExamples.harvest BatchExamples.batchWithGap))
          ImportExamples.source s
        = (Returned r, s2)
     /\ sent (fst s1) = sent (fst s2)
     /\ snd s1 = snd s2)
  /\ (exists r s',
        HarvestDataImporter.importHarvestData
          (RT := Reference.runtime) (DB := ReferenceDatabase.accepting)
          (ImportExamples.harvest BatchExamples.batchWithUnparseable)
          ImportExamples.source s
        = (Returned r, s')
        /\ HarvestDataImporter.success r = false
        /\ HarvestDataImporter.documentsImported r = 0%nat
        /\ HarvestDataImporter.errors r <> []
        /\ sent (fst s') = sent (fst s)).
Proof.
  cbv zeta. split.
  - apply (importHarvestData_entry_without_usable_url_doc
             (RT := Reference.runtime) (DB := ReferenceDatabase.accepting)
             (ImportExamples.harvest BatchExamples.batchWithGap)
             ImportExamples.source
             [("documents",
               VArr [VObj [("url_doc", VStr "https://ex.com/a.pdf")];
                     VObj [("document_name", VStr "no url")];
                     VObj [("url_doc", VStr "https://ex.com/c.pdf")]])]
             [VObj [("url_doc", VStr "https://ex.com/a.pdf")]]
             (VObj [("document_name", VStr "no url")])
             [VObj [("url_doc", VStr "https://ex.com/c.pdf")]]
             (ImportExamples.listening, 0%nat) eq_refl eq_refl).
    exact I.
  - apply (importHarvestData_entry_without_usable_url_doc
             (RT := Reference.runtime) (DB := ReferenceDatabase.accepting)
             (ImportExamples.harvest BatchExamples.batchWithUnparseable)
             ImportExamples.source
             [("documents",
               VArr [VObj [("url_doc", VStr "https://ex.com/a.pdf")];
                     VObj [("url_doc", VStr "not-a-url")]])]
             [VObj [("url_doc", VStr "https://ex.com/a.pdf")]]
             (VObj [("url_doc", VStr "not-a-url")])
             []
             (ImportExamples.listening, 0%nat) eq_refl eq_refl).
    split; [reflexivity|]. split; [reflexivity|].
    exists "not-a-url".
    split; [reflexivity | split; [vm_compute; discriminate | reflexivity]].
Defined.

(** C5 as stated fails: an entry whose [url_doc] is a text that is not
    an address is kept by the parser, the validation of the parsed data
    then rejects the whole batch, and the valid document next to it is
    not imported; without that entry the same document is imported. *)
Lemma importHarvestData_rejects_batch_on_unparseable_url_doc :
  URL_parses (Runtime := Reference.runtime) "not-a-url" = false
  /\ (exists r s',
        HarvestDataImporter.importHarvestData
          (RT := Reference.runtime) (DB := ReferenceDatabase.accepting)
          (ImportExamples.harvest BatchExamples.batchWithUnparseable)
          ImportExamples.source (ImportExamples.listening, 0%nat)
        = (Returned r, s')
        /\ HarvestDataImporter.success r = false
        /\ HarvestDataImporter.documentsImported r = 0%nat
        /\ HarvestDataImporter.errors r = ["Document 2: URL invalide (not-a-url)"]
        /\ sent (fst s') = [])
  /\ (exists r s',
        HarvestDataImporter.importHarvestData
          (RT := Reference.runtime) (DB := ReferenceDatabase.accepting)
          (ImportExamples.harvest BatchExamples.batchWithoutUnparseable)
          ImportExamples.source (ImportExamples.listening, 0%nat)
        = (Returned r, s')
        /\ HarvestDataImporter.success r = true
        /\ HarvestDataImporter.documentsImported r = 1%nat).
Proof.
  split; [reflexivity|].
  split; do 2 eexists; (split; [vm_compute; reflexivity|]); repeat split.
Qed.

(** C10 as stated fails: the first entry has a valid [url_doc] and a
    number for [date_edition], an optional field. The report is valid
    and has no error, so no finding with field ["json"]; the number is
    the matter of a warning, and the warnings about the second
    document and about the log are there, the log being counted. *)
Lemma validateImportJson_warns_on_numeric_date_edition :
  documentsOf (RT := Reference.runtime) BatchExamples.numericDateText
  = Some [VObj [("url_doc", VStr "https://ex.com/a.pdf");
                ("document_name", VStr "A"); ("filename", VStr "a.pdf");
                ("date_edition", VInt 5)];
          VObj [("url_doc", VStr "https://ex.com/b.pdf")]]
  /\ truthyNonString (Some (VInt 5)) = true
  /\ exists r s',
       JsonImportValidator.validateImportJson (RT := Reference.runtime)
         BatchExamples.numericDateText (tt, 0%nat)
       = (Returned r, s')
       /\ JsonImportValidator.isValid r = true
       /\ JsonImportValidator.errors r = []
       /\ map (fun w => (JsonImportValidator.field w,
                         JsonImportValidator.documentIndex w,
                         JsonImportValidator.logIndex w))
            (JsonImportValidator.warnings r)
          = [("date_edition", Some 0%nat, None);
             ("document_name", Some 1%nat, None);
             ("filename", Some 1%nat, None);
             ("level", None, Some 0%nat);
             ("message", None, Some 0%nat)]
       /\ JsonImportValidator.totalLogs (JsonImportValidator.summary r) = 1%nat.
Proof.
  split; [vm_compute; reflexivity|]. split; [reflexivity|].
  do 2 eexists. split; [vm_compute; reflexivity|].
  repeat split.
Qed.

Lemma validateImportJson_reports_type_error_as_json_witness :
  exists r s',
    JsonImportValidator.validateImportJson (RT := Reference.runtime)
      BatchExamples.numericNameText (tt, 0%nat)
    = (Returned r, s')
    /\ JsonImportValidator.isValid r = false
    /\ (exists before thrown,
          JsonImportValidator.errors r
          = before ++ [JsonImportValidator.jsonSyntaxError thrown]
          /\ JsonImportValidator.field (JsonImportValidator.jsonSyntaxError thrown)
             = "json")
    /\ JsonImportValidator.totalLogs (JsonImportValidator.summary r) = 0%nat
    /\ JsonImportValidator.validLogs (JsonImportValidator.summary r) = 0%nat
    /\ Forall (aboutDocumentsUpTo (length (@nil value)))
         (JsonImportValidator.errors r ++ JsonImportValidator.warnings r).
Proof.
  eapply (validateImportJson_reports_type_error_as_json
            (RT := Reference.runtime) BatchExamples.numericNameText _ [] _ _
            (tt, 0%nat)).
  - vm_compute. reflexivity.
  - reflexivity.
  - reflexivity.
  - reflexivity.
  - reflexivity.
  - reflexivity.
  - left. reflexivity.
Defined.

(** * What the validators report *)

Section ReportGrowth.
Import JsonImportValidator.
Context `{RT : Runtime} (Pe Pw : ValidationError -> Prop) (l0 : Locals).

Lemma grownL_start : grownL Pe Pw l0 0 l0.
Proof.
  exists [], []. rewrite !app_nil_r. repeat split; constructor.
Qed.

Lemma grown_pushWarning ne w :
  Pw w -> preserves (onHeap (grownL Pe Pw l0 ne)) (pushWarning w).
Proof.
  intros Hw. apply preserves_modifyL.
  intros l (es & ws & He & Hws & Hs & Hn & HPe & HPw).
  exists es, (ws ++ [w]). cbn. rewrite Hws, app_assoc.
  repeat split; auto. apply Forall_app. split; auto.
Qed.

Lemma grown_pushError ne e s :
  Pe e -> onHeap (grownL Pe Pw l0 ne) s ->
  triple (pushError e) s
    (fun _ => onHeap (grownL Pe Pw l0 (S ne))) (fun _ _ => False).
Proof.
  intros He (es & ws & Hes & Hws & Hs & Hn & HPe & HPw).
  exists (es ++ [e]), ws. cbn. rewrite Hes, app_assoc, length_app, Hn.
  repeat split; auto; [cbn; lia|]. apply Forall_app. split; auto.
Qed.
End ReportGrowth.

Ltac grown_step :=
  first
    [ apply grown_pushWarning; repeat split; reflexivity
    | preserves_step ].

Section DocumentOutcome.
Import JsonImportValidator.
Context `{RT : Runtime} (Pe : ValidationError -> Prop) (l0 : Locals) (i : nat).

Lemma warnDocumentName_grown ne doc p :
  preserves (onHeap (grownL Pe (aboutDocument warning i) l0 ne))
    (warnDocumentName doc i p).
Proof.
  unfold warnDocumentName, missingOrBlank, callTrim. repeat grown_step.
Qed.

Lemma warnFilename_grown ne doc p :
  preserves (onHeap (grownL Pe (aboutDocument warning i) l0 ne))
    (warnFilename doc i p).
Proof.
  unfold warnFilename, missingOrBlank, callTrim. repeat grown_step.
Qed.

Lemma warnDateEdition_grown ne doc p :
  preserves (onHeap (grownL Pe (aboutDocument warning i) l0 ne))
    (warnDateEdition doc i p).
Proof.
  unfold warnDateEdition, interpolate. repeat grown_step.
Qed.

Lemma warnAnnee_grown ne doc p :
  preserves (onHeap (grownL Pe (aboutDocument warning i) l0 ne))
    (warnAnnee doc i p).
Proof.
  unfold warnAnnee, implausibleYear, interpolate. repeat grown_step.
Qed.

Lemma warnLevel_grown ne log p :
  preserves (onHeap (grownL Pe (aboutLog warning i) l0 ne)) (warnLevel log i p).
Proof.
  unfold warnLevel, interpolate. repeat grown_step.
Qed.

Lemma warnMessage_grown ne log p :
  preserves (onHeap (grownL Pe (aboutLog warning i) l0 ne)) (warnMessage log i p).
Proof.
  unfold warnMessage. repeat grown_step.
Qed.

Lemma warnTimestamp_grown ne log p :
  preserves (onHeap (grownL Pe (aboutLog warning i) l0 ne)) (warnTimestamp log i p).
Proof.
  unfold warnTimestamp, interpolate. repeat grown_step.
Qed.

Lemma warnUrl_grown ne log p :
  preserves (onHeap (grownL Pe (aboutLog warning i) l0 ne)) (warnUrl log i p).
Proof.
  unfold warnUrl. repeat grown_step.
Qed.
End DocumentOutcome.

Section ValidatorOutcome.
Import JsonImportValidator.
Context `{RT : Runtime}.

Ltac push_error H :=
  apply triple_bind;
  eapply triple_weaken;
  [ (eapply grown_pushError; [ | exact H ]); repeat split; reflexivity
  | intros ? ? ?; apply triple_ret; split; [reflexivity | assumption]
  | intros ? ? [] ].

(** The check of [url_doc] says whether the entry is accepted and adds
    one error when it is not. *)
Lemma checkUrlDoc_grown Pw l0 doc i p ne s :
  truthy (Some doc) = true -> isObject (Some doc) = true ->
  onHeap (grownL (aboutDocument error i) Pw l0 ne) s ->
  triple (checkUrlDoc doc i p) s
    (fun b s' =>
       b = acceptedEntry doc
       /\ onHeap (grownL (aboutDocument error i) Pw l0 (if b then ne else S ne)) s')
    (fun _ _ => False).
Proof.
  intros Ht Ho H. unfold checkUrlDoc, acceptedEntry. rewrite Ht, Ho. cbn [andb].
  cbv zeta.
  destruct (get doc "url_doc") as [[|b|n|u| |]|]; cbn [truthy negb].
  - push_error H.
  - destruct b; cbn [negb]; push_error H.
  - destruct (isZero n); cbn [negb]; push_error H.
  - destruct (String.eqb u EmptyString) eqn:Hu; cbn [negb].
    + apply String.eqb_eq in Hu. subst u. push_error H.
    + destruct (String.eqb (trim u) EmptyString); cbn [negb andb].
      * push_error H.
      * destruct (URL_parses u).
        -- apply triple_ret. split; [reflexivity | exact H].
        -- push_error H.
  - push_error H.
  - push_error H.
  - push_error H.
Qed.

(** [validateDocument], when it returns, says whether the entry is
    accepted; it adds one error, about this entry, when it is not, and
    none when it is; all it adds besides are warnings about this entry.
    When it throws, it has added one error at most. *)
Lemma validateDocument_grown doc i s :
  triple (validateDocument doc i) s
    (fun b s' =>
       b = acceptedEntry doc
       /\ onHeap (grownL (aboutDocument error i) (aboutDocument warning i)
                    (fst s) (if b then 0 else 1)) s')
    (fun _ s' =>
       exists ne, (ne <= 1)%nat
         /\ onHeap (grownL (aboutDocument error i) (aboutDocument warning i)
                      (fst s) ne) s').
Proof.
  pose proof (grownL_start (aboutDocument error i) (aboutDocument warning i) (fst s))
    as H0.
  change (onHeap (grownL (aboutDocument error i) (aboutDocument warning i) (fst s) 0) s)
    in H0.
  unfold validateDocument. cbv zeta.
  destruct (truthy (Some doc)) eqn:Ht; cbn [negb orb];
    [destruct (isObject (Some doc)) eqn:Ho; cbn [negb orb]|].
  - apply triple_bind.
    eapply triple_weaken;
      [apply (checkUrlDoc_grown _ (fst s) doc i _ 0%nat s Ht Ho H0) | | intros ? ? []].
    intros b s1 [-> H1]. cbn beta.
    set (n := if acceptedEntry doc then 0%nat else 1%nat) in *.
    assert (Hn : (n <= 1)%nat) by (subst n; destruct (acceptedEntry doc); lia).
    apply triple_bind.
    eapply triple_weaken; [apply (warnDocumentName_grown _ _ i n doc _ s1 H1) | | eauto].
    intros _a s2 H2. cbn beta. apply triple_bind.
    eapply triple_weaken; [apply (warnFilename_grown _ _ i n doc _ s2 H2) | | eauto].
    intros _b s3 H3. cbn beta. apply triple_bind.
    eapply triple_weaken; [apply (warnDateEdition_grown _ _ i n doc _ s3 H3) | | eauto].
    intros _c s4 H4. cbn beta. apply triple_bind.
    eapply triple_weaken; [apply (warnAnnee_grown _ _ i n doc _ s4 H4) | | eauto].
    intros _d s5 H5. cbn beta. apply triple_ret. split; [reflexivity | exact H5].
  - assert (Ha : acceptedEntry doc = false)
      by (unfold acceptedEntry; rewrite Ht, Ho; reflexivity).
    rewrite Ha. apply triple_bind.
    eapply triple_weaken;
      [(eapply grown_pushError; [ | exact H0 ]); repeat split; reflexivity
      | | intros ? ? []].
    intros _a s1 H1. apply triple_ret. split; [reflexivity | exact H1].
  - assert (Ha : acceptedEntry doc = false)
      by (unfold acceptedEntry; rewrite Ht; reflexivity).
    rewrite Ha. apply triple_bind.
    eapply triple_weaken;
      [(eapply grown_pushError; [ | exact H0 ]); repeat split; reflexivity
      | | intros ? ? []].
    intros _a s1 H1. apply triple_ret. split; [reflexivity | exact H1].
Qed.

(** [validateLog], when it returns, says whether the entry is an object;
    it adds one error when it is not, and only warnings when it is.
    When it throws, it has added no error. *)
Lemma validateLog_grown log i s :
  triple (validateLog log i) s
    (fun b s' =>
       b = isLogObject log
       /\ onHeap (grownL (aboutLog error i) (aboutLog warning i)
                    (fst s) (if b then 0 else 1)) s')
    (fun _ s' =>
       onHeap (grownL (aboutLog error i) (aboutLog warning i) (fst s) 0) s').
Proof.
  pose proof (grownL_start (aboutLog error i) (aboutLog warning i) (fst s)) as H0.
  change (onHeap (grownL (aboutLog error i) (aboutLog warning i) (fst s) 0) s) in H0.
  unfold validateLog, isLogObject. cbv zeta.
  destruct (truthy (Some log)) eqn:Ht; cbn [negb orb andb];
    [destruct (isObject (Some log)) eqn:Ho; cbn [negb orb andb]|].
  - apply triple_bind.
    eapply triple_weaken; [apply (warnLevel_grown _ _ i 0%nat log _ s H0) | | auto].
    intros _a s2 H2. cbn beta. apply triple_bind.
    eapply triple_weaken; [apply (warnMessage_grown _ _ i 0%nat log _ s2 H2) | | auto].
    intros _b s3 H3. cbn beta. apply triple_bind.
    eapply triple_weaken; [apply (warnTimestamp_grown _ _ i 0%nat log _ s3 H3) | | auto].
    intros _c s4 H4. cbn beta. apply triple_bind.
    eapply triple_weaken; [apply (warnUrl_grown _ _ i 0%nat log _ s4 H4) | | auto].
    intros _d s5 H5. cbn beta. apply triple_ret. split; [reflexivity | exact H5].
  - apply triple_bind.
    eapply triple_weaken;
      [(eapply grown_pushError; [ | exact H0 ]); repeat split; reflexivity
      | | intros ? ? []].
    intros _a s1 H1. apply triple_ret. split; [reflexivity | exact H1].
  - apply triple_bind.
    eapply triple_weaken;
      [(eapply grown_pushError; [ | exact H0 ]); repeat split; reflexivity
      | | intros ? ? []].
    intros _a s1 H1. apply triple_ret. split; [reflexivity | exact H1].
Qed.
End ValidatorOutcome.

Section ReportTally.
Import JsonImportValidator.
Context `{RT : Runtime}.

Lemma tallied_refl l : tallied l l 0 0 0.
Proof.
  exists [], []. rewrite !app_nil_r, !Nat.add_0_r. repeat split.
Qed.

Lemma tallied_trans l0 l1 l2 a b c a' b' c' :
  tallied l0 l1 a b c -> tallied l1 l2 a' b' c' ->
  tallied l0 l2 (a + a') (b + b') (c + c').
Proof.
  intros (es & ws & He & Hw & Hn & Htd & Htl & Hvd & Hvl)
         (es' & ws' & He' & Hw' & Hn' & Htd' & Htl' & Hvd' & Hvl').
  exists (es ++ es'), (ws ++ ws').
  rewrite He', He, Hw', Hw, !app_assoc, length_app.
  repeat split; try congruence; lia.
Qed.

Lemma grownL_tallied Pe Pw l0 ne l : grownL Pe Pw l0 ne l -> tallied l0 l ne 0 0.
Proof.
  intros (es & ws & He & Hw & Hs & Hn & _ & _).
  exists es, ws. rewrite Hs, !Nat.add_0_r. repeat split; assumption.
Qed.

Lemma countDocument_tallied doc i s :
  triple (countDocument doc i) s
    (fun _ s' =>
       tallied (fst s) (fst s')
         (if acceptedEntry doc then 0 else 1) (if acceptedEntry doc then 1 else 0) 0)
    (fun _ _ => True).
Proof.
  unfold countDocument. apply triple_bind.
  eapply triple_weaken; [apply validateDocument_grown | | auto].
  intros b s1 [-> H1]. cbn beta. apply grownL_tallied in H1.
  destruct (acceptedEntry doc).
  - apply triple_modifyL.
    destruct H1 as (es & ws & He & Hw & Hn & Htd & Htl & Hvd & Hvl).
    exists es, ws. cbn. repeat split; try assumption; lia.
  - apply triple_ret. exact H1.
Qed.

Lemma countLog_tallied log i s :
  triple (countLog log i) s
    (fun _ s' =>
       tallied (fst s) (fst s')
         (if isLogObject log then 0 else 1) 0 (if isLogObject log then 1 else 0))
    (fun _ _ => True).
Proof.
  unfold countLog. apply triple_bind.
  eapply triple_weaken; [apply validateLog_grown | | auto].
  intros b s1 [-> H1]. cbn beta. apply grownL_tallied in H1.
  destruct (isLogObject log).
  - apply triple_modifyL.
    destruct H1 as (es & ws & He & Hw & Hn & Htd & Htl & Hvd & Hvl).
    exists es, ws. cbn. repeat split; try assumption; lia.
  - apply triple_ret. exact H1.
Qed.

Lemma reportDuplicate_tallied entry i s :
  triple (reportDuplicate entry i) s
    (fun _ s' => tallied (fst s) (fst s') (if isDuplicate entry then 1 else 0) 0 0)
    (fun _ _ => False).
Proof.
  unfold reportDuplicate, isDuplicate. destruct entry as [url indices]. cbn [snd].
  destruct (1 <? length indices)%nat.
  - exists [finding error None None "url_doc"
              ("URL dupliquée " +:+ q url +:+ " trouvée dans les documents "
               +:+ joinNats (map S indices))
              ("Supprimez les doublons ou modifiez les URL pour qu'elles soient uniques. Gardez seulement le document le plus récent ou le plus complet.")
              ("Documents en doublon : positions " +:+ joinNats indices)], [].
    cbn. rewrite app_nil_r, !Nat.add_0_r. repeat split.
  - apply triple_ret, tallied_refl.
Qed.

(** A loop whose steps are tallied is tallied by the sums. *)
Lemma forEachFrom_tallied {A} (f : A -> nat -> M Locals unit)
    (ne dv dl : A -> nat) (E : thrown -> Locals * nat -> Prop) xs :
  (forall x i s,
     triple (f x i) s
       (fun _ s' => tallied (fst s) (fst s') (ne x) (dv x) (dl x)) E) ->
  forall i s,
    triple (forEachFrom f i xs) s
      (fun _ s' =>
         tallied (fst s) (fst s')
           (list_sum (map ne xs)) (list_sum (map dv xs)) (list_sum (map dl xs)))
      (fun _ _ => True).
Proof.
  intros Hf. induction xs as [|x xs IH]; intros i s; cbn [forEachFrom map list_sum].
  - apply triple_ret, tallied_refl.
  - apply triple_bind.
    eapply triple_weaken; [apply Hf | | auto].
    intros _a s1 H1. cbn beta.
    eapply triple_weaken; [apply IH | | auto].
    intros _b s2 H2. cbn beta. exact (tallied_trans _ _ _ _ _ _ _ _ _ H1 H2).
Qed.

Lemma list_sum_indicator {A} (p : A -> bool) xs :
  list_sum (map (fun x => if p x then 1 else 0)%nat xs) = countIf p xs.
Proof.
  assert (Hc : forall a l, list_sum (a :: l) = (a + list_sum l)%nat) by reflexivity.
  induction xs as [|x xs IH]; [reflexivity|].
  cbn [map]. rewrite Hc, IH. unfold countIf. cbn [List.filter].
  destruct (p x); reflexivity.
Qed.

Lemma list_sum_zero {A} (xs : list A) : list_sum (map (fun _ => 0%nat) xs) = 0%nat.
Proof. induction xs; cbn; auto. Qed.

Lemma countIf_negb {A} (p : A -> bool) xs :
  (countIf p xs + countIf (fun x => negb (p x)) xs = length xs)%nat.
Proof.
  unfold countIf. induction xs as [|x xs IH]; cbn; [reflexivity|].
  destruct (p x); cbn; lia.
Qed.

Lemma countIf_all {A} (p : A -> bool) xs :
  countIf p xs = length xs <-> Forall (fun x => p x = true) xs.
Proof.
  unfold countIf. induction xs as [|x xs IH]; cbn.
  - split; [constructor | reflexivity].
  - destruct (p x) eqn:Hp; cbn.
    + rewrite Forall_cons_iff. split.
      * intros H. split; [exact Hp|]. apply IH. lia.
      * intros [_ H]. f_equal. apply IH, H.
    + split.
      * intros H. pose proof (filter_length_le p xs). lia.
      * intros H. inversion H; congruence.
Qed.
End ReportTally.

Section DuplicateSearch.
Import JsonImportValidator.
Context `{RT : Runtime}.

Lemma indicesOf_recordUrl u url i m :
  indicesOf u (recordUrl url i m)
  = if String.eqb url u then indicesOf u m ++ [i] else indicesOf u m.
Proof.
  unfold indicesOf. induction m as [|[k ix] m IH]; cbn [recordUrl].
  - cbn. destruct (String.eqb url u); reflexivity.
  - destruct (String.eqb k url) eqn:Hk; cbn [List.find fst snd].
    + apply String.eqb_eq in Hk. subst k.
      destruct (String.eqb url u); reflexivity.
    + destruct (String.eqb k u) eqn:Hu; cbn [snd].
      * apply String.eqb_eq in Hu. subst k.
        rewrite String.eqb_sym, Hk. reflexivity.
      * exact IH.
Qed.

Lemma indicesOf_collect u docs : forall i m,
  length (indicesOf u (collectUrlsFrom i docs m))
  = (length (indicesOf u m)
     + countIf (fun d => recorded d && String.eqb (urlKey d) u) docs)%nat.
Proof.
  unfold countIf.
  induction docs as [|doc docs IH]; intros i m; cbn [collectUrlsFrom List.filter].
  - cbn. lia.
  - rewrite IH. unfold recorded at 2, urlKey at 2, trimmedUrl.
    destruct (get doc "url_doc") as [[| | |s| |]|]; cbn [andb length]; try lia.
    destruct (truthy (Some doc) && negb (String.eqb s EmptyString)
              && negb (String.eqb (trim s) EmptyString)); cbn [andb length]; [|lia].
    rewrite indicesOf_recordUrl.
    destruct (String.eqb (trim s) u); cbn [length]; [|lia].
    rewrite length_app. cbn. lia.
Qed.

Lemma indicesOf_no_duplicate u m :
  countIf isDuplicate m = 0%nat -> (length (indicesOf u m) <= 1)%nat.
Proof.
  unfold countIf, indicesOf. induction m as [|e m IH]; cbn [List.filter List.find].
  - cbn. lia.
  - destruct (isDuplicate e) eqn:He; [discriminate|]. intros H.
    destruct (String.eqb (fst e) u); [|exact (IH H)].
    unfold isDuplicate in He. apply Nat.ltb_ge in He. exact He.
Qed.

Lemma NoDup_by_count {A} (key : A -> string) xs :
  (forall u, (countIf (fun x => String.eqb (key x) u) xs <= 1)%nat) ->
  NoDup (map key xs).
Proof.
  unfold countIf. induction xs as [|x xs IH]; intros H; cbn [map].
  - constructor.
  - constructor.
    + intros Hin. apply list_elem_of_fmap in Hin as (y & Hy & Hin).
      specialize (H (key x)). cbn [List.filter] in H.
      rewrite String.eqb_refl in H. cbn [length] in H.
      assert (Hpos : (0 < length (List.filter (fun z => String.eqb (key z) (key x)) xs))%nat).
      { assert (Hf : In y (List.filter (fun z => String.eqb (key z) (key x)) xs)).
        { apply filter_In. split; [apply list_elem_of_In, Hin|].
          apply String.eqb_eq. symmetry. exact Hy. }
        destruct (List.filter _ xs); [inversion Hf | cbn; lia]. }
      lia.
    + apply IH. intros u. specialize (H u). cbn [List.filter] in H.
      destruct (String.eqb (key x) u); cbn [length] in H; lia.
Qed.

Lemma countIf_filter {A} (p r : A -> bool) xs :
  countIf p (List.filter r xs) = countIf (fun x => r x && p x) xs.
Proof.
  unfold countIf. induction xs as [|x xs IH]; cbn [List.filter]; [reflexivity|].
  destruct (r x); cbn [List.filter andb]; [|exact IH].
  destruct (p x); cbn [length]; rewrite IH; reflexivity.
Qed.

(** When the search reports nothing, no two recorded entries share
    their trimmed [url_doc]. *)
Lemma collectUrlsFrom_no_duplicate docs :
  countIf isDuplicate (collectUrlsFrom 0 docs []) = 0%nat ->
  NoDup (map urlKey (List.filter recorded docs)).
Proof.
  intros H. apply NoDup_by_count. intros u.
  rewrite countIf_filter.
  pose proof (indicesOf_no_duplicate u _ H) as Hle.
  rewrite indicesOf_collect in Hle. cbn in Hle. exact Hle.
Qed.

Lemma recorded_accepted doc : acceptedEntry doc = true -> recorded doc = true.
Proof.
  unfold acceptedEntry, recorded. intros H.
  apply andb_true_iff in H as [H Hu]. apply andb_true_iff in H as [Ht _].
  rewrite Ht. destruct (get doc "url_doc") as [[| | |s| |]|]; try discriminate Hu.
  apply andb_true_iff in Hu as [Hb _]. rewrite Hb. cbn [andb].
  destruct (String.eqb s EmptyString) eqn:Hs; [|reflexivity].
  apply String.eqb_eq in Hs. subst s. discriminate Hb.
Qed.

Lemma filter_all {A} (p : A -> bool) xs :
  Forall (fun x => p x = true) xs -> List.filter p xs = xs.
Proof.
  induction 1 as [|x xs Hx _ IH]; cbn; [reflexivity|]. rewrite Hx, IH. reflexivity.
Qed.
End DuplicateSearch.

Section ValidateBody.
Import JsonImportValidator.
Context `{RT : Runtime}.

Lemma pushWarning_tallied w s :
  triple (pushWarning w) s
    (fun _ s' => tallied (fst s) (fst s') 0 0 0) (fun _ _ => False).
Proof.
  exists [], [w]. cbn. rewrite app_nil_r, !Nat.add_0_r. repeat split.
Qed.

Lemma pushError_tallied e s :
  triple (pushError e) s
    (fun _ s' => tallied (fst s) (fst s') 1 0 0) (fun _ _ => False).
Proof.
  exists [e], []. cbn. rewrite app_nil_r, !Nat.add_0_r. repeat split.
Qed.

(** The part of the body that goes through [data.documents]. *)
Lemma documents_tallied data s :
  l_errors (fst s) = [] ->
  l_summary (fst s) = l_summary noFindings ->
  triple
    (let documents := get data "documents" in
     if negb (truthy documents) then
       pushError (finding error None None "documents"
         ("Tableau " +:+ q "documents" +:+ " manquant : ce champ est obligatoire pour l'importation")
         ("Ajoutez le tableau documents : " +:+ q "documents" +:+ ": [{" +:+ q "url_doc" +:+ ": " +:+ q "https://example.com/file.pdf" +:+ ", " +:+ q "document_name" +:+ ": " +:+ q "Mon document" +:+ "}]")
         "Structure principale")
     else
       match asArray documents with
       | None =>
           pushError (finding error None None "documents"
             ("Type incorrect : " +:+ q "documents" +:+ " doit être un tableau, pas un objet ou une chaîne")
             ("Changez en tableau : " +:+ q "documents" +:+ ": [...] au lieu de " +:+ q "documents" +:+ ": " +:+ q "..." +:+ " ou " +:+ q "documents" +:+ ": {...}")
             "Type de données")
       | Some docs =>
           modifyL (setSummary (fun s =>
             {| totalDocuments := length docs;
                validDocuments := validDocuments s;
                totalLogs := totalLogs s; validLogs := validLogs s |})) ;;;
           (if (length docs =? 0)%nat then
              pushWarning (finding warning None None "documents"
                ("Tableau " +:+ q "documents" +:+ " vide : aucun document ne sera importé")
                ("Ajoutez au moins un document avec un champ " +:+ q "url_doc" +:+ " valide")
                "Contenu du tableau")
            else ret tt) ;;;
           forEach reportDuplicate (collectUrlsFrom 0 docs []) ;;;
           forEach countDocument docs
       end)
    s
    (fun _ s' =>
       exists eD,
         length (l_errors (fst s')) = eD
         /\ documentsTallied data (fst s') eD
         /\ totalLogs (l_summary (fst s')) = 0%nat
         /\ validLogs (l_summary (fst s')) = 0%nat)
    (fun _ _ => True).
Proof.
  intros He Hs. cbv zeta. unfold documentsTallied.
  assert (Hfalsy : truthy (get data "documents") = false ->
                   asArray (get data "documents") = None).
  { destruct (get data "documents") as [[| | | | |]|]; cbn; congruence. }
  destruct (truthy (get data "documents")) eqn:Ht; cbn [negb].
  - destruct (asArray (get data "documents")) as [docs|].
    + apply triple_bind, triple_modifyL. cbn [fst snd].
      match goal with |- triple _ ?s1 _ _ =>
        assert (H1 : l_errors (fst s1) = []
                     /\ l_summary (fst s1)
                        = {| totalDocuments := length docs; validDocuments := 0;
                             totalLogs := 0; validLogs := 0 |})
          by (cbn; rewrite He, Hs; split; reflexivity);
        generalize dependent s1
      end.
      clear s He Hs. intros s [He Hs].
      apply triple_bind.
      eapply triple_weaken with
        (Q := fun _ s' => tallied (fst s) (fst s') 0 0 0) (E := fun _ _ => True);
        [destruct (length docs =? 0)%nat;
         [eapply triple_weaken; [apply pushWarning_tallied | auto | auto]
         | apply triple_ret, tallied_refl]
        | | auto].
      intros _a s1 H1. cbn beta. apply triple_bind. unfold forEach.
      eapply triple_weaken;
        [apply (forEachFrom_tallied reportDuplicate
                  (fun e => if isDuplicate e then 1 else 0)%nat
                  (fun _ => 0%nat) (fun _ => 0%nat) (fun _ _ => False));
         intros; apply reportDuplicate_tallied
        | | auto].
      intros _b s2 H2. cbn beta.
      eapply triple_weaken;
        [apply (forEachFrom_tallied countDocument
                  (fun d => if acceptedEntry d then 0 else 1)%nat
                  (fun d => if acceptedEntry d then 1 else 0)%nat
                  (fun _ => 0%nat) (fun _ _ => True));
         intros; apply countDocument_tallied
        | | auto].
      intros _c s3 H3. cbn beta.
      pose proof (tallied_trans _ _ _ _ _ _ _ _ _
                    (tallied_trans _ _ _ _ _ _ _ _ _ H1 H2) H3) as H.
      rewrite !list_sum_zero, list_sum_indicator in H.
      rewrite (list_sum_indicator acceptedEntry) in H.
      assert (Hrej : list_sum (map (fun d => if acceptedEntry d then 0 else 1)%nat docs)
                     = countIf (fun d => negb (acceptedEntry d)) docs).
      { rewrite <- list_sum_indicator. f_equal. apply map_ext.
        intros d. destruct (acceptedEntry d); reflexivity. }
      rewrite Hrej in H. clear Hrej H1 H2 H3.
      destruct H as (es & ws & Hes & Hws & Hn & Htd & Htl & Hvd & Hvl).
      rewrite He in Hes. rewrite Hs in Htd, Htl, Hvd, Hvl. cbn in Hes, Htd, Htl, Hvd, Hvl.
      exists (length es). rewrite Hes. repeat split; assumption.
    + apply triple_weaken with
        (Q := fun _ s' => tallied (fst s) (fst s') 1 0 0) (E := fun _ _ => False);
        [apply pushError_tallied | | auto].
      intros _a s1 (es & ws & Hes & Hws & Hn & Htd & Htl & Hvd & Hvl).
      rewrite He in Hes. rewrite Hs in Htd, Htl, Hvd, Hvl. cbn in Hes, Htd, Htl, Hvd, Hvl.
      exists 1%nat. rewrite Hes. cbn. repeat split; try assumption.
  - rewrite (Hfalsy eq_refl).
    apply triple_weaken with
      (Q := fun _ s' => tallied (fst s) (fst s') 1 0 0) (E := fun _ _ => False);
      [apply pushError_tallied | | auto].
    intros _a s1 (es & ws & Hes & Hws & Hn & Htd & Htl & Hvd & Hvl).
    rewrite He in Hes. rewrite Hs in Htd, Htl, Hvd, Hvl. cbn in Hes, Htd, Htl, Hvd, Hvl.
    exists 1%nat. rewrite Hes. cbn. repeat split; try assumption.
Qed.

(** The part of the body that goes through [data.logs]. *)
Lemma logs_tallied data s :
  totalLogs (l_summary (fst s)) = 0%nat ->
  validLogs (l_summary (fst s)) = 0%nat ->
  triple
    (let logs := get data "logs" in
     if negb (truthy logs) then
       pushWarning (finding warning None None "logs"
         ("Tableau " +:+ q "logs" +:+ " manquant : les logs d'incidents ne seront pas importés")
         ("Ajoutez le tableau logs (optionnel) : " +:+ q "logs" +:+ ": [{" +:+ q "level" +:+ ": " +:+ q "info" +:+ ", " +:+ q "message" +:+ ": " +:+ q "Log message" +:+ "}]")
         "Structure optionnelle")
     else
       match asArray logs with
       | None =>
           pushError (finding error None None "logs"
             ("Type incorrect : " +:+ q "logs" +:+ " doit être un tableau")
             ("Changez en tableau : " +:+ q "logs" +:+ ": [...] au lieu de " +:+ q "logs" +:+ ": " +:+ q "..." +:+ " ou " +:+ q "logs" +:+ ": {...}")
             "Type de données")
       | Some entries =>
           modifyL (setSummary (fun s =>
             {| totalDocuments := totalDocuments s;
                validDocuments := validDocuments s;
                totalLogs := length entries; validLogs := validLogs s |})) ;;;
           forEach countLog entries
       end)
    s
    (fun _ s' =>
       exists eL,
         length (l_errors (fst s')) = (length (l_errors (fst s)) + eL)%nat
         /\ logsTallied data (fst s') eL
         /\ totalDocuments (l_summary (fst s')) = totalDocuments (l_summary (fst s))
         /\ validDocuments (l_summary (fst s')) = validDocuments (l_summary (fst s)))
    (fun _ _ => True).
Proof.
  intros Htl0 Hvl0. cbv zeta. unfold logsTallied.
  destruct (truthy (get data "logs")) eqn:Ht; cbn [negb].
  - destruct (asArray (get data "logs")) as [entries|].
    + apply triple_bind, triple_modifyL. cbn [fst snd]. unfold forEach.
      eapply triple_weaken;
        [apply (forEachFrom_tallied countLog
                  (fun e => if isLogObject e then 0 else 1)%nat
                  (fun _ => 0%nat)
                  (fun e => if isLogObject e then 1 else 0)%nat (fun _ _ => True));
         intros; apply countLog_tallied
        | | auto].
      intros _a s1 H. cbn beta.
      rewrite list_sum_zero, (list_sum_indicator isLogObject) in H.
      assert (Hrej : list_sum (map (fun e => if isLogObject e then 0 else 1)%nat entries)
                     = countIf (fun e => negb (isLogObject e)) entries).
      { rewrite <- list_sum_indicator. f_equal. apply map_ext.
        intros e. destruct (isLogObject e); reflexivity. }
      rewrite Hrej in H. clear Hrej.
      destruct H as (es & ws & Hes & Hws & Hn & Htd & Htl & Hvd & Hvl).
      cbn in Hes, Htd, Htl, Hvd, Hvl. rewrite Hvl0 in Hvl.
      exists (length es). rewrite Hes, length_app.
      repeat split; try assumption; lia.
    + apply triple_weaken with
        (Q := fun _ s' => tallied (fst s) (fst s') 1 0 0) (E := fun _ _ => False);
        [apply pushError_tallied | | auto].
      intros _a s1 (es & ws & Hes & Hws & Hn & Htd & Htl & Hvd & Hvl).
      exists 1%nat. rewrite Hes, length_app, Hn.
      repeat split; try assumption; lia.
  - apply triple_weaken with
      (Q := fun _ s' => tallied (fst s) (fst s') 0 0 0) (E := fun _ _ => False);
      [apply pushWarning_tallied | | auto].
    intros _a s1 (es & ws & Hes & Hws & Hn & Htd & Htl & Hvd & Hvl).
    exists 0%nat. rewrite Hes, length_app, Hn.
    repeat split; try assumption; lia.
Qed.

(** The body of the [try] block on a text that [JSON.parse] accepts: it
    returns early when the root is not an object, with one error; or it
    goes through the documents and the logs. *)
Lemma validateBody_done text data t :
  JSON_parse text = Returned data ->
  triple (validateBody text) (noFindings, t)
    (fun early s' =>
       match early with
       | Some r =>
           truthy (Some data) && isObject (Some data) = false
           /\ isValid r = false /\ length (errors r) = 1%nat
           /\ field (hd (jsonSyntaxError NotAnError) (errors r)) = "root"
           /\ warnings r = [] /\ summary r = l_summary noFindings
       | None =>
           truthy (Some data) = true /\ isObject (Some data) = true
           /\ bodyDone data (fst s')
       end)
    (fun _ _ => truthy (Some data) = true /\ isObject (Some data) = true).
Proof.
  intros Hparse. unfold validateBody.
  apply triple_bind, triple_liftOutcome. rewrite Hparse.
  destruct (truthy (Some data)) eqn:Ht; cbn [negb orb andb];
    [destruct (isObject (Some data)) eqn:Ho; cbn [negb orb andb]|].
  - apply triple_bind.
    eapply triple_weaken;
      [apply (documents_tallied data (noFindings, t)); reflexivity | | auto].
    intros _a s1 (eD & HeD & Hdocs & Htl & Hvl). cbn beta.
    apply triple_bind.
    eapply triple_weaken; [apply (logs_tallied data s1 Htl Hvl) | | auto].
    intros _b s2 (eL & HeL & Hlogs & Htd & Hvd). cbn beta.
    assert (Hdone : bodyDone data (fst s2)).
    { exists eD, eL. split; [lia|]. split; [|exact Hlogs].
      unfold documentsTallied in *. rewrite Htd, Hvd. exact Hdocs. }
    clear - Hdone. apply triple_bind, triple_getL.
    apply triple_bind.
    eapply triple_weaken with
      (Q := fun _ s' => tallied (fst s2) (fst s') 0 0 0) (E := fun _ _ => True);
      [destruct (1000 <? _)%nat;
       [eapply triple_weaken; [apply pushWarning_tallied | auto | auto]
       | apply triple_ret, tallied_refl]
      | | auto].
    intros _c s3 (es & ws & Hes & Hws & Hn & Htd & Htl & Hvd & Hvl).
    apply triple_ret. repeat split.
    destruct Hdone as (eD & eL & Hlen & Hd & Hl).
    exists eD, eL. destruct es; [|discriminate Hn].
    rewrite Hes, app_nil_r. split; [exact Hlen|].
    unfold documentsTallied, logsTallied in *.
    rewrite Htd, Htl, Hvd, Hvl, !Nat.add_0_r. split; assumption.
  - apply triple_bind. unfold pushError. apply triple_modifyL.
    unfold currentResult.
    apply triple_bind, triple_bind, triple_getL, triple_ret, triple_ret.
    cbn. repeat split.
  - apply triple_bind. unfold pushError. apply triple_modifyL.
    unfold currentResult.
    apply triple_bind, triple_bind, triple_getL, triple_ret, triple_ret.
    cbn. repeat split.
Qed.
End ValidateBody.

Section ValidationReport.
Import JsonImportValidator.
Context `{RT : Runtime}.

Lemma no_errors_iff (es : list ValidationError) :
  (length es =? 0)%nat = true <-> es = [].
Proof. rewrite Nat.eqb_eq. apply length_zero_iff_nil. Qed.

(** The report of [validateImportJson], by what [JSON.parse] makes of the
    text and by whether the body of the [try] block ran to its end. *)
Lemma validateImportJson_report {L} text (l : L) t :
  exists r t',
    validateImportJson text (l, t) = (Returned r, (l, t'))
    /\ (isValid r = true <-> errors r = [])
    /\ match JSON_parse text with
       | Thrown e =>
           errors r = [jsonSyntaxError e] /\ warnings r = []
           /\ summary r = l_summary noFindings
       | Returned data =>
           if truthy (Some data) && isObject (Some data) then
             bodyDone data {| l_errors := errors r; l_warnings := warnings r;
                              l_summary := summary r |}
             \/ exists before e, errors r = before ++ [jsonSyntaxError e]
           else
             isValid r = false /\ length (errors r) = 1%nat
             /\ field (hd (jsonSyntaxError NotAnError) (errors r)) = "root"
             /\ warnings r = [] /\ summary r = l_summary noFindings
       end.
Proof.
  unfold validateImportJson, scope. cbn [fst snd].
  destruct (JSON_parse text) as [data|e] eqn:Hparse.
  - pose proof (validateBody_done text data t Hparse) as Hbody.
    unfold triple in Hbody. unfold bind at 1, tryCatch.
    destruct (validateBody text (noFindings, t)) as [[[r|]|e] [l1 t1]].
    + destruct Hbody as (Hobj & Hv & Hlen & Hfield & Hw & Hs).
      rewrite Hobj. exists r, t1. split; [reflexivity|]. split; [|auto].
      rewrite Hv. split; [discriminate|].
      intros Hnil. rewrite Hnil in Hlen. discriminate Hlen.
    + destruct Hbody as (Ht & Ho & Hdone).
      rewrite Ht, Ho. cbn [andb].
      do 2 eexists. split; [reflexivity|]. cbn [isValid errors warnings summary].
      split; [apply no_errors_iff|]. left. destruct l1. exact Hdone.
    + destruct Hbody as (Ht & Ho).
      rewrite Ht, Ho. cbn [andb].
      do 2 eexists. split; [reflexivity|]. cbn [isValid errors warnings summary].
      split; [apply no_errors_iff|]. right. eauto.
  - assert (Hbody : validateBody text (noFindings, t) = (Thrown e, (noFindings, t)))
      by (unfold validateBody, bind, liftOutcome; rewrite Hparse; reflexivity).
    unfold bind at 1, tryCatch. rewrite Hbody.
    cbn. do 2 eexists. split; [reflexivity|]. cbn [isValid errors warnings summary].
    split; [exact (no_errors_iff [jsonSyntaxError e])|]. auto.
Qed.
End ValidationReport.

Section ValidationProperties.
Import JsonImportValidator.
Context `{RT : Runtime}.

(** What a valid report says of the text. *)
Lemma valid_report_vouches {L} text (s s' : L * nat) r :
  validateImportJson text s = (Returned r, s') ->
  isValid r = true ->
  exists docs nlogs,
    wellFormedBatch text docs nlogs
    /\ errors r = []
    /\ totalDocuments (summary r) = length docs
    /\ validDocuments (summary r) = length docs
    /\ totalLogs (summary r) = nlogs
    /\ validLogs (summary r) = nlogs.
Proof.
  destruct s as [l t]. intros Hrun Hvalid.
  destruct (validateImportJson_report text l t) as (r0 & t' & Hrun0 & Hiff & Hcase).
  rewrite Hrun in Hrun0. injection Hrun0 as <- _.
  pose proof (proj1 Hiff Hvalid) as Hnil.
  destruct (JSON_parse text) as [data|e] eqn:Hparse;
    [|destruct Hcase as (He & _); rewrite He in Hnil; discriminate Hnil].
  destruct (truthy (Some data)) eqn:Ht; cbn [andb] in Hcase;
    [destruct (isObject (Some data)) eqn:Ho; cbn [andb] in Hcase|];
    try (destruct Hcase as (Hv & _); rewrite Hv in Hvalid; discriminate Hvalid).
  destruct Hcase as [(eD & eL & Hlen & Hd & Hl) | (before & e & He)];
    [|rewrite He in Hnil; destruct before; discriminate Hnil].
  cbn [l_errors l_warnings l_summary] in Hlen, Hd, Hl.
  rewrite Hnil in Hlen. cbn in Hlen.
  assert (HeD : eD = 0%nat) by lia. assert (HeL : eL = 0%nat) by lia. subst eD eL.
  unfold documentsTallied in Hd. cbn [l_summary] in Hd.
  destruct (asArray (get data "documents")) as [docs|] eqn:Hdocs;
    [|destruct Hd as (Hd & _); discriminate Hd].
  destruct Hd as (Hzero & Htd & Hvd).
  assert (Hdup : countIf isDuplicate (collectUrlsFrom 0 docs []) = 0%nat) by lia.
  assert (Hrej : countIf (fun d => negb (acceptedEntry d)) docs = 0%nat) by lia.
  pose proof (countIf_negb acceptedEntry docs) as Hsum. rewrite Hrej in Hsum.
  assert (Hall : Forall (fun d => acceptedEntry d = true) docs)
    by (apply countIf_all; lia).
  assert (Hrec : List.filter recorded docs = docs).
  { apply filter_all. eapply Forall_impl; [exact Hall|].
    intros d. apply recorded_accepted. }
  pose proof (collectUrlsFrom_no_duplicate docs Hdup) as Hnodup.
  rewrite Hrec in Hnodup.
  unfold logsTallied in Hl. cbn [l_summary] in Hl.
  assert (Hlogs : logsAccepted data (totalLogs (summary r))
                  /\ validLogs (summary r) = totalLogs (summary r)).
  { unfold logsAccepted. destruct (truthy (get data "logs")) eqn:Hlt.
    - destruct (asArray (get data "logs")) as [entries|] eqn:Hentries;
        [|destruct Hl as (Hl & _); discriminate Hl].
      destruct Hl as (Hz & Htl & Hvl).
      pose proof (countIf_negb isLogObject entries) as Hs. rewrite <- Hz in Hs.
      split; [|lia]. right. exists entries. split; [reflexivity|].
      split; [apply countIf_all; lia | exact Htl].
    - destruct Hl as (_ & Htl & Hvl). split; [|lia]. left. auto. }
  destruct Hlogs as [Hlogs Hvl].
  exists docs, (totalLogs (summary r)). split.
  - exists data. repeat split; assumption.
  - repeat split; try assumption; lia.
Qed.

(** X1: a report that is valid vouches for the text. The text is JSON
    for an object; its [documents] are an array in which every entry is
    an object with a [url_doc] that is a string, not blank, and an
    address for [new URL]; no two entries have the same trimmed
    [url_doc]; its [logs] are absent or an array of objects; and the
    summary counts every document and every log as valid. *)
Theorem validateImportJson_valid_is_well_formed {L} text (s s' : L * nat) r :
  validateImportJson text s = (Returned r, s') ->
  isValid r = true ->
  exists docs nlogs,
    wellFormedBatch text docs nlogs
    /\ errors r = []
    /\ totalDocuments (summary r) = length docs
    /\ validDocuments (summary r) = length docs
    /\ totalLogs (summary r) = nlogs
    /\ validLogs (summary r) = nlogs.
Proof. exact (valid_report_vouches text s s' r). Qed.

(** X2: what the summary counts when the validation ran to its end (no
    finding has the field ["json"] of the [catch] block) on a text that
    is JSON for an object: [totalDocuments] is the length of the
    [documents] array and [validDocuments] the number of accepted
    entries; [totalLogs] is the length of the [logs] array and
    [validLogs] the number of its entries that are objects; and there
    are as many errors as URLs that come more than once, entries that
    are not accepted and logs that are not objects (one error standing
    for a [documents] or [logs] field that is not an array). *)
Theorem validateImportJson_summary_counts {L} text data (s s' : L * nat) r :
  validateImportJson text s = (Returned r, s') ->
  JSON_parse text = Returned data ->
  truthy (Some data) = true -> isObject (Some data) = true ->
  Forall (fun e => field e <> "json") (errors r) ->
  bodyDone data {| l_errors := errors r; l_warnings := warnings r;
                   l_summary := summary r |}.
Proof.
  destruct s as [l t]. intros Hrun Hparse Ht Ho Hfields.
  destruct (validateImportJson_report text l t) as (r0 & t' & Hrun0 & _ & Hcase).
  rewrite Hrun in Hrun0. injection Hrun0 as <- _.
  rewrite Hparse, Ht, Ho in Hcase. cbn [andb] in Hcase.
  destruct Hcase as [Hdone | (before & e & He)]; [exact Hdone|].
  rewrite He in Hfields. apply Forall_app in Hfields as [_ Hlast].
  inversion Hlast as [|? ? Hf _]; subst. exfalso. apply Hf. reflexivity.
Qed.

(** X3: a text that is not JSON, and a text that is JSON for something
    else than an object, get a report with one error and nothing else:
    the error of the [catch] block, which carries the message of
    [JSON.parse], or the error about the root. *)
Theorem validateImportJson_rejects_malformed {L} text (s s' : L * nat) r :
  validateImportJson text s = (Returned r, s') ->
  (forall e,
     JSON_parse text = Thrown e ->
     isValid r = false /\ errors r = [jsonSyntaxError e] /\ warnings r = []
     /\ summary r = l_summary noFindings)
  /\ (forall data,
        JSON_parse text = Returned data ->
        truthy (Some data) && isObject (Some data) = false ->
        isValid r = false
        /\ (exists e, errors r = [e] /\ field e = "root" /\ severity e = error)
        /\ warnings r = []
        /\ summary r = l_summary noFindings).
Proof.
  destruct s as [l t]. intros Hrun.
  destruct (validateImportJson_report text l t) as (r0 & t' & Hrun0 & Hiff & Hcase).
  rewrite Hrun in Hrun0. injection Hrun0 as <- _. split.
  - intros e Hparse. rewrite Hparse in Hcase. destruct Hcase as (He & Hw & Hs).
    repeat split; try assumption.
    destruct (isValid r) eqn:Hv; [|reflexivity].
    rewrite (proj1 Hiff eq_refl) in He. discriminate He.
  - intros data Hparse Hobj. rewrite Hparse, Hobj in Hcase.
    destruct Hcase as (Hv & Hlen & Hfield & Hw & Hs).
    repeat split; try assumption.
    destruct (errors r) as [|e [|e' rest]] eqn:He; try discriminate Hlen.
    exists e. cbn [hd] in Hfield. split; [reflexivity|]. split; [exact Hfield|].
    revert Hrun He Hparse Hobj. clear.
    unfold validateImportJson, scope, bind at 1, tryCatch, validateBody.
    unfold bind at 1, liftOutcome. intros Hrun He Hparse Hobj. rewrite Hparse in Hrun.
    cbn [fst snd] in Hrun.
    assert (Hneg : negb (truthy (Some data)) || negb (isObject (Some data)) = true)
      by (destruct (truthy (Some data)), (isObject (Some data)); try discriminate Hobj;
          reflexivity).
    rewrite Hneg in Hrun. cbn in Hrun. injection Hrun as <- _.
    cbn in He. injection He as <-. reflexivity.
Qed.

(** X4: [validateImportJson] returns a report on every text and leaves
    the state of its caller as it was, but for the clock; in the report,
    [isValid] is true exactly when [errors] is empty, on the early
    return as on the others. *)
Theorem validateImportJson_valid_iff_no_error {L} text (l : L) t :
  exists r t',
    validateImportJson text (l, t) = (Returned r, (l, t'))
    /\ (isValid r = true <-> errors r = []).
Proof.
  destruct (validateImportJson_report text l t) as (r & t' & Hrun & Hiff & _).
  eauto.
Qed.

(** X5: [validateDocument], when it returns, returns whether the entry
    is accepted: an object whose [url_doc] is a string, not blank, that
    [new URL] accepts. It then has added one error, about this entry,
    if the entry is not accepted and none if it is; whatever else it
    added are warnings about this entry; the summary is untouched. When
    it throws, it has added one error at most. *)
Theorem validateDocument_accepts_exactly doc i (s : Locals * nat) :
  triple (validateDocument doc i) s
    (fun b s' =>
       b = acceptedEntry doc
       /\ grownL (aboutDocument error i) (aboutDocument warning i)
            (fst s) (if b then 0 else 1) (fst s'))
    (fun _ s' =>
       exists ne, (ne <= 1)%nat
         /\ grownL (aboutDocument error i) (aboutDocument warning i)
              (fst s) ne (fst s')).
Proof. exact (validateDocument_grown doc i s). Qed.

(** X6: [validateLog], when it returns, returns whether the entry is an
    object; an entry that is not one gets one error, and an entry that
    is one gets warnings only, whatever its fields hold. When it throws
    it has added no error. *)
Theorem validateLog_accepts_objects log i (s : Locals * nat) :
  triple (validateLog log i) s
    (fun b s' =>
       b = isLogObject log
       /\ grownL (aboutLog error i) (aboutLog warning i)
            (fst s) (if b then 0 else 1) (fst s'))
    (fun _ s' =>
       grownL (aboutLog error i) (aboutLog warning i) (fst s) 0 (fst s')).
Proof. exact (validateLog_grown log i s). Qed.
End ValidationProperties.

Lemma validateImportJson_valid_is_well_formed_witness :
  exists r s',
    JsonImportValidator.validateImportJson (RT := Reference.runtime)
      ReportExamples.validText (tt, 0%nat) = (Returned r, s')
    /\ JsonImportValidator.isValid r = true
    /\ exists docs nlogs,
         wellFormedBatch (RT := Reference.runtime) ReportExamples.validText docs nlogs
         /\ JsonImportValidator.errors r = []
         /\ JsonImportValidator.totalDocuments (JsonImportValidator.summary r)
            = length docs
         /\ JsonImportValidator.validDocuments (JsonImportValidator.summary r)
            = length docs
         /\ JsonImportValidator.totalLogs (JsonImportValidator.summary r) = nlogs
         /\ JsonImportValidator.validLogs (JsonImportValidator.summary r) = nlogs.
Proof.
  do 2 eexists. split; [vm_compute; reflexivity|]. split; [reflexivity|].
  eapply (validateImportJson_valid_is_well_formed
            (RT := Reference.runtime) ReportExamples.validText (tt, 0%nat)).
  - vm_compute. reflexivity.
  - reflexivity.
Defined.

Lemma validateImportJson_summary_counts_witness :
  exists r s' data,
    JsonImportValidator.validateImportJson (RT := Reference.runtime)
      ReportExamples.flawedText (tt, 0%nat) = (Returned r, s')
    /\ JSON_parse (Runtime := Reference.runtime) ReportExamples.flawedText
       = Returned data
    /\ length (JsonImportValidator.errors r) = 3%nat
    /\ JsonImportValidator.validDocuments (JsonImportValidator.summary r) = 2%nat
    /\ bodyDone (RT := Reference.runtime) data
         {| JsonImportValidator.l_errors := JsonImportValidator.errors r;
            JsonImportValidator.l_warnings := JsonImportValidator.warnings r;
            JsonImportValidator.l_summary := JsonImportValidator.summary r |}.
Proof.
  do 3 eexists. split; [vm_compute; reflexivity|].
  split; [vm_compute; reflexivity|].
  split; [reflexivity|]. split; [reflexivity|].
  eapply (validateImportJson_summary_counts
            (RT := Reference.runtime) ReportExamples.flawedText _ (tt, 0%nat)).
  - vm_compute. reflexivity.
  - vm_compute. reflexivity.
  - reflexivity.
  - reflexivity.
  - repeat constructor; vm_compute; discriminate.
Defined.

Lemma validateImportJson_rejects_malformed_witness :
  (exists r s' e,
     JsonImportValidator.validateImportJson (RT := Reference.runtime)
       ReportExamples.truncatedText (tt, 0%nat) = (Returned r, s')
     /\ JSON_parse (Runtime := Reference.runtime) ReportExamples.truncatedText
        = Thrown e
     /\ JsonImportValidator.isValid r = false
     /\ JsonImportValidator.errors r = [JsonImportValidator.jsonSyntaxError e])
  /\ (exists r s',
        JsonImportValidator.validateImportJson (RT := Reference.runtime)
          ReportExamples.numberText (tt, 0%nat) = (Returned r, s')
        /\ JsonImportValidator.isValid r = false
        /\ exists e, JsonImportValidator.errors r = [e]
                     /\ JsonImportValidator.field e = "root").
Proof.
  split.
  - do 3 eexists. split; [vm_compute; reflexivity|].
    split; [vm_compute; reflexivity|].
    assert (H := proj1 (validateImportJson_rejects_malformed
                          (RT := Reference.runtime) ReportExamples.truncatedText
                          (tt, 0%nat) _ _ ltac:(vm_compute; reflexivity))
                   _ ltac:(vm_compute; reflexivity)).
    destruct H as (Hv & He & _). split; [exact Hv | exact He].
  - do 2 eexists. split; [vm_compute; reflexivity|].
    assert (H := proj2 (validateImportJson_rejects_malformed
                          (RT := Reference.runtime) ReportExamples.numberText
                          (tt, 0%nat) _ _ ltac:(vm_compute; reflexivity))
                   _ ltac:(vm_compute; reflexivity) ltac:(reflexivity)).
    destruct H as (Hv & (e & He & Hf & _) & _).
    split; [exact Hv|]. exists e. split; [exact He | exact Hf].
Defined.

(** * From the validation to the extraction *)

Section ValidatedExtraction.
Import JsonImportValidator.
Context `{RT : Runtime}.

Lemma firstByUrl_all docs : forall seen,
  NoDup (map urlKey docs) ->
  (forall d, d ∈ docs -> urlKey d ∉ seen) ->
  firstByUrl seen docs = docs.
Proof.
  induction docs as [|doc docs IH]; intros seen Hnd Hfresh; cbn [firstByUrl].
  - reflexivity.
  - rewrite bool_decide_eq_false_2 by (apply Hfresh; left).
    f_equal. cbn [map] in Hnd. apply NoDup_cons in Hnd as [Hnotin Hnd].
    apply IH; [exact Hnd|]. intros d Hd.
    rewrite elem_of_union, elem_of_singleton. intros [Heq | Hin].
    + apply Hnotin. rewrite <- Heq. apply list_elem_of_fmap. eauto.
    + apply (Hfresh d); [right; exact Hd | exact Hin].
Qed.

Lemma acceptedEntry_hasUrlDoc doc :
  acceptedEntry doc = true ->
  hasUrlDoc doc = true /\ isString (get doc "url_doc") = true.
Proof.
  unfold acceptedEntry, hasUrlDoc. intros H.
  apply andb_true_iff in H as [H Hu]. rewrite H. cbn [andb].
  destruct (get doc "url_doc") as [[| | |s| |]|]; try discriminate Hu.
  apply andb_true_iff in Hu as [Hb _]. split; [|reflexivity].
  cbn. destruct (String.eqb s EmptyString) eqn:Hs; [|reflexivity].
  apply String.eqb_eq in Hs. subst s. discriminate Hb.
Qed.

Lemma mapM_cleanLog_count {L} entries : forall (l : L) t,
  exists ds t',
    mapM cleanLog entries (l, t) = (Returned ds, (l, t'))
    /\ length ds = length entries.
Proof.
  induction entries as [|log entries IH]; intros l t.
  - exists [], t. split; reflexivity.
  - destruct (cleanLog_run log l t) as (d & t1 & Hd).
    destruct (IH l t1) as (ds & t2 & Hds & Hlen).
    exists (d :: ds), t2. cbn [mapM]. unfold bind at 1. rewrite Hd.
    unfold bind at 1. rewrite Hds. split; [reflexivity|]. cbn. rewrite Hlen. reflexivity.
Qed.

Lemma triple_any {L A} (m : M L A) s : triple m s (fun _ _ => True) (fun _ _ => True).
Proof. unfold triple. destruct (m s) as [[a|e] s']; exact I. Qed.

(** The logs of the result are the object entries of the [logs] array,
    one cleaned log for each. *)
Lemma extractBody_logs text data s :
  JSON_parse text = Returned data ->
  triple (extractBody text) s
    (fun r _ =>
       length (logs r)
       = match asArray (get data "logs") with
         | Some entries => countIf isLogObject entries
         | None => 0%nat
         end)
    (fun _ _ => True).
Proof.
  intros Hparse. unfold extractBody.
  apply triple_bind, triple_liftOutcome. rewrite Hparse.
  apply triple_bind.
  eapply triple_weaken; [apply triple_any | | auto]. intros documentsField s1 _.
  apply triple_bind.
  eapply triple_weaken; [apply triple_any | | auto]. intros cleanDocuments s2 _.
  cbn beta. apply triple_bind.
  destruct (asArray (get data "logs")) as [entries|].
  - destruct s2 as [l2 t2].
    destruct (mapM_cleanLog_count (List.filter isLogObject entries) l2 t2)
      as (ds & t3 & Hds & Hlen).
    eapply triple_returned; [exact Hds|]. apply triple_ret. exact Hlen.
  - apply triple_ret, triple_ret. reflexivity.
Qed.

(** When the report is valid, the extraction keeps every entry of
    [documents], in order, and every log. *)
Lemma valid_report_extraction {L L'} text
    (s s1 : L * nat) (s2 : L' * nat) v :
  validateImportJson text s = (Returned v, s1) ->
  isValid v = true ->
  exists docs r t',
    documentsOf text = Some docs
    /\ extractValidData text s2 = (Returned r, (fst s2, t'))
    /\ Forall2 cleanedFrom docs (documents r)
    /\ map url_doc (documents r) = map (fun d => get d "url_doc") docs
    /\ length (documents r) = totalDocuments (summary v)
    /\ length (logs r) = totalLogs (summary v).
Proof.
  intros Hrun Hvalid.
  destruct (valid_report_vouches text s s1 v Hrun Hvalid)
    as (docs & n & (data & Hparse & Ht & Ho & Hdocs & Hall & Hnd & Hlogs)
        & _ & Htd & _ & Htl & _).
  assert (Hof : documentsOf text = Some docs).
  { unfold documentsOf. rewrite Hparse.
    destruct data; try exact Hdocs. }
  assert (Hfilter : List.filter hasUrlDoc docs = docs).
  { apply filter_all. eapply Forall_impl; [exact Hall|].
    intros d Hd. apply acceptedEntry_hasUrlDoc, Hd. }
  assert (Hstr : Forall (fun doc => isString (get doc "url_doc") = true)
                        (List.filter hasUrlDoc docs)).
  { rewrite Hfilter. eapply Forall_impl; [exact Hall|].
    intros d Hd. apply acceptedEntry_hasUrlDoc, Hd. }
  exists docs.
  destruct s2 as [l2 t2].
  destruct (extractValidData_run text (l2, t2)) as (r & [l3 t3] & Hext & Hbody).
  assert (Hl3 : l3 = l2).
  { revert Hext. unfold extractValidData, scope. cbn [fst snd].
    destruct (tryCatch _ _ _) as [o [seen t]]. intros [= _ <- _]. reflexivity. }
  subst l3. exists r, t3. split; [exact Hof|]. split; [exact Hext|].
  pose proof (extractBody_run text docs t2 Hof Hstr) as Hb.
  pose proof (extractBody_logs text data (∅, t2) Hparse) as Hlg.
  unfold triple in Hb, Hlg. cbn [snd] in Hbody.
  destruct (extractBody text (∅, t2)) as [[r'|e] sb]; [|contradiction].
  subst r'. destruct Hb as [Hclean Hmap].
  rewrite Hfilter, firstByUrl_all in Hclean, Hmap;
    try exact Hnd; try (intros d _; apply not_elem_of_empty).
  split; [exact Hclean|]. split; [exact Hmap|]. split.
  - rewrite Htd. symmetry. eapply Forall2_length, Hclean.
  - rewrite Hlg, Htl.
    destruct Hlogs as [(Hfalsy & ->) | (entries & Hentries & Hobj & ->)].
    + destruct (get data "logs") as [[| | | | |]|]; cbn in Hfalsy |- *;
        try reflexivity; discriminate Hfalsy.
    + rewrite Hentries. apply countIf_all, Hobj.
Qed.

(** X7: the validation and the extraction agree. When
    [validateImportJson] finds a text valid, [extractValidData] on the
    same text drops nothing: its documents are the cleaned forms of the
    entries of [documents], each of them, in order, with [url_doc] as it
    was written; and it has one log for each entry of [logs]. The
    de-duplication and the filters of the extraction never come into
    play after a successful validation. *)
Theorem validated_text_is_extracted_whole {L L'} text
    (s s1 : L * nat) (s2 : L' * nat) v :
  validateImportJson text s = (Returned v, s1) ->
  isValid v = true ->
  exists docs r t',
    documentsOf text = Some docs
    /\ extractValidData text s2 = (Returned r, (fst s2, t'))
    /\ Forall2 cleanedFrom docs (documents r)
    /\ map url_doc (documents r) = map (fun d => get d "url_doc") docs
    /\ length (documents r) = totalDocuments (summary v)
    /\ length (logs r) = totalLogs (summary v).
Proof. exact (valid_report_extraction text s s1 s2 v). Qed.
End ValidatedExtraction.

Lemma validated_text_is_extracted_whole_witness :
  exists v s1 docs r t',
    JsonImportValidator.validateImportJson (RT := Reference.runtime)
      ReportExamples.validText (tt, 0%nat) = (Returned v, s1)
    /\ documentsOf (RT := Reference.runtime) ReportExamples.validText = Some docs
    /\ JsonImportValidator.extractValidData (RT := Reference.runtime)
         ReportExamples.validText (tt, 7%nat) = (Returned r, (tt, t'))
    /\ Forall2 (cleanedFrom (RT := Reference.runtime)) docs
         (JsonImportValidator.documents r)
    /\ length (JsonImportValidator.documents r) = 2%nat
    /\ length (JsonImportValidator.logs r) = 1%nat.
Proof.
  destruct (validated_text_is_extracted_whole
              (RT := Reference.runtime) ReportExamples.validText
              (tt, 0%nat)
              (snd (JsonImportValidator.validateImportJson (RT := Reference.runtime)
                      ReportExamples.validText (tt, 0%nat)))
              (tt, 7%nat)
              (match fst (JsonImportValidator.validateImportJson
                            (RT := Reference.runtime)
                            ReportExamples.validText (tt, 0%nat)) with
               | Returned v => v
               | Thrown _ =>
                   {| JsonImportValidator.isValid := false;
                      JsonImportValidator.errors := [];
                      JsonImportValidator.warnings := [];
                      JsonImportValidator.summary :=
                        JsonImportValidator.l_summary JsonImportValidator.noFindings |}
               end)
              ltac:(vm_compute; reflexivity) ltac:(vm_compute; reflexivity))
    as (docs & r & t' & Hdocs & Hrun & Hclean & _ & Hnd & Hnl).
  do 2 eexists. exists docs, r, t'.
  split; [vm_compute; reflexivity|].
  split; [exact Hdocs|]. split; [exact Hrun|]. split; [exact Hclean|].
  split; [exact Hnd | exact Hnl].
Defined.

(** * What the parser returns *)

Section ParserOutcome.
Import HarvestDataParser.
Context `{RT : Runtime}.

Lemma parseYear_plausible {L} v (l : L) t :
  exists y t',
    parseYear v (l, t) = (Returned y, (l, t'))
    /\ match y with
       | Some n => numberGe n 1900 = true
                   /\ exists k, numberLe n (getFullYear (clock k) + 1) = true
       | None => True
       end.
Proof.
  unfold parseYear, plausibleYear, bind, newDate, ret.
  assert (Hcheck : forall n,
            exists y t',
              (let '(o, s') :=
                 (if numberGe n 1900
                  then fun s0 : L * nat =>
                         (Returned (numberLe n (getFullYear (clock (snd s0)) + 1)),
                          (fst s0, S (snd s0)))
                  else fun s0 => (Returned false, s0)) (l, t) in
               match o with
               | Returned a => (Returned (if a : bool then Some n else None), s')
               | Thrown e => (Thrown e, s')
               end) = (Returned y, (l, t'))
              /\ match y with
                 | Some n => numberGe n 1900 = true
                             /\ exists k, numberLe n (getFullYear (clock k) + 1) = true
                 | None => True
                 end).
  { intros n. destruct (numberGe n 1900) eqn:Hge;
      [|exists None, t; split; [reflexivity | exact I]].
    cbn [fst snd].
    destruct (numberLe n (getFullYear (clock t) + 1)) eqn:Hle.
    - exists (Some n), (S t). split; [reflexivity|]. split; [exact Hge|].
      exists t. exact Hle.
    - exists None, (S t). split; [reflexivity | exact I]. }
  destruct v as [[| |y|s| |]|]; lazy beta iota;
    try (exists None, t; split; [reflexivity | exact I]).
  - apply Hcheck.
  - destruct (parseInt10 s) as [z|];
      [apply Hcheck | exists None, t; split; [reflexivity | exact I]].
Qed.

Lemma usableEntry_inv doc :
  usableEntry doc = true ->
  truthy (Some doc) = true /\ isObject (Some doc) = true
  /\ exists u, get doc "url_doc" = Some (VStr u) /\ trim u <> EmptyString.
Proof.
  unfold usableEntry. intros H.
  apply andb_true_iff in H as [H Hu]. apply andb_true_iff in H as [Ht Ho].
  split; [exact Ht|]. split; [exact Ho|].
  destruct (get doc "url_doc") as [[| | |u| |]|]; try discriminate Hu.
  exists u. split; [reflexivity|].
  apply negb_true_iff, String.eqb_neq in Hu. exact Hu.
Qed.

(** [parseDocument] keeps the usable entries and no other. *)
Lemma parseDocument_spec {L} doc i (l : L) t :
  exists o t',
    parseDocument doc i (l, t) = (o, (l, t'))
    /\ match o with
       | Returned (Some d) => usableEntry doc = true /\ parsedFrom doc d
       | Returned None => usableEntry doc = false
       | Thrown _ => usableEntry doc = false
       end.
Proof.
  unfold parseDocument, usableEntry.
  destruct (truthy (Some doc)) eqn:Ht; cbn [negb orb andb];
    [|do 2 eexists; split; reflexivity].
  destruct (isObject (Some doc)) eqn:Ho; cbn [negb orb andb];
    [|do 2 eexists; split; reflexivity].
  unfold parsedFrom, urlKey, trimmedUrl.
  destruct (get doc "url_doc") as [[| | |u| |]|];
    try (do 2 eexists; split; reflexivity).
  destruct (String.eqb u EmptyString) eqn:Hu.
  { apply String.eqb_eq in Hu. subst u. do 2 eexists; split; reflexivity. }
  destruct (String.eqb (trim u) EmptyString) eqn:Hb;
    [do 2 eexists; split; reflexivity|].
  destruct (parseYear_plausible (get doc "annee") l t) as (y & t' & Hy & Hplaus).
  unfold bind. rewrite Hy.
  do 2 eexists. split; [reflexivity|].
  cbn [negb url_doc annee document_name filename].
  split; [reflexivity|]. split; [reflexivity|].
  split; [apply String.eqb_neq; exact Hb|].
  split; [apply trim_idempotent|].
  split; [|split; reflexivity].
  unfold plausibleAnnee.
  destruct y as [n|]; [|left; reflexivity].
  destruct (isZero n); [left; reflexivity|].
  destruct Hplaus as (Hge & k & Hle). right. exists n, k. auto.
Qed.

(** The documents parsed so far grow by what the entry gives; the site
    fields and the logs stay. *)
Lemma keepDocument_spec doc i l t :
  exists ds ws t',
    keepDocument doc i (l, t)
    = (Returned tt,
       ({| l_warnings := l_warnings l ++ ws;
           l_parsedData :=
             {| documents := documents (l_parsedData l) ++ ds;
                obstacles_globaux := obstacles_globaux (l_parsedData l);
                recommandations := recommandations (l_parsedData l);
                logs := logs (l_parsedData l) |} |}, t'))
    /\ Forall2 parsedFrom (List.filter usableEntry [doc]) ds.
Proof.
  unfold keepDocument, tryCatch, bind.
  destruct (parseDocument_spec doc i l t) as (o & t' & Ho & Hspec). rewrite Ho.
  destruct l as [ws0 [docs obst rec lgs]].
  destruct o as [[d|]|e]; cbn [List.filter].
  - destruct Hspec as [Hu Hd]. rewrite Hu.
    exists [d], [], t'. cbn. rewrite app_nil_r.
    split; [reflexivity|]. constructor; [exact Hd | constructor].
  - rewrite Hspec. exists [], [], t'. cbn. rewrite !app_nil_r.
    split; [reflexivity | constructor].
  - rewrite Hspec. eexists [], [_], t'. cbn. rewrite app_nil_r.
    split; [reflexivity | constructor].
Qed.

Lemma forEachFrom_keepDocument_spec docs : forall i l t,
  exists ds ws t',
    forEachFrom keepDocument i docs (l, t)
    = (Returned tt,
       ({| l_warnings := l_warnings l ++ ws;
           l_parsedData :=
             {| documents := documents (l_parsedData l) ++ ds;
                obstacles_globaux := obstacles_globaux (l_parsedData l);
                recommandations := recommandations (l_parsedData l);
                logs := logs (l_parsedData l) |} |}, t'))
    /\ Forall2 parsedFrom (List.filter usableEntry docs) ds.
Proof.
  induction docs as [|doc docs IH]; intros i l t; cbn [forEachFrom].
  - exists [], [], t. rewrite !app_nil_r. destruct l as [ws [? ? ? ?]].
    split; [reflexivity | constructor].
  - destruct (keepDocument_spec doc i l t) as (ds1 & ws1 & t1 & H1 & F1).
    unfold bind at 1. rewrite H1.
    match goal with |- context [forEachFrom _ _ _ (?l1, _)] =>
      destruct (IH (S i) l1 t1) as (ds2 & ws2 & t2 & H2 & F2)
    end.
    rewrite H2. cbn [l_warnings l_parsedData documents obstacles_globaux
                     recommandations logs].
    exists (ds1 ++ ds2), (ws1 ++ ws2), t2. rewrite !app_assoc.
    split; [reflexivity|].
    change (doc :: docs) with ([doc] ++ docs). rewrite List.filter_app.
    apply Forall2_app; assumption.
Qed.

(** A log entry that is [null] makes [keepLog] throw; any other entry
    is kept when it has a message. *)
Lemma keepLog_spec log i l t :
  if isNull log
  then keepLog log i (l, t) = (Thrown TypeError_null, (l, t))
  else exists ls,
         keepLog log i (l, t)
         = (Returned tt,
            ({| l_warnings := l_warnings l;
                l_parsedData :=
                  {| documents := documents (l_parsedData l);
                     obstacles_globaux := obstacles_globaux (l_parsedData l);
                     recommandations := recommandations (l_parsedData l);
                     logs := logs (l_parsedData l) ++ ls |} |}, t))
         /\ Forall2 parsedLogFrom (List.filter hasMessage [log]) ls.
Proof.
  destruct (isNull log) eqn:Hnull.
  - destruct log; try discriminate Hnull. reflexivity.
  - assert (Hget : forall s : Locals * nat,
               getM (Some log) "message" s = (Returned (get log "message"), s))
      by (intros s; destruct log; try reflexivity; discriminate Hnull).
    unfold keepLog, bind. rewrite Hget. cbn [List.filter]. unfold hasMessage.
    destruct l as [ws [docs obst rec lgs]].
    destruct (truthy (get log "message")) eqn:Hm.
    + eexists [_]. split; [reflexivity|].
      constructor; [|constructor]. unfold parsedLogFrom. cbn [message level].
      destruct (get log "message") as [m|]; [|discriminate Hm].
      unfold jsor at 1 2. rewrite Hm.
      split; [reflexivity|]. split; [exact Hm|]. split; [reflexivity|].
      unfold jsor. destruct (get log "level") as [lv|]; [|reflexivity].
      destruct (truthy (Some lv)) eqn:Hl; [exact Hl | reflexivity].
    + exists []. cbn. rewrite app_nil_r. split; [reflexivity | constructor].
Qed.

Lemma forEachFrom_keepLog_spec entries : forall i l t,
  if existsb isNull entries
  then exists l', forEachFrom keepLog i entries (l, t) = (Thrown TypeError_null, (l', t))
  else exists ls,
         forEachFrom keepLog i entries (l, t)
         = (Returned tt,
            ({| l_warnings := l_warnings l;
                l_parsedData :=
                  {| documents := documents (l_parsedData l);
                     obstacles_globaux := obstacles_globaux (l_parsedData l);
                     recommandations := recommandations (l_parsedData l);
                     logs := logs (l_parsedData l) ++ ls |} |}, t))
         /\ Forall2 parsedLogFrom (List.filter hasMessage entries) ls.
Proof.
  induction entries as [|log entries IH]; intros i l t;
    cbn [forEachFrom existsb].
  - exists []. rewrite app_nil_r. destruct l as [ws [? ? ? ?]].
    split; [reflexivity | constructor].
  - pose proof (keepLog_spec log i l t) as Hlog.
    destruct (isNull log); cbn [orb].
    + exists l. unfold bind. rewrite Hlog. reflexivity.
    + destruct Hlog as (ls1 & H1 & F1).
      match type of H1 with _ = (_, (?l1, _)) =>
        pose proof (IH (S i) l1 t) as Hrest
      end.
      destruct (existsb isNull entries).
      * destruct Hrest as (l' & Hr). exists l'. unfold bind. rewrite H1. exact Hr.
      * destruct Hrest as (ls2 & Hr & F2).
        exists (ls1 ++ ls2). unfold bind. rewrite H1, Hr.
        cbn [l_warnings l_parsedData documents obstacles_globaux
             recommandations logs].
        rewrite app_assoc. split; [reflexivity|].
        change (log :: entries) with ([log] ++ entries). rewrite List.filter_app.
        apply Forall2_app; assumption.
Qed.

Lemma obstacles_clean items :
  Forall (fun o => o <> EmptyString /\ trim o = o)
    (List.filter (fun obstacle => negb (String.eqb obstacle EmptyString))
       (map trim items)).
Proof.
  induction items as [|x items IH]; cbn [map List.filter]; [constructor|].
  destruct (String.eqb (trim x) EmptyString) eqn:Hx; cbn [negb]; [exact IH|].
  constructor; [|exact IH].
  split; [apply String.eqb_neq, Hx | apply trim_idempotent].
Qed.

(** The [try] block of [parseStructuredData] on data that are an
    object: it throws exactly when [logs] has a [null] entry. *)
Lemma structuredBody_spec v t :
  isData v = true ->
  match structuredBody (Some v) ({| l_warnings := []; l_parsedData := emptyData |}, t) with
  | (Returned p, _) =>
      existsb isNull (logEntries v) = false
      /\ success p = true /\ error p = None
      /\ exists pd, data p = Some pd /\ parsedAs v pd
  | (Thrown e, _) =>
      existsb isNull (logEntries v) = true /\ e = TypeError_null
  end.
Proof.
  intros Hdata.
  assert (Hget : forall k (s : Locals * nat),
             getM (Some v) k s = (Returned (get v k), s)).
  { intros k s. destruct v; try reflexivity. discriminate Hdata. }
  unfold structuredBody, parsedAs, documentEntries, logEntries.
  unfold bind at 1. rewrite Hget.
  unfold bind at 1.
  assert (Hdocs : exists ds ws t1,
             match asArray (get v "documents") with
             | Some docs => forEach keepDocument docs
             | None => pushWarning ("Aucun tableau " +:+ q "documents"
                                    +:+ " trouvé dans les données")
             end ({| l_warnings := []; l_parsedData := emptyData |}, t)
             = (Returned tt,
                ({| l_warnings := ws;
                    l_parsedData :=
                      {| documents := ds; obstacles_globaux := [];
                         recommandations := None; logs := [] |} |}, t1))
             /\ Forall2 parsedFrom
                  (List.filter usableEntry
                     match asArray (get v "documents") with
                     | Some docs => docs
                     | None => []
                     end) ds).
  { destruct (asArray (get v "documents")) as [docs|].
    - destruct (forEachFrom_keepDocument_spec docs 0%nat
                  {| l_warnings := []; l_parsedData := emptyData |} t)
        as (ds & ws & t1 & Hrun & Hall).
      exists ds, ws, t1. split; [exact Hrun | exact Hall].
    - do 3 eexists. split; [reflexivity | constructor]. }
  destruct Hdocs as (ds & ws & t1 & -> & Hall).
  unfold bind at 1. rewrite Hget.
  unfold bind at 1.
  set (obst := match asArray (get v "obstacles-globaux") with
               | Some items =>
                   List.filter (fun obstacle => negb (String.eqb obstacle EmptyString))
                     (map trim (stringsOf items))
               | None => []
               end).
  assert (Hobst : match asArray (get v "obstacles-globaux") with
                  | Some items =>
                      setData (fun p =>
                        {| documents := documents p;
                           obstacles_globaux :=
                             List.filter
                               (fun obstacle => negb (String.eqb obstacle EmptyString))
                               (map trim (stringsOf items));
                           recommandations := recommandations p;
                           logs := logs p |})
                  | None => ret tt
                  end
                    ({| l_warnings := ws;
                        l_parsedData :=
                          {| documents := ds; obstacles_globaux := [];
                             recommandations := None; logs := [] |} |}, t1)
                  = (Returned tt,
                     ({| l_warnings := ws;
                         l_parsedData :=
                           {| documents := ds; obstacles_globaux := obst;
                              recommandations := None; logs := [] |} |}, t1))).
  { subst obst. destruct (asArray (get v "obstacles-globaux")); reflexivity. }
  rewrite Hobst. clear Hobst.
  assert (Hclean : Forall (fun o => o <> EmptyString /\ trim o = o) obst).
  { subst obst. destruct (asArray (get v "obstacles-globaux"));
      [apply obstacles_clean | constructor]. }
  clearbody obst.
  unfold bind at 1. rewrite Hget.
  unfold bind at 1.
  set (rec := match get v "recommandations" with
              | Some (VStr s) =>
                  if negb (String.eqb s EmptyString) then Some (trim s) else None
              | _ => None
              end).
  assert (Hrec : match get v "recommandations" with
                 | Some (VStr s) =>
                     if negb (String.eqb s EmptyString) then
                       setData (fun p => {| documents := documents p;
                                            obstacles_globaux := obstacles_globaux p;
                                            recommandations := Some (trim s);
                                            logs := logs p |})
                     else ret tt
                 | _ => ret tt
                 end
                   ({| l_warnings := ws;
                       l_parsedData :=
                         {| documents := ds; obstacles_globaux := obst;
                            recommandations := None; logs := [] |} |}, t1)
                 = (Returned tt,
                    ({| l_warnings := ws;
                        l_parsedData :=
                          {| documents := ds; obstacles_globaux := obst;
                             recommandations := rec; logs := [] |} |}, t1))).
  { subst rec. destruct (get v "recommandations") as [[| | |s| |]|];
      try reflexivity.
    destruct (String.eqb s EmptyString); reflexivity. }
  rewrite Hrec. clear Hrec.
  assert (Htrim : forall r, rec = Some r -> trim r = r).
  { subst rec. intros r.
    destruct (get v "recommandations") as [[| | |s| |]|]; try discriminate.
    destruct (String.eqb s EmptyString); [discriminate|].
    intros [= <-]. apply trim_idempotent. }
  clearbody rec.
  unfold bind at 1. rewrite Hget.
  unfold bind at 1.
  destruct (asArray (get v "logs")) as [entries|].
  - unfold forEach.
    match goal with |- context [forEachFrom keepLog 0%nat entries (?l, ?t)] =>
      pose proof (forEachFrom_keepLog_spec entries 0%nat l t) as Hlogs
    end.
    destruct (existsb isNull entries).
    + destruct Hlogs as (l' & ->). split; reflexivity.
    + destruct Hlogs as (ls & -> & Hls).
      cbn [l_warnings l_parsedData documents obstacles_globaux recommandations
           logs app].
      unfold bind, getL, ret. cbn [fst success error data l_parsedData].
      split; [reflexivity|]. split; [reflexivity|]. split; [reflexivity|].
      eexists. split; [reflexivity|].
      cbn [documents obstacles_globaux recommandations logs]. auto.
  - unfold bind, getL, ret. cbn [fst success error data l_parsedData existsb].
    split; [reflexivity|]. split; [reflexivity|]. split; [reflexivity|].
    eexists. split; [reflexivity|].
    cbn [documents obstacles_globaux recommandations logs List.filter].
    split; [exact Hall|]. split; [exact Hclean|]. split; [exact Htrim|]. constructor.
Qed.

(** What [parseOpenAIResponse] returns, by the shape of the data. *)
Lemma parseOpenAIResponse_spec {L} v (l : L) t :
  exists p t',
    parseOpenAIResponse v (l, t) = (Returned p, (l, t'))
    /\ success p = isData v && negb (existsb isNull (logEntries v))
    /\ (isData v = false ->
        p = {| success := false; data := None;
               error := Some "Données de moissonnage invalides ou manquantes";
               warnings := [] |})
    /\ (success p = false -> data p = None /\ exists e, error p = Some e)
    /\ (success p = true ->
        error p = None /\ warnings p = []
        /\ exists pd, data p = Some pd /\ parsedAs v pd).
Proof.
  unfold parseOpenAIResponse, tryCatch.
  fold (isData v). rewrite <- negb_andb. fold (isData v).
  destruct (isData v) eqn:Hdata; cbn [negb andb].
  - pose proof (structuredBody_spec v t Hdata) as Hbody.
    unfold bind, parseStructuredData, scope, tryCatch. cbn [fst snd].
    destruct (structuredBody (Some v) _) as [[p|e] [l' t']].
    + destruct Hbody as (Hnull & Hs & He & pd & Hd & Hpd).
      rewrite Hs, Hnull. cbn [negb ret].
      do 2 eexists. split; [reflexivity|]. cbn [success data error warnings].
      split; [reflexivity|]. split; [discriminate|]. split; [discriminate|].
      intros _. split; [reflexivity|]. split; [reflexivity|]. eauto.
    + destruct Hbody as (Hnull & ->). rewrite Hnull.
      unfold structuredFailed, bind, getL, ret.
      cbn [fst success negb data error warnings].
      do 2 eexists. split; [reflexivity|]. cbn [success data error warnings].
      split; [reflexivity|]. split; [discriminate|].
      split; [eauto | discriminate].
  - do 2 eexists. split; [reflexivity|]. cbn [success data error warnings].
    split; [reflexivity|]. split; [reflexivity|].
    split; [eauto | discriminate].
Qed.
End ParserOutcome.

Section ParserProperties.
Import HarvestDataParser.
Context `{RT : Runtime}.

Lemma existsb_isNull entries :
  existsb isNull entries = false <-> Forall (fun log => log <> VNull) entries.
Proof.
  induction entries as [|log entries IH]; cbn [existsb].
  - split; [constructor | reflexivity].
  - rewrite orb_false_iff, Forall_cons_iff, IH.
    split; intros [Hlog Hrest]; (split; [|exact Hrest]).
    + intros ->. discriminate Hlog.
    + destruct log; try reflexivity. contradiction.
Qed.

Lemma parsed_count {A B} (R : A -> B -> Prop) (p : A -> bool) xs ys :
  Forall2 R (List.filter p xs) ys -> (length ys <= length xs)%nat.
Proof.
  intros H. apply Forall2_length in H. rewrite <- H. apply filter_length_le.
Qed.

(** X8: [parseOpenAIResponse] returns on every value, touching nothing
    but the clock. The parse succeeds exactly when the data are an
    object and no entry of [logs] is [null]: a [null] among the logs
    fails the whole parse, while a [null] or otherwise unusable entry of
    [documents] never does. A successful result carries the data, no
    error and no warning (the warnings gathered while parsing are not
    passed on); a failed one carries an error message and no data. *)
Theorem parseOpenAIResponse_succeeds_exactly_when {L} v (s : L * nat) :
  exists p t',
    parseOpenAIResponse v s = (Returned p, (fst s, t'))
    /\ (success p = true
        <-> isData v = true /\ Forall (fun log => log <> VNull) (logEntries v))
    /\ (success p = true ->
        error p = None /\ warnings p = [] /\ exists pd, data p = Some pd)
    /\ (success p = false -> data p = None /\ exists e, error p = Some e)
    /\ (isData v = false ->
        error p = Some "Données de moissonnage invalides ou manquantes"
        /\ warnings p = []).
Proof.
  destruct s as [l t].
  destruct (parseOpenAIResponse_spec v l t) as (p & t' & Hrun & Hs & Hno & Hfail & Hok).
  exists p, t'. split; [exact Hrun|]. split; [|split; [|split]].
  - rewrite Hs, andb_true_iff, negb_true_iff, existsb_isNull. reflexivity.
  - intros H. destruct (Hok H) as (He & Hw & pd & Hd & _). eauto.
  - exact Hfail.
  - intros H. rewrite (Hno H). split; reflexivity.
Qed.

(** X9: what a successful parse holds. The parsed documents are the
    usable entries of [documents] (objects whose [url_doc] is a string
    that is not blank), each of them and in their order; every parsed
    document has the trimmed [url_doc] of its entry, which is not empty,
    and an [annee] that is 0 or lies between 1900 and the year after the
    current one. The global obstacles are trimmed and none is empty,
    the recommandations are trimmed, and the parsed logs are the entries
    of [logs] that have a message, with a level that is never empty. *)
Theorem parseOpenAIResponse_keeps_usable_entries {L} v (s s' : L * nat) p :
  parseOpenAIResponse v s = (Returned p, s') ->
  success p = true ->
  exists pd,
    data p = Some pd
    /\ parsedAs v pd
    /\ (length (documents pd) <= length (documentEntries v))%nat
    /\ (length (logs pd) <= length (logEntries v))%nat.
Proof.
  destruct s as [l t]. intros Hrun Hs.
  destruct (parseOpenAIResponse_spec v l t) as (p' & t' & Hrun' & _ & _ & _ & Hok).
  rewrite Hrun in Hrun'. injection Hrun' as <- _.
  destruct (Hok Hs) as (_ & _ & pd & Hd & Hpd).
  exists pd. split; [exact Hd|]. split; [exact Hpd|].
  destruct Hpd as (Hdocs & _ & _ & Hlogs).
  split; eapply parsed_count; eassumption.
Qed.
End ParserProperties.

Lemma parseOpenAIResponse_keeps_usable_entries_witness :
  exists p s' pd,
    HarvestDataParser.parseOpenAIResponse (RT := Reference.runtime)
      ParserExamples.mixedBatch (tt, 0%nat) = (Returned p, s')
    /\ HarvestDataParser.data p = Some pd
    /\ parsedAs (RT := Reference.runtime) ParserExamples.mixedBatch pd
    /\ map HarvestDataParser.url_doc (HarvestDataParser.documents pd)
       = ["https://ex.com/a.pdf"; "https://ex.com/b.pdf"]
    /\ HarvestDataParser.obstacles_globaux pd = ["captcha"]
    /\ HarvestDataParser.recommandations pd = Some "retry later"
    /\ length (HarvestDataParser.logs pd) = 1%nat.
Proof.
  destruct (parseOpenAIResponse_keeps_usable_entries (RT := Reference.runtime)
              ParserExamples.mixedBatch (tt, 0%nat)
              (snd (HarvestDataParser.parseOpenAIResponse (RT := Reference.runtime)
                      ParserExamples.mixedBatch (tt, 0%nat)))
              (match fst (HarvestDataParser.parseOpenAIResponse
                            (RT := Reference.runtime)
                            ParserExamples.mixedBatch (tt, 0%nat)) with
               | Returned p => p
               | Thrown _ =>
                   {| HarvestDataParser.success := false;
                      HarvestDataParser.data := None;
                      HarvestDataParser.error := None;
                      HarvestDataParser.warnings := [] |}
               end)
              ltac:(vm_compute; reflexivity) ltac:(vm_compute; reflexivity))
    as (pd & Hd & Hpd & _).
  do 2 eexists. exists pd.
  split; [vm_compute; reflexivity|].
  split; [exact Hd|]. split; [exact Hpd|].
  vm_compute in Hd. injection Hd as <-.
  vm_compute. repeat split; reflexivity.
Defined.

(** * Batches that are refused before anything is written *)

Section Refusal.
Import HarvestDataParser HarvestDataImporter.
Context `{RT : Runtime} `{DB : Supabase}.

Lemma invalidUrlsFrom_none docs : forall i,
  invalidUrlsFrom i docs = []
  <-> forallb (fun d => URL_parses (url_doc d)) docs = true.
Proof.
  induction docs as [|d docs IH]; intros i; cbn [invalidUrlsFrom forallb].
  - split; reflexivity.
  - destruct (URL_parses (url_doc d)); cbn [app andb].
    + apply IH.
    + split; discriminate.
Qed.

Lemma forallb_parsedFrom entries docs :
  Forall2 parsedFrom entries docs ->
  forallb (fun d => URL_parses (url_doc d)) docs
  = forallb (fun doc => URL_parses (urlKey doc)) entries.
Proof.
  induction 1 as [|doc d entries docs Hd _ IH]; cbn [forallb]; [reflexivity|].
  destruct Hd as (-> & _). rewrite IH. reflexivity.
Qed.

(** The validation of the parsed data, read on the entries. *)
Lemma validateParsedData_passes v pd :
  parsedAs v pd ->
  isValid (validateParsedData pd)
  = negb (length (List.filter usableEntry (documentEntries v)) =? 0)%nat
    && forallb (fun doc => URL_parses (urlKey doc))
         (List.filter usableEntry (documentEntries v)).
Proof.
  intros (Hdocs & _). unfold validateParsedData. cbn [isValid].
  rewrite <- (forallb_parsedFrom _ _ Hdocs), (Forall2_length _ _ _ Hdocs).
  destruct (documents pd) as [|d docs]; [reflexivity|].
  cbn [length Nat.eqb negb andb app].
  destruct (forallb _ (d :: docs)) eqn:Hall.
  - apply (invalidUrlsFrom_none _ 0%nat) in Hall. rewrite Hall. reflexivity.
  - destruct (invalidUrlsFrom 0 (d :: docs)) eqn:Hinv; [|reflexivity].
    apply invalidUrlsFrom_none in Hinv. congruence.
Qed.

Lemma afterParsing_failed_result harvestResult dataSource p w t :
  HarvestDataParser.success p = false ->
  exists r w' l,
    afterParsing harvestResult dataSource p ((w, initialLocals), t)
    = (Returned r, ((w', l), t))
    /\ sent w' = sent w
    /\ success r = false /\ documentsImported r = 0%nat
    /\ logsImported r = 0%nat /\ warnings r = []
    /\ length (errors r) = 1%nat.
Proof.
  intros Hs.
  destruct (afterParsing_failed harvestResult dataSource p w t Hs) as (obs & ->).
  do 3 eexists. split; [reflexivity|]. cbn. auto 7.
Qed.

Lemma afterParsing_invalid_result harvestResult dataSource p pd w t :
  HarvestDataParser.success p = true ->
  HarvestDataParser.data p = Some pd ->
  HarvestDataParser.warnings p = [] ->
  isValid (validateParsedData pd) = false ->
  exists r w' l,
    afterParsing harvestResult dataSource p ((w, initialLocals), t)
    = (Returned r, ((w', l), t))
    /\ sent w' = sent w
    /\ success r = false /\ documentsImported r = 0%nat
    /\ logsImported r = 0%nat /\ warnings r = []
    /\ errors r = HarvestDataParser.errors (validateParsedData pd).
Proof.
  intros Hs Hd Hw Hv. unfold afterParsing. rewrite Hs, Hd, Hw. cbn [negb]. cbv zeta.
  rewrite Hv. cbn [negb].
  unfold bind, modifyLocals, modifyL, getResult, getLocals, getL, ret,
    notifyProgress.
  cbn [fst snd initialLocals updResult result withWarnings withErrors
       success documentsImported logsImported warnings errors app].
  destruct w as [snt [|] obs]; cbn; do 3 eexists; (split; [reflexivity|]);
    cbn; auto 7.
Qed.

End Refusal.

(** * The requests of an import *)

Section Reached.
Context `{RT : Runtime} `{DB : Supabase} {P Loc : Type}.
Implicit Types (l : Loc) (s : (World P * Loc) * nat).

Lemma reached_notifyProgress p snt l s :
  reached snt l s ->
  triple (notifyProgress p) s (fun _ => reached snt l) (fun _ _ => False).
Proof. intros H. apply triple_notifyProgress. intros obs. exact H. Qed.

Lemma reached_getLocals snt l s :
  reached snt l s ->
  triple getLocals s (fun a s' => a = l /\ reached snt l s') (fun _ _ => False).
Proof. intros H. apply triple_getLocals. split; [apply H | exact H]. Qed.

Lemma reached_modifyLocals f snt l s :
  reached snt l s ->
  triple (modifyLocals f) s (fun _ => reached snt (f l)) (fun _ _ => False).
Proof.
  intros [Hs Hl]. apply triple_modifyLocals. split; [exact Hs|].
  cbn. rewrite Hl. reflexivity.
Qed.

Lemma reached_newDate snt l (s : (World P * Loc) * nat) :
  reached snt l s -> reached snt l (fst s, S (snd s)).
Proof. exact id. Qed.

Lemma reached_send r snt l s :
  reached snt l s ->
  triple (send r) s
    (fun a s' => a = respond snt r /\ reached (snt ++ [r]) l s')
    (fun _ _ => False).
Proof.
  intros [Hs Hl]. unfold triple, send, bind, getWorld, getL, modifyL, ret.
  cbn. rewrite Hs. split; [reflexivity|]. split; [reflexivity | exact Hl].
Qed.

Lemma reached_createResult row snt l s :
  reached snt l s ->
  triple (HarvestResultService.createResult row) s
    (fun _ s' =>
       storesResult (respond snt (Insert "harvest_results" row)) = true
       /\ reached (snt ++ [Insert "harvest_results" row]) l s')
    (fun _ s' =>
       storesResult (respond snt (Insert "harvest_results" row)) = false
       /\ reached (snt ++ [Insert "harvest_results" row]) l s').
Proof.
  intros H. unfold HarvestResultService.createResult.
  apply triple_bind.
  eapply triple_weaken; [apply (reached_send _ _ _ _ H) | | intros ? ? []].
  intros a s' [-> H']. cbn beta.
  destruct (respond snt (Insert "harvest_results" row)) as [e|[d|] [m|]];
    try (apply triple_throw; split; [reflexivity | exact H']).
  destruct d; cbn; auto.
Qed.

Lemma reached_createLog row snt l s :
  reached snt l s ->
  triple (HarvestLogService.createLog row) s
    (fun _ s' =>
       storesLog (respond snt (Insert "harvest_logs" row)) = true
       /\ reached (snt ++ [Insert "harvest_logs" row]) l s')
    (fun _ s' =>
       storesLog (respond snt (Insert "harvest_logs" row)) = false
       /\ reached (snt ++ [Insert "harvest_logs" row]) l s').
Proof.
  intros H. unfold HarvestLogService.createLog.
  apply triple_bind.
  eapply triple_weaken; [apply (reached_send _ _ _ _ H) | | intros ? ? []].
  intros a s' [-> H']. cbn beta.
  destruct (respond snt (Insert "harvest_logs" row)) as [e|d [m|]];
    cbn; auto.
Qed.

Lemma reached_updateDataSource id updates snt l s :
  reached snt l s ->
  triple (DataSourceService.updateDataSource id updates) s
    (fun _ s' =>
       storesResult (respond snt (Update "data_sources" id updates)) = true
       /\ reached (snt ++ [Update "data_sources" id updates]) l s')
    (fun _ s' =>
       storesResult (respond snt (Update "data_sources" id updates)) = false
       /\ reached (snt ++ [Update "data_sources" id updates]) l s').
Proof.
  intros H. unfold DataSourceService.updateDataSource.
  apply triple_tryCatch.
  eapply triple_weaken with
    (E := fun _ s' =>
            storesResult (respond snt (Update "data_sources" id updates)) = false
            /\ reached (snt ++ [Update "data_sources" id updates]) l s');
    [ | intros ? ? HQ; exact HQ | ].
  - apply triple_bind.
    eapply triple_weaken; [apply (reached_send _ _ _ _ H) | | intros ? ? []].
    intros a s' [-> H']. cbn beta.
    destruct (respond snt (Update "data_sources" id updates)) as [e|[d|] [m|]];
      try (apply triple_throw; split; [reflexivity | exact H']).
    destruct d; cbn; auto.
  - intros e s' HE. destruct e as [[] m|]; try (apply triple_throw; exact HE).
    destruct (includes "fetch" m); apply triple_throw; exact HE.
Qed.

Lemma reached_interpolate v snt l (s : (World P * Loc) * nat) :
  renders v = true -> reached snt l s ->
  triple (interpolate (Some v)) s (fun _ => reached snt l) (fun _ _ => False).
Proof.
  unfold renders, interpolate. intros Hv H. apply triple_liftOutcome.
  destruct (toString v); [exact H | discriminate Hv].
Qed.
End Reached.

Section Trace.
Import HarvestDataParser HarvestDataImporter.
Context `{RT : Runtime} `{DB : Supabase}.

Lemma reached_getResult snt l s :
  reached snt l s ->
  triple getResult s (fun a s' => a = result l /\ reached snt l s')
    (fun _ _ => False).
Proof.
  intros H. unfold getResult. apply triple_bind, triple_getLocals, triple_ret.
  destruct H as [Hs Hl]. rewrite Hl. split; [reflexivity | split; assumption].
Qed.

Lemma renders_jsor a b :
  renders a = true -> renders b = true -> renders (jsor (Some a) b) = true.
Proof. intros Ha Hb. unfold jsor. destruct (truthy (Some a)); assumption. Qed.

Lemma afterDocuments_counted l :
  {| result := result l;
     l_documentsImported := S (l_documentsImported l);
     l_logsImported := l_logsImported l |}
  = afterDocuments l 1 [].
Proof.
  destruct l as [[] n k]. unfold afterDocuments, withErrors. cbn.
  rewrite app_nil_r, Nat.add_1_r. reflexivity.
Qed.

Lemma afterDocuments_failed l e :
  updResult (fun r => withErrors (errors r ++ [e]) r) l = afterDocuments l 0 [e].
Proof.
  destruct l as [[] n k]. unfold afterDocuments, updResult, withErrors. cbn.
  rewrite Nat.add_0_r. reflexivity.
Qed.

Lemma afterDocuments_none l : afterDocuments l 0 [] = l.
Proof.
  destruct l as [[] n k]. unfold afterDocuments, withErrors. cbn.
  rewrite app_nil_r, Nat.add_0_r. reflexivity.
Qed.

Lemma afterDocuments_more l n1 es1 n2 es2 :
  afterDocuments (afterDocuments l n1 es1) n2 es2
  = afterDocuments l (n1 + n2) (es1 ++ es2).
Proof.
  destruct l as [[] n k]. unfold afterDocuments, withErrors. cbn.
  rewrite app_assoc, Nat.add_assoc. reflexivity.
Qed.

(** One document: one insertion, which is counted when the database
    stores the row and recorded as an error when it does not. *)
Lemma importDocument_step hr ds tot doc d i snt l s :
  parsedFrom doc d -> nameRenders doc = true -> reached snt l s ->
  triple (importDocument hr ds tot d i) s
    (fun _ s' =>
       exists r es,
         insertsDocument hr ds doc r
         /\ length es = (if storesResult (respond snt r) then 0 else 1)%nat
         /\ reached (snt ++ [r])
              (afterDocuments l
                 (if storesResult (respond snt r) then 1 else 0)%nat es) s')
    (fun _ _ => False).
Proof.
  intros (Hurl & Hne & Htrim & _ & Hname & Hfile) Hren H.
  apply andb_true_iff in Hren as [Hrn Hrf]. rewrite <- Hname in Hrn.
  rewrite <- Hfile in Hrf.
  unfold importDocument.
  assert (Hb1 : String.eqb (url_doc d) EmptyString = false)
    by (apply String.eqb_neq; exact Hne).
  assert (Hb2 : String.eqb (trim (url_doc d)) EmptyString = false)
    by (rewrite Htrim; exact Hb1).
  rewrite Hb1, Hb2. cbn [orb].
  apply triple_tryCatch, triple_bind, triple_newDate.
  apply reached_newDate in H.
  apply triple_bind.
  match goal with |- triple (HarvestResultService.createResult ?row) _ _ _ =>
    assert (Hrow : insertsDocument hr ds doc (Insert "harvest_results" row))
      by (do 2 eexists; split; [reflexivity|]; rewrite <- Hurl;
          repeat split; reflexivity);
    generalize dependent row
  end.
  intros row Hrow.
  eapply triple_weaken; [apply (reached_createResult row _ _ _ H) | | ].
  - intros _a s1 (Hack & H1). cbn beta.
    apply triple_bind.
    eapply triple_weaken with (E := fun _ _ => False);
      [apply (reached_modifyLocals _ _ _ _ H1) | | intros ? ? []].
    intros _b s2 H2. cbn beta in *. rewrite afterDocuments_counted in H2.
    apply triple_bind.
    eapply triple_weaken with (E := fun _ _ => False);
      [apply (reached_interpolate _ _ _ _ Hrn H2) | | intros ? ? []].
    intros shown s3 H3. cbn beta.
    apply triple_bind.
    eapply triple_weaken with (E := fun _ _ => False);
      [apply (reached_getResult _ _ _ H3) | | intros ? ? []].
    intros r0 s4 (_ & H4). cbn beta.
    eapply triple_weaken with (E := fun _ _ => False);
      [apply (reached_notifyProgress _ _ _ _ H4) | | intros ? ? []].
    intros _c s5 H5. exists (Insert "harvest_results" row), [].
    rewrite Hack. auto.
  - intros e s1 (Hack & H1). cbn beta zeta.
    apply triple_bind.
    assert (Hshown : renders
              (jsor (Some (document_name d))
                 (jsor (Some (filename d))
                    (jsor (Some (VStr (url_doc d))) (VStr "Document inconnu"))))
            = true).
    { apply renders_jsor; [exact Hrn|].
      apply renders_jsor; [exact Hrf|]. apply renders_jsor; reflexivity. }
    eapply triple_weaken with (E := fun _ _ => False);
      [apply (reached_interpolate _ _ _ _ Hshown H1) | | intros ? ? []].
    intros shown s2 H2. cbn beta.
    eapply triple_weaken with (E := fun _ _ => False);
      [apply (reached_modifyLocals _ _ _ _ H2) | | intros ? ? []].
    intros _b s3 H3. rewrite afterDocuments_failed in H3.
    exists (Insert "harvest_results" row). eexists [_].
    rewrite Hack. split; [exact Hrow|]. split; [reflexivity | exact H3].
Qed.

Lemma forEachFrom_importDocument_trace hr ds tot entries docs :
  Forall2 parsedFrom entries docs ->
  Forall (fun doc => nameRenders doc = true) entries ->
  forall i snt l s,
    reached snt l s ->
    triple (forEachFrom (importDocument hr ds tot) i docs) s
      (fun _ s' =>
         exists reqs es,
           Forall2 (insertsDocument hr ds) entries reqs
           /\ (length es + acknowledged storesResult snt reqs = length reqs)%nat
           /\ reached (snt ++ reqs)
                (afterDocuments l (acknowledged storesResult snt reqs) es) s')
      (fun _ _ => False).
Proof.
  induction 1 as [|doc d entries docs Hd _ IH]; intros Hnames i snt l s H;
    cbn [forEachFrom].
  - apply triple_ret. exists [], []. rewrite app_nil_r, afterDocuments_none.
    split; [constructor|]. split; [reflexivity | exact H].
  - apply Forall_cons_iff in Hnames as [Hname Hnames].
    apply triple_bind.
    eapply triple_weaken;
      [apply (importDocument_step hr ds tot doc d i snt l s Hd Hname H)
      | | intros ? ? []].
    intros _a s1 (r & es1 & Hr & Hlen1 & H1). cbn beta.
    eapply triple_weaken; [apply (IH Hnames (S i) _ _ _ H1) | | intros ? ? []].
    intros _b s2 (reqs & es2 & Hreqs & Hlen2 & H2).
    exists (r :: reqs), (es1 ++ es2). cbn [acknowledged length].
    split; [constructor; assumption|].
    rewrite afterDocuments_more, <- app_assoc in H2. cbn [app] in H2.
    split; [|exact H2].
    rewrite length_app. destruct (storesResult (respond snt r)); lia.
Qed.

(** The update of the source: at most one request; an error is
    recorded exactly when the request was sent and not stored. *)
Lemma updateSite_step ds pd snt l s :
  reached snt l s ->
  triple (updateSite ds pd) s
    (fun _ s' =>
       exists reqs es l',
         updatesSite ds reqs
         /\ (length es + acknowledged storesResult snt reqs = length reqs)%nat
         /\ afterSite l l' es
         /\ reached (snt ++ reqs) l' s')
    (fun _ _ => False).
Proof.
  intros H. unfold updateSite. cbv zeta.
  set (updateData := _ ++ _).
  apply triple_tryCatch.
  apply triple_bind.
  eapply triple_weaken with
    (Q := fun _ s' => exists l', afterSite l l' [] /\ reached snt l' s')
    (E := fun _ _ => False); [ | | intros ? ? []].
  { destruct (0 <? _)%nat.
    - eapply triple_weaken;
        [apply (reached_modifyLocals _ _ _ _ H) | | intros ? ? []].
      intros _a s' H'. eexists. split; [|exact H'].
      unfold afterSite. destruct l as [[] ? ?]. cbn. rewrite app_nil_r.
      repeat split; reflexivity.
    - apply triple_ret. exists l. split; [|exact H].
      unfold afterSite. rewrite app_nil_r. repeat split; reflexivity. }
  intros _a s1 (l1 & Hl1 & H1). cbn beta.
  apply triple_bind.
  eapply triple_weaken with
    (Q := fun _ s' => exists l', afterSite l l' [] /\ reached snt l' s')
    (E := fun _ _ => False); [ | | intros ? ? []].
  { assert (Hkeep : triple (ret tt) s1
                       (fun _ s' => exists l', afterSite l l' [] /\ reached snt l' s')
                       (fun _ _ => False))
      by (apply triple_ret; exists l1; auto).
    assert (Hset : triple (modifyLocals (updResult withRecommandationsUpdated)) s1
                     (fun _ s' => exists l', afterSite l l' [] /\ reached snt l' s')
                     (fun _ _ => False)).
    { eapply triple_weaken;
        [apply (reached_modifyLocals _ _ _ _ H1) | | intros ? ? []].
      intros _b s' H'. eexists. split; [|exact H'].
      unfold afterSite in *. destruct l1 as [[] ? ?]. cbn in *. exact Hl1. }
    destruct (recommandations pd) as [r|];
      [destruct (negb (String.eqb r EmptyString))|]; assumption. }
  clear l1 Hl1 s1 H1. intros _b s2 (l2 & Hl2 & H2). cbn beta.
  destruct (0 <? length updateData)%nat.
  - apply triple_bind.
    eapply triple_weaken;
      [apply (reached_updateDataSource (ds_id ds) (VObj updateData) _ _ _ H2) | | ].
    + intros _c s3 (Hack & H3). apply triple_ret.
      exists [Update "data_sources" (ds_id ds) (VObj updateData)], [], l2.
      cbn [acknowledged length]. rewrite Hack.
      split; [right; eauto|]. split; [reflexivity|]. split; assumption.
    + intros e s3 (Hack & H3). cbn beta.
      eapply triple_weaken;
        [apply (reached_modifyLocals _ _ _ _ H3) | | intros ? ? []].
      intros _d s4 H4.
      exists [Update "data_sources" (ds_id ds) (VObj updateData)]. eexists [_].
      eexists. cbn [acknowledged length]. rewrite Hack.
      split; [right; eauto|]. split; [reflexivity|]. split; [|exact H4].
      unfold afterSite in *. destruct l2 as [[] ? ?]. cbn in *.
      destruct Hl2 as (-> & Hrest). rewrite app_nil_r. split; [reflexivity|].
      exact Hrest.
  - apply triple_ret. exists [], [], l2. rewrite app_nil_r.
    split; [left; reflexivity|]. split; [reflexivity|]. split; assumption.
Qed.

Lemma afterLogs_none l : afterLogs l 0 = l.
Proof. destruct l as [r n k]. unfold afterLogs. cbn. rewrite Nat.add_0_r. reflexivity. Qed.

Lemma afterLogs_more l n1 n2 : afterLogs (afterLogs l n1) n2 = afterLogs l (n1 + n2).
Proof.
  destruct l as [r n k]. unfold afterLogs. cbn. rewrite Nat.add_assoc. reflexivity.
Qed.

(** One log: one insertion, counted when the database stores it; its
    failure leaves no trace in the result. *)
Lemma importLog_step hr ds log p i snt l s :
  parsedLogFrom log p -> reached snt l s ->
  triple (importLog hr ds p i) s
    (fun _ s' =>
       exists r,
         insertsLog ds log r
         /\ reached (snt ++ [r])
              (afterLogs l (if storesLog (respond snt r) then 1 else 0)%nat) s')
    (fun _ _ => False).
Proof.
  intros (Hmsg & _) H. unfold importLog.
  apply triple_tryCatch, triple_bind, triple_newDate.
  apply reached_newDate in H.
  apply triple_bind.
  match goal with |- triple (HarvestLogService.createLog ?row) _ _ _ =>
    assert (Hrow : insertsLog ds log (Insert "harvest_logs" row))
      by (eexists; split; [reflexivity|]; rewrite Hmsg; split; reflexivity);
    generalize dependent row
  end.
  intros row Hrow.
  eapply triple_weaken; [apply (reached_createLog row _ _ _ H) | | ].
  - intros _a s1 (Hack & H1). cbn beta.
    eapply triple_weaken;
      [apply (reached_modifyLocals _ _ _ _ H1) | | intros ? ? []].
    intros _b s2 H2. exists (Insert "harvest_logs" row). rewrite Hack.
    split; [exact Hrow|].
    replace (afterLogs l 1) with
      {| result := result l; l_documentsImported := l_documentsImported l;
         l_logsImported := S (l_logsImported l) |};
      [exact H2|].
    unfold afterLogs. rewrite Nat.add_1_r. reflexivity.
  - intros e s1 (Hack & H1). apply triple_ret.
    exists (Insert "harvest_logs" row). rewrite Hack, afterLogs_none. auto.
Qed.

Lemma forEachFrom_importLog_trace hr ds entries logs :
  Forall2 parsedLogFrom entries logs ->
  forall i snt l s,
    reached snt l s ->
    triple (forEachFrom (importLog hr ds) i logs) s
      (fun _ s' =>
         exists reqs,
           Forall2 (insertsLog ds) entries reqs
           /\ reached (snt ++ reqs)
                (afterLogs l (acknowledged storesLog snt reqs)) s')
      (fun _ _ => False).
Proof.
  induction 1 as [|log p entries logs Hp _ IH]; intros i snt l s H;
    cbn [forEachFrom].
  - apply triple_ret. exists []. rewrite app_nil_r, afterLogs_none.
    split; [constructor | exact H].
  - apply triple_bind.
    eapply triple_weaken;
      [apply (importLog_step hr ds log p i snt l s Hp H) | | intros ? ? []].
    intros _a s1 (r & Hr & H1). cbn beta.
    eapply triple_weaken; [apply (IH (S i) _ _ _ H1) | | intros ? ? []].
    intros _b s2 (reqs & Hreqs & H2).
    exists (r :: reqs). cbn [acknowledged].
    split; [constructor; assumption|].
    rewrite afterLogs_more, <- app_assoc in H2. exact H2.
Qed.

Lemma finalLog_step hr ds snt l s :
  reached snt l s ->
  triple (finalLog hr ds) s
    (fun _ s' => exists r, insertsFinalLog ds r /\ reached (snt ++ [r]) l s')
    (fun _ _ => False).
Proof.
  intros H. unfold finalLog.
  apply triple_tryCatch, triple_bind.
  eapply triple_weaken; [apply (reached_getLocals _ _ _ H) | | intros ? ? []].
  intros l0 s1 (-> & H1). cbn beta.
  apply triple_bind.
  match goal with |- triple (HarvestLogService.createLog ?row) _ _ _ =>
    assert (Hrow : insertsFinalLog ds (Insert "harvest_logs" row))
      by (eexists; split; [reflexivity|]; split; reflexivity);
    generalize dependent row
  end.
  intros row Hrow.
  eapply triple_weaken; [apply (reached_createLog row _ _ _ H1) | | ].
  - intros _a s2 (_ & H2). apply triple_ret. eauto.
  - intros e s2 (_ & H2). apply triple_ret. eauto.
Qed.

(** The phases that follow the parse and the validation: the requests
    they send and what the result counts. *)
Lemma importParsedData_trace hr ds pd entries logEntries snt l s :
  Forall2 parsedFrom entries (documents pd) ->
  Forall (fun doc => nameRenders doc = true) entries ->
  Forall2 parsedLogFrom logEntries (logs pd) ->
  reached snt l s ->
  triple (importParsedData hr ds pd) s
    (fun r s' =>
       exists docReqs siteReqs logReqs final,
         sent (fst (fst s')) = snt ++ docReqs ++ siteReqs ++ logReqs ++ [final]
         /\ Forall2 (insertsDocument hr ds) entries docReqs
         /\ updatesSite ds siteReqs
         /\ Forall2 (insertsLog ds) logEntries logReqs
         /\ insertsFinalLog ds final
         /\ documentsImported r
            = (l_documentsImported l + acknowledged storesResult snt docReqs)%nat
         /\ logsImported r
            = (l_logsImported l
               + acknowledged storesLog (snt ++ docReqs ++ siteReqs) logReqs)%nat
         /\ (length (errors r) + acknowledged storesResult snt docReqs
             + acknowledged storesResult (snt ++ docReqs) siteReqs
             = length (errors (result l)) + length docReqs + length siteReqs)%nat
         /\ warnings r = warnings (result l)
         /\ success r
            = ((length (errors r) =? 0)%nat || (0 <? documentsImported r)%nat))
    (fun _ _ => False).
Proof.
  intros Hdocs Hnames Hlogs H. unfold importParsedData. cbv zeta.
  apply triple_bind.
  eapply triple_weaken; [apply (reached_getResult _ _ _ H) | | intros ? ? []].
  clear s H. intros r0 s (_ & H). cbn beta.
  apply triple_bind.
  eapply triple_weaken; [apply (reached_notifyProgress _ _ _ _ H) | | intros ? ? []].
  clear s H. intros _a s H. cbn beta.
  apply triple_bind. unfold forEach.
  eapply triple_weaken;
    [apply (forEachFrom_importDocument_trace hr ds _ entries _ Hdocs Hnames
              0%nat _ _ _ H)
    | | intros ? ? []].
  clear s H. intros _b s (docReqs & esD & HD & HlenD & H). cbn beta.
  apply triple_bind.
  eapply triple_weaken; [apply (reached_modifyLocals _ _ _ _ H) | | intros ? ? []].
  clear s H. intros _c s H. cbn beta in H.
  apply triple_bind.
  eapply triple_weaken; [apply (reached_getResult _ _ _ H) | | intros ? ? []].
  intros r1 s1 (_ & H1). cbn beta. clear s H.
  apply triple_bind.
  eapply triple_weaken; [apply (reached_notifyProgress _ _ _ _ H1) | | intros ? ? []].
  clear s1 H1. intros _d s H. cbn beta.
  apply triple_bind.
  eapply triple_weaken; [apply (updateSite_step ds pd _ _ _ H) | | intros ? ? []].
  clear s H. intros _e s (siteReqs & esS & l3 & HS & HlenS & Hl3 & H). cbn beta.
  apply triple_bind.
  eapply triple_weaken; [apply (reached_getResult _ _ _ H) | | intros ? ? []].
  intros r2 s1 (_ & H1). cbn beta. clear s H.
  apply triple_bind.
  eapply triple_weaken; [apply (reached_notifyProgress _ _ _ _ H1) | | intros ? ? []].
  clear s1 H1. intros _f s H. cbn beta.
  apply triple_bind.
  eapply triple_weaken;
    [apply (forEachFrom_importLog_trace hr ds logEntries _ Hlogs 0%nat _ _ _ H)
    | | intros ? ? []].
  clear s H. intros _g s (logReqs & HL & H). cbn beta.
  apply triple_bind.
  eapply triple_weaken; [apply (reached_modifyLocals _ _ _ _ H) | | intros ? ? []].
  clear s H. intros _h s H. cbn beta in H.
  apply triple_bind.
  eapply triple_weaken; [apply (finalLog_step hr ds _ _ _ H) | | intros ? ? []].
  clear s H. intros _i s (final & HF & H). cbn beta.
  apply triple_bind.
  eapply triple_weaken; [apply (reached_getLocals _ _ _ H) | | intros ? ? []].
  intros l5 s1 (-> & H1). cbn beta. clear s H.
  apply triple_bind.
  eapply triple_weaken; [apply (reached_notifyProgress _ _ _ _ H1) | | intros ? ? []].
  clear s1 H1. intros _j s H. cbn beta.
  apply triple_bind.
  eapply triple_weaken; [apply (reached_modifyLocals _ _ _ _ H) | | intros ? ? []].
  clear s H. intros _k s H. cbn beta.
  eapply triple_weaken; [apply (reached_getResult _ _ _ H) | | intros ? ? []].
  intros r s' (-> & [Hsent _]).
  exists docReqs, siteReqs, logReqs, final.
  split; [rewrite Hsent, <- !app_assoc; reflexivity|].
  split; [exact HD|]. split; [exact HS|]. split; [exact HL|]. split; [exact HF|].
  destruct Hl3 as (He3 & Hw3 & Hd3 & Hg3 & Hn3 & Hk3).
  destruct l as [[] n k]. destruct l3 as [[] n3 k3].
  unfold afterDocuments, afterLogs, updResult, withErrors, withSuccess,
    withLogsImported, withDocumentsImported in *.
  cbn in *. subst.
  rewrite <- !app_assoc.
  split; [reflexivity|]. split; [reflexivity|].
  split; [rewrite !length_app; lia|]. split; reflexivity.
Qed.


Lemma passes_inv v :
  passes v = true ->
  isData v && negb (existsb isNull (logEntries v)) = true
  /\ negb (length (List.filter usableEntry (documentEntries v)) =? 0)%nat
     && forallb (fun doc => URL_parses (urlKey doc))
          (List.filter usableEntry (documentEntries v)) = true.
Proof.
  unfold passes. rewrite <- andb_assoc. intros H.
  apply andb_true_iff in H as [H1 H2]. split; assumption.
Qed.

(** The requests of an import that passes the parse and the
    validation, and what its result counts. *)
Lemma importHarvestData_trace hr ds (s : World ImportProgress * nat) :
  passes (hr_data hr) = true ->
  Forall (fun doc => nameRenders doc = true)
    (List.filter usableEntry (documentEntries (hr_data hr))) ->
  exists r s' docReqs siteReqs logReqs final,
    importHarvestData hr ds s = (Returned r, s')
    /\ sent (fst s') = sent (fst s) ++ docReqs ++ siteReqs ++ logReqs ++ [final]
    /\ Forall2 (insertsDocument hr ds)
         (List.filter usableEntry (documentEntries (hr_data hr))) docReqs
    /\ updatesSite ds siteReqs
    /\ Forall2 (insertsLog ds)
         (List.filter hasMessage (logEntries (hr_data hr))) logReqs
    /\ insertsFinalLog ds final
    /\ documentsImported r = acknowledged storesResult (sent (fst s)) docReqs
    /\ logsImported r
       = acknowledged storesLog (sent (fst s) ++ docReqs ++ siteReqs) logReqs
    /\ (length (errors r) + acknowledged storesResult (sent (fst s)) docReqs
        + acknowledged storesResult (sent (fst s) ++ docReqs) siteReqs
        = length docReqs + length siteReqs)%nat
    /\ warnings r = []
    /\ success r = ((length (errors r) =? 0)%nat || (0 <? documentsImported r)%nat).
Proof.
  intros Hpass Hnames. destruct s as [w t].
  destruct (passes_inv _ Hpass) as [Hparse Hvalid].
  destruct (notifyProgress_run parsingSnapshot w initialLocals t) as (obs & Hn).
  destruct (parseOpenAIResponse_spec (hr_data hr)
              ({| sent := sent w; progressCallback := progressCallback w;
                  observed := obs |}, initialLocals) t)
    as (p & t' & Hp & Hsucc & _ & _ & Hok).
  rewrite Hparse in Hsucc.
  destruct (Hok Hsucc) as (_ & Hw & pd & Hd & Hpd).
  rewrite (importHarvestData_after_parsing _ ds _ _ _ _ _ Hn Hp).
  pose proof (validateParsedData_passes _ _ Hpd) as Hv. rewrite Hvalid in Hv.
  destruct Hpd as (Hdocs & _ & _ & Hlogs).
  assert (T : triple (afterParsing hr ds p)
                (({| sent := sent w; progressCallback := progressCallback w;
                     observed := obs |}, initialLocals), t')
                (fun r s' =>
                   exists docReqs siteReqs logReqs final,
                     sent (fst (fst s'))
                     = sent w ++ docReqs ++ siteReqs ++ logReqs ++ [final]
                     /\ Forall2 (insertsDocument hr ds)
                          (List.filter usableEntry (documentEntries (hr_data hr)))
                          docReqs
                     /\ updatesSite ds siteReqs
                     /\ Forall2 (insertsLog ds)
                          (List.filter hasMessage (logEntries (hr_data hr))) logReqs
                     /\ insertsFinalLog ds final
                     /\ documentsImported r
                        = acknowledged storesResult (sent w) docReqs
                     /\ logsImported r
                        = acknowledged storesLog (sent w ++ docReqs ++ siteReqs)
                            logReqs
                     /\ (length (errors r)
                         + acknowledged storesResult (sent w) docReqs
                         + acknowledged storesResult (sent w ++ docReqs) siteReqs
                         = length docReqs + length siteReqs)%nat
                     /\ warnings r = []
                     /\ success r
                        = ((length (errors r) =? 0)%nat
                           || (0 <? documentsImported r)%nat))
                (fun _ _ => False)).
  { unfold afterParsing. rewrite Hsucc, Hd, Hw. cbn [negb].
    apply triple_bind.
    eapply triple_weaken;
      [apply (reached_modifyLocals _ (sent w) initialLocals); split; reflexivity
      | | intros ? ? []].
    intros _a s1 H1. cbv zeta. rewrite Hv. cbn [negb].
    eapply triple_weaken;
      [apply (importParsedData_trace hr ds pd _ _ _ _ _ Hdocs Hnames Hlogs H1)
      | | intros ? ? []].
    intros r s' (docReqs & siteReqs & logReqs & final & HQ).
    exists docReqs, siteReqs, logReqs, final. exact HQ. }
  apply triple_returns in T. destruct T as (r & [[w2 l2] t2] & Hrun & HQ).
  unfold tryCatch. rewrite Hrun.
  destruct HQ as (docReqs & siteReqs & logReqs & final & HQ).
  exists r, (w2, t2), docReqs, siteReqs, logReqs, final.
  split; [reflexivity | exact HQ].
Qed.


Section TraceProperties.
(** X10: a batch that does not pass is refused whole, before anything
    is written. When the data of the harvest are not an object, or a log
    entry is [null], or no entry of [documents] is usable, or the
    trimmed [url_doc] of some usable entry is not an address,
    [importHarvestData] returns [success = false] with an error, counts
    no document and no log, and sends nothing to the database. *)
Theorem importHarvestData_refuses_before_writing harvestResult dataSource
    (s : World ImportProgress * nat) :
  passes (hr_data harvestResult) = false ->
  exists r s',
    importHarvestData harvestResult dataSource s = (Returned r, s')
    /\ sent (fst s') = sent (fst s)
    /\ success r = false
    /\ documentsImported r = 0%nat
    /\ logsImported r = 0%nat
    /\ warnings r = []
    /\ errors r <> [].
Proof.
  intros Hpass. destruct s as [w t].
  destruct (notifyProgress_run parsingSnapshot w initialLocals t) as (obs & Hn).
  destruct (parseOpenAIResponse_spec (hr_data harvestResult)
              ({| sent := sent w; progressCallback := progressCallback w;
                  observed := obs |}, initialLocals) t)
    as (p & t' & Hp & Hsucc & _ & _ & Hok).
  rewrite (importHarvestData_after_parsing _ dataSource _ _ _ _ _ Hn Hp).
  unfold tryCatch.
  destruct (HarvestDataParser.success p) eqn:Hs.
  - destruct (Hok eq_refl) as (_ & Hw & pd & Hd & Hpd).
    assert (Hv : isValid (validateParsedData pd) = false).
    { rewrite (validateParsedData_passes _ _ Hpd).
      unfold passes in Hpass. rewrite <- Hsucc in Hpass.
      cbn [andb] in Hpass. exact Hpass. }
    destruct (afterParsing_invalid_result harvestResult dataSource p pd
                {| sent := sent w; progressCallback := progressCallback w;
                   observed := obs |} t' Hs Hd Hw Hv)
      as (r & w' & l & -> & Hsent & Hsr & Hdr & Hlr & Hwr & Her).
    do 2 eexists. split; [reflexivity|]. cbn [fst].
    split; [exact Hsent|]. split; [exact Hsr|]. split; [exact Hdr|].
    split; [exact Hlr|]. split; [exact Hwr|].
    rewrite Her. apply validateParsedData_invalid, Hv.
  - destruct (afterParsing_failed_result harvestResult dataSource p
                {| sent := sent w; progressCallback := progressCallback w;
                   observed := obs |} t' Hs)
      as (r & w' & l & -> & Hsent & Hsr & Hdr & Hlr & Hwr & Her).
    do 2 eexists. split; [reflexivity|]. cbn [fst].
    split; [exact Hsent|]. split; [exact Hsr|]. split; [exact Hdr|].
    split; [exact Hlr|]. split; [exact Hwr|].
    intros Hnil. rewrite Hnil in Her. discriminate Her.
Qed.

(** X11: the requests of an import that passes. For a batch that passes
    and whose names can be shown, [importHarvestData] sends, in this
    order: one insertion in [harvest_results] for each usable entry, in
    the order of the entries and carrying its trimmed [url_doc]; at most
    one update of the source; one insertion in [harvest_logs] for each
    log entry that has a message; and the closing log. It sends nothing
    else and repeats nothing. [documentsImported] is the number of
    document insertions that the database stored, [logsImported] the
    number of log insertions it stored, and there is one error for each
    document insertion and for the update of the source that it did not
    store; a log that could not be stored leaves no error. *)
Theorem importHarvestData_sends_one_request_per_entry hr ds
    (s : World ImportProgress * nat) :
  passes (hr_data hr) = true ->
  Forall (fun doc => nameRenders doc = true)
    (List.filter usableEntry (documentEntries (hr_data hr))) ->
  exists r s' docReqs siteReqs logReqs final,
    importHarvestData hr ds s = (Returned r, s')
    /\ sent (fst s') = sent (fst s) ++ docReqs ++ siteReqs ++ logReqs ++ [final]
    /\ Forall2 (insertsDocument hr ds)
         (List.filter usableEntry (documentEntries (hr_data hr))) docReqs
    /\ updatesSite ds siteReqs
    /\ Forall2 (insertsLog ds)
         (List.filter hasMessage (logEntries (hr_data hr))) logReqs
    /\ insertsFinalLog ds final
    /\ documentsImported r = acknowledged storesResult (sent (fst s)) docReqs
    /\ logsImported r
       = acknowledged storesLog (sent (fst s) ++ docReqs ++ siteReqs) logReqs
    /\ (length (errors r) + acknowledged storesResult (sent (fst s)) docReqs
        + acknowledged storesResult (sent (fst s) ++ docReqs) siteReqs
        = length docReqs + length siteReqs)%nat
    /\ warnings r = []
    /\ success r = ((length (errors r) =? 0)%nat || (0 <? documentsImported r)%nat).
Proof. exact (importHarvestData_trace hr ds s). Qed.

End TraceProperties.
End Trace.

Lemma importHarvestData_refuses_before_writing_witness :
  passes (RT := Reference.runtime) ParserExamples.batchWithNullLog = false
  /\ exists r s',
       HarvestDataImporter.importHarvestData
         (RT := Reference.runtime) (DB := ReferenceDatabase.accepting)
         (ImportExamples.harvest ParserExamples.batchWithNullLog)
         ImportExamples.source (ImportExamples.listening, 0%nat)
       = (Returned r, s')
       /\ sent (fst s') = []
       /\ HarvestDataImporter.success r = false
       /\ HarvestDataImporter.documentsImported r = 0%nat
       /\ HarvestDataImporter.logsImported r = 0%nat
       /\ HarvestDataImporter.warnings r = []
       /\ HarvestDataImporter.errors r <> [].
Proof.
  split; [vm_compute; reflexivity|].
  apply (importHarvestData_refuses_before_writing
           (RT := Reference.runtime) (DB := ReferenceDatabase.accepting)
           (ImportExamples.harvest ParserExamples.batchWithNullLog)
           ImportExamples.source (ImportExamples.listening, 0%nat)).
  vm_compute. reflexivity.
Defined.

Lemma importHarvestData_sends_one_request_per_entry_witness :
  passes (RT := Reference.runtime) ParserExamples.mixedBatch = true
  /\ exists r s' docReqs siteReqs logReqs final,
       HarvestDataImporter.importHarvestData
         (RT := Reference.runtime) (DB := ReferenceDatabase.refusingSecond)
         (ImportExamples.harvest ParserExamples.mixedBatch)
         ImportExamples.source (ImportExamples.listening, 0%nat)
       = (Returned r, s')
       /\ sent (fst s') = [] ++ docReqs ++ siteReqs ++ logReqs ++ [final]
       /\ Forall2 (insertsDocument (ImportExamples.harvest ParserExamples.mixedBatch)
                     ImportExamples.source)
            (List.filter usableEntry
               (documentEntries ParserExamples.mixedBatch)) docReqs
       /\ updatesSite ImportExamples.source siteReqs
       /\ Forall2 (insertsLog ImportExamples.source)
            (List.filter hasMessage (logEntries ParserExamples.mixedBatch)) logReqs
       /\ insertsFinalLog ImportExamples.source final
       /\ HarvestDataImporter.documentsImported r
          = acknowledged (DB := ReferenceDatabase.refusingSecond)
              storesResult [] docReqs
       /\ HarvestDataImporter.logsImported r
          = acknowledged (DB := ReferenceDatabase.refusingSecond)
              storesLog ([] ++ docReqs ++ siteReqs) logReqs
       /\ (length (HarvestDataImporter.errors r)
           + acknowledged (DB := ReferenceDatabase.refusingSecond)
               storesResult [] docReqs
           + acknowledged (DB := ReferenceDatabase.refusingSecond)
               storesResult ([] ++ docReqs) siteReqs
           = length docReqs + length siteReqs)%nat
       /\ HarvestDataImporter.warnings r = []
       /\ HarvestDataImporter.success r
          = ((length (HarvestDataImporter.errors r) =? 0)%nat
             || (0 <? HarvestDataImporter.documentsImported r)%nat).
Proof.
  split; [vm_compute; reflexivity|].
  apply (importHarvestData_sends_one_request_per_entry
           (RT := Reference.runtime) (DB := ReferenceDatabase.refusingSecond)
           (ImportExamples.harvest ParserExamples.mixedBatch)
           ImportExamples.source (ImportExamples.listening, 0%nat)).
  - vm_compute. reflexivity.
  - vm_compute. repeat constructor.
Defined.


(** * The import of a file: [importHarvestResults] *)

Section FileGates.
Import JsonImportValidator HarvestImportService.
Context `{RT : Runtime} `{DB : Supabase}.
Context (downloadAndSave :
           DataSource -> jsval -> ExtractResult -> ValidationResult ->
           M (World ImportProgress * ImportResult) ImportResult).

(** The report does not depend on the state of the caller. *)
Lemma validateImportJson_anywhere {L L'} text (l : L) (l' : L') t v s1 :
  validateImportJson text (l, t) = (Returned v, s1) ->
  exists t',
    s1 = (l, t') /\ validateImportJson text (l', t) = (Returned v, (l', t')).
Proof.
  unfold validateImportJson, scope. cbn [fst snd].
  match goal with |- context [bind ?m ?k (noFindings, t)] =>
    destruct (bind m k (noFindings, t)) as [o [l0 t0]]
  end.
  intros [= -> <-]. exists t0. split; reflexivity.
Qed.

(** A file that the validation refuses is rejected with the messages of
    the validation, whatever the later phases are. *)
Lemma importHarvestResults_invalid text ds cfg
    (s : World ImportProgress * nat) v s1 :
  validateImportJson text (tt, snd s) = (Returned v, s1) ->
  isValid v = false ->
  exists s',
    importHarvestResults downloadAndSave text ds cfg s
    = (Returned (rejection (map vmessage (JsonImportValidator.errors v))), s')
    /\ sent (fst s') = sent (fst s)
    /\ JsonImportValidator.errors v <> [].
Proof.
  intros Hrun Hv. destruct s as [w t]. cbn [snd] in Hrun.
  assert (Herr : JsonImportValidator.errors v <> []).
  { destruct (validateImportJson_report text tt t) as (r & t' & Hr & Hiff & _).
    rewrite Hrun in Hr. injection Hr as -> _. intros Hnil.
    apply Hiff in Hnil. congruence. }
  unfold importHarvestResults, withLocals, tryCatch. cbn [fst snd].
  unfold bind at 1.
  match goal with |- context [notifyProgress ?p ((w, initialResult), t)] =>
    destruct (notifyProgress_run p w initialResult t) as (obs & ->)
  end.
  unfold bind at 1.
  destruct (validateImportJson_anywhere text tt
              ({| sent := sent w; progressCallback := progressCallback w;
                  observed := obs |}, initialResult) t v s1 Hrun)
    as (t' & _ & ->).
  rewrite Hv. cbn [negb].
  unfold bind, modifyLocals, modifyL, getLocals, getL, ret, notifyProgress.
  cbn [fst snd sent progressCallback observed].
  destruct (progressCallback w); eexists; (split; [reflexivity|]);
    (split; [reflexivity | exact Herr]).
Qed.

(** A file that the validation accepts and that has no document is
    rejected by the second gate. *)
Lemma importHarvestResults_no_document text ds cfg
    (s : World ImportProgress * nat) v (s1 : unit * nat) :
  validateImportJson text (tt, snd s) = (Returned v, s1) ->
  isValid v = true ->
  documentsOf text = Some [] ->
  exists s',
    importHarvestResults downloadAndSave text ds cfg s
    = (Returned (rejection ["Aucun document valide trouvé dans le fichier JSON"]),
       s')
    /\ sent (fst s') = sent (fst s).
Proof.
  intros Hrun Hv Hdocs. destruct s as [w t]. cbn [snd] in Hrun.
  unfold importHarvestResults, withLocals, tryCatch. cbn [fst snd].
  unfold bind at 1.
  match goal with |- context [notifyProgress ?p ((w, initialResult), t)] =>
    destruct (notifyProgress_run p w initialResult t) as (obs & ->)
  end.
  unfold bind at 1.
  destruct (validateImportJson_anywhere text tt
              ({| sent := sent w; progressCallback := progressCallback w;
                  observed := obs |}, initialResult) t v s1 Hrun)
    as (t' & -> & ->).
  rewrite Hv. cbn [negb].
  destruct (valid_report_extraction text (tt, t) (tt, t')
              (({| sent := sent w; progressCallback := progressCallback w;
                   observed := obs |}, initialResult), t') v Hrun Hv)
    as (docs & ex & t2 & Hdocs' & Hext & Hclean & _).
  rewrite Hdocs in Hdocs'. injection Hdocs' as <-.
  apply Forall2_length in Hclean. cbn [length] in Hclean.
  unfold bind at 1. rewrite Hext. rewrite <- Hclean.
  cbn. eexists. split; reflexivity.
Qed.
End FileGates.

Section Downloads.
Import JsonImportValidator HarvestImportService HarvestImportPhases.
Context `{RT : Runtime} `{DB : Supabase} `{BR : Browser}.
Implicit Types (l : ImportResult) (s : (World ImportProgress * ImportResult) * nat).

Lemma extractFilenameFromUrl_string i u fallbackName :
  isString (Some fallbackName) = true ->
  isString (Some (extractFilenameFromUrl i u fallbackName)) = true.
Proof.
  intros H. unfold extractFilenameFromUrl.
  destruct (URL_parses u); [destruct (_ && _); [reflexivity|]|];
    destruct (truthy (Some fallbackName)); assumption || reflexivity.
Qed.

Lemma renders_string v : isString (Some v) = true -> renders v = true.
Proof. destruct v; try discriminate. reflexivity. Qed.

(** The HEAD request, for a name that is a string: the download counts
    as a success exactly when the request is answered [ok]. *)
Lemma testDownload_run localPath name i u snt l s :
  reached snt l s ->
  triple (testDownload localPath (VStr name) i u) s
    (fun dr s' =>
       dl_success dr = answersOk i (Some (VStr u))
       /\ dl_filename dr = VStr name
       /\ dl_localPath dr
          = (if answersOk i (Some (VStr u))
             then Some (localPath +:+ "/" +:+ name) else None)
       /\ reached snt l s')
    (fun _ _ => False).
Proof.
  intros H. unfold testDownload, answersOk.
  apply triple_tryCatch, triple_bind, triple_liftOutcome.
  destruct (fetchHead i u) as [answer|e].
  - destruct (ok answer).
    + apply triple_bind, triple_liftOutcome. cbn [toString].
      apply triple_ret. auto.
    + apply triple_ret. auto.
  - apply triple_ret. auto.
Qed.

(** The name under which a document is saved is a string that is not
    empty. *)
Lemma chosen_name d i u :
  isString (Some (document_name d)) = true ->
  isString (Some (filename d)) = true ->
  exists name,
    jsor (Some (filename d))
      (jsor (Some (extractFilenameFromUrl i u (document_name d)))
         (VStr ("document_" +:+ showNat (i + 1) +:+ ".pdf")))
    = VStr name
    /\ name <> EmptyString.
Proof.
  intros Hname Hfile.
  assert (Htruthy : forall v, isString (Some v) = true -> truthy (Some v) = true ->
                      exists name, v = VStr name /\ name <> EmptyString).
  { intros v Hs Ht. destruct v; try discriminate Hs.
    eexists. split; [reflexivity|]. intros ->. discriminate Ht. }
  unfold jsor at 1. destruct (truthy (Some (filename d))) eqn:Hf;
    [apply Htruthy; assumption|].
  unfold jsor.
  destruct (truthy (Some (extractFilenameFromUrl i u (document_name d)))) eqn:He.
  - apply Htruthy; [apply extractFilenameFromUrl_string, Hname | exact He].
  - eexists. split; [reflexivity|]. discriminate.
Qed.

(** One document of the loop: no request to the database, one more
    processed document, and one of the two counters moves. *)
Lemma downloadDocument_step localPath total d i acc snt l s :
  ready d ->
  reached snt l s ->
  triple (downloadDocument localPath total d i acc) s
    (fun acc' s' =>
       reached snt l s'
       /\ (exists p,
             processedDocuments acc' = processedDocuments acc ++ [p]
             /\ savedAs localPath i (url_doc d) p)
       /\ successCount acc'
          = (successCount acc + if answersOk i (url_doc d) then 1 else 0)%nat
       /\ errorCount acc'
          = (errorCount acc + if answersOk i (url_doc d) then 0 else 1)%nat)
    (fun _ _ => False).
Proof.
  intros ((u & Hu & Hne & Hurl) & Hname & Hfile & Hobst) H.
  unfold downloadDocument.
  apply triple_bind.
  eapply triple_weaken with (E := fun _ _ => False);
    [apply (reached_interpolate _ snt l s) | | intros ? ? []].
  { apply renders_jsor; [apply renders_string, Hname|].
    apply renders_jsor; [apply renders_string, Hfile | reflexivity]. }
  { exact H. }
  clear s H. intros shown s H. cbn beta.
  apply triple_bind.
  eapply triple_weaken; [apply (reached_notifyProgress _ _ _ _ H) | | intros ? ? []].
  clear s H. intros _a s H. cbn beta.
  rewrite Hu, Hurl. apply String.eqb_neq in Hne. rewrite Hne. cbn [negb]. cbv zeta.
  destruct (chosen_name d i u Hname Hfile) as (name & -> & Hnonempty).
  apply triple_bind.
  eapply triple_weaken;
    [apply (testDownload_run localPath name i u snt l s H) | | intros ? ? []].
  clear s H. intros dr s (Hdr & Hfn & Hlp & H). cbn beta.
  apply triple_bind.
  eapply triple_weaken with
    (Q := fun _ s' => reached snt l s') (E := fun _ _ => False);
    [ | | intros ? ? []].
  { destruct (dl_success dr); [apply triple_ret; exact H|].
    apply triple_bind.
    eapply triple_weaken with (E := fun _ _ => False);
      [apply (reached_interpolate _ snt l s) | | intros ? ? []].
    - apply renders_jsor; [exact Hobst | reflexivity].
    - exact H.
    - intros noted s' H'. apply triple_ret. exact H'. }
  clear s H. intros remarks s H. apply triple_ret.
  cbn [processedDocuments successCount errorCount].
  rewrite Hdr, Hfn, Hlp.
  split; [exact H|]. split.
  - eexists. split; [reflexivity|].
    unfold savedAs, processedDocument, cleanDocumentProps. rewrite Hu.
    split; [reflexivity|]. split; [reflexivity|].
    exists name. split; [reflexivity|]. split; [exact Hnonempty|].
    destruct (answersOk i (Some (VStr u))); reflexivity.
  - destruct (answersOk i (Some (VStr u))); split; lia.
Qed.

Lemma reachableFrom_le urls : forall i, (reachableFrom i urls <= length urls)%nat.
Proof.
  induction urls as [|url urls IH]; intros i; cbn [reachableFrom length]; [lia|].
  specialize (IH (S i)). destruct (answersOk i url); lia.
Qed.

Lemma downloadDocumentsFrom_run localPath total docs :
  Forall ready docs ->
  forall i acc snt l s,
    reached snt l s ->
    triple (downloadDocumentsFrom localPath total i docs acc) s
      (fun acc' s' =>
         reached snt l s'
         /\ (exists ps,
               processedDocuments acc' = processedDocuments acc ++ ps
               /\ savedFrom localPath i (map url_doc docs) ps)
         /\ successCount acc'
            = (successCount acc + reachableFrom i (map url_doc docs))%nat
         /\ (errorCount acc' + reachableFrom i (map url_doc docs)
             = errorCount acc + length docs)%nat)
      (fun _ _ => False).
Proof.
  induction 1 as [|d docs Hd _ IH]; intros i acc snt l s H;
    cbn [downloadDocumentsFrom map reachableFrom length].
  - apply triple_ret. split; [exact H|].
    split; [exists []; rewrite app_nil_r; split; [reflexivity | exact I]|]. lia.
  - apply triple_bind.
    eapply triple_weaken;
      [apply (downloadDocument_step localPath total d i acc snt l s Hd H)
      | | intros ? ? []].
    intros acc1 s1 (H1 & (p & Hp1 & Hsaved1) & Hs1 & He1). cbn beta.
    eapply triple_weaken; [apply (IH (S i) acc1 snt l s1 H1) | | intros ? ? []].
    intros acc2 s2 (H2 & (ps & Hp2 & Hsaved2) & Hs2 & He2).
    split; [exact H2|]. split.
    + exists (p :: ps). rewrite Hp2, Hp1, <- app_assoc.
      split; [reflexivity|]. split; assumption.
    + destruct (answersOk i (url_doc d)); lia.
Qed.

Lemma savedFrom_length localPath urls : forall i ps,
  savedFrom localPath i urls ps -> length ps = length urls.
Proof.
  induction urls as [|url urls IH]; intros i [|p ps]; cbn; try tauto.
  intros [_ H]. f_equal. exact (IH _ _ H).
Qed.

Lemma saveLog_step ds log n snt l s :
  reached snt l s ->
  triple (saveLog ds log n) s
    (fun n' s' =>
       exists r,
         isLogInsert ds r
         /\ n' = (n + if storesLog (respond snt r) then 1 else 0)%nat
         /\ reached (snt ++ [r]) l s')
    (fun _ _ => False).
Proof.
  intros H. unfold saveLog.
  apply triple_tryCatch, triple_bind, triple_newDate.
  apply reached_newDate in H.
  apply triple_bind.
  match goal with |- triple (HarvestLogService.createLog ?row) _ _ _ =>
    assert (Hrow : isLogInsert ds (Insert "harvest_logs" row))
      by (eexists; split; reflexivity);
    generalize dependent row
  end.
  intros row Hrow.
  eapply triple_weaken; [apply (reached_createLog row _ _ _ H) | | ].
  - intros _a s1 (Hack & H1). apply triple_ret.
    exists (Insert "harvest_logs" row). rewrite Hack.
    split; [exact Hrow|]. split; [lia | exact H1].
  - intros e s1 (Hack & H1). apply triple_ret.
    exists (Insert "harvest_logs" row). rewrite Hack.
    split; [exact Hrow|]. split; [lia | exact H1].
Qed.

Lemma saveLogs_run ds logs : forall n snt l s,
  reached snt l s ->
  triple (saveLogs ds logs n) s
    (fun n' s' =>
       exists reqs,
         Forall (isLogInsert ds) reqs
         /\ length reqs = length logs
         /\ n' = (n + acknowledged storesLog snt reqs)%nat
         /\ reached (snt ++ reqs) l s')
    (fun _ _ => False).
Proof.
  induction logs as [|log logs IH]; intros n snt l s H; cbn [saveLogs].
  - apply triple_ret. exists []. rewrite app_nil_r. cbn.
    split; [constructor|]. split; [reflexivity|]. split; [lia | exact H].
  - apply triple_bind.
    eapply triple_weaken; [apply (saveLog_step ds log n _ _ _ H) | | intros ? ? []].
    intros n1 s1 (r & Hr & -> & H1). cbn beta.
    eapply triple_weaken; [apply (IH _ _ _ _ H1) | | intros ? ? []].
    intros n2 s2 (reqs & Hreqs & Hlen & -> & H2).
    exists (r :: reqs). cbn [acknowledged length].
    split; [constructor; assumption|]. split; [lia|].
    rewrite <- app_assoc in H2. split; [lia | exact H2].
Qed.

Lemma updateSite_sends ds extracted snt l s :
  reached snt l s ->
  triple (HarvestImportPhases.updateSite ds extracted) s
    (fun _ s' => exists reqs, updatesSite ds reqs /\ reached (snt ++ reqs) l s')
    (fun _ _ => False).
Proof.
  intros H. unfold HarvestImportPhases.updateSite. cbv zeta.
  set (updateData := _ ++ _).
  apply triple_tryCatch.
  destruct (0 <? length updateData)%nat.
  - apply triple_bind.
    eapply triple_weaken;
      [apply (reached_updateDataSource (ds_id ds) (VObj updateData) _ _ _ H) | | ].
    + intros _a s1 (_ & H1). apply triple_ret.
      exists [Update "data_sources" (ds_id ds) (VObj updateData)].
      split; [right; eauto | exact H1].
    + intros e s1 (_ & H1). apply triple_ret.
      exists [Update "data_sources" (ds_id ds) (VObj updateData)].
      split; [right; eauto | exact H1].
  - apply triple_ret. exists []. rewrite app_nil_r.
    split; [left; reflexivity | exact H].
Qed.

Lemma finalLog_sends ds extracted localPath d snt l s :
  reached snt l s ->
  triple (HarvestImportPhases.finalLog ds extracted localPath d) s
    (fun _ s' => exists r, insertsFinalLog ds r /\ reached (snt ++ [r]) l s')
    (fun _ _ => False).
Proof.
  intros H. unfold HarvestImportPhases.finalLog.
  apply triple_tryCatch, triple_bind.
  match goal with |- triple (HarvestLogService.createLog ?row) _ _ _ =>
    assert (Hrow : insertsFinalLog ds (Insert "harvest_logs" row))
      by (eexists; split; [reflexivity|]; split; reflexivity);
    generalize dependent row
  end.
  intros row Hrow.
  eapply triple_weaken; [apply (reached_createLog row _ _ _ H) | | ].
  - intros _a s2 (_ & H2). apply triple_ret. eauto.
  - intros e s2 (_ & H2). apply triple_ret. eauto.
Qed.

(** The phases after the gates. The batch is saved by one request; when
    the database stores it, the logs, the update of the source and the
    closing log follow and the result is a success; when it does not,
    the phases stop there by throwing, the counts of the downloads
    being already in the result. *)
Lemma downloadAndSave_run ds cfg extracted validation snt l s :
  Forall ready (documents extracted) ->
  reached snt l s ->
  triple (downloadAndSave ds cfg extracted validation) s
    (fun r s' =>
       exists save logReqs siteReqs final,
         savesBatch ds (length (documents extracted))
           (reachableFrom 0 (map url_doc (documents extracted))) save
         /\ keepsDocuments
              ("/Rep_misania/" +:+ replaceNonAlphaNumeric (ds_name ds))
              (map url_doc (documents extracted)) save
         /\ storesResult (respond snt save) = true
         /\ sent (fst (fst s')) = snt ++ save :: logReqs ++ siteReqs ++ [final]
         /\ Forall (isLogInsert ds) logReqs
         /\ length logReqs = length (logs extracted)
         /\ updatesSite ds siteReqs
         /\ insertsFinalLog ds final
         /\ r = {| success := true;
                   documentsImported :=
                     reachableFrom 0 (map url_doc (documents extracted));
                   documentsWithErrors :=
                     length (documents extracted)
                     - reachableFrom 0 (map url_doc (documents extracted));
                   logsImported := acknowledged storesLog (snt ++ [save]) logReqs;
                   localPath :=
                     "/Rep_misania/" +:+ replaceNonAlphaNumeric (ds_name ds);
                   errors := errors l |})
    (fun _ s' =>
       exists save,
         savesBatch ds (length (documents extracted))
           (reachableFrom 0 (map url_doc (documents extracted))) save
         /\ keepsDocuments
              ("/Rep_misania/" +:+ replaceNonAlphaNumeric (ds_name ds))
              (map url_doc (documents extracted)) save
         /\ storesResult (respond snt save) = false
         /\ reached (snt ++ [save])
              {| success := success l;
                 documentsImported :=
                   reachableFrom 0 (map url_doc (documents extracted));
                 documentsWithErrors :=
                   length (documents extracted)
                   - reachableFrom 0 (map url_doc (documents extracted));
                 logsImported := logsImported l;
                 localPath :=
                   "/Rep_misania/" +:+ replaceNonAlphaNumeric (ds_name ds);
                 errors := errors l |} s').
Proof.
  intros Hready H. unfold downloadAndSave. cbv zeta.
  pose proof (reachableFrom_le (map url_doc (documents extracted)) 0) as Hle.
  rewrite length_map in Hle.
  apply triple_bind.
  eapply triple_weaken; [apply (reached_notifyProgress _ _ _ _ H) | | intros ? ? []].
  clear s H. intros _a s H. cbn beta.
  apply triple_bind.
  eapply triple_weaken; [apply (reached_modifyLocals _ _ _ _ H) | | intros ? ? []].
  clear s H. intros _b s H. cbn beta.
  apply triple_bind.
  eapply triple_weaken; [apply (reached_notifyProgress _ _ _ _ H) | | intros ? ? []].
  clear s H. intros _c s H. cbn beta.
  apply triple_bind.
  eapply triple_weaken;
    [apply (downloadDocumentsFrom_run _ _ _ Hready 0%nat _ _ _ _ H)
    | | intros ? ? []].
  clear s H. intros d s (H & (ps & Hps & Hsaved) & Hs & He).
  cbn [processedDocuments successCount errorCount app] in Hps, Hs, He. cbn beta.
  pose proof (savedFrom_length _ _ _ _ Hsaved) as Hp. rewrite length_map in Hp.
  rewrite <- Hps in Hp, Hsaved.
  apply triple_bind.
  eapply triple_weaken; [apply (reached_modifyLocals _ _ _ _ H) | | intros ? ? []].
  clear s H. intros _d s H. cbn beta.
  assert (Hl : withDownloads d
                 (withLocalPath
                    ("/Rep_misania/" +:+ replaceNonAlphaNumeric (ds_name ds)) l)
               = {| success := success l;
                    documentsImported :=
                      reachableFrom 0 (map url_doc (documents extracted));
                    documentsWithErrors :=
                      length (documents extracted)
                      - reachableFrom 0 (map url_doc (documents extracted));
                    logsImported := logsImported l;
                    localPath :=
                      "/Rep_misania/" +:+ replaceNonAlphaNumeric (ds_name ds);
                    errors := errors l |}).
  { unfold withDownloads, withLocalPath. cbn. f_equal; lia. }
  rewrite Hl in H. clear Hl.
  apply triple_bind.
  eapply triple_weaken; [apply (reached_notifyProgress _ _ _ _ H) | | intros ? ? []].
  clear s H. intros _e s H. cbn beta.
  apply triple_bind, triple_newDate. apply reached_newDate in H.
  apply triple_bind.
  match goal with |- triple (HarvestResultService.createResult ?row) _ _ _ =>
    assert (Hrow : savesBatch ds (length (documents extracted))
                     (reachableFrom 0 (map url_doc (documents extracted)))
                     (Insert "harvest_results" row))
  end.
  { do 4 eexists. split; [reflexivity|].
    cbn [get assoc String.eqb Ascii.eqb Bool.eqb].
    split; [reflexivity|]. split; [reflexivity|]. split; [reflexivity|].
    split; [reflexivity|]. split; [exact Hp|]. split; [reflexivity|].
    split; [reflexivity|].
    split; [rewrite Hs; reflexivity|].
    replace (errorCount d)
      with (length (documents extracted)
            - reachableFrom 0 (map url_doc (documents extracted)))%nat by lia.
    reflexivity. }
  match goal with |- triple (HarvestResultService.createResult ?row) _ _ _ =>
    assert (Hkeep : keepsDocuments
                      ("/Rep_misania/" +:+ replaceNonAlphaNumeric (ds_name ds))
                      (map url_doc (documents extracted))
                      (Insert "harvest_results" row))
      by (do 3 eexists; split; [reflexivity|]; split; [reflexivity|];
          split; [reflexivity | exact Hsaved]);
    generalize dependent row
  end.
  intros row Hrow Hkeep.
  eapply triple_weaken; [apply (reached_createResult row _ _ _ H) | | ].
  2:{ intros e s' (Hack & H'). exists (Insert "harvest_results" row). auto. }
  clear s H. intros _f s (Hack & H). cbn beta.
  apply triple_bind.
  eapply triple_weaken; [apply (saveLogs_run ds _ 0%nat _ _ _ H) | | intros ? ? []].
  clear s H. intros n s (logReqs & HL & HlenL & -> & H). cbn beta.
  apply triple_bind.
  eapply triple_weaken; [apply (reached_modifyLocals _ _ _ _ H) | | intros ? ? []].
  clear s H. intros _g s H. cbn beta.
  apply triple_bind.
  eapply triple_weaken; [apply (updateSite_sends ds extracted _ _ _ H) | | intros ? ? []].
  clear s H. intros _h s (siteReqs & HS & H). cbn beta.
  apply triple_bind.
  eapply triple_weaken;
    [apply (finalLog_sends ds extracted _ d _ _ _ H) | | intros ? ? []].
  clear s H. intros _i s (final & HF & H). cbn beta.
  apply triple_bind.
  eapply triple_weaken; [apply (reached_getLocals _ _ _ H) | | intros ? ? []].
  intros l1 s1 (-> & H1). cbn beta. clear s H.
  apply triple_bind.
  eapply triple_weaken; [apply (reached_notifyProgress _ _ _ _ H1) | | intros ? ? []].
  clear s1 H1. intros _j s H. cbn beta.
  apply triple_bind.
  eapply triple_weaken; [apply (reached_modifyLocals _ _ _ _ H) | | intros ? ? []].
  clear s H. intros _k s H. cbn beta.
  eapply triple_weaken; [apply (reached_getLocals _ _ _ H) | | intros ? ? []].
  intros r s' (-> & [Hsent _]).
  exists (Insert "harvest_results" row), logReqs, siteReqs, final.
  split; [exact Hrow|]. split; [exact Hkeep|]. split; [exact Hack|].
  split; [rewrite Hsent, <- !app_assoc; reflexivity|].
  split; [exact HL|]. split; [exact HlenL|]. split; [exact HS|].
  split; [exact HF|]. reflexivity.
Qed.

Lemma cleanedFrom_fields doc d :
  cleanedFrom doc d ->
  url_doc d = get doc "url_doc"
  /\ document_name d = jsor (get doc "document_name") (VStr EmptyString)
  /\ filename d = jsor (get doc "filename") (VStr EmptyString)
  /\ obstacles d = jsor (get doc "obstacles") (VStr EmptyString).
Proof.
  intros (t & Ht). revert Ht. unfold cleanDocument, jsorM, bind, ret, newDate.
  destruct (get doc "annee") as [y|]; [destruct (truthy (Some y))|];
    cbn [fst]; intros [= <-]; repeat split; reflexivity.
Qed.

(** What the validation accepts and the extraction cleans is ready for
    the download loop. *)
Lemma cleaned_ready doc d :
  cleanedFrom doc d -> acceptedEntry doc = true -> showable doc = true ->
  ready d.
Proof.
  intros Hd Ha Hs.
  destruct (cleanedFrom_fields doc d Hd) as (Hu & Hn & Hf & Ho).
  unfold showable in Hs. apply andb_true_iff in Hs as [Hs Hobst].
  apply andb_true_iff in Hs as [Hname Hfile].
  unfold acceptedEntry in Ha. apply andb_true_iff in Ha as [_ Ha].
  split; [|split; [|split]].
  - rewrite Hu. destruct (get doc "url_doc") as [[| | |u| |]|]; try discriminate Ha.
    apply andb_true_iff in Ha as [Hb Hurl]. exists u.
    split; [reflexivity|]. split; [|exact Hurl].
    intros ->. discriminate Hb.
  - rewrite Hn. apply jsor_string, Hname.
  - rewrite Hf. apply jsor_string, Hfile.
  - rewrite Ho. exact Hobst.
Qed.

(** A file that the validation accepts, with at least one document. *)
Lemma importHarvestResults_valid text ds cfg
    (s : World ImportProgress * nat) v (s1 : unit * nat) docs :
  validateImportJson text (tt, snd s) = (Returned v, s1) ->
  isValid v = true ->
  documentsOf text = Some docs ->
  docs <> [] ->
  Forall (fun doc => showable doc = true) docs ->
  exists r (s' : World ImportProgress * nat) save rest,
    HarvestImportPhases.importHarvestResults text ds cfg s = (Returned r, s')
    /\ sent (fst s') = sent (fst s) ++ save :: rest
    /\ savesBatch ds (length docs)
         (reachableFrom 0 (map (fun doc => get doc "url_doc") docs)) save
    /\ keepsDocuments ("/Rep_misania/" +:+ replaceNonAlphaNumeric (ds_name ds))
         (map (fun doc => get doc "url_doc") docs) save
    /\ documentsImported r
       = reachableFrom 0 (map (fun doc => get doc "url_doc") docs)
    /\ documentsWithErrors r
       = (length docs
          - reachableFrom 0 (map (fun doc => get doc "url_doc") docs))%nat
    /\ localPath r = "/Rep_misania/" +:+ replaceNonAlphaNumeric (ds_name ds)
    /\ success r = storesResult (respond (sent (fst s)) save)
    /\ if storesResult (respond (sent (fst s)) save)
       then errors r = []
            /\ exists logReqs siteReqs final,
                 rest = logReqs ++ siteReqs ++ [final]
                 /\ Forall (isLogInsert ds) logReqs
                 /\ length logReqs = totalLogs (summary v)
                 /\ updatesSite ds siteReqs
                 /\ insertsFinalLog ds final
                 /\ logsImported r
                    = acknowledged storesLog (sent (fst s) ++ [save]) logReqs
       else rest = [] /\ length (errors r) = 1%nat /\ logsImported r = 0%nat.
Proof.
  intros Hrun Hvalid Hdocs Hne Hshow. destruct s as [w t]. cbn [fst snd] in *.
  match goal with |- context [HarvestImportPhases.importHarvestResults] =>
    unfold HarvestImportPhases.importHarvestResults,
      HarvestImportService.importHarvestResults, withLocals
  end.
  cbn [fst snd].
  match goal with |- context [tryCatch (bind (notifyProgress ?p) ?k) ?h] =>
    destruct (notifyProgress_run p w initialResult t) as (obs & Hn);
    set (body := bind (notifyProgress p) k); set (handler := h)
  end.
  set (w1 := {| sent := sent w; progressCallback := progressCallback w;
                observed := obs |}) in *.
  destruct (validateImportJson_anywhere text tt (w1, initialResult) t v s1 Hrun)
    as (t1 & -> & Hval).
  destruct (valid_report_extraction text (tt, t) (tt, t1)
              ((w1, initialResult), t1) v Hrun Hvalid)
    as (docs' & ex & t2 & Hdocs' & Hext & Hclean & Hurls & _ & Hlogs).
  rewrite Hdocs in Hdocs'. injection Hdocs' as <-.
  destruct (valid_report_vouches text (tt, t) (tt, t1) v Hrun Hvalid)
    as (docs'' & n & (data & Hparse & Ht & _ & Harr & Hall & _) & _).
  assert (docs'' = docs) as ->.
  { unfold documentsOf in Hdocs. rewrite Hparse in Hdocs.
    destruct data; try discriminate Ht; congruence. }
  assert (Hready : Forall ready (documents ex)).
  { clear - Hclean Hall Hshow.
    induction Hclean as [|doc d docs ds Hd _ IH]; [constructor|].
    apply Forall_cons_iff in Hall as [Ha Hall].
    apply Forall_cons_iff in Hshow as [Hs Hshow].
    constructor; [eapply cleaned_ready; eassumption | apply IH; assumption]. }
  assert (Hlen : length (documents ex) = length docs)
    by (symmetry; eapply Forall2_length, Hclean).
  assert (Hsome : (length (documents ex) =? 0)%nat = false).
  { apply Nat.eqb_neq. rewrite Hlen. destruct docs; [contradiction | discriminate]. }
  assert (T : triple (tryCatch body handler) ((w, initialResult), t)
                (fun r s' =>
                   exists save rest,
                     sent (fst (fst s')) = sent w ++ save :: rest
                     /\ savesBatch ds (length docs)
                          (reachableFrom 0 (map (fun doc => get doc "url_doc") docs))
                          save
                     /\ keepsDocuments
                          ("/Rep_misania/" +:+ replaceNonAlphaNumeric (ds_name ds))
                          (map (fun doc => get doc "url_doc") docs) save
                     /\ documentsImported r
                        = reachableFrom 0 (map (fun doc => get doc "url_doc") docs)
                     /\ documentsWithErrors r
                        = (length docs
                           - reachableFrom 0
                               (map (fun doc => get doc "url_doc") docs))%nat
                     /\ localPath r
                        = "/Rep_misania/" +:+ replaceNonAlphaNumeric (ds_name ds)
                     /\ success r = storesResult (respond (sent w) save)
                     /\ if storesResult (respond (sent w) save)
                        then errors r = []
                             /\ exists logReqs siteReqs final,
                                  rest = logReqs ++ siteReqs ++ [final]
                                  /\ Forall (isLogInsert ds) logReqs
                                  /\ length logReqs = totalLogs (summary v)
                                  /\ updatesSite ds siteReqs
                                  /\ insertsFinalLog ds final
                                  /\ logsImported r
                                     = acknowledged storesLog (sent w ++ [save])
                                         logReqs
                        else rest = [] /\ length (errors r) = 1%nat
                             /\ logsImported r = 0%nat)
                (fun _ _ => False)).
  { apply triple_tryCatch. subst body.
    apply triple_bind. eapply triple_returned; [exact Hn|].
    apply triple_bind. eapply triple_returned; [exact Hval|].
    rewrite Hvalid. cbn [negb].
    apply triple_bind. eapply triple_returned; [exact Hext|].
    cbn [fst]. rewrite Hsome.
    eapply triple_weaken;
      [apply (downloadAndSave_run ds cfg ex v (sent w) initialResult _ Hready);
       split; reflexivity
      | | ].
    - intros r s' (save & logReqs & siteReqs & final & Hsave & Hkeep & Hack & Hsent
                   & HL & HlenL & HS & HF & ->).
      rewrite Hurls, Hlen in *.
      exists save, (logReqs ++ siteReqs ++ [final]).
      split; [exact Hsent|]. split; [exact Hsave|]. split; [exact Hkeep|].
      cbn [documentsImported documentsWithErrors localPath success errors
           logsImported initialResult].
      rewrite Hack.
      split; [reflexivity|]. split; [reflexivity|]. split; [reflexivity|].
      split; [reflexivity|]. split; [reflexivity|].
      exists logReqs, siteReqs, final.
      split; [reflexivity|]. split; [exact HL|].
      split; [rewrite HlenL; exact Hlogs|]. auto.
    - intros e s' (save & Hsave & Hkeep & Hack & H'). subst handler. cbn beta zeta.
      rewrite Hurls, Hlen in *.
      apply triple_bind.
      eapply triple_weaken; [apply (reached_modifyLocals _ _ _ _ H') | | intros ? ? []].
      clear s' H'. intros _a s' H'. cbn beta.
      apply triple_bind.
      eapply triple_weaken; [apply (reached_notifyProgress _ _ _ _ H') | | intros ? ? []].
      clear s' H'. intros _b s' H'. cbn beta.
      eapply triple_weaken; [apply (reached_getLocals _ _ _ H') | | intros ? ? []].
      intros r s2 (-> & [Hsent _]).
      exists save, [].
      split; [exact Hsent|]. split; [exact Hsave|]. split; [exact Hkeep|].
      cbn [documentsImported documentsWithErrors localPath success errors
           logsImported initialResult withErrors app length].
      rewrite Hack. repeat split; reflexivity. }
  apply triple_returns in T. destruct T as (r & [[w2 l2] t3] & -> & HQ).
  destruct HQ as (save & rest & HQ).
  exists r, (w2, t3), save, rest. split; [reflexivity | exact HQ].
Qed.
End Downloads.

Section FileProperties.
Import JsonImportValidator HarvestImportService HarvestImportPhases.
Context `{RT : Runtime} `{DB : Supabase} `{BR : Browser}.

(** X13: the two gates of [importHarvestResults]. A file that the
    validation refuses is rejected with the messages of the errors of
    the validation as its [errors], of which there is at least one; a
    file that the validation accepts and whose [documents] array is
    empty is rejected with the one error of the second gate. In both
    cases [success] is false, nothing is counted, [localPath] is empty
    and no request goes to the database. *)
Theorem importHarvestResults_rejects_at_the_gates text ds cfg
    (s : World ImportProgress * nat) v (s1 : unit * nat) :
  validateImportJson text (tt, snd s) = (Returned v, s1) ->
  (isValid v = false ->
   exists s',
     HarvestImportPhases.importHarvestResults text ds cfg s
     = (Returned (rejection (map vmessage (JsonImportValidator.errors v))), s')
     /\ sent (fst s') = sent (fst s)
     /\ JsonImportValidator.errors v <> [])
  /\ (isValid v = true ->
      documentsOf text = Some [] ->
      exists s',
        HarvestImportPhases.importHarvestResults text ds cfg s
        = (Returned
             (rejection ["Aucun document valide trouvé dans le fichier JSON"]), s')
        /\ sent (fst s') = sent (fst s)).
Proof.
  intros Hrun. split.
  - intros Hv.
    exact (importHarvestResults_invalid downloadAndSave text ds cfg s v s1 Hrun Hv).
  - intros Hv Hdocs.
    exact (importHarvestResults_no_document downloadAndSave text ds cfg s v s1
             Hrun Hv Hdocs).
Qed.

(** X14: the import of a file that passes the gates. For a file that
    the validation accepts, with at least one document, whose names and
    obstacles can be written in a message, [importHarvestResults]
    returns, and the first request it sends saves the whole batch in one
    row of [harvest_results]: every document of the file, reached or
    not, with the counts of the HEAD requests that were answered [ok]
    and of the others. [documentsImported] is the first count,
    [documentsWithErrors] the second, and they add up to the number of
    documents. [success] is exactly whether the database stored that
    row, whatever the downloads gave. When it did, [errors] is empty and
    there follow one insertion in [harvest_logs] for each log of the
    file, at most one update of the source, and the closing log;
    [logsImported] counts the log insertions that were stored. When it
    did not, nothing else is sent and [errors] has the one message of
    the failure, the counts of the downloads staying in the result. *)
Theorem importHarvestResults_saves_valid_file text ds cfg
    (s : World ImportProgress * nat) v (s1 : unit * nat) docs :
  validateImportJson text (tt, snd s) = (Returned v, s1) ->
  isValid v = true ->
  documentsOf text = Some docs ->
  docs <> [] ->
  Forall (fun doc => showable doc = true) docs ->
  exists r (s' : World ImportProgress * nat) save rest,
    HarvestImportPhases.importHarvestResults text ds cfg s = (Returned r, s')
    /\ sent (fst s') = sent (fst s) ++ save :: rest
    /\ savesBatch ds (length docs)
         (reachableFrom 0 (map (fun doc => get doc "url_doc") docs)) save
    /\ documentsImported r
       = reachableFrom 0 (map (fun doc => get doc "url_doc") docs)
    /\ documentsWithErrors r
       = (length docs
          - reachableFrom 0 (map (fun doc => get doc "url_doc") docs))%nat
    /\ localPath r = "/Rep_misania/" +:+ replaceNonAlphaNumeric (ds_name ds)
    /\ success r = storesResult (respond (sent (fst s)) save)
    /\ if storesResult (respond (sent (fst s)) save)
       then errors r = []
            /\ exists logReqs siteReqs final,
                 rest = logReqs ++ siteReqs ++ [final]
                 /\ Forall (isLogInsert ds) logReqs
                 /\ length logReqs = totalLogs (summary v)
                 /\ updatesSite ds siteReqs
                 /\ insertsFinalLog ds final
                 /\ logsImported r
                    = acknowledged storesLog (sent (fst s) ++ [save]) logReqs
       else rest = [] /\ length (errors r) = 1%nat /\ logsImported r = 0%nat.
Proof.
  intros Hrun Hvalid Hdocs Hne Hshow.
  destruct (importHarvestResults_valid text ds cfg s v s1 docs
              Hrun Hvalid Hdocs Hne Hshow)
    as (r & s' & save & rest & Hr & Hsent & Hsave & _ & Hrest).
  exists r, s', save, rest. auto.
Qed.

(** X15: what is saved of each document. In the row that
    [importHarvestResults] saves for a file that passes the gates, the
    array [data.documents] holds one entry for each document of the
    file, in the order of the file, reached or not: the entry has the
    [url_doc] of the document, [download_success] telling whether its
    HEAD request was answered [ok], a [filename] that is a string and
    is not empty, and a [local_path] that is the directory of the
    source followed by that file name when the document was reached and
    is empty when it was not. *)
Theorem importHarvestResults_keeps_every_document text ds cfg
    (s : World ImportProgress * nat) v (s1 : unit * nat) docs :
  validateImportJson text (tt, snd s) = (Returned v, s1) ->
  isValid v = true ->
  documentsOf text = Some docs ->
  docs <> [] ->
  Forall (fun doc => showable doc = true) docs ->
  exists r (s' : World ImportProgress * nat) save rest,
    HarvestImportPhases.importHarvestResults text ds cfg s = (Returned r, s')
    /\ sent (fst s') = sent (fst s) ++ save :: rest
    /\ keepsDocuments ("/Rep_misania/" +:+ replaceNonAlphaNumeric (ds_name ds))
         (map (fun doc => get doc "url_doc") docs) save.
Proof.
  intros Hrun Hvalid Hdocs Hne Hshow.
  destruct (importHarvestResults_valid text ds cfg s v s1 docs
              Hrun Hvalid Hdocs Hne Hshow)
    as (r & s' & save & rest & Hr & Hsent & _ & Hkeep & _).
  exists r, s', save, rest. auto.
Qed.
End FileProperties.

Lemma importHarvestResults_rejects_at_the_gates_witness :
  (exists v s',
     JsonImportValidator.validateImportJson (RT := Reference.runtime)
       ReportExamples.flawedText (tt, 0%nat) = (Returned v, (tt, 0%nat))
     /\ HarvestImportPhases.importHarvestResults
          (RT := Reference.runtime) (DB := ReferenceDatabase.accepting)
          (BR := ReferenceBrowser.online)
          ReportExamples.flawedText ImportExamples.source None
          (BatchExamples.watching, 0%nat)
        = (Returned
             (rejection (map JsonImportValidator.vmessage
                           (JsonImportValidator.errors v))), s')
     /\ sent (fst s') = []
     /\ length (JsonImportValidator.errors v) = 3%nat)
  /\ (exists s',
        HarvestImportPhases.importHarvestResults
          (RT := Reference.runtime) (DB := ReferenceDatabase.accepting)
          (BR := ReferenceBrowser.online)
          BatchExamples.emptyBatchText ImportExamples.source None
          (BatchExamples.watching, 0%nat)
        = (Returned
             (rejection ["Aucun document valide trouvé dans le fichier JSON"]), s')
        /\ sent (fst s') = []).
Proof.
  split.
  - destruct (importHarvestResults_rejects_at_the_gates
                (RT := Reference.runtime) (DB := ReferenceDatabase.accepting)
                (BR := ReferenceBrowser.online)
                ReportExamples.flawedText ImportExamples.source None
                (BatchExamples.watching, 0%nat)
                (match fst (JsonImportValidator.validateImportJson
                              (RT := Reference.runtime)
                              ReportExamples.flawedText (tt, 0%nat)) with
                 | Returned v => v
                 | Thrown _ =>
                     {| JsonImportValidator.isValid := false;
                        JsonImportValidator.errors := [];
                        JsonImportValidator.warnings := [];
                        JsonImportValidator.summary :=
                          JsonImportValidator.l_summary
                            JsonImportValidator.noFindings |}
                 end)
                (tt, 0%nat) ltac:(vm_compute; reflexivity))
      as [Hgate _].
    destruct (Hgate ltac:(vm_compute; reflexivity)) as (s' & Hrun & Hsent & _).
    do 2 eexists. split; [vm_compute; reflexivity|].
    split; [exact Hrun|]. split; [exact Hsent|]. vm_compute. reflexivity.
  - destruct (importHarvestResults_rejects_at_the_gates
                (RT := Reference.runtime) (DB := ReferenceDatabase.accepting)
                (BR := ReferenceBrowser.online)
                BatchExamples.emptyBatchText ImportExamples.source None
                (BatchExamples.watching, 0%nat)
                (match fst (JsonImportValidator.validateImportJson
                              (RT := Reference.runtime)
                              BatchExamples.emptyBatchText (tt, 0%nat)) with
                 | Returned v => v
                 | Thrown _ =>
                     {| JsonImportValidator.isValid := false;
                        JsonImportValidator.errors := [];
                        JsonImportValidator.warnings := [];
                        JsonImportValidator.summary :=
                          JsonImportValidator.l_summary
                            JsonImportValidator.noFindings |}
                 end)
                (tt, 0%nat) ltac:(vm_compute; reflexivity))
      as [_ Hgate].
    exact (Hgate ltac:(vm_compute; reflexivity) ltac:(vm_compute; reflexivity)).
Defined.

Lemma importHarvestResults_saves_valid_file_witness :
  exists r s',
    HarvestImportPhases.importHarvestResults
      (RT := Reference.runtime) (DB := ReferenceDatabase.accepting)
      (BR := ReferenceBrowser.flaky)
      DownloadExamples.threeText ImportExamples.source None
      (BatchExamples.watching, 0%nat)
    = (Returned r, s')
    /\ HarvestImportService.success r = true
    /\ HarvestImportService.documentsImported r = 1%nat
    /\ HarvestImportService.documentsWithErrors r = 2%nat
    /\ HarvestImportService.errors r = []
    /\ (3 <= length (sent (fst s')) <= 4)%nat.
Proof.
  destruct (importHarvestResults_saves_valid_file
              (RT := Reference.runtime) (DB := ReferenceDatabase.accepting)
              (BR := ReferenceBrowser.flaky)
              DownloadExamples.threeText ImportExamples.source None
              (BatchExamples.watching, 0%nat)
              (match fst (JsonImportValidator.validateImportJson
                            (RT := Reference.runtime)
                            DownloadExamples.threeText (tt, 0%nat)) with
               | Returned v => v
               | Thrown _ =>
                   {| JsonImportValidator.isValid := false;
                      JsonImportValidator.errors := [];
                      JsonImportValidator.warnings := [];
                      JsonImportValidator.summary :=
                        JsonImportValidator.l_summary
                          JsonImportValidator.noFindings |}
               end)
              (snd (JsonImportValidator.validateImportJson
                      (RT := Reference.runtime)
                      DownloadExamples.threeText (tt, 0%nat)))
              (match documentsOf (RT := Reference.runtime)
                       DownloadExamples.threeText with
               | Some docs => docs
               | None => []
               end)
              ltac:(vm_compute; reflexivity) ltac:(vm_compute; reflexivity)
              ltac:(vm_compute; reflexivity) ltac:(vm_compute; discriminate)
              ltac:(vm_compute; repeat constructor))
    as (r & s' & save & rest & Hrun & Hsent & _ & Hdi & Hde & _ & Hs & Hrest).
  exists r, s'. split; [exact Hrun|].
  change (storesResult
            (respond (Supabase := ReferenceDatabase.accepting)
               (sent (fst (BatchExamples.watching, 0%nat))) save))
    with true in *.
  destruct Hrest as (He & logReqs & siteReqs & final & -> & _ & Hlen & HS & _).
  split; [exact Hs|].
  split; [rewrite Hdi; vm_compute; reflexivity|].
  split; [rewrite Hde; vm_compute; reflexivity|].
  split; [exact He|].
  rewrite Hsent. cbn [fst sent BatchExamples.watching app length].
  rewrite !length_app, Hlen. cbn [length].
  destruct HS as [-> | (changes & ->)]; cbn [length]; vm_compute; lia.
Defined.

Lemma importHarvestResults_keeps_every_document_witness :
  exists r s' save rest,
    HarvestImportPhases.importHarvestResults
      (RT := Reference.runtime) (DB := DownloadExamples.refusing)
      (BR := ReferenceBrowser.flaky)
      DownloadExamples.threeText ImportExamples.source None
      (BatchExamples.watching, 0%nat)
    = (Returned r, s')
    /\ sent (fst s') = save :: rest
    /\ keepsDocuments (BR := ReferenceBrowser.flaky) "/Rep_misania/Source"
         [Some (VStr "https://ex.com/files/a.pdf");
          Some (VStr "https://ex.com/b");
          Some (VStr "https://ex.com/c.pdf")] save.
Proof.
  destruct (importHarvestResults_keeps_every_document
              (RT := Reference.runtime) (DB := DownloadExamples.refusing)
              (BR := ReferenceBrowser.flaky)
              DownloadExamples.threeText ImportExamples.source None
              (BatchExamples.watching, 0%nat)
              (match fst (JsonImportValidator.validateImportJson
                            (RT := Reference.runtime)
                            DownloadExamples.threeText (tt, 0%nat)) with
               | Returned v => v
               | Thrown _ =>
                   {| JsonImportValidator.isValid := false;
                      JsonImportValidator.errors := [];
                      JsonImportValidator.warnings := [];
                      JsonImportValidator.summary :=
                        JsonImportValidator.l_summary
                          JsonImportValidator.noFindings |}
               end)
              (snd (JsonImportValidator.validateImportJson
                      (RT := Reference.runtime)
                      DownloadExamples.threeText (tt, 0%nat)))
              (match documentsOf (RT := Reference.runtime)
                       DownloadExamples.threeText with
               | Some docs => docs
               | None => []
               end)
              ltac:(vm_compute; reflexivity) ltac:(vm_compute; reflexivity)
              ltac:(vm_compute; reflexivity) ltac:(vm_compute; discriminate)
              ltac:(vm_compute; repeat constructor))
    as (r & s' & save & rest & Hrun & Hsent & Hkeep).
  exists r, s', save, rest. split; [exact Hrun|]. split; [exact Hsent|].
  exact Hkeep.
Defined.

(** * Whether a harvest was imported already *)

Section AlreadyImported.
Import HarvestDataImporter.
Context `{RT : Runtime} `{DB : Supabase}.

Lemma someM_referencesHarvest id rows :
  Forall (fun row => row <> VNull) rows ->
  forall s : (World ImportProgress * unit) * nat,
    someM (referencesHarvest id) rows s
    = (Returned (existsb (mentionsHarvest id) rows), s).
Proof.
  induction 1 as [|row rows Hrow _ IH]; intros s; cbn [someM existsb];
    [reflexivity|].
  unfold bind at 1, referencesHarvest at 1, bind at 1.
  rewrite (getM_returns row "metadata" s Hrow). unfold ret at 1.
  assert (Hm : match get row "metadata" with
               | None | Some VNull => false
               | Some m =>
                   match get m "original_harvest_id" with
                   | Some (VStr s0) => String.eqb s0 id
                   | _ => false
                   end
               end = mentionsHarvest id row).
  { unfold mentionsHarvest. destruct (get row "metadata") as [[]|]; reflexivity. }
  rewrite Hm. destruct (mentionsHarvest id row); [reflexivity | apply IH].
Qed.

(** X16: what [checkIfAlreadyImported] answers when the query succeeds.
    It sends one request, for the 100 most recent rows of
    [harvest_results]; when the database answers with rows none of which
    is [null] (no rows if the data are [null]), the answer is true
    exactly when one of those rows has this harvest as the
    [original_harvest_id] of its metadata, rows without metadata
    counting for nothing. Nothing is reported to the progress
    callback. *)
Theorem checkIfAlreadyImported_finds_reference id
    (s : World ImportProgress * nat) data rows :
  respond (sent (fst s)) (Select "harvest_results" 100) = Replied data None ->
  jsor data (VArr []) = VArr rows ->
  Forall (fun row => row <> VNull) rows ->
  exists w',
    checkIfAlreadyImported id s
    = (Returned (existsb (mentionsHarvest id) rows), (w', snd s))
    /\ sent w' = sent (fst s) ++ [Select "harvest_results" 100]
    /\ observed w' = observed (fst s).
Proof.
  intros Hreply Hdata Hrows. destruct s as [w t].
  unfold checkIfAlreadyImported, withLocals, tryCatch.
  unfold bind at 1, HarvestResultService.getAllResults, bind at 1, send,
    bind at 1, getWorld, bind at 1, getL, ret, bind, modifyL.
  cbn [fst snd] in *. rewrite Hreply, Hdata.
  rewrite (someM_referencesHarvest id rows Hrows).
  eexists. split; [reflexivity|]. split; reflexivity.
Qed.
End AlreadyImported.

Lemma checkIfAlreadyImported_finds_reference_witness :
  exists w',
    HarvestDataImporter.checkIfAlreadyImported
      (RT := Reference.runtime) (DB := IdempotencyExamples.holding)
      "harvest-1" (ImportExamples.listening, 0%nat)
    = (Returned true, (w', 0%nat))
    /\ sent w' = [Select "harvest_results" 100].
Proof.
  destruct (checkIfAlreadyImported_finds_reference
              (RT := Reference.runtime) (DB := IdempotencyExamples.holding)
              "harvest-1" (ImportExamples.listening, 0%nat)
              (Some (VArr IdempotencyExamples.rows)) IdempotencyExamples.rows
              eq_refl eq_refl
              ltac:(repeat constructor; discriminate))
    as (w' & Hrun & Hsent & _).
  exists w'. split; [exact Hrun | exact Hsent].
Defined.

(** * What the extraction returns *)

Section CleanExtraction.
Import JsonImportValidator.
Context `{RT : Runtime}.

Lemma triple_both {L A} (m : M L A) s (Q1 Q2 : A -> _) (E1 E2 : thrown -> _) :
  triple m s Q1 E1 -> triple m s Q2 E2 ->
  triple m s (fun a s' => Q1 a s' /\ Q2 a s') (fun e s' => E1 e s' /\ E2 e s').
Proof. unfold triple. destruct (m s) as [[a|e] s']; auto. Qed.

Lemma jsor_truthy v d : truthy (Some d) = true -> truthy (Some (jsor v d)) = true.
Proof.
  intros Hd. unfold jsor. destruct v as [x|]; [|exact Hd].
  destruct (truthy (Some x)) eqn:Hx; [exact Hx | exact Hd].
Qed.

Lemma mapM_cleanLog_shape {L} entries : forall (l : L) t,
  exists ds t',
    mapM cleanLog entries (l, t) = (Returned ds, (l, t'))
    /\ Forall (fun log => truthy (Some (level log)) = true
                          /\ truthy (Some (message log)) = true
                          /\ truthy (Some (details log)) = true) ds.
Proof.
  induction entries as [|log entries IH]; intros l t.
  - exists [], t. split; [reflexivity | constructor].
  - assert (Hd : exists d t1,
               cleanLog log (l, t) = (Returned d, (l, t1))
               /\ truthy (Some (level d)) = true
               /\ truthy (Some (message d)) = true
               /\ truthy (Some (details d)) = true).
    { unfold cleanLog, jsorM.
      destruct (get log "timestamp") as [v|]; [destruct (truthy (Some v))|];
        cbn [bind ret newDate fst snd]; unfold bind, ret, newDate;
        do 2 eexists; (split; [reflexivity|]); cbn [level message details];
        repeat split; apply jsor_truthy; reflexivity. }
    destruct Hd as (d & t1 & Hd & Hshape).
    destruct (IH l t1) as (ds & t2 & Hds & Hall).
    exists (d :: ds), t2. cbn [mapM]. unfold bind at 1. rewrite Hd.
    unfold bind at 1. rewrite Hds. split; [reflexivity|].
    constructor; assumption.
Qed.

Lemma cleanRecommandations_clean field rec :
  cleanRecommandations field = Some rec -> rec <> EmptyString /\ trim rec = rec.
Proof.
  unfold cleanRecommandations.
  destruct field as [[| | |s| |]|]; try discriminate.
  destruct (String.eqb (trim s) EmptyString) eqn:Hs; [discriminate|].
  intros [= <-]. split; [apply String.eqb_neq, Hs | apply trim_idempotent].
Qed.

(** The site fields and the logs of the result. *)
Lemma extractBody_site text s :
  triple (extractBody text) s
    (fun r _ =>
       Forall (fun o => o <> EmptyString /\ trim o = o) (obstacles_globaux r)
       /\ (forall rec, recommandations r = Some rec ->
                       rec <> EmptyString /\ trim rec = rec)
       /\ Forall (fun log => truthy (Some (level log)) = true
                             /\ truthy (Some (message log)) = true
                             /\ truthy (Some (details log)) = true)
            (logs r))
    (fun _ _ => True).
Proof.
  unfold extractBody.
  apply triple_bind, triple_liftOutcome.
  destruct (JSON_parse text) as [data|e]; [|exact I].
  apply triple_bind.
  eapply triple_weaken; [apply triple_any | | auto]. intros documentsField s1 _.
  apply triple_bind.
  eapply triple_weaken; [apply triple_any | | auto]. intros cleanDocuments s2 _.
  cbn beta. apply triple_bind.
  assert (Hlogs : triple
            match asArray (get data "logs") with
            | Some entries => mapM cleanLog (List.filter isLogObject entries)
            | None => ret []
            end s2
            (fun ds _ =>
               Forall (fun log => truthy (Some (level log)) = true
                                  /\ truthy (Some (message log)) = true
                                  /\ truthy (Some (details log)) = true) ds)
            (fun _ _ => True)).
  { destruct (asArray (get data "logs")) as [entries|].
    - destruct s2 as [l2 t2].
      destruct (mapM_cleanLog_shape (List.filter isLogObject entries) l2 t2)
        as (ds & t3 & Hds & Hall).
      eapply triple_returned; [exact Hds | exact Hall].
    - apply triple_ret. constructor. }
  eapply triple_weaken; [exact Hlogs | | auto].
  intros ds s3 Hall. apply triple_ret.
  cbn [obstacles_globaux recommandations logs].
  split; [|split; [|exact Hall]].
  - unfold cleanObstaclesGlobaux.
    destruct (asArray (get data "obstacles-globaux"));
      [apply obstacles_clean | constructor].
  - apply cleanRecommandations_clean.
Qed.

(** X17: whatever the text, the result of [extractValidData] is clean.
    Every document it returns has a [url_doc] that is a string and is
    not empty; every global obstacle is trimmed and not empty; the
    recommandations are absent or trimmed and not empty; and every log
    has a level, a message and details. This holds for the all-empty
    result of the [catch] block as for the others. *)
Theorem extractValidData_result_is_clean {L} text (s : L * nat) :
  exists r t',
    extractValidData text s = (Returned r, (fst s, t'))
    /\ cleanResult r.
Proof.
  destruct s as [l t].
  pose proof (triple_both _ _ _ _ _ _
                (extractBody_documents text (∅, t))
                (extractBody_site text (∅, t))) as Hbody.
  unfold triple in Hbody.
  unfold extractValidData, scope, tryCatch. cbn [fst snd].
  destruct (extractBody text (∅, t)) as [[r|e] [seen t']].
  - exists r, t'. split; [reflexivity|].
    destruct Hbody as ((kept & Hclean & Hmap & Hkept) & Hobst & Hrec & Hlogs).
    split; [|split; [exact Hobst | split; [exact Hrec | exact Hlogs]]].
    apply Forall_forall. intros d Hd.
    apply list_elem_of_In, (in_map url_doc) in Hd. rewrite Hmap in Hd.
    apply in_map_iff in Hd as (doc & Hu & Hin).
    apply list_elem_of_In in Hin.
    rewrite Forall_forall in Hkept. destruct (Hkept doc Hin) as [Hhas Hstr].
    unfold hasUrlDoc in Hhas. apply andb_true_iff in Hhas as [_ Htruthy].
    rewrite <- Hu.
    destruct (get doc "url_doc") as [[| | |u| |]|]; try discriminate Hstr.
    exists u. split; [reflexivity|]. intros ->. discriminate Htruthy.
  - exists emptyResult, t'. split; [reflexivity|].
    split; [constructor|]. split; [constructor|].
    split; [discriminate | constructor].
Qed.
End CleanExtraction.

(** * What the progress callback is told *)

Section Told.
Import JsonImportValidator HarvestImportService HarvestImportPhases.
Context `{RT : Runtime} `{DB : Supabase} `{BR : Browser}.



















End Told.

Section FileProgress.
Import JsonImportValidator HarvestImportService HarvestImportPhases.
Context `{RT : Runtime} `{DB : Supabase} `{BR : Browser}.



End FileProgress.

Section ProgressProperties.
Import JsonImportValidator HarvestImportService HarvestImportPhases.
Context `{RT : Runtime} `{DB : Supabase} `{BR : Browser}.

End ProgressProperties.

